(* ===== verification/_CoqProject ===== *)
-Q . S2P
Prelude.v
GoStrings.v
GoPath.v
GoURL.v
GoNet.v
Text.v
Base64.v
Json.v
JsonRaw.v
Pieces.v
Reservations.v
Filename.v
Options.v
Http.v
Torrent.v
Queue.v
State.v
Engine.v
Progress.v
Query.v
Session.v
EngineInv.v
EngineProps.v
EngineSpec.v
QuerySpec.v
SessionSpec.v
SessionQueue.v
Downloader.v
TorrentSource.v
Rpc.v
RpcSpec.v
RpcEngine.v
RpcTypes.v
DownloaderSpec.v
ControllerSpec.v
TorrentRun.v
TorrentRunSpec.v
Runner.v
AssemblySpec.v
RunnerSpec.v
CompletionSpec.v
Notifications.v
Server.v
ServerSpec.v
WebSocket.v
WebSocketSpec.v
Serve.v
Proxy.v
ProxySpec.v
TransportSpec.v
Client.v
ClientSpec.v
Cookies.v
CookiesSpec.v
CommandLine.v
CommandLineSpec.v
