(* ===== verification/Prelude.v ===== *)
(** * goaria: a verified model of the download engine

    goaria is an aria2-compatible download engine in Go.  An [Engine] keeps a map of
    downloads, a waiting queue, an active set and a list of stopped results; a
    scheduler goroutine starts waiting downloads up to a limit, one goroutine runs
    each download (HTTP with segments, or a torrent through a library), and the
    exported operations (add, pause, remove, change options, URIs or positions,
    query) act on the same state under the engine's mutex.  A JSON-RPC server
    exposes the operations, and a session file keeps the downloads across restarts.

    ** Parts of the development and the code they model

    - [Prelude]: errors as values, 64-bit integers, record updates, automation and
      list lemmas shared by the rest.
    - [GoStrings], [GoPath], [GoURL], [GoNet]: what the code uses of Go's [strings],
      [strconv], [path/filepath], [net/url] and [net], with their lemmas.
    - [Text], [Base64], [Json]: [strings.Fields], [Cut] and trimming lemmas, standard
      base64, and [encoding/json] for lists of strings, each with its round trip.
    - [Options] ([options.go]): option values, option maps layered over a base, the
      readers, the size syntax, validation and flattening for RPC.
    - [Pieces] ([download_util.go], [download_progress.go]): ranges of a download,
      piece counts and hexadecimal bitfields, for URI and torrent downloads.
    - [Reservations] ([download_util.go]): the two maps that say which download owns
      which output path, over an abstract file system ([FileSystem]).
    - [Filename] ([query.go], [download_util.go]): file names derived from URIs.
    - [Torrent] ([torrent_download.go]): validation of torrent metadata, selection,
      planned paths ([TorrentStorage] stands for the library's planner), progress
      of files and client options.
    - [Http] ([download_http.go], [download_util.go]): requests from options, the
      metadata of a response, validation of [Content-Range], which errors are retried.
    - [Queue], [State], [Engine] ([engine.go], [engine_scheduler.go], [types.go]):
      list operations of the queue and of the stopped list, the records [Download]
      and [Engine] with the source's fields, and one function per critical section
      of every exported operation, of the scheduler and of [finishDownload].
    - [EngineInv]: the engine and its run goroutines as a transition system ([step]):
      scheduler steps, API calls, progress and reservations of a run, ends of runs
      and shutdown in any order; the invariant [Inv] and its preservation.
    - [EngineProps], [EngineSpec]: executable histories, lemmas and the theorems on
      reachable states.
    - [Progress] ([download_progress.go], [torrent_download.go]): what a run publishes
      of its bytes, pieces and files.
    - [Session], [SessionSpec] ([session.go]): parsing, writing, saving and loading the
      session file; an engine that starts from a session is an initial state of
      [EngineInv].
    - [SessionQueue] ([session.go], [Engine.Close]): the timer of queued saves, direct
      saves and the last save, as critical sections that interleave.
    - [Downloader], [DownloaderSpec] ([downloader.go]): the decisions of a download, the
      concurrency controller, the rate limiter, the copy loop, one range request, and
      the loop that schedules ranges as a step function on explicit events (a worker
      flushes or answers, the ticker ticks, the context ends, options change).
    - [Runner] ([downloader.go], [download_util.go], [download_http.go]): a run from
      [runDownload] down to the bytes of its file, over an explicit disk: the retry loop,
      the probe, the single GET that is its own probe, resumption, the segmented file,
      checksum and remote time.  [AssemblySpec], [RunnerSpec] and [CompletionSpec] hold
      its theorems.
    - [TorrentSource], [ControllerSpec]: where a torrent comes from ([torrent_download.go]),
      and the limits of concurrency, rate, tries and size.
    - [TorrentRun], [TorrentRunSpec] ([torrent_download.go]): a run of a torrent, from the
      client's settings to the selected files, and the files that go to a handler; what
      the torrent library does is an input ([torrentWorld], [leaseEvent]).
    - [Query], [QuerySpec] ([query.go]): snapshots, listings with paging, statistics.
    - [JsonRaw], [Rpc], [RpcSpec] ([jsonrpc/rpc.go], [jsonrpc/rpc_methods.go],
      [jsonrpc/rpc_params.go]): payloads as bytes, raw JSON values, parameters, the
      secret, dispatch, batches and multicall.  The layer is a client of the class
      [RPCEngine]; [RpcEngine] gives the instance for the engine, and [RpcTypes] the types
      of the answers.
    - [Notifications] ([notifications.go]): subscribers as bounded channels.
    - [Server], [ServerSpec] ([jsonrpc/server.go]): the HTTP endpoint, with the payload of a
      GET, JSONP, limits and the check of origins; [WebSocket], [WebSocketSpec]: the
      sessions of WebSockets with their registry, readers, writers and closing, one event
      per critical section; [Serve]: [ListenAndServe] with graceful and forced shutdowns.
    - [Proxy], [ProxySpec], [TransportSpec] ([proxy.go]): the proxy configuration of a
      download, bypass rules, transports as their settings and the cache of transports;
      the [ProxyLib] class stands for the parsers of addresses and for the environment.
    - [Client], [ClientSpec] ([proxy.go]): [Engine.do] with its authenticated retry,
      redirects, and the bodies that time out or close idle connections.
    - [Cookies], [CookiesSpec] ([cookies.go]): the cookies of a Netscape cookie file.
    - [CommandLine], [CommandLineSpec] ([cmd/goaria/main.go]): flags, the configuration of
      the daemon, the download command with its wait and exit code.

    ** How state corresponds

    Downloads live in a heap ([e_heap]) because a download deleted from the map can
    still be held by the goroutine that runs it; [e_downloads] maps gids to
    locations.  A context is a number, a [cancel] closure is the context it cancels,
    and calling it adds the number to [e_cancelled].  A mutex-protected section is
    one function; what the code does after unlocking (cancel, notify, signal, save)
    follows in the same function, in order, as recorded events.  Random gids and
    clock readings are arguments.  Go maps are [gmap]s, whose iteration order is
    fixed; theorems about results do not depend on it.

    ** What the theorems show

    For the engine: one invariant in all reachable states, one run per active
    download, the life cycle of the status, a scheduler that is first-in first-out,
    work-conserving and never over its limit, the outcome of a run, the effect of
    pausing, removing, reordering, changing URIs and options, gid lookup and the
    pruning of results, and a history that leaks a path reservation.  For the
    reservations: exclusive ownership after any history and a refinement of
    "reserve this set or nothing".  For options, pieces, names and torrent metadata:
    agreement with reference definitions, bounds, and containment of every output
    path in its directory.  For the session: the file read back is the file written,
    a failed save leaves the old file, a download's state survives a restart.  For
    transfers: an accepted partial response answers the request, progress equals what
    the workers delivered, a segmented download that succeeds has every range once,
    and it ends after at most ranges times tries answers.  For runs: a run that succeeds
    leaves a complete download whose file has the length it reports and the digest asked
    for, whichever route its bytes took; it writes no other file, and no file that was
    there unless the options allow it; the file of a segmented download is the bodies of
    its ranges in order; and the retry loop ends.  For the RPC layer: without
    the secret a payload changes nothing and learns nothing, whatever the engine;
    every call is answered under its id, with a value of its method's type; and any
    traffic is a sequence of engine steps, so the engine's invariant holds under it.  For
    the server: a GET is answered as the POST it spells, the WebSocket sessions are counted
    exactly, notifications reach only those who proved the secret, sessions end once
    closing is announced, and a forced shutdown is not lost and leaves the server
    at most six steps.  For the HTTP client: the bypass rules mean what they say, the cache
    of transports is invisible unless a text holds the separator of its keys, a challenge
    is answered with credentials only at the origin of the request, and a body times out
    exactly when the timer of the read under way fires.  For torrents: a run announces
    completion exactly when it succeeds, and a file is final only after its handler
    returned and its lease was finalized.  For saves: the session file never goes back to
    an older state, and a queued change reaches it.  For the command: it exits with 0 only
    when every download of its URLs was complete.

    ** Bounds and fuel

    Recursion is structural except where the code counts: [resolveKey] follows at
    most [maxSymlinkHops] links as the code does, [reserveRenamed] tries the 9999
    names the code tries, and [scheduleLoop] runs once per queued download, the
    code's [candidates].  [startLoop] has one round per waiting range, [waitLoop] one
    per byte, because a reservation takes at least one, [scan_value] two per byte of its
    text, and [fetchLoop] one per try (a fetch without a limit on tries may go on for
    ever, as in the code).  [retryRounds] takes fuel, and as much as the limit on tries is
    enough ([run_download_ends]).  64-bit arithmetic wraps through [addInt64] where the code
    can overflow.  [%q] in error texts is rendered without escapes.
    State machines (sessions of WebSockets, leases, queued saves, bodies, serving) need no
    fuel: their runs are folds over lists of events, and the theorems hold for every list.

    ** Not modelled

    Sockets, TLS, dialling and the transport of bytes (net/http, gorilla/websocket, quic-go
    and the proxy protocols are libraries: what they answer is an input), the torrent
    client and its file handles, the file system beyond [FileSystem] and the disk of
    [Runner], the marshalling of RPC results to bytes, logging, the usage text and signals.
    Methods of the standard library's errors ([Timeout], [Temporary]) and the accessors of
    the small error types are part of the errors' constructors. *)
From stdpp Require Export base gmap strings list fin_maps.
From Stdlib Require Export ZArith Lia Ascii.

(** ** Notation scope of the development *)

Declare Scope goaria_scope.
Delimit Scope goaria_scope with goaria.
#[global] Open Scope Z_scope.
#[global] Open Scope goaria_scope.

(** ** Functional record update

    [Eta R] is the eta expansion of a record type.  A [Setter proj] is found by
    abstracting [proj] in that expansion, so updating a field computes and every
    get-of-set equation holds by reduction ([simpl] reduces it). *)

Class Eta (R : Type) := eta : R -> R.
Class Setter {R T : Type} (proj : R -> T) := set : (T -> T) -> R -> R.
Arguments set {R T} proj {_} _ _.

Ltac solve_setter :=
  match goal with
  | |- @Setter ?R ?T ?proj =>
      let e := constr:(_ : Eta R) in
      let e := eval red in e in
      let e := eval pattern proj in e in
      match e with
      | ?g _ => refine (fun (f : T -> T) => g (fun r => f (proj r)))
      end
  end.
#[global] Hint Extern 1 (Setter _) => solve_setter : typeclass_instances.

#[warnings="-postfix-notation-not-level-1"]
Notation "r '<|' p ':=' v '|>'" := (set p (fun _ => v) r)
  (at level 12, left associativity, p at level 11) : goaria_scope.
#[warnings="-postfix-notation-not-level-1"]
Notation "r '<|' p '::=' f '|>'" := (set p f r)
  (at level 12, left associativity, p at level 11) : goaria_scope.

(** ** Go errors

    The error values of the program.  The sentinels of [errors.go] and of the
    standard library are constructors; [EText] is [errors.New]/[fmt.Errorf]
    without a wrapped error, [EWrap] is [fmt.Errorf] with [%w], [EJoin] is
    [errors.Join]; the remaining constructors are the program's error types. *)

Inductive error :=
| EText (msg : string)
| EWrap (msg : string) (e : error)
| EJoin (e1 e2 : error)
| ErrNotFound
| ErrInvalidGID
| ErrInvalidParams
| ErrUnsupportedProtocol
| ErrUnsupportedMethod
| ErrShutdown
| ECanceled
| EDeadlineExceeded
| EServerClosed
| EEOF
| EUnexpectedEOF
| EShortWrite
| ENotExist
| EExist
| EURL (op url : string) (e : error)
| ENet (msg : string)
| EHTTPProtocol (msg : string)
| EHTTPStatus (method url : string) (status : Z) (text : string)
| ERangeBody (e : error) (completed : Z)
| ETorrentSize (max : Z)
| ECall (code : Z) (msg : string).

(** [errors.Is]/[errors.As]: some error of the unwrap tree satisfies [p]. *)
Fixpoint errors_find {A : Type} (p : error -> option A) (e : error) : option A :=
  match p e with
  | Some a => Some a
  | None =>
      match e with
      | EWrap _ e' | EURL _ _ e' | ERangeBody e' _ => errors_find p e'
      | EJoin e1 e2 =>
          match errors_find p e1 with
          | Some a => Some a
          | None => errors_find p e2
          end
      | _ => None
      end
  end.

Definition errors_is (p : error -> bool) (e : error) : bool :=
  match errors_find (fun e => if p e then Some tt else None) e with
  | Some _ => true
  | None => false
  end.

(** ** Fallible results: a value or an error *)

Inductive result (A : Type) :=
| Ok (a : A)
| Err (e : error).
Arguments Ok {A} a.
Arguments Err {A} e.

Definition result_bind {A B : Type} (r : result A) (k : A -> result B) : result B :=
  match r with
  | Ok a => k a
  | Err e => Err e
  end.
Notation "'let!' x ':=' r 'in' k" := (result_bind r (fun x => k))
  (at level 10, x name, r at level 100, k at level 200) : goaria_scope.
Notation "'let!' ' pat ':=' r 'in' k" :=
  (result_bind r (fun x => match x with pat => k end))
  (at level 10, pat strict pattern, r at level 100, k at level 200)
  : goaria_scope.

Definition is_ok {A : Type} (r : result A) : bool :=
  match r with Ok _ => true | Err _ => false end.

Lemma result_bind_ok {A B : Type} (r : result A) (k : A -> result B) (b : B) :
  result_bind r k = Ok b <-> exists a, r = Ok a /\ k a = Ok b.
Proof. destruct r as [a0|e0]; simpl; split; [eauto|by intros (a & [= ->] & H)|done|by intros (a & H & _)]. Qed.

(** ** Machine integers

    Go's [int] and [int64] are 64-bit two's complement on the supported
    platforms; they are modelled as [Z], with the wrap-around written where the
    code can overflow. *)

Definition max_int64 : Z := 9223372036854775807.
Definition min_int64 : Z := -9223372036854775808.

Definition wrap64 (z : Z) : Z := (z + 9223372036854775808) mod 18446744073709551616 - 9223372036854775808.

(** [int64] addition *)
Definition addInt64 (a b : Z) : Z := wrap64 (a + b).

Definition in_int64 (z : Z) : Prop := min_int64 <= z <= max_int64.

Lemma wrap64_id (z : Z) : in_int64 z -> wrap64 z = z.
Proof.
  unfold in_int64, wrap64, min_int64, max_int64; intros H.
  rewrite Z.mod_small; lia.
Qed.

Lemma wrap64_range (z : Z) : in_int64 (wrap64 z).
Proof.
  unfold in_int64, wrap64, min_int64, max_int64.
  pose proof (Z.mod_pos_bound (z + 9223372036854775808) 18446744073709551616 ltac:(lia)). lia.
Qed.

(** ** Automation *)

(** Split conjunctions and existentials of the context. *)
Ltac deexs :=
  repeat match goal with
  | H : exists x, _ |- _ => let y := fresh x in destruct H as [y H]
  | H : _ /\ _ |- _ => destruct H
  end.

(** Reflect the boolean comparisons of the context and of the goal. *)
Ltac zbool :=
  repeat match goal with
  | H : (_ <? _) = true |- _ => apply Z.ltb_lt in H
  | H : (_ <? _) = false |- _ => apply Z.ltb_ge in H
  | H : (_ <=? _) = true |- _ => apply Z.leb_le in H
  | H : (_ <=? _) = false |- _ => apply Z.leb_gt in H
  | H : (_ =? _) = true |- _ => apply Z.eqb_eq in H
  | H : (_ =? _) = false |- _ => apply Z.eqb_neq in H
  | H : (_ && _) = true |- _ => apply andb_true_iff in H; destruct H
  | H : (_ || _) = false |- _ => apply orb_false_iff in H; destruct H
  | H : negb _ = true |- _ => apply negb_true_iff in H
  | H : negb _ = false |- _ => apply negb_false_iff in H
  end.

(** Case analysis on the innermost [if]/[match] scrutinee of the goal. *)
Ltac case_if :=
  match goal with
  | |- context [if ?b then _ else _] =>
      lazymatch b with context [if _ then _ else _] => fail | _ => destruct b eqn:? end
  end.

(** ** Generic lemmas on lists *)

Section lists.
Context {A : Type}.
Implicit Types (l : list A) (P : A -> Prop).

Lemma NoDup_snoc l x : NoDup l -> x ∉ l -> NoDup (l ++ [x]).
Proof.
  intros Hl Hx. apply NoDup_app; split; [done|]. split; [|apply NoDup_singleton].
  intros y Hy ->%list_elem_of_singleton. done.
Qed.

Lemma filter_id P `{!forall x, Decision (P x)} l :
  Forall P l -> filter P l = l.
Proof. induction 1 as [|x l Hx Hl IH]; [done|]. rewrite filter_cons_True by done. by rewrite IH. Qed.

Lemma filter_none P `{!forall x, Decision (P x)} l :
  Forall (fun x => ~ P x) l -> filter P l = [].
Proof. induction 1 as [|x l Hx Hl IH]; [done|]. by rewrite filter_cons_False. Qed.
Lemma list_filter_iff' P Q `{!forall x, Decision (P x)} `{!forall x, Decision (Q x)} l :
  (forall x, x ∈ l -> P x <-> Q x) -> filter P l = filter Q l.
Proof.
  induction l as [|y l IH]; intros Heq; [done|]. rewrite !filter_cons.
  assert (P y <-> Q y) as Hy by (apply Heq; by left).
  rewrite IH by (intros x Hx; apply Heq; by right). repeat case_decide; tauto || done.
Qed.
End lists.

(** Removing one occurrence-free element from a duplicate-free list. *)
Lemma filter_ne_NoDup {A} `{EqDecision A} (x : A) (l : list A) :
  NoDup l -> NoDup (filter (fun y => y <> x) l).
Proof. apply NoDup_filter. Qed.

Lemma elem_of_filter_ne {A} `{EqDecision A} (x y : A) (l : list A) :
  y ∈ filter (fun z => z <> x) l <-> y <> x /\ y ∈ l.
Proof. by rewrite list_elem_of_filter. Qed.

Create HintDb goaria discriminated.
#[export] Hint Resolve NoDup_snoc filter_ne_NoDup : goaria.
Create Rewrite HintDb goaria.
#[export] Hint Rewrite @elem_of_filter_ne : goaria.
