(* ===== verification/GoStrings.v ===== *)
(** * Go strings: the operations of the [strings] and [strconv] packages the program uses

    A Go string is a byte string, a [string] here.  Operations whose Go version
    works on runes are defined on the UTF-8 encodings of the runes concerned:
    white space is recognised by [lead_space] on the encodings of the code points
    of [unicode.IsSpace], which is exact because UTF-8 encodings are prefix-free
    and continuation bytes never start one.  [ToLower] is the ASCII fold: the
    program compares its results with ASCII words. *)
From S2P Require Import Prelude.


Abbreviation byte_val := N_of_ascii.

(** ** Prefixes, suffixes, cutting *)

Fixpoint HasPrefix (s p : string) : bool :=
  match p, s with
  | "", _ => true
  | String a p', String b s' => Ascii.eqb a b && HasPrefix s' p'
  | String _ _, "" => false
  end.

(** [CutPrefix s p] is [Some rest] when [s = p ++ rest]. *)
Fixpoint CutPrefix (s p : string) : option string :=
  match p, s with
  | "", _ => Some s
  | String a p', String b s' => if Ascii.eqb a b then CutPrefix s' p' else None
  | String _ _, "" => None
  end.

Definition TrimPrefix (s p : string) : string :=
  match CutPrefix s p with Some r => r | None => s end.

(** Some suffix of [s] (possibly [s] itself) satisfies [f]. *)
Fixpoint exists_suffix (f : string -> bool) (s : string) : bool :=
  f s || match s with "" => false | String _ s' => exists_suffix f s' end.

Definition HasSuffix (s p : string) : bool := exists_suffix (String.eqb p) s.

(** The part of [s] before its suffix [p], when it has that suffix. *)
Fixpoint CutSuffix (s p : string) : option string :=
  if String.eqb s p then Some ""
  else match s with
       | "" => None
       | String c s' => String c <$> CutSuffix s' p
       end.

Definition TrimSuffix (s p : string) : string :=
  match CutSuffix s p with Some r => r | None => s end.

(** [strings.Cut] for a one-byte separator. *)
Fixpoint Cut (s : string) (c : ascii) : option (string * string) :=
  match s with
  | "" => None
  | String a s' =>
      if Ascii.eqb a c then Some ("", s')
      else match Cut s' c with
           | Some (l, r) => Some (String a l, r)
           | None => None
           end
  end.

(** [strings.Split] for a one-byte separator: never empty. *)
Fixpoint Split (s : string) (c : ascii) : list string :=
  match s with
  | "" => [""]
  | String a s' =>
      if Ascii.eqb a c then "" :: Split s' c
      else match Split s' c with
           | x :: xs => String a x :: xs
           | [] => [String a ""]
           end
  end.

Fixpoint Join (l : list string) (sep : string) : string :=
  match l with
  | [] => ""
  | [x] => x
  | x :: l' => x +:+ sep +:+ Join l' sep
  end.

(** Bytes: membership and quantification. *)
Fixpoint forall_byte (f : ascii -> bool) (s : string) : bool :=
  match s with "" => true | String a s' => f a && forall_byte f s' end.

Definition exists_byte (f : ascii -> bool) (s : string) : bool := negb (forall_byte (fun a => negb (f a)) s).

Definition ContainsByte (s : string) (c : ascii) : bool := exists_byte (Ascii.eqb c) s.

(** [strings.ContainsAny] for a set of ASCII bytes. *)
Definition ContainsAny (s chars : string) : bool := exists_byte (fun a => ContainsByte chars a) s.

(** [strings.Contains] *)
Definition Contains (s sub : string) : bool := exists_suffix (fun t => HasPrefix t sub) s.

(** Go's [len]. *)
Definition len (s : string) : Z := Z.of_nat (String.length s).

(** ** White space ([unicode.IsSpace]) *)

(** Encodings of U+0085, U+00A0, U+1680, U+2000..U+200A, U+2028, U+2029, U+202F,
    U+205F and U+3000, besides the six ASCII spaces.  The result is the number of
    bytes of the white-space rune that starts the string. *)
Definition is_ascii_space (a : ascii) : bool :=
  let n := byte_val a in ((9 <=? n) && (n <=? 13) || (n =? 32))%N.

Definition lead_space (s : string) : option string :=
  match s with
  | "" => None
  | String a s1 =>
      if is_ascii_space a then Some s1
      else match s1 with
           | "" => None
           | String b s2 =>
               let x := byte_val a in
               let y := byte_val b in
               if ((x =? 194) && ((y =? 133) || (y =? 160)))%N then Some s2
               else match s2 with
                    | "" => None
                    | String c s3 =>
                        let z := byte_val c in
                        if ((x =? 225) && (y =? 154) && (z =? 128)
                            || (x =? 226) && (y =? 128)
                               && ((128 <=? z) && (z <=? 138) || (z =? 168) || (z =? 169) || (z =? 175))
                            || (x =? 226) && (y =? 129) && (z =? 159)
                            || (x =? 227) && (y =? 128) && (z =? 128))%N
                        then Some s3 else None
                    end
           end
  end.

(** [strings.IndexFunc(s, unicode.IsSpace) >= 0] *)
Definition has_space (s : string) : bool :=
  exists_suffix (fun t => match lead_space t with Some _ => true | None => false end) s.

(** The fuel of the white-space scanners is a bound on the number of runes. *)
Fixpoint trim_left_fuel (fuel : nat) (s : string) : string :=
  match fuel with
  | O => s
  | S fuel' => match lead_space s with Some s' => trim_left_fuel fuel' s' | None => s end
  end.

Definition trim_left (s : string) : string := trim_left_fuel (String.length s) s.

(** [s] is a sequence of white-space runes. *)
Definition all_space (s : string) : bool := String.eqb (trim_left s) "".

Fixpoint trim_right (s : string) : string :=
  if all_space s then ""
  else match s with "" => "" | String c s' => String c (trim_right s') end.

Definition TrimSpace (s : string) : string := trim_right (trim_left s).

(** [strings.Fields]: the maximal runs of non-white-space bytes. *)
Fixpoint fields_fuel (fuel : nat) (cur : string) (s : string) : list string :=
  let flush := if String.eqb cur "" then [] else [cur] in
  match fuel with
  | O => flush
  | S fuel' =>
      match s with
      | "" => flush
      | String a s' =>
          match lead_space s with
          | Some r => flush ++ fields_fuel fuel' "" r
          | None => fields_fuel fuel' (cur +:+ String a "") s'
          end
      end
  end.

Definition Fields (s : string) : list string := fields_fuel (S (String.length s)) "" s.

(** ** Letter case *)

Definition ascii_lower (a : ascii) : ascii :=
  let n := byte_val a in
  if ((65 <=? n) && (n <=? 90))%N then ascii_of_N (n + 32) else a.

Fixpoint ToLower (s : string) : string :=
  match s with "" => "" | String a s' => String (ascii_lower a) (ToLower s') end.

(** [strings.EqualFold s t] for an ASCII [t]: besides the two ASCII cases, simple
    folding identifies U+017F (bytes C5 BF) with [s] and U+212A (E2 84 AA) with [k]. *)
Fixpoint EqualFold (s t : string) : bool :=
  match t with
  | "" => String.eqb s ""
  | String b t' =>
      let lb := byte_val (ascii_lower b) in
      match s with
      | "" => false
      | String a s' =>
          if Ascii.eqb (ascii_lower a) (ascii_lower b) then EqualFold s' t'
          else match s' with
               | "" => false
               | String a2 s'' =>
                   if ((lb =? 115) && (byte_val a =? 197) && (byte_val a2 =? 191))%N
                   then EqualFold s'' t'
                   else match s'' with
                        | "" => false
                        | String a3 s3 =>
                            if ((lb =? 107) && (byte_val a =? 226) && (byte_val a2 =? 132)
                                && (byte_val a3 =? 170))%N
                            then EqualFold s3 t' else false
                        end
               end
      end
  end.

(** ** Decimal numbers ([strconv]) *)

Definition digit_val (a : ascii) : option Z :=
  let n := byte_val a in
  if ((48 <=? n) && (n <=? 57))%N then Some (Z.of_N (n - 48)) else None.

Definition is_digit (a : ascii) : bool := match digit_val a with Some _ => true | None => false end.

Fixpoint parse_digits (s : string) (acc : Z) : option Z :=
  match s with
  | "" => Some acc
  | String a s' =>
      match digit_val a with
      | Some d => parse_digits s' (10 * acc + d)
      | None => None
      end
  end.

(** [strconv.ParseInt(s, 10, 64)] (and [strconv.Atoi], [int] being 64-bit): an
    optional sign, at least one digit, and a value in range; [None] is an error. *)
Definition ParseInt (s : string) : option Z :=
  let mag (t : string) (neg : bool) :=
    match t with
    | "" => None
    | _ =>
        match parse_digits t 0 with
        | Some n =>
            let v := if neg then - n else n in
            if (min_int64 <=? v) && (v <=? max_int64) then Some v else None
        | None => None
        end
    end in
  match s with
  | "" => None
  | String a t =>
      if Ascii.eqb a "-"%char then mag t true
      else if Ascii.eqb a "+"%char then mag t false
      else mag s false
  end.

Definition Atoi (s : string) : option Z := ParseInt s.

Definition digit_char (d : Z) : ascii := ascii_of_N (Z.to_N (48 + d)).

Fixpoint format_pos (fuel : nat) (n : Z) (acc : string) : string :=
  match fuel with
  | O => acc
  | S fuel' =>
      let acc' := String (digit_char (n mod 10)) acc in
      if n <? 10 then acc' else format_pos fuel' (n / 10) acc'
  end.

(** [strconv.FormatInt(n, 10)] (and [strconv.Itoa]).  A number has at most as many
    decimal digits as binary ones, which is the fuel. *)
Definition FormatInt (n : Z) : string :=
  let mag := format_pos (S (Z.to_nat (Z.log2 (Z.abs n)))) (Z.abs n) "" in
  if n <? 0 then String "-"%char mag else mag.

Definition Itoa (n : Z) : string := FormatInt n.

Definition FormatBool (b : bool) : string := if b then "true" else "false".

(** ** Lemmas: concatenation and byte predicates *)

Lemma str_app_nil_r (s : string) : s +:+ "" = s.
Proof. induction s as [|a s IH]; [done|]. change (String a (s +:+ "") = String a s). by rewrite IH. Qed.

Lemma str_app_assoc (s t u : string) : (s +:+ t) +:+ u = s +:+ t +:+ u.
Proof.
  induction s as [|a s IH]; [done|].
  change (String a ((s +:+ t) +:+ u) = String a (s +:+ t +:+ u)). by rewrite IH.
Qed.

Lemma str_app_cons (a : ascii) (s t : string) : String a s +:+ t = String a (s +:+ t).
Proof. done. Qed.

Lemma str_app_nil_l (s : string) : "" +:+ s = s.
Proof. done. Qed.

#[export] Hint Rewrite str_app_nil_r str_app_assoc str_app_cons str_app_nil_l : goaria.

Lemma forall_byte_app (f : ascii -> bool) (s t : string) :
  forall_byte f (s +:+ t) = forall_byte f s && forall_byte f t.
Proof.
  induction s as [|a s IH]; [done|].
  change (f a && forall_byte f (s +:+ t) = (f a && forall_byte f s) && forall_byte f t).
  by rewrite IH, andb_assoc.
Qed.

Lemma forall_byte_impl (f g : ascii -> bool) (s : string) :
  (forall a, f a = true -> g a = true) -> forall_byte f s = true -> forall_byte g s = true.
Proof.
  intros Hfg. induction s as [|a s IH]; [done|]. simpl.
  intros [H1 H2]%andb_true_iff. rewrite (Hfg _ H1). by apply IH.
Qed.

(** ** Lemmas: white space *)

(** An ASCII byte that is not a space: no white-space rune contains it. *)
Definition plain_byte (a : ascii) : bool := (byte_val a <? 128)%N && negb (is_ascii_space a).

Lemma lead_space_plain (a : ascii) (s : string) :
  plain_byte a = true -> lead_space (String a s) = None.
Proof.
  unfold plain_byte. intros [H1%N.ltb_lt H2%negb_true_iff]%andb_true_iff.
  cbn [lead_space]. rewrite H2.
  destruct s as [|b s]; [done|]. cbv zeta.
  assert ((byte_val a =? 194)%N = false) as -> by (apply N.eqb_neq; lia).
  assert ((byte_val a =? 225)%N = false) as -> by (apply N.eqb_neq; lia).
  assert ((byte_val a =? 226)%N = false) as -> by (apply N.eqb_neq; lia).
  assert ((byte_val a =? 227)%N = false) as -> by (apply N.eqb_neq; lia).
  by destruct s.
Qed.

Lemma has_space_plain (s : string) : forall_byte plain_byte s = true -> has_space s = false.
Proof.
  unfold has_space. induction s as [|a s IH]; [done|].
  cbn [forall_byte]. intros [Ha Hs]%andb_true_iff. cbn [exists_suffix].
  rewrite lead_space_plain by done. by apply IH.
Qed.

Lemma has_space_cons (a : ascii) (s : string) :
  has_space (String a s) = false -> lead_space (String a s) = None /\ has_space s = false.
Proof.
  unfold has_space. cbn [exists_suffix]. destruct (lead_space (String a s)); simpl; [done|]. done.
Qed.

Lemma trim_left_id (s : string) : lead_space s = None -> trim_left s = s.
Proof. unfold trim_left. destruct s; [done|]. cbn [String.length trim_left_fuel]. by intros ->. Qed.

Lemma trim_right_no_space (s : string) : has_space s = false -> trim_right s = s.
Proof.
  induction s as [|a s IH]; [done|]. intros [H1 H2]%has_space_cons.
  cbn [trim_right]. unfold all_space. rewrite (trim_left_id (String a s)) by done.
  simpl. by rewrite IH.
Qed.

Lemma lead_space_no_space (s : string) : has_space s = false -> lead_space s = None.
Proof. destruct s; [done|]. by intros [H _]%has_space_cons. Qed.

Lemma TrimSpace_no_space (s : string) : has_space s = false -> TrimSpace s = s.
Proof.
  intros H. unfold TrimSpace. rewrite trim_left_id by by apply lead_space_no_space.
  by apply trim_right_no_space.
Qed.

Lemma TrimSpace_plain (s : string) : forall_byte plain_byte s = true -> TrimSpace s = s.
Proof. intros H. by apply TrimSpace_no_space, has_space_plain. Qed.

(** ** Lemmas: decimal numbers *)

Lemma byte_val_digit_char (d : Z) : 0 <= d < 10 -> byte_val (digit_char d) = Z.to_N (48 + d).
Proof. intros H. unfold digit_char. rewrite N_ascii_embedding; [done|]. lia. Qed.

Lemma digit_val_char (d : Z) : 0 <= d < 10 -> digit_val (digit_char d) = Some d.
Proof.
  intros H. unfold digit_val. rewrite byte_val_digit_char by done. cbv zeta.
  assert ((48 <=? Z.to_N (48 + d))%N = true) as -> by (apply N.leb_le; lia).
  assert ((Z.to_N (48 + d) <=? 57)%N = true) as -> by (apply N.leb_le; lia).
  simpl. f_equal. lia.
Qed.

Lemma is_digit_plain (a : ascii) : is_digit a = true -> plain_byte a = true.
Proof.
  unfold is_digit, digit_val, plain_byte, is_ascii_space. cbv zeta.
  destruct ((48 <=? byte_val a) && (byte_val a <=? 57))%N eqn:E; [|done]. intros _.
  apply andb_true_iff in E as [E1%N.leb_le E2%N.leb_le].
  apply andb_true_iff; split; [apply N.ltb_lt; lia|].
  apply negb_true_iff, orb_false_iff; split.
  - apply andb_false_iff; right. apply N.leb_gt. lia.
  - apply N.eqb_neq. lia.
Qed.

Lemma parse_digits_format (fuel : nat) (n : Z) (acc : string) :
  0 <= n -> n < 2 ^ Z.of_nat fuel -> exists k,
  0 <= k /\ forall acc1, parse_digits (format_pos fuel n acc) acc1 = parse_digits acc (acc1 * 10 ^ k + n).
Proof.
  revert n acc. induction fuel as [|fuel IH]; intros n acc Hn Hf.
  { exists 0. split; [lia|]. intros acc1. simpl in Hf. simpl. f_equal. lia. }
  cbn [format_pos]. cbv zeta. destruct (n <? 10) eqn:E; zbool.
  - exists 1. split; [lia|]. intros acc1. cbn [parse_digits].
    rewrite Z.mod_small by lia. rewrite digit_val_char by lia. f_equal. lia.
  - assert (0 <= n mod 10 < 10) by (apply Z.mod_pos_bound; lia).
    assert (Hdiv : n = 10 * (n / 10) + n mod 10) by (apply Z.div_mod; lia).
    destruct (IH (n / 10) (String (digit_char (n mod 10)) acc)) as (k & Hk & IHk).
    + lia.
    + rewrite Nat2Z.inj_succ, Z.pow_succ_r in Hf by lia. lia.
    + exists (k + 1). split; [lia|]. intros acc1. rewrite IHk. cbn [parse_digits].
      rewrite digit_val_char by done. f_equal. rewrite Z.pow_add_r by lia. lia.
Qed.

Lemma format_pos_digits (fuel : nat) (n : Z) (acc : string) :
  0 <= n -> forall_byte is_digit acc = true -> forall_byte is_digit (format_pos fuel n acc) = true.
Proof.
  revert n acc. induction fuel as [|fuel IH]; intros n acc Hn Ha; [done|].
  cbn [format_pos]. cbv zeta.
  assert (forall_byte is_digit (String (digit_char (n mod 10)) acc) = true).
  { simpl. rewrite Ha, andb_true_r. unfold is_digit.
    rewrite digit_val_char; [done|]. apply Z.mod_pos_bound. lia. }
  destruct (n <? 10); [done|]. apply IH; [|done]. apply Z.div_pos; lia.
Qed.

Lemma FormatInt_digits (n : Z) : 0 <= n -> forall_byte is_digit (FormatInt n) = true.
Proof.
  intros Hn. unfold FormatInt. cbv zeta.
  assert ((n <? 0) = false) as -> by (apply Z.ltb_ge; lia).
  rewrite Z.abs_eq by lia. by apply format_pos_digits.
Qed.

Lemma format_pos_nonempty (fuel : nat) (n : Z) (a : ascii) (s : string) :
  format_pos fuel n (String a s) <> "".
Proof.
  revert n a s. induction fuel as [|fuel IH]; intros n a s; [done|].
  cbn [format_pos]. destruct (n <? 10); [done|]. apply IH.
Qed.

Lemma FormatInt_nonempty (n : Z) : FormatInt n <> "".
Proof.
  unfold FormatInt. cbv zeta. destruct (n <? 0); [done|]. cbn [format_pos].
  destruct (Z.abs n <? 10); [done|]. apply format_pos_nonempty.
Qed.

Lemma parse_digits_FormatInt (n : Z) : 0 <= n -> parse_digits (FormatInt n) 0 = Some n.
Proof.
  intros Hn. unfold FormatInt. cbv zeta.
  assert ((n <? 0) = false) as -> by (apply Z.ltb_ge; lia).
  rewrite Z.abs_eq by lia.
  destruct (parse_digits_format (S (Z.to_nat (Z.log2 n))) n "") as (k & _ & ->); [done| |simpl; f_equal; lia].
  rewrite Nat2Z.inj_succ, Z2Nat.id by apply Z.log2_nonneg.
  destruct (decide (n = 0)) as [->|]; [by vm_compute|]. apply Z.log2_spec. lia.
Qed.

Lemma digits_first (s : string) (a : ascii) (t : string) :
  forall_byte is_digit s = true -> s = String a t -> is_digit a = true.
Proof. intros H ->. simpl in H. by apply andb_true_iff in H as [H _]. Qed.

Lemma is_digit_not_sign (a : ascii) :
  is_digit a = true -> Ascii.eqb a "-"%char = false /\ Ascii.eqb a "+"%char = false.
Proof.
  intros H. split; apply Ascii.eqb_neq; intros ->; by vm_compute in H.
Qed.

(** [Atoi] reads back what [Itoa] wrote. *)
Lemma ParseInt_FormatInt (n : Z) : 0 <= n <= max_int64 -> ParseInt (FormatInt n) = Some n.
Proof.
  intros Hn. pose proof (FormatInt_digits n ltac:(lia)) as Hd.
  pose proof (parse_digits_FormatInt n ltac:(lia)) as Hp.
  unfold ParseInt. cbv zeta. destruct (FormatInt n) as [|a t] eqn:E.
  { by destruct (FormatInt_nonempty n). }
  destruct (is_digit_not_sign a (digits_first _ _ _ Hd eq_refl)) as [-> ->]. rewrite Hp.
  unfold min_int64, max_int64 in *.
  assert ((-9223372036854775808 <=? n) && (n <=? 9223372036854775807) = true) as ->; [|done].
  apply andb_true_iff; split; apply Z.leb_le; lia.
Qed.

Lemma digit_val_range (a : ascii) (d : Z) : digit_val a = Some d -> 0 <= d <= 9.
Proof.
  unfold digit_val. cbv zeta. destruct (_ && _)%N eqn:E; [|done]. intros [= <-].
  apply andb_true_iff in E as [E1%N.leb_le E2%N.leb_le]. lia.
Qed.

Lemma parse_digits_nonneg (s : string) (acc n : Z) : 0 <= acc -> parse_digits s acc = Some n -> 0 <= n.
Proof.
  revert acc. induction s as [|a s IH]; intros acc Ha; simpl; [by intros [= <-]|].
  destruct (digit_val a) eqn:Hd; [|done]. apply digit_val_range in Hd. apply IH. lia.
Qed.

(** ** Lemmas: last bytes *)

Lemma str_snoc (s : string) : s <> "" -> exists t a, s = t +:+ String a "".
Proof.
  induction s as [|a s IH]; [done|]. intros _. destruct s as [|b s].
  - by exists "", a.
  - destruct IH as (t & c & ->); [done|]. by exists (String a t), c.
Qed.

Lemma str_snoc_neq (s : string) (a b : ascii) : a <> b -> s +:+ String a "" <> String b "".
Proof.
  intros Hab. destruct s as [|c s]; [by intros [= ->]|].
  rewrite str_app_cons. intros [= -> H]. by destruct s.
Qed.

Lemma CutSuffix_snoc (s : string) (a b : ascii) :
  CutSuffix (s +:+ String a "") (String b "") = if Ascii.eqb a b then Some s else None.
Proof.
  induction s as [|c s IH].
  - rewrite str_app_nil_l. cbn [CutSuffix]. destruct (Ascii.eqb a b) eqn:E.
    + apply Ascii.eqb_eq in E as ->. by rewrite String.eqb_refl.
    + assert (String.eqb (String a "") (String b "") = false) as ->; [|done].
      apply String.eqb_neq. intros [= ->]. by rewrite Ascii.eqb_refl in E.
  - rewrite str_app_cons. cbn [CutSuffix].
    assert (String.eqb (String c (s +:+ String a "")) (String b "") = false) as ->.
    { apply String.eqb_neq. intros [= -> H]. by destruct s. }
    rewrite IH. by destruct (Ascii.eqb a b).
Qed.

Lemma ParseInt_range (s : string) (n : Z) : ParseInt s = Some n -> min_int64 <= n <= max_int64.
Proof.
  unfold ParseInt. cbv zeta. intros H.
  repeat case_match; simplify_eq;
    match goal with H : _ && _ = true |- _ => apply andb_true_iff in H as [?%Z.leb_le ?%Z.leb_le] end; lia.
Qed.
