(* ===== verification/GoPath.v ===== *)
(** * Go file paths: the [path/filepath] functions the program uses (Unix)

    Paths are byte strings.  [Clean] is the lexical normalisation of the Go
    documentation computed on path elements with a stack; [Join], [Dir], [Base],
    [Rel] and [Abs] are built on it.  The lemmas relate a path to its elements. *)
From S2P Require Import Prelude GoStrings.

Definition slash : ascii := "/"%char.
Definition sep : string := "/".

(** The non-empty elements between separators. *)
Definition elems (s : string) : list string := filter (fun e => e <> "") (Split s slash).

Definition IsAbs (s : string) : bool := HasPrefix s sep.

(** One element pushed on the stack of kept elements (innermost first). *)
Definition clean_step (rooted : bool) (stack : list string) (e : string) : list string :=
  if String.eqb e "" || String.eqb e "." then stack
  else if String.eqb e ".." then
    match stack with
    | [] => if rooted then [] else [".."]
    | top :: rest => if String.eqb top ".." then ".." :: stack else rest
    end
  else e :: stack.

Definition clean_elems (rooted : bool) (es : list string) : list string :=
  rev (foldl (clean_step rooted) [] es).

Definition unelems (rooted : bool) (es : list string) : string :=
  if rooted then sep +:+ Join es sep
  else match es with [] => "." | _ => Join es sep end.

#[global] Arguments unelems : simpl never.

(** [filepath.Clean] *)
Definition Clean (s : string) : string :=
  if String.eqb s "" then "."
  else unelems (IsAbs s) (clean_elems (IsAbs s) (elems s)).

(** [filepath.Join] *)
Definition JoinPath (parts : list string) : string :=
  match filter (fun e => e <> "") parts with
  | [] => ""
  | ps => Clean (Join ps sep)
  end.

(** The text up to and including the last separator, and the text after it. *)
Fixpoint split_last (s : string) : string * string :=
  match s with
  | "" => ("", "")
  | String a s' =>
      let '(d, f) := split_last s' in
      if String.eqb d "" && negb (Ascii.eqb a slash) then ("", String a f) else (String a d, f)
  end.

(** [filepath.Dir] *)
Definition Dir (s : string) : string := Clean (split_last s).1.

Fixpoint strip_trailing (s : string) : string :=
  match s with
  | "" => ""
  | String a s' => match strip_trailing s' with
                   | "" => if Ascii.eqb a slash then "" else String a ""
                   | r => String a r
                   end
  end.

(** [filepath.Base] *)
Definition Base (s : string) : string :=
  if String.eqb s "" then "."
  else let f := (split_last (strip_trailing s)).2 in
       if String.eqb f "" then sep else f.

(** [filepath.Ext] *)
Fixpoint ext_fuel (cur : string) (s : string) : string :=
  match s with
  | "" => cur
  | String a s' => if Ascii.eqb a slash then ext_fuel "" s'
                   else if Ascii.eqb a "."%char then ext_fuel s s'
                   else ext_fuel cur s'
  end.
Definition Ext (s : string) : string := ext_fuel "" s.

(** Strip the common prefix of two element lists. *)
Fixpoint strip_common (b t : list string) : list string * list string :=
  match b, t with
  | x :: b', y :: t' => if String.eqb x y then strip_common b' t' else (b, t)
  | _, _ => (b, t)
  end.

(** [filepath.Rel], whose arguments are cleaned paths; [None] is its error. *)
Definition Rel (base target : string) : option string :=
  let base := Clean base in
  let target := Clean target in
  if String.eqb base target then Some "."
  else if negb (Bool.eqb (IsAbs base) (IsAbs target)) then None
  else let '(b, t) := strip_common (if String.eqb base "." then [] else elems base) (elems target) in
       match b with
       | ".." :: _ => None
       | _ => Some (Join (map (fun _ => "..") b ++ t) sep)
       end.

(** [filepath.Abs] with the working directory [cwd]. *)
Definition Abs (cwd path : string) : string :=
  if IsAbs path then Clean path else JoinPath [cwd; path].

(** An element that [Clean] can leave in a rooted path. *)
Definition plain_elem (e : string) : Prop :=
  e <> "" /\ e <> "." /\ e <> ".." /\ ContainsByte e slash = false.

(** ** Lemmas *)

Lemma ContainsByte_cons (a c : ascii) (s : string) :
  ContainsByte (String a s) c = Ascii.eqb c a || ContainsByte s c.
Proof. unfold ContainsByte, exists_byte. simpl. by rewrite negb_andb, negb_involutive. Qed.

Lemma ContainsByte_app (s t : string) (c : ascii) : ContainsByte (s +:+ t) c = ContainsByte s c || ContainsByte t c.
Proof. unfold ContainsByte, exists_byte. rewrite forall_byte_app. by rewrite negb_andb. Qed.

Lemma Split_plain (s : string) (c : ascii) : ContainsByte s c = false -> Split s c = [s].
Proof.
  induction s as [|a s IH]; [done|]. rewrite ContainsByte_cons. intros [Ha Hs]%orb_false_iff.
  simpl. rewrite Ascii.eqb_sym, Ha. by rewrite IH.
Qed.

Lemma Split_app (x s : string) (c : ascii) :
  ContainsByte x c = false -> Split (x +:+ String c s) c = x :: Split s c.
Proof.
  induction x as [|a x IH]; [by simpl; rewrite Ascii.eqb_refl|].
  rewrite ContainsByte_cons. intros [Ha Hs]%orb_false_iff.
  change (String a x +:+ String c s) with (String a (x +:+ String c s)). simpl.
  rewrite Ascii.eqb_sym, Ha. by rewrite IH.
Qed.

Lemma Split_Join (l : list string) (c : ascii) :
  l <> [] -> Forall (fun e => ContainsByte e c = false) l ->
  Split (Join l (String c "")) c = l.
Proof.
  intros Hl Hf. induction Hf as [|x l Hx Hf IH]; [done|].
  destruct l as [|y l]; [simpl; by apply Split_plain|].
  change (Join (x :: y :: l) (String c "")) with (x +:+ String c (Join (y :: l) (String c ""))).
  rewrite Split_app by done. by rewrite IH.
Qed.

Lemma Join_Split (s : string) (c : ascii) : Join (Split s c) (String c "") = s.
Proof.
  induction s as [|a s IH]; [done|]. cbn [Split]. destruct (Ascii.eqb_spec a c) as [->|_].
  - destruct (Split s c) as [|x l] eqn:E; [by destruct s; cbn in E; repeat case_match|].
    change (Join ("" :: x :: l) (String c "")) with (String c (Join (x :: l) (String c ""))). by rewrite IH.
  - destruct (Split s c) as [|x l]; [by cbn in IH; subst|]. rewrite <- IH. by destruct l.
Qed.

Lemma Split_no_sep (s : string) (c : ascii) : Forall (fun e => ContainsByte e c = false) (Split s c).
Proof.
  induction s as [|a s IH]; [by repeat constructor|]. simpl.
  destruct (Ascii.eqb a c) eqn:Ha; [by constructor|].
  destruct (Split s c) as [|x xs]; inversion IH as [|?? Hx Hxs]; subst; constructor; try done.
  - by rewrite ContainsByte_cons, Ascii.eqb_sym, Ha.
  - by rewrite ContainsByte_cons, Ascii.eqb_sym, Ha.
Qed.

Lemma elems_no_sep (s : string) : Forall (fun e => e <> "" /\ ContainsByte e slash = false) (elems s).
Proof.
  apply Forall_forall. intros e [He Hin]%list_elem_of_filter. split; [done|].
  pose proof (Split_no_sep s slash) as H. rewrite Forall_forall in H. by apply H.
Qed.

Lemma elems_Join (l : list string) :
  Forall (fun e => e <> "" /\ ContainsByte e slash = false) l -> elems (Join l sep) = l.
Proof.
  intros Hl. destruct (decide (l = [])) as [->|Hn]; [done|].
  unfold elems, sep. rewrite Split_Join; [|done|].
  - apply filter_id. eapply Forall_impl; [exact Hl|]. by intros ? [? _].
  - eapply Forall_impl; [exact Hl|]. by intros ? [_ ?].
Qed.

Lemma elems_rooted (s : string) : elems (sep +:+ s) = elems s.
Proof.
  unfold elems, sep. change ("/" +:+ s) with ("" +:+ String slash s).
  rewrite Split_app by done. by rewrite filter_cons_False by (intros H; by apply H).
Qed.

(** The stack only holds elements of a rooted path that are neither empty, [.] nor [..]. *)
Lemma clean_step_plain (stack : list string) (e : string) :
  Forall plain_elem stack -> ContainsByte e slash = false ->
  Forall plain_elem (clean_step true stack e).
Proof.
  intros Hs He. unfold clean_step.
  destruct (String.eqb_spec e ""); [done|]. destruct (String.eqb_spec e "."); [done|]. simpl.
  destruct (String.eqb_spec e "..").
  - destruct stack as [|t r]; [done|]. inversion Hs as [|?? Ht Hr]; subst.
    destruct (String.eqb_spec t ".."); [|done]. by destruct Ht as (_ & _ & ? & _).
  - constructor; [|done]. by repeat split.
Qed.

Lemma clean_elems_plain (es : list string) :
  Forall (fun e => ContainsByte e slash = false) es -> Forall plain_elem (clean_elems true es).
Proof.
  intros Hes. unfold clean_elems. apply Forall_rev.
  cut (forall st, Forall plain_elem st -> Forall plain_elem (foldl (clean_step true) st es)).
  { intros H. apply H. constructor. }
  induction Hes as [|e es He Hes IH]; intros st Hst; simpl; [done|].
  apply IH. by apply clean_step_plain.
Qed.

(** Elements of a cleaned rooted path are kept by [Clean]. *)
Lemma clean_elems_id (es : list string) : Forall plain_elem es -> clean_elems true es = es.
Proof.
  intros Hes. unfold clean_elems.
  cut (forall st, foldl (clean_step true) st es = rev es ++ st).
  { intros H. rewrite H, app_nil_r. apply rev_involutive. }
  induction Hes as [|e es He Hes IH]; intros st; simpl; [done|].
  rewrite IH, <- app_assoc. f_equal. unfold clean_step. destruct He as (H1 & H2 & H3 & _).
  destruct (String.eqb_spec e ""); [done|]. destruct (String.eqb_spec e "."); [done|].
  by destruct (String.eqb_spec e "..").
Qed.

Lemma plain_elem_sep (es : list string) :
  Forall plain_elem es -> Forall (fun e => e <> "" /\ ContainsByte e slash = false) es.
Proof. intros H. eapply Forall_impl; [exact H|]. by intros e (? & _ & _ & ?). Qed.

Lemma elems_Clean_plain (s : string) : IsAbs s = true -> Forall plain_elem (elems (Clean s)).
Proof.
  intros Ha. unfold Clean. destruct (String.eqb_spec s ""); [by subst|].
  unfold unelems. rewrite Ha, elems_rooted.
  assert (Forall plain_elem (clean_elems true (elems s))) as Hp.
  { apply clean_elems_plain. eapply Forall_impl; [apply elems_no_sep|]. by intros ? [_ ?]. }
  rewrite elems_Join; [done|]. by apply plain_elem_sep.
Qed.

Lemma IsAbs_unelems (es : list string) : IsAbs (unelems true es) = true.
Proof. unfold unelems, IsAbs, sep. simpl. by destruct (Join es "/"). Qed.

Lemma elems_unelems (es : list string) :
  Forall plain_elem es -> elems (unelems true es) = es.
Proof. intros H. unfold unelems. rewrite elems_rooted. apply elems_Join. by apply plain_elem_sep. Qed.

Lemma Clean_unelems (es : list string) :
  Forall plain_elem es -> Clean (unelems true es) = unelems true es.
Proof.
  intros H. unfold Clean. rewrite IsAbs_unelems.
  destruct (String.eqb_spec (unelems true es) "") as [E|_].
  { unfold unelems in E. by destruct (Join es sep). }
  by rewrite elems_unelems, clean_elems_id.
Qed.

(** A rooted path is cleaned to the path of its plain elements. *)
Lemma Clean_rooted (s : string) :
  IsAbs s = true -> exists es, Clean s = unelems true es /\ Forall plain_elem es.
Proof.
  intros Ha. exists (clean_elems true (elems s)). split.
  - unfold Clean. destruct (String.eqb_spec s ""); [by subst|]. by rewrite Ha.
  - apply clean_elems_plain. eapply Forall_impl; [apply elems_no_sep|]. by intros ? [_ ?].
Qed.

Lemma Clean_idemp (s : string) : IsAbs s = true -> Clean (Clean s) = Clean s.
Proof. intros Ha. destruct (Clean_rooted s Ha) as (es & -> & H). by apply Clean_unelems. Qed.

Lemma IsAbs_Clean (s : string) : IsAbs s = true -> IsAbs (Clean s) = true.
Proof. intros Ha. destruct (Clean_rooted s Ha) as (es & -> & H). apply IsAbs_unelems. Qed.

Lemma strip_common_spec (b t : list string) :
  exists p, b = p ++ (strip_common b t).1 /\ t = p ++ (strip_common b t).2
    /\ (forall x y, head (strip_common b t).1 = Some x -> head (strip_common b t).2 = Some y -> x <> y).
Proof.
  revert t. induction b as [|x b IH]; intros t; simpl.
  - exists []. by destruct t.
  - destruct t as [|y t]; [by exists []|]. destruct (String.eqb_spec x y) as [->|Hn].
    + destruct (IH t) as (p & H1 & H2 & H3). exists (y :: p). simpl. by rewrite <- H1, <- H2.
    + exists []. repeat split; simpl; intros; congruence.
Qed.

Lemma strip_common_prefix (p t : list string) : strip_common p (p ++ t) = ([], t).
Proof. induction p as [|x p IH]; simpl; [by destruct t|]. by rewrite String.eqb_refl. Qed.

Lemma HasPrefix_app (p s : string) : HasPrefix (p +:+ s) p = true.
Proof.
  induction p as [|a p IH]; [by destruct s|].
  change (String a p +:+ s) with (String a (p +:+ s)). simpl. by rewrite Ascii.eqb_refl.
Qed.

Lemma HasPrefix_inv (s p : string) : HasPrefix s p = true -> exists r, s = p +:+ r.
Proof.
  revert s. induction p as [|a p IH]; intros s H; [by exists s|].
  destruct s as [|b s]; [done|]. simpl in H. apply andb_true_iff in H as [Ha H].
  apply Ascii.eqb_eq in Ha as <-. apply IH in H as [r ->]. by exists r.
Qed.

Lemma Split_nonempty (s : string) (c : ascii) : Split s c <> [].
Proof. destruct s; simpl; [done|]. case_match; [done|]. by case_match. Qed.

Lemma Split_sep (s t : string) (c : ascii) : Split (s +:+ String c t) c = Split s c ++ Split t c.
Proof.
  induction s as [|a s IH]; [simpl; by rewrite Ascii.eqb_refl|].
  change (String a s +:+ String c t) with (String a (s +:+ String c t)). simpl. rewrite IH.
  destruct (Ascii.eqb a c); [done|].
  pose proof (Split_nonempty s c). by destruct (Split s c).
Qed.

Lemma elems_sep (s t : string) : elems (s +:+ sep +:+ t) = elems s ++ elems t.
Proof.
  change (s +:+ sep +:+ t) with (s +:+ String slash ("" +:+ t)).
  unfold elems. by rewrite Split_sep, filter_app.
Qed.

Lemma elems_plain (e : string) : plain_elem e -> elems e = [e].
Proof.
  intros (H & _ & _ & Hs). unfold elems. rewrite Split_plain by done. by rewrite filter_cons_True.
Qed.

Lemma IsAbs_app (s t : string) : IsAbs s = true -> IsAbs (s +:+ t) = true.
Proof.
  intros [r ->]%HasPrefix_inv. rewrite str_app_assoc. apply HasPrefix_app.
Qed.

Lemma IsAbs_neq (s : string) : IsAbs s = true -> s <> "".
Proof. by intros H ->. Qed.

Lemma Clean_abs (s : string) : IsAbs s = true -> Clean s = unelems true (clean_elems true (elems s)).
Proof. intros H. unfold Clean. destruct (String.eqb_spec s ""); [by subst|]. by rewrite H. Qed.

Lemma Clean_trailing (s : string) : IsAbs s = true -> Clean (s +:+ sep) = Clean s.
Proof.
  intros Hs. rewrite !Clean_abs by (try apply IsAbs_app; done).
  change (s +:+ sep) with (s +:+ sep +:+ ""). rewrite elems_sep. simpl. by rewrite app_nil_r.
Qed.

(** Joining one plain element to a rooted path appends it. *)
Lemma JoinPath_elem (es : list string) (e : string) :
  Forall plain_elem es -> plain_elem e ->
  JoinPath [unelems true es; e] = unelems true (es ++ [e]).
Proof.
  intros Hes He. pose proof (IsAbs_unelems es) as Ha. unfold JoinPath.
  rewrite filter_cons_True by (by apply IsAbs_neq). rewrite filter_cons_True by apply He.
  change (filter _ []) with (@nil string). cbn [Join]. rewrite Clean_abs by (by apply IsAbs_app).
  rewrite elems_sep, elems_unelems, elems_plain by done.
  rewrite clean_elems_id; [done|]. apply Forall_app; split; [done|]. by constructor; [|constructor].
Qed.

Lemma Abs_unelems (cwd path : string) :
  IsAbs cwd = true -> exists es, Abs cwd path = unelems true es /\ Forall plain_elem es.
Proof.
  intros Hc. unfold Abs. destruct (IsAbs path) eqn:Hp; [by apply Clean_rooted|].
  unfold JoinPath. rewrite filter_cons_True by (by apply IsAbs_neq).
  destruct (filter _ [path]); apply Clean_rooted; [done|]. by apply IsAbs_app.
Qed.
