(* ===== verification/GoURL.v ===== *)
(** * Go URLs: the part of [net/url] the program uses

    [parse] follows [url.Parse] of the Go release the module requires: scheme,
    opaque and hierarchical forms, authority with user information, IP literals
    and ports, and the percent-encoding checks of each part.  A failure carries no
    detail, since the program never looks at it.  The text of the user information
    is kept undecoded. *)
From S2P Require Import Prelude GoStrings.

Record URL := mkURL {
  u_Scheme : string; u_Opaque : string; u_User : option string; u_Host : string;
  u_Path : string; u_EscapedPath : string; u_RawQuery : string; u_Fragment : string
}.

(** ** Bytes *)

Definition byteZ (a : ascii) : Z := Z.of_N (byte_val a).
Definition is_alpha (a : ascii) : bool :=
  let b := byteZ a in (97 <=? b) && (b <=? 122) || (65 <=? b) && (b <=? 90).
Definition is_alnum (a : ascii) : bool := is_alpha a || is_digit a.
Definition hexval (a : ascii) : option Z :=
  let b := byteZ a in
  if (48 <=? b) && (b <=? 57) then Some (b - 48)
  else if (97 <=? b) && (b <=? 102) then Some (b - 87)
  else if (65 <=? b) && (b <=? 70) then Some (b - 55)
  else None.
Definition quote_byte : ascii := ascii_of_N 34.

(** [strings.LastIndex] with a one-byte separator: the parts around it. *)
Fixpoint CutLast (s : string) (c : ascii) : option (string * string) :=
  match s with
  | "" => None
  | String a s' =>
      match CutLast s' c with
      | Some (l, r) => Some (String a l, r)
      | None => if Ascii.eqb a c then Some ("", s') else None
      end
  end.

(** The text before the first occurrence of [sub], and from it on. *)
Fixpoint CutBefore (s sub : string) : option (string * string) :=
  if HasPrefix s sub then Some ("", s)
  else match s with
       | "" => None
       | String a s' => match CutBefore s' sub with Some (l, r) => Some (String a l, r) | None => None end
       end.

Definition isSome {A} (o : option A) : bool := match o with Some _ => true | None => false end.

(** ** Percent encoding *)

Inductive encoding := encodePath | encodePathSegment | encodeHost | encodeZone | encodeUserPassword | encodeFragment.

Definition shouldEscape (a : ascii) (mode : encoding) : bool :=
  if is_alnum a then false
  else
    let host := match mode with encodeHost | encodeZone => true | _ => false end in
    if host && (ContainsByte "!$&'()*+,;=:[]<>" a || Ascii.eqb a quote_byte) then false
    else if ContainsByte "-_.~" a then false
    else if ContainsByte "$&+,/:;=?@" a then
      match mode with
      | encodePath => Ascii.eqb a "?"
      | encodePathSegment => ContainsByte "/;,?" a
      | encodeUserPassword => ContainsByte "@/?:" a
      | encodeFragment => false
      | encodeHost | encodeZone => true
      end
    else match mode with
         | encodeFragment => negb (ContainsByte "!()*" a)
         | _ => true
         end.

(** A plain byte is allowed as it is in a host; anything goes elsewhere. *)
Definition plainAllowed (a : ascii) (mode : encoding) : bool :=
  match mode with
  | encodeHost | encodeZone => (128 <=? byteZ a) || negb (shouldEscape a mode)
  | _ => true
  end.

(** An escape with value [v] (and text [%25] or not) is allowed. *)
Definition escapeAllowed (v : Z) (is25 : bool) (mode : encoding) : bool :=
  match mode with
  | encodeHost => is25 || (8 * 16 <=? v)
  | encodeZone => is25 || (v =? 32) || negb (shouldEscape (ascii_of_N (Z.to_N v)) encodeHost)
  | _ => true
  end.

Fixpoint unescape (s : string) (mode : encoding) : option string :=
  match s with
  | "" => Some ""
  | String a s' =>
      if Ascii.eqb a "%" then
        match s' with
        | String h (String l s'') =>
            match hexval h, hexval l with
            | Some x, Some y =>
                let v := 16 * x + y in
                if escapeAllowed v (v =? 37) mode then
                  String (ascii_of_N (Z.to_N v)) <$> unescape s'' mode
                else None
            | _, _ => None
            end
        | _ => None
        end
      else if plainAllowed a mode then String a <$> unescape s' mode
      else None
  end.

Definition PathUnescape (s : string) : option string := unescape s encodePathSegment.

Definition upperhex (n : Z) : ascii :=
  ascii_of_N (Z.to_N (if n <? 10 then 48 + n else 55 + n)).

Fixpoint escape (s : string) (mode : encoding) : string :=
  match s with
  | "" => ""
  | String a s' =>
      if shouldEscape a mode then
        String "%" (String (upperhex (byteZ a / 16)) (String (upperhex (byteZ a mod 16)) (escape s' mode)))
      else String a (escape s' mode)
  end.

(** [validEncoded(s, encodePath)] *)
Definition validEncodedPath (s : string) : bool :=
  forall_byte (fun a => ContainsByte "!$&'()*+,;=:@[]%" a || negb (shouldEscape a encodePath)) s.

(** ** Scheme *)

(** [Ok (scheme, rest)]; [None] is an error. *)
Fixpoint schemeFrom (first : bool) (acc : string) (s : string) : option (option (string * string)) :=
  match s with
  | "" => Some None
  | String a s' =>
      if is_alpha a then schemeFrom false (acc +:+ String a "") s'
      else if is_digit a || ContainsByte "+-." a then
        if first then Some None else schemeFrom false (acc +:+ String a "") s'
      else if Ascii.eqb a ":" then if first then None else Some (Some (acc, s'))
      else Some None
  end.

Definition getScheme (raw : string) : option (string * string) :=
  match schemeFrom true "" raw with
  | None => None
  | Some None => Some ("", raw)
  | Some (Some r) => Some r
  end.

(** ** Authority *)

Definition validOptionalPort (port : string) : bool :=
  match port with
  | "" => true
  | String a digits => Ascii.eqb a ":" && forall_byte is_digit digits
  end.

Definition validUserinfo (s : string) : bool :=
  forall_byte (fun a => is_alnum a || ContainsByte "-._:~!$&'()*+,;=%@" a) s.

(** IPv4 in the last field of an IPv6 address: four decimal fields up to 255
    without leading zeros. *)
Definition validIPv4 (s : string) : bool :=
  let fields := Split s "." in
  (Z.of_nat (length fields) =? 4)
  && forallb (fun f => negb (String.eqb f "") && forall_byte is_digit f && (len f <=? 3)
                       && ((len f =? 1) || negb (HasPrefix f "0"))
                       && match parse_digits f 0 with Some n => n <=? 255 | None => false end) fields.

Definition hexField (f : string) : bool :=
  negb (String.eqb f "") && (len f <=? 4)
  && forall_byte (fun a => match hexval a with Some _ => true | None => false end) f.

(** The number of 16-bit groups of a colon-separated list; a dotted last field counts two. *)
Fixpoint ipGroups (fields : list string) (dottedLast : bool) : option Z :=
  match fields with
  | [] => Some 0
  | [f] => if hexField f then Some 1 else if dottedLast && validIPv4 f then Some 2 else None
  | f :: fs => if hexField f then option_map (Z.add 1) (ipGroups fs dottedLast) else None
  end.

Definition colonFields (s : string) : list string := if String.eqb s "" then [] else Split s ":".

(** [netip.ParseAddr] accepts [s] as an IPv6 address. *)
Definition validIPv6 (s : string) : bool :=
  let '(addr, zone) := match Cut s "%" with Some (a, z) => (a, Some z) | None => (s, None) end in
  match zone with Some "" => false | _ => true end
  && ContainsByte addr ":"
  && match CutBefore addr "::" with
     | Some (l, r) =>
         match ipGroups (colonFields l) false, ipGroups (colonFields (TrimPrefix r "::")) true with
         | Some a, Some b => a + b <? 8
         | _, _ => false
         end
     | None => match ipGroups (Split addr ":") true with Some n => n =? 8 | None => false end
     end.

Definition parseHost (host : string) : option string :=
  match CutLast host "[" with
  | Some (before, rest) =>
      if negb (String.eqb before "") then None
      else match CutLast rest "]" with
      | None => None
      | Some (hostname, colonPort) =>
          if negb (validOptionalPort colonPort) then None
          else
            let inner :=
              match CutBefore hostname "%25" with
              | Some (h, z) =>
                  match unescape h encodeHost, unescape z encodeZone with
                  | Some h, Some z => Some (h +:+ z)
                  | _, _ => None
                  end
              | None => unescape hostname encodeHost
              end in
            match inner, unescape colonPort encodeHost with
            | Some h, Some p => if validIPv6 h then Some ("[" +:+ h +:+ "]" +:+ p) else None
            | _, _ => None
            end
      end
  | None =>
      match CutLast host ":" with
      | Some (h, p) =>
          if ContainsByte h ":" then None
          else if validOptionalPort (String ":" p) then unescape host encodeHost
          else None
      | None => unescape host encodeHost
      end
  end.

(** The user information (raw) and the host. *)
Definition parseAuthority (authority : string) : option (option string * string) :=
  match CutLast authority "@" with
  | None => option_map (fun h => (None, h)) (parseHost authority)
  | Some (userinfo, h) =>
      match parseHost h with
      | None => None
      | Some host =>
          if negb (validUserinfo userinfo) then None
          else
            let ok := match Cut userinfo ":" with
                      | None => isSome (unescape userinfo encodeUserPassword)
                      | Some (u, p) => isSome (unescape u encodeUserPassword)
                                       && isSome (unescape p encodeUserPassword)
                      end in
            if ok then Some (Some userinfo, host) else None
      end
  end.

(** ** The parser *)

Definition escapedPath (p path : string) : string :=
  let dflt := escape path encodePath in
  if String.eqb p dflt then dflt
  else if validEncodedPath p then p
  else if String.eqb path "*" then "*" else dflt.

Definition finishURL (scheme : string) (user : option string) (host rest query fragment : string) : option URL :=
  match unescape rest encodePath with
  | Some path => Some (mkURL scheme "" user host path (escapedPath rest path) query fragment)
  | None => None
  end.

Definition splitQuery (rest : string) : string * string :=
  match Cut rest "?" with Some r => r | None => (rest, "") end.

Definition parseNoFragment (raw fragment : string) : option URL :=
  if exists_byte (fun a => (byteZ a <? 32) || (byteZ a =? 127)) raw then None
  else if String.eqb raw "*" then Some (mkURL "" "" None "" "*" "*" "" fragment)
  else match getScheme raw with
  | None => None
  | Some (scheme, rest) =>
      let scheme := ToLower scheme in
      let '(rest, query) := splitQuery rest in
      if negb (HasPrefix rest "/") && negb (String.eqb scheme "") then
        Some (mkURL scheme rest None "" "" "" query fragment)
      else if negb (HasPrefix rest "/")
              && ContainsByte (match Cut rest "/" with Some (s, _) => s | None => rest end) ":" then None
      else if HasPrefix rest "//" && (negb (String.eqb scheme "") || negb (HasPrefix rest "///")) then
        let authority := TrimPrefix rest "//" in
        let '(authority, path) :=
          match CutBefore authority "/" with Some r => r | None => (authority, "") end in
        match parseAuthority authority with
        | Some (user, host) => finishURL scheme user host path query fragment
        | None => None
        end
      else finishURL scheme None "" rest query fragment
  end.

(** [url.Parse] *)
Definition parse (raw : string) : option URL :=
  let '(u, frag) := match Cut raw "#" with Some r => r | None => (raw, "") end in
  match parseNoFragment u frag with
  | None => None
  | Some url =>
      if String.eqb frag "" then Some url
      else if isSome (unescape frag encodeFragment) then Some url else None
  end.
