(* ===== verification/GoNet.v ===== *)
(** * Hosts, ports and queries: more of [net/url] and [net]

    The host and port of a URL, joining them back, and the parsing of a query string. *)
From S2P Require Import Prelude GoStrings GoURL.

(** ** Hosts and ports *)

(** [url.splitHostPort] *)
Definition splitHostPort (hostPort : string) : string * string :=
  let '(host, port) :=
    match CutLast hostPort ":" with
    | Some (host, port) => if forall_byte is_digit port then (host, port) else (hostPort, "")
    | None => (hostPort, "")
    end in
  (match CutPrefix host "[" with
   | Some inner => match CutSuffix inner "]" with Some inner => inner | None => host end
   | None => host
   end, port).

(** [URL.Hostname] and [URL.Port], of the host of a URL. *)
Definition Hostname (host : string) : string := (splitHostPort host).1.
Definition Port (host : string) : string := (splitHostPort host).2.

(** [net.JoinHostPort] *)
Definition JoinHostPort (host port : string) : string :=
  if ContainsByte host ":" then "[" +:+ host +:+ "]:" +:+ port else host +:+ ":" +:+ port.

(** [net.SplitHostPort]; its errors are not told apart. *)
Definition SplitHostPort (hostport : string) : option (string * string) :=
  match CutLast hostport ":" with
  | None => None
  | Some (before, port) =>
      if ContainsByte port "[" || ContainsByte port "]" then None
      else match CutPrefix before "[" with
      | Some rest =>
          match Cut rest "]" with
          | Some (host, "") => if ContainsByte host "[" then None else Some (host, port)
          | _ => None
          end
      | None => if ContainsAny before ":[]" then None else Some (before, port)
      end
  end.

(** ** Queries *)

Fixpoint plusToSpace (s : string) : string :=
  match s with "" => "" | String a s' => String (if Ascii.eqb a "+" then " "%char else a) (plusToSpace s') end.

(** [url.QueryUnescape]: a plus sign is a space, any escape is allowed. *)
Definition QueryUnescape (s : string) : option string := unescape (plusToSpace s) encodePathSegment.

(** One part of a query between ampersands: a pair, if it is well formed. *)
Definition queryPair (part : string) : option (string * string) :=
  if ContainsByte part ";" || String.eqb part "" then None
  else
    let '(key, value) := match Cut part "=" with Some p => p | None => (part, "") end in
    match QueryUnescape key, QueryUnescape value with
    | Some key, Some value => Some (key, value)
    | _, _ => None
    end.

(** The number of parts a query may have. *)
Definition maxQueryParams : nat := 10000.

(** [URL.Query], with its pairs in order: malformed parts are left out. *)
Definition ParseQuery (raw : string) : list (string * string) :=
  let parts := Split raw "&" in
  if (maxQueryParams <? length parts)%nat then [] else omap queryPair parts.

(** The first value of a key. *)
Fixpoint queryFirst (key : string) (q : list (string * string)) : option string :=
  match q with
  | [] => None
  | (k, v) :: rest => if String.eqb k key then Some v else queryFirst key rest
  end.

(** [Values.Get] *)
Definition queryGet (key : string) (q : list (string * string)) : string := default "" (queryFirst key q).

(** ** What a client writes *)

Definition queryPlain (a : ascii) : bool := is_alnum a || ContainsByte "-_.~" a.

(** [url.QueryEscape] *)
Fixpoint QueryEscape (s : string) : string :=
  match s with
  | "" => ""
  | String a s' =>
      if queryPlain a then String a (QueryEscape s')
      else if Ascii.eqb a " " then String "+" (QueryEscape s')
      else String "%" (String (upperhex (byteZ a / 16)) (String (upperhex (byteZ a mod 16)) (QueryEscape s')))
  end.

Definition queryText (pairs : list (string * string)) : string :=
  Join (map (fun kv => QueryEscape kv.1 +:+ "=" +:+ QueryEscape kv.2) pairs) "&".

(** ** Lemmas *)

Lemma hexval_upper (n : Z) : 0 <= n < 16 -> hexval (upperhex n) = Some n.
Proof.
  intros H. assert (n ∈ seqZ 0 16) as Hn by (apply elem_of_seqZ; lia).
  clear H. revert n Hn. apply Forall_forall. vm_compute. by repeat constructor.
Qed.

Lemma upper_not_plus (n : Z) : 0 <= n < 16 -> Ascii.eqb (upperhex n) "+" = false.
Proof.
  intros H. assert (n ∈ seqZ 0 16) as Hn by (apply elem_of_seqZ; lia).
  clear H. revert n Hn. apply Forall_forall. vm_compute. by repeat constructor.
Qed.

Lemma ascii_all (P : ascii -> bool) : forallb P (map (fun n => ascii_of_nat n) (seq 0 256)) = true -> forall a, P a = true.
Proof.
  intros H a. rewrite <- (ascii_nat_embedding a). rewrite forallb_forall in H. apply H, in_map, in_seq.
  pose proof (nat_ascii_bounded a). lia.
Qed.

Lemma byte_hex (a : ascii) : ascii_of_N (Z.to_N (16 * (byteZ a / 16) + byteZ a mod 16)) = a.
Proof. rewrite <- Z.div_mod by lia. unfold byteZ. rewrite N2Z.id. apply ascii_N_embedding. Qed.

Lemma QueryUnescape_Escape (s : string) : QueryUnescape (QueryEscape s) = Some s.
Proof.
  unfold QueryUnescape. induction s as [|a s IH]; [done|]. cbn [QueryEscape].
  assert (0 <= byteZ a < 256) as Ha by (unfold byteZ; pose proof (N_ascii_bounded a); lia).
  assert (0 <= byteZ a / 16 < 16) by (split; [apply Z.div_pos|apply Z.div_lt_upper_bound]; lia).
  assert (0 <= byteZ a mod 16 < 16) by (apply Z.mod_pos_bound; lia).
  destruct (queryPlain a) eqn:E.
  - assert (Ascii.eqb a "+" = false /\ Ascii.eqb a "%" = false) as [E1 E2].
    { assert (implb (queryPlain a) (negb (Ascii.eqb a "+") && negb (Ascii.eqb a "%")) = true) as H1.
      { clear. revert a. apply ascii_all. by vm_compute. }
      rewrite E in H1. cbn in H1. by destruct (Ascii.eqb a "+"), (Ascii.eqb a "%"). }
    cbn [plusToSpace unescape]. rewrite E1, E2. cbn [plainAllowed]. by rewrite IH.
  - destruct (Ascii.eqb_spec a " ") as [->|_].
    + cbn [plusToSpace]. change (Ascii.eqb "+" "+") with true. cbn [unescape]. change (Ascii.eqb " " "%") with false. cbn [plainAllowed].
      by rewrite IH.
    + cbn [plusToSpace]. change (Ascii.eqb "%" "+") with false. rewrite !upper_not_plus by done. cbn [unescape].
      change (Ascii.eqb "%" "%") with true. cbv iota. rewrite !hexval_upper by done. cbn [escapeAllowed].
      rewrite IH, byte_hex. done.
Qed.

(** No byte of an escaped text separates parts or pairs. *)
Lemma QueryEscape_bytes (f : ascii -> bool) (s : string) :
  (forall a, queryPlain a = true -> f a = true) -> f "+"%char = true -> f "%"%char = true -> forall_byte f (QueryEscape s) = true.
Proof.
  intros Hf Hp Hc. induction s as [|a s IH]; [done|]. cbn [QueryEscape]. destruct (queryPlain a) eqn:E.
  { cbn [forall_byte]. by rewrite Hf, IH. }
  destruct (Ascii.eqb a " "); cbn [forall_byte]; rewrite IH, ?Hp, ?Hc; [done|].
  assert (0 <= byteZ a < 256) as Ha by (unfold byteZ; pose proof (N_ascii_bounded a); lia).
  assert (forall n, 0 <= n < 16 -> queryPlain (upperhex n) = true) as Hh.
  { intros n H. assert (n ∈ seqZ 0 16) as Hn by (apply elem_of_seqZ; lia).
    clear H. revert n Hn. apply Forall_forall. vm_compute. by repeat constructor. }
  rewrite !Hf; [done|apply Hh, Z.mod_pos_bound; lia|apply Hh; split; [apply Z.div_pos|apply Z.div_lt_upper_bound]; lia].
Qed.

Lemma queryPlain_not (c : ascii) : In c ["&"%char; ";"%char; "="%char] -> forall a, queryPlain a = true -> negb (Ascii.eqb c a) = true.
Proof.
  intros Hc a E. apply negb_true_iff. destruct (Ascii.eqb_spec c a) as [<-|]; [|done].
  destruct Hc as [<-|[<-|[<-|[]]]]; vm_compute in E; discriminate E.
Qed.

Lemma QueryEscape_no (c : ascii) (s : string) : In c ["&"%char; ";"%char; "="%char] -> ContainsByte (QueryEscape s) c = false.
Proof.
  intros Hc. unfold ContainsByte, exists_byte. apply negb_false_iff.
  apply QueryEscape_bytes; [by apply queryPlain_not|destruct Hc as [<-|[<-|[<-|[]]]]; done..].
Qed.

(** At most three bytes for one. *)
Lemma QueryEscape_length (s : string) : len (QueryEscape s) <= 3 * len s.
Proof.
  unfold len. induction s as [|a s IH]; [done|]. cbn [QueryEscape]. destruct (queryPlain a), (Ascii.eqb a " "); cbn [String.length]; lia.
Qed.
