(* ===== verification/Text.v ===== *)
(** * Texts: splitting, trimming and cutting what was joined

    Lemmas on the [strings] operations of [GoStrings], used for the round trips of
    the session file and of HTTP header values: a token without white space comes
    back from [Fields] and [TrimSpace], a separator is found where it was put. *)
From S2P Require Import Prelude GoStrings GoURL.

(** A byte that is no part of a multi-byte rune. *)
Definition ascii_byte (a : ascii) : bool := (byte_val a <? 128)%N.

Lemma ascii_space_byte (a : ascii) : is_ascii_space a = true -> ascii_byte a = true.
Proof. destruct a as [[] [] [] [] [] [] [] []]; vm_compute; congruence. Qed.

Lemma ascii_byte_not (a : ascii) : ascii_byte a = true ->
  (forall n, (128 <= n)%N -> (byte_val a =? n)%N = false) /\ (forall n, (128 <= n)%N -> (n <=? byte_val a)%N = false).
Proof.
  unfold ascii_byte. intros H%N.ltb_lt. split; intros n Hn; [apply N.eqb_neq|apply N.leb_gt]; lia.
Qed.

(** *** White space at a position *)

(** Appending an ASCII byte, and anything after it, starts no white space before it. *)
Lemma lead_space_app (a : ascii) (t : string) (b : ascii) (s : string) :
  ascii_byte a = true -> lead_space (String b s) = None -> lead_space (String b s +:+ String a t) = None.
Proof.
  intros Ha%ascii_byte_not Hs. destruct Ha as [He Hle].
  rewrite !str_app_cons. cbn [lead_space] in *. destruct (is_ascii_space b); [done|].
  destruct s as [|c s]; [rewrite str_app_nil_l|rewrite str_app_cons]; cbv zeta in *.
  - rewrite !(He _) by lia. cbn [orb]. rewrite andb_false_r. destruct t as [|d t]; [done|].
    rewrite !andb_false_r. cbn [andb orb]. done.
  - revert Hs. destruct ((_ =? 194)%N && _); [done|]. destruct s as [|d s].
    + intros _. rewrite str_app_nil_l, !(He _), !(Hle _) by lia. cbn [andb orb]. by rewrite !andb_false_r.
    + rewrite str_app_cons. by destruct (_ || _).
Qed.

Lemma lead_space_token (a : ascii) (t s : string) :
  ascii_byte a = true -> has_space s = false -> s <> "" -> lead_space (s +:+ String a t) = None.
Proof.
  intros Ha Hs Hne. destruct s as [|b s]; [done|]. apply lead_space_app; [done|]. by apply has_space_cons in Hs as [? _].
Qed.

Lemma has_space_app (s t : string) (a : ascii) :
  ascii_byte a = true -> has_space (s +:+ String a t) = has_space s || has_space (String a t).
Proof.
  intros Ha. induction s as [|b s IH]; [done|].
  rewrite str_app_cons. unfold has_space in *. cbn [exists_suffix].
  destruct (lead_space (String b s)) as [r|] eqn:E.
  - assert (lead_space (String b s +:+ String a t) <> None) as Hn.
    { rewrite str_app_cons. revert E. cbn [lead_space]. destruct (is_ascii_space b); [done|].
      destruct s as [|c s]; [done|]. rewrite str_app_cons. cbv zeta. destruct ((_ =? 194)%N && _); [done|].
      destruct s as [|d s]; [done|]. rewrite str_app_cons. by case_match. }
    rewrite str_app_cons in Hn. revert Hn. by destruct (lead_space (String b (s +:+ String a t))).
  - pose proof (lead_space_app a t b s Ha E) as Hl. rewrite str_app_cons in Hl. rewrite Hl. simpl. apply IH.
Qed.

Lemma lead_space_length (s r : string) : lead_space s = Some r -> (String.length r < String.length s)%nat.
Proof.
  unfold lead_space. destruct s as [|a s]; [done|]. simpl. case_match; [intros [= <-]; lia|].
  destruct s as [|b s]; [done|]. case_match; [intros [= <-]; simpl; lia|].
  destruct s as [|c s]; [done|]. case_match; [intros [= <-]; simpl; lia|done].
Qed.

(** *** Fields *)

Lemma fields_fuel_enough (f1 f2 : nat) (cur s : string) :
  (String.length s < f1)%nat -> (String.length s < f2)%nat -> fields_fuel f1 cur s = fields_fuel f2 cur s.
Proof.
  revert f2 cur s. induction f1 as [|f1 IH]; intros f2 cur s H1 H2; [lia|]. destruct f2 as [|f2]; [lia|].
  cbn [fields_fuel]. destruct s as [|a s]; [done|]. destruct (lead_space (String a s)) as [r|] eqn:E.
  - apply lead_space_length in E. f_equal. apply IH; simpl in *; lia.
  - apply IH; simpl in *; lia.
Qed.

Lemma str_app_length (s t : string) : String.length (s +:+ t) = (String.length s + String.length t)%nat.
Proof. induction s as [|a s IH]; [done|]. rewrite str_app_cons. cbn. by rewrite IH. Qed.

(** Reading a token up to a space, or to the end. *)
Lemma fields_token (fuel : nat) (cur s rest : string) (a : ascii) :
  has_space s = false -> is_ascii_space a = true -> (String.length s + String.length rest + 1 < fuel)%nat ->
  fields_fuel fuel cur (s +:+ String a rest)
  = (if String.eqb (cur +:+ s) "" then [] else [cur +:+ s]) ++ Fields rest.
Proof.
  intros Hs Ha. revert fuel cur. induction s as [|b s IH]; intros fuel cur Hf.
  - rewrite str_app_nil_l, str_app_nil_r. destruct fuel as [|fuel]; [lia|]. cbn [fields_fuel lead_space]. rewrite Ha.
    unfold Fields. f_equal. apply fields_fuel_enough; simpl in *; lia.
  - apply has_space_cons in Hs as [Hl Hs]. destruct fuel as [|fuel]; [lia|].
    pose proof (lead_space_app a rest b s (ascii_space_byte a Ha) Hl) as Hl'. rewrite str_app_cons in *.
    cbn [fields_fuel]. rewrite Hl'. rewrite IH by (done || simpl in *; lia).
    by rewrite str_app_assoc.
Qed.

Lemma fields_last (fuel : nat) (cur s : string) :
  has_space s = false -> (String.length s < fuel)%nat ->
  fields_fuel fuel cur s = (if String.eqb (cur +:+ s) "" then [] else [cur +:+ s]).
Proof.
  intros Hs. revert fuel cur. induction s as [|b s IH]; intros fuel cur Hf; (destruct fuel as [|fuel]; [lia|]).
  - by rewrite str_app_nil_r.
  - apply has_space_cons in Hs as [Hl Hs]. cbn [fields_fuel]. rewrite Hl. rewrite IH by (done || simpl in *; lia).
    by rewrite str_app_assoc.
Qed.

Lemma eqb_empty (s : string) : s <> "" -> String.eqb s "" = false.
Proof. by destruct s. Qed.

(** A token: a non-empty text without white space. *)
Definition token (s : string) : Prop := s <> "" /\ has_space s = false.

Lemma Fields_cons (s rest : string) (a : ascii) :
  token s -> is_ascii_space a = true -> Fields (s +:+ String a rest) = s :: Fields rest.
Proof.
  intros [Hne Hs] Ha. unfold Fields at 1. rewrite fields_token; [|done|done|rewrite str_app_length; simpl; lia].
  by rewrite str_app_nil_l, eqb_empty.
Qed.

Lemma Fields_one (s : string) : token s -> Fields s = [s].
Proof. intros [Hne Hs]. unfold Fields. rewrite fields_last by (done || lia). by rewrite str_app_nil_l, eqb_empty. Qed.

(** [Fields] undoes joining tokens with a space character. *)
Lemma Fields_Join (l : list string) (a : ascii) :
  is_ascii_space a = true -> Forall token l -> Fields (Join l (String a "")) = l.
Proof.
  intros Ha. induction l as [|s l IH]; intros Hl; [done|]. apply Forall_cons in Hl as [Hs Hl].
  destruct l as [|s2 l]; [by apply Fields_one|].
  change (Join (s :: s2 :: l) (String a "")) with (s +:+ String a "" +:+ Join (s2 :: l) (String a "")).
  rewrite str_app_cons, str_app_nil_l, Fields_cons by done. by rewrite IH.
Qed.

(** *** Trimming *)

Lemma trim_left_space (a : ascii) (s : string) : is_ascii_space a = true -> trim_left (String a s) = trim_left s.
Proof. intros Ha. unfold trim_left. cbn [String.length trim_left_fuel lead_space]. by rewrite Ha. Qed.

Lemma all_space_token_app (s t : string) (a : ascii) :
  ascii_byte a = true -> token s -> all_space (s +:+ String a t) = false.
Proof.
  intros Ha [Hne Hs]. unfold all_space. rewrite trim_left_id by by apply lead_space_token.
  by destruct s.
Qed.

(** Trimming keeps what starts with a token and ends without white space. *)
Lemma trim_right_app (s t : string) (a : ascii) :
  has_space s = false -> ascii_byte a = true -> trim_right (String a t) = String a t ->
  trim_right (s +:+ String a t) = s +:+ String a t.
Proof.
  intros Hs Ha Ht. induction s as [|b s IH]; [done|]. pose proof Hs as Hs'. apply has_space_cons in Hs as [_ Hs].
  assert (token (String b s)) as Htok by done.
  pose proof (all_space_token_app (String b s) t a Ha Htok) as Hall. rewrite str_app_cons in *.
  cbn [trim_right]. rewrite Hall. by rewrite IH.
Qed.

(** Trimming is idempotent on trimmed texts, seen from each side. *)
Lemma TrimSpace_fix (s : string) : TrimSpace s = s -> trim_right s = s /\ (s <> "" -> lead_space s = None).
Proof.
  unfold TrimSpace. intros H.
  assert (forall t, (String.length (trim_right t) <= String.length t)%nat) as Hr.
  { induction t as [|b t IH]; [done|]. cbn [trim_right]. destruct (all_space _); simpl in *; lia. }
  assert (forall n t, (String.length (trim_left_fuel n t) <= String.length t)%nat) as Hl.
  { induction n as [|n IH]; intros t; [done|]. cbn [trim_left_fuel].
    destruct (lead_space t) as [r|] eqn:E; [|done]. apply lead_space_length in E. specialize (IH r). lia. }
  assert (lead_space s = None) as Hlead.
  { destruct (lead_space s) as [r|] eqn:E; [|done]. exfalso.
    assert (String.length (trim_left s) < String.length s)%nat as Hlt.
    { unfold trim_left. destruct s as [|b s]; [done|]. cbn [String.length trim_left_fuel]. rewrite E.
      apply lead_space_length in E. specialize (Hl (String.length s) r). simpl in *. lia. }
    specialize (Hr (trim_left s)). rewrite H in Hr. lia. }
  rewrite trim_left_id in H by done. by split.
Qed.

Lemma trim_right_digit (a : ascii) (t : string) : plain_byte a = true -> trim_right t = t -> trim_right (String a t) = String a t.
Proof.
  intros Ha Ht. cbn [trim_right]. unfold all_space. rewrite trim_left_id by by apply lead_space_plain. by rewrite Ht.
Qed.

(** An ASCII text that ends with a plain byte is not trimmed at its end. *)
Lemma all_space_ascii_app (s : string) (c : ascii) :
  forall_byte ascii_byte s = true -> plain_byte c = true -> all_space (s +:+ String c "") = false.
Proof.
  intros Hs Hc. unfold all_space. induction s as [|a s IH].
  - rewrite str_app_nil_l, trim_left_id by by apply lead_space_plain. done.
  - cbn [forall_byte] in Hs. apply andb_true_iff in Hs as [Ha Hs]. rewrite str_app_cons.
    destruct (is_ascii_space a) eqn:E.
    + rewrite trim_left_space by done. by apply IH.
    + rewrite trim_left_id; [done|]. apply lead_space_plain. unfold plain_byte, ascii_byte in *. by rewrite Ha, E.
Qed.

Lemma trim_right_ascii_app (s : string) (c : ascii) :
  forall_byte ascii_byte s = true -> plain_byte c = true -> trim_right (s +:+ String c "") = s +:+ String c "".
Proof.
  intros Hs Hc. induction s as [|a s IH].
  - rewrite str_app_nil_l. by apply trim_right_digit.
  - pose proof (all_space_ascii_app (String a s) c Hs Hc) as H. rewrite str_app_cons in *. cbn [trim_right]. rewrite H.
    cbn [forall_byte] in Hs. apply andb_true_iff in Hs as [_ Hs]. by rewrite IH.
Qed.

(** *** Cutting *)

Lemma Cut_app (s t : string) (c : ascii) :
  ContainsByte s c = false -> Cut (s +:+ String c t) c = Some (s, t).
Proof.
  unfold ContainsByte, exists_byte. intros H%negb_false_iff. induction s as [|a s IH].
  - rewrite str_app_nil_l. simpl. by rewrite Ascii.eqb_refl.
  - cbn [forall_byte] in H. apply andb_true_iff in H as [Ha Hs]. rewrite str_app_cons. cbn [Cut].
    rewrite Ascii.eqb_sym. apply negb_true_iff in Ha as ->. by rewrite IH.
Qed.

Lemma forall_byte_not_contains (f : ascii -> bool) (s : string) (c : ascii) :
  forall_byte f s = true -> f c = false -> ContainsByte s c = false.
Proof.
  intros H Hc. unfold ContainsByte, exists_byte. apply negb_false_iff. revert H. apply forall_byte_impl.
  intros a Ha. apply negb_true_iff, Ascii.eqb_neq. intros <-. congruence.
Qed.

Lemma Cut_None (s : string) (c : ascii) : ContainsByte s c = false -> Cut s c = None.
Proof.
  unfold ContainsByte, exists_byte. intros H%negb_false_iff. induction s as [|a s IH]; [done|].
  cbn [forall_byte] in H. apply andb_true_iff in H as [Ha Hs]. cbn [Cut].
  rewrite Ascii.eqb_sym. apply negb_true_iff in Ha as ->. by rewrite IH.
Qed.

(** What [Cut] returns was joined by the separator. *)
Lemma Cut_inv (s : string) (c : ascii) (l r : string) : Cut s c = Some (l, r) -> s = l +:+ String c r /\ ContainsByte l c = false.
Proof.
  revert l. induction s as [|a s IH]; intros l H; [done|]. cbn [Cut] in H.
  destruct (Ascii.eqb_spec a c) as [->|Hne]; [by simplify_eq|].
  destruct (Cut s c) as [[l' r']|]; [|done]. simplify_eq. destruct (IH l' eq_refl) as [-> Hl]. split; [done|].
  unfold ContainsByte, exists_byte in *. apply negb_false_iff. apply negb_false_iff in Hl. cbn [forall_byte].
  rewrite Hl, andb_true_r. by apply negb_true_iff, Ascii.eqb_neq, not_eq_sym.
Qed.

(** *** Numbers *)

Lemma plain_has_no_space (s : string) : s <> "" -> forall_byte plain_byte s = true -> token s.
Proof. intros Hne H. split; [done|]. by apply has_space_plain. Qed.

Lemma FormatInt_plain (n : Z) : 0 <= n -> forall_byte plain_byte (FormatInt n) = true.
Proof. intros Hn. eapply forall_byte_impl; [apply is_digit_plain|]. by apply FormatInt_digits. Qed.
