(* ===== verification/Base64.v ===== *)
(** * Base64: the part of [encoding/base64] the program uses

    The standard alphabet with padding (torrents, basic authentication) and without
    (torrents), and the unpadded URL alphabet (session option lists).  Decoding skips line breaks and
    ignores the spare bits of the last group, as Go's non-strict encodings do; a
    failure carries no detail. *)
From S2P Require Import Prelude GoStrings GoURL.

(** The encodings the program uses. *)
Inductive b64mode := StdEncoding | RawStdEncoding | RawURLEncoding.

Definition padded (m : b64mode) : bool := match m with StdEncoding => true | _ => false end.
Definition stdAlphabet (m : b64mode) : bool := match m with RawURLEncoding => false | _ => true end.

Definition b64_char (m : b64mode) (v : Z) : ascii :=
  ascii_of_N (Z.to_N
    (if v <? 26 then 65 + v
     else if v <? 52 then 97 + (v - 26)
     else if v <? 62 then 48 + (v - 52)
     else if v =? 62 then (if stdAlphabet m then 43 else 45)
     else (if stdAlphabet m then 47 else 95))).

Definition b64_val (m : b64mode) (a : ascii) : option Z :=
  let b := byteZ a in
  if (65 <=? b) && (b <=? 90) then Some (b - 65)
  else if (97 <=? b) && (b <=? 122) then Some (b - 97 + 26)
  else if (48 <=? b) && (b <=? 57) then Some (b - 48 + 52)
  else if b =? (if stdAlphabet m then 43 else 45) then Some 62
  else if b =? (if stdAlphabet m then 47 else 95) then Some 63
  else None.

Definition pad_char : ascii := "="%char.
Definition pad_if (m : b64mode) (s : string) : string := if padded m then s else "".

Fixpoint b64encode (m : b64mode) (s : string) : string :=
  let ch v := b64_char m v in
  match s with
  | "" => ""
  | String a "" =>
      let a := byteZ a in
      String (ch (a / 4)) (String (ch ((a mod 4) * 16)) (pad_if m (String pad_char (String pad_char ""))))
  | String a (String b "") =>
      let a := byteZ a in let b := byteZ b in
      String (ch (a / 4)) (String (ch ((a mod 4) * 16 + b / 16)) (String (ch ((b mod 16) * 4))
        (pad_if m (String pad_char ""))))
  | String a (String b (String c rest)) =>
      let a := byteZ a in let b := byteZ b in let c := byteZ c in
      String (ch (a / 4)) (String (ch ((a mod 4) * 16 + b / 16)) (String (ch ((b mod 16) * 4 + c / 64))
        (String (ch (c mod 64)) (b64encode m rest))))
  end.

Definition byte_of (z : Z) : ascii := ascii_of_N (Z.to_N (z mod 256)).

(** Decoding of a text without line breaks. *)
Fixpoint b64groups (m : b64mode) (s : string) : option string :=
  match s with
  | "" => Some ""
  | String c1 (String c2 rest) =>
      match b64_val m c1, b64_val m c2 with
      | Some v1, Some v2 =>
          let b1 := byte_of (v1 * 4 + v2 / 16) in
          match rest with
          | "" => if padded m then None else Some (String b1 "")
          | String c3 rest3 =>
              match b64_val m c3 with
              | None => if padded m && String.eqb rest (String pad_char (String pad_char "")) then Some (String b1 "") else None
              | Some v3 =>
                  let b2 := byte_of (v2 * 16 + v3 / 4) in
                  match rest3 with
                  | "" => if padded m then None else Some (String b1 (String b2 ""))
                  | String c4 rest4 =>
                      match b64_val m c4 with
                      | None => if padded m && String.eqb rest3 (String pad_char "")
                                then Some (String b1 (String b2 "")) else None
                      | Some v4 =>
                          match b64groups m rest4 with
                          | Some r => Some (String b1 (String b2 (String (byte_of (v3 * 64 + v4)) r)))
                          | None => None
                          end
                      end
                  end
              end
          end
      | _, _ => None
      end
  | _ => None
  end.

Definition is_line_break (a : ascii) : bool := (byteZ a =? 10) || (byteZ a =? 13).

Fixpoint without (f : ascii -> bool) (s : string) : string :=
  match s with
  | "" => ""
  | String a s' => if f a then without f s' else String a (without f s')
  end.

(** [EncodeToString] and [DecodeString]. *)
Definition EncodeToString : b64mode -> string -> string := b64encode.
Definition DecodeString (m : b64mode) (s : string) : option string := b64groups m (without is_line_break s).

(** The bytes of the complete groups that start a text: what a stream decoder delivers
    before it fails. *)
Fixpoint b64complete (m : b64mode) (s : string) : Z :=
  match s with
  | String c1 (String c2 (String c3 (String c4 rest))) =>
      match b64_val m c1, b64_val m c2, b64_val m c3, b64_val m c4 with
      | Some _, Some _, Some _, Some _ => 3 + b64complete m rest
      | _, _, _, _ => 0
      end
  | _ => 0
  end.

(** [EncodedLen] with padding *)
Definition EncodedLen (n : Z) : Z := (n + 2) / 3 * 4.

(** ** Lemmas *)

Lemma byteZ_range (a : ascii) : 0 <= byteZ a < 256.
Proof. destruct a as [[] [] [] [] [] [] [] []]; vm_compute; split; congruence. Qed.

Lemma byte_of_byteZ (a : ascii) : byte_of (byteZ a) = a.
Proof. destruct a as [[] [] [] [] [] [] [] []]; by vm_compute. Qed.

Lemma b64_val_char (m : b64mode) (v : Z) : 0 <= v < 64 -> b64_val m (b64_char m v) = Some v.
Proof.
  intros H. assert (v ∈ seqZ 0 64) as Hin by (apply elem_of_seqZ; lia).
  assert (Forall (fun v => b64_val m (b64_char m v) = Some v) (seqZ 0 64)) as Hf.
  { apply (bool_decide_unpack _). by destruct m; vm_compute. }
  rewrite Forall_forall in Hf. by apply Hf.
Qed.

Definition b64_text (m : b64mode) (a : ascii) : bool :=
  match b64_val m a with Some _ => true | None => padded m && Ascii.eqb a pad_char end.

Lemma b64_char_text (m : b64mode) (v : Z) : 0 <= v < 64 -> b64_text m (b64_char m v) = true.
Proof. intros H. unfold b64_text. by rewrite b64_val_char. Qed.

(** The sextets of three bytes give the bytes back. *)
Lemma sextets (a b c : Z) :
  0 <= a < 256 -> 0 <= b < 256 -> 0 <= c < 256 ->
  0 <= a / 4 < 64 /\ 0 <= a mod 4 * 16 + b / 16 < 64 /\ 0 <= b mod 16 * 4 + c / 64 < 64 /\ 0 <= c mod 64 < 64
  /\ (a / 4 * 4 + (a mod 4 * 16 + b / 16) / 16) = a
  /\ ((a mod 4 * 16 + b / 16) * 16 + (b mod 16 * 4 + c / 64) / 4) mod 256 = b
  /\ ((b mod 16 * 4 + c / 64) * 64 + c mod 64) mod 256 = c.
Proof.
  intros Ha Hb Hc.
  pose proof (Z.div_mod a 4 ltac:(lia)). pose proof (Z.mod_pos_bound a 4 ltac:(lia)).
  pose proof (Z.div_mod b 16 ltac:(lia)). pose proof (Z.mod_pos_bound b 16 ltac:(lia)).
  pose proof (Z.div_mod c 64 ltac:(lia)). pose proof (Z.mod_pos_bound c 64 ltac:(lia)).
  assert ((a mod 4 * 16 + b / 16) / 16 = a mod 4) as ->.
  { rewrite Z.div_add_l by lia. rewrite (Z.div_small (b / 16) 16); lia. }
  assert ((b mod 16 * 4 + c / 64) / 4 = b mod 16) as ->.
  { rewrite Z.div_add_l by lia. rewrite (Z.div_small (c / 64) 4); lia. }
  split_and!; try lia.
  - symmetry. apply (Z.mod_unique_pos _ _ (a mod 4)); lia.
  - symmetry. apply (Z.mod_unique_pos _ _ (b mod 16)); lia.
Qed.

(** Induction on texts three bytes at a time. *)
Lemma three_ind (P : string -> Prop) :
  P "" -> (forall a, P (String a "")) -> (forall a b, P (String a (String b ""))) ->
  (forall a b c s, P s -> P (String a (String b (String c s)))) -> forall s, P s.
Proof.
  intros H0 H1 H2 H3. fix IH 1. intros [|a [|b [|c s]]]; [done|apply H1|apply H2|]. apply H3, IH.
Qed.

Lemma byte_of_eq (z : Z) (a : ascii) : z mod 256 = byteZ a -> byte_of z = a.
Proof. intros H. unfold byte_of. rewrite H. rewrite <- (byte_of_byteZ a) at 2. unfold byte_of. by rewrite Z.mod_small by apply byteZ_range. Qed.

Lemma b64groups_encode (m : b64mode) (s : string) : b64groups m (b64encode m s) = Some s.
Proof.
  assert (b64_val m pad_char = None) as Hpad by (by destruct m).
  induction s as [|a|a b|a b c s IH] using three_ind; [done| | |].
  - destruct (sextets (byteZ a) 0 0) as (H1 & H2 & _ & _ & H5 & _); [apply byteZ_range|lia|lia|].
    change (0 / 16) with 0 in *. rewrite Z.add_0_r in H2, H5.
    cbn [b64encode b64groups]. rewrite !b64_val_char by done.
    rewrite (byte_of_eq _ a) by (rewrite H5; apply Z.mod_small, byteZ_range).
    unfold pad_if. destruct m; cbn; [|done|done]. by rewrite Hpad.
  - destruct (sextets (byteZ a) (byteZ b) 0) as (H1 & H2 & H3 & _ & H5 & H6 & _); [apply byteZ_range..|lia|].
    change (0 / 64) with 0 in *. rewrite Z.add_0_r in H3, H6.
    cbn [b64encode b64groups]. rewrite !b64_val_char by done.
    rewrite (byte_of_eq _ a) by (rewrite H5; apply Z.mod_small, byteZ_range).
    rewrite (byte_of_eq _ b) by done.
    unfold pad_if. destruct m; cbn; [|done|done]. by rewrite Hpad.
  - destruct (sextets (byteZ a) (byteZ b) (byteZ c)) as (H1 & H2 & H3 & H4 & H5 & H6 & H7); [apply byteZ_range..|].
    cbn [b64encode b64groups]. rewrite !b64_val_char by done. rewrite IH.
    rewrite (byte_of_eq _ a) by (rewrite H5; apply Z.mod_small, byteZ_range).
    by rewrite (byte_of_eq _ b), (byte_of_eq _ c) by done.
Qed.

Lemma b64encode_text (m : b64mode) (s : string) : forall_byte (b64_text m) (b64encode m s) = true.
Proof.
  induction s as [|a|a b|a b c s IH] using three_ind; [done| | |].
  - destruct (sextets (byteZ a) 0 0) as (H1 & H2 & _); [apply byteZ_range|lia|lia|].
    change (0 / 16) with 0 in *. rewrite Z.add_0_r in H2.
    cbn [b64encode forall_byte]. rewrite !b64_char_text by done. by destruct m.
  - destruct (sextets (byteZ a) (byteZ b) 0) as (H1 & H2 & H3 & _); [apply byteZ_range..|lia|].
    change (0 / 64) with 0 in *. rewrite Z.add_0_r in H3.
    cbn [b64encode forall_byte]. rewrite !b64_char_text by done. by destruct m.
  - destruct (sextets (byteZ a) (byteZ b) (byteZ c)) as (H1 & H2 & H3 & H4 & _); [apply byteZ_range..|].
    cbn [b64encode forall_byte]. by rewrite !b64_char_text, IH by done.
Qed.

Lemma without_none (f : ascii -> bool) (s : string) : forall_byte (fun a => negb (f a)) s = true -> without f s = s.
Proof.
  induction s as [|a s IH]; [done|]. cbn [forall_byte without]. intros [H1%negb_true_iff H2]%andb_true_iff.
  by rewrite H1, IH.
Qed.

Lemma b64_text_plain (m : b64mode) (a : ascii) :
  b64_text m a = true -> plain_byte a = true /\ is_line_break a = false.
Proof. destruct m, a as [[] [] [] [] [] [] [] []]; vm_compute; auto. Qed.

(** Decoding an encoded text gives the text back. *)
Lemma DecodeString_EncodeToString (m : b64mode) (s : string) : DecodeString m (EncodeToString m s) = Some s.
Proof.
  unfold DecodeString, EncodeToString. rewrite without_none; [apply b64groups_encode|].
  eapply forall_byte_impl; [|apply (b64encode_text m)].
  intros a Ha. by destruct (b64_text_plain m a Ha) as [_ ->].
Qed.

Lemma EncodeToString_plain (m : b64mode) (s : string) : forall_byte plain_byte (EncodeToString m s) = true.
Proof. eapply forall_byte_impl; [|apply (b64encode_text m)]. intros a Ha. by apply (b64_text_plain m a). Qed.
