(* ===== verification/Json.v ===== *)
(** * JSON arrays of strings: what the program uses of [encoding/json] on [[]string]

    [Marshal] of a list of strings, with Go's HTML-safe escapes, and [Unmarshal]
    into a [[]string]: every text that is not a JSON array of strings and nulls (or
    the single [null]) is an error, and the errors are not told apart. *)
From S2P Require Import Prelude GoStrings GoURL Text.

(** ** UTF-8 *)

Definition between (lo hi b : Z) : bool := (lo <=? b) && (b <=? hi).

(** The bounds of the second byte of a rune with this first byte, and its length. *)
Definition utf8_lead (b : Z) : option (nat * Z * Z) :=
  if between 194 223 b then Some (2%nat, 128, 191)
  else if b =? 224 then Some (3%nat, 160, 191)
  else if b =? 237 then Some (3%nat, 128, 159)
  else if between 225 239 b then Some (3%nat, 128, 191)
  else if b =? 240 then Some (4%nat, 144, 191)
  else if between 241 243 b then Some (4%nat, 128, 191)
  else if b =? 244 then Some (4%nat, 128, 143)
  else None.

(** The valid multi-byte rune that starts a text, and the rest. *)
Definition utf8_rune (s : string) : option (string * string) :=
  match s with
  | String a (String b s2) =>
      match utf8_lead (byteZ a) with
      | Some (n, lo, hi) =>
          if between lo hi (byteZ b) then
            match n, s2 with
            | 2%nat, _ => Some (String a (String b ""), s2)
            | 3%nat, String c s3 =>
                if between 128 191 (byteZ c) then Some (String a (String b (String c "")), s3) else None
            | 4%nat, String c (String d s4) =>
                if between 128 191 (byteZ c) && between 128 191 (byteZ d)
                then Some (String a (String b (String c (String d ""))), s4) else None
            | _, _ => None
            end
          else None
      | None => None
      end
  | _ => None
  end.

Definition chr (z : Z) : ascii := ascii_of_N (Z.to_N z).

(** [utf8.AppendRune] of a scalar value. *)
Definition encodeRune (r : Z) : string :=
  if r <? 128 then String (chr r) ""
  else if r <? 2048 then String (chr (192 + r / 64)) (String (chr (128 + r mod 64)) "")
  else if r <? 65536 then
    String (chr (224 + r / 4096)) (String (chr (128 + r / 64 mod 64)) (String (chr (128 + r mod 64)) ""))
  else String (chr (240 + r / 262144)) (String (chr (128 + r / 4096 mod 64))
         (String (chr (128 + r / 64 mod 64)) (String (chr (128 + r mod 64)) ""))).

Definition replacementChar : string := encodeRune 65533.

(** ** Encoding *)

Definition quote_char : ascii := chr 34.
Definition hex_lower (n : Z) : ascii := if n <? 10 then chr (48 + n) else chr (87 + n).
Definition unicode_escape (n : Z) : string :=
  "\u" +:+ String (hex_lower (n / 4096)) (String (hex_lower (n / 256 mod 16))
    (String (hex_lower (n / 16 mod 16)) (String (hex_lower (n mod 16)) ""))).

(** The text of one byte below 128. *)
Definition json_escape (a : ascii) : string :=
  let b := byteZ a in
  if (b =? 34) || (b =? 92) then String "\" (String a "")
  else if b =? 8 then "\b" else if b =? 12 then "\f" else if b =? 10 then "\n"
  else if b =? 13 then "\r" else if b =? 9 then "\t"
  else if (b <? 32) || (b =? 60) || (b =? 62) || (b =? 38) then unicode_escape b
  else String a "".

(** The fuel is the number of bytes. *)
Fixpoint json_body (fuel : nat) (s : string) : string :=
  match fuel, s with
  | S fuel', String a s' =>
      if byteZ a <? 128 then json_escape a +:+ json_body fuel' s'
      else match utf8_rune s with
           | None => "\ufffd" +:+ json_body fuel' s'
           | Some (r, rest) =>
               (if String.eqb r (encodeRune 8232) then "\u2028"
                else if String.eqb r (encodeRune 8233) then "\u2029" else r) +:+ json_body fuel' rest
           end
  | _, _ => ""
  end.

Definition json_quote (s : string) : string :=
  String quote_char (json_body (String.length s) s +:+ String quote_char "").

Definition MarshalStrings (l : list string) : string := "[" +:+ Join (map json_quote l) "," +:+ "]".

(** ** Decoding *)

Definition json_space (a : ascii) : bool := let b := byteZ a in (b =? 32) || (b =? 9) || (b =? 10) || (b =? 13).

Fixpoint skip_space (s : string) : string :=
  match s with String a s' => if json_space a then skip_space s' else s | "" => "" end.

Definition hex_digit (a : ascii) : option Z :=
  let b := byteZ a in
  if between 48 57 b then Some (b - 48)
  else if between 97 102 b then Some (b - 87)
  else if between 65 70 b then Some (b - 55)
  else None.

Definition hex4 (s : string) : option (Z * string) :=
  match s with
  | String a (String b (String c (String d rest))) =>
      match hex_digit a, hex_digit b, hex_digit c, hex_digit d with
      | Some a, Some b, Some c, Some d => Some (a * 4096 + b * 256 + c * 16 + d, rest)
      | _, _, _, _ => None
      end
  | _ => None
  end.

Definition simple_escape (a : ascii) : option ascii :=
  let b := byteZ a in
  if (b =? 34) || (b =? 92) || (b =? 47) then Some a
  else if b =? 98 then Some (chr 8) else if b =? 102 then Some (chr 12) else if b =? 110 then Some (chr 10)
  else if b =? 114 then Some (chr 13) else if b =? 116 then Some (chr 9) else None.

(** The rune of an escape, which may take a second escape for a surrogate pair. *)
Definition escaped_rune (n : Z) (rest : string) : string * string :=
  if between 55296 57343 n then
    match CutPrefix rest "\u" with
    | Some rest' =>
        match hex4 rest' with
        | Some (m, rest2) =>
            if (n <? 56320) && between 56320 57343 m
            then (encodeRune ((n - 55296) * 1024 + (m - 56320) + 65536), rest2)
            else (replacementChar, rest)
        | None => (replacementChar, rest)
        end
    | None => (replacementChar, rest)
    end
  else (encodeRune n, rest).

(** The value of a literal after its opening quote, and what follows the literal. *)
Fixpoint json_literal (fuel : nat) (s : string) : option (string * string) :=
  match fuel, s with
  | S fuel', String a s' =>
      let more (prefix : string) (rest : string) :=
        match json_literal fuel' rest with Some (v, t) => Some (prefix +:+ v, t) | None => None end in
      let b := byteZ a in
      if b =? 34 then Some ("", s')
      else if b =? 92 then
        match s' with
        | "" => None
        | String e s2 =>
            match simple_escape e with
            | Some c => more (String c "") s2
            | None =>
                if byteZ e =? 117 then
                  match hex4 s2 with
                  | Some (n, rest) => let '(r, rest) := escaped_rune n rest in more r rest
                  | None => None
                  end
                else None
            end
        end
      else if b <? 32 then None
      else if b <? 128 then more (String a "") s'
      else match utf8_rune s with
           | Some (r, rest) => more r rest
           | None => more replacementChar s'
           end
  | _, _ => None
  end.

(** One element: a literal, or [null], which leaves the empty string. *)
Definition json_element (s : string) : option (string * string) :=
  match s with
  | String a s' =>
      if byteZ a =? 34 then json_literal (String.length s) s'
      else match CutPrefix s "null" with Some rest => Some ("", rest) | None => None end
  | "" => None
  end.

(** The elements up to the closing bracket. *)
Fixpoint json_elements (fuel : nat) (s : string) : option (list string * string) :=
  match fuel with
  | O => None
  | S fuel' =>
      match json_element (skip_space s) with
      | None => None
      | Some (v, rest) =>
          match skip_space rest with
          | String a rest' =>
              if byteZ a =? 44 then
                match json_elements fuel' rest' with Some (vs, t) => Some (v :: vs, t) | None => None end
              else if byteZ a =? 93 then Some ([v], rest') else None
          | "" => None
          end
      end
  end.

Definition json_end {A} (p : option (A * string)) : option A :=
  match p with Some (v, rest) => if String.eqb (skip_space rest) "" then Some v else None | None => None end.

Definition UnmarshalStrings (s : string) : option (list string) :=
  let s := skip_space s in
  match CutPrefix s "null" with
  | Some rest => json_end (Some ([], rest))
  | None =>
      match CutPrefix s "[" with
      | None => None
      | Some rest =>
          match CutPrefix (skip_space rest) "]" with
          | Some rest => json_end (Some ([], rest))
          | None => json_end (json_elements (String.length rest) rest)
          end
      end
  end.

(** ** The round trip *)

Definition ascii_text (s : string) : bool := forall_byte ascii_byte s.

Lemma json_literal_escape (fuel : nat) (a : ascii) (t : string) :
  ascii_byte a = true ->
  json_literal (S fuel) (json_escape a +:+ t)
  = match json_literal fuel t with Some (v, r) => Some (String a v, r) | None => None end.
Proof. destruct a as [[] [] [] [] [] [] [] []]; intros Ha; try done; reflexivity. Qed.

Lemma json_literal_body (s t : string) (fuel n : nat) :
  ascii_text s = true -> (String.length s < fuel)%nat -> (String.length s <= n)%nat ->
  json_literal fuel (json_body n s +:+ String quote_char t) = Some (s, t).
Proof.
  revert fuel n. induction s as [|a s IH]; intros fuel n Ha Hf Hn.
  - destruct fuel; [simpl in Hf; lia|]. by destruct n.
  - cbn [String.length] in Hf, Hn. destruct fuel as [|fuel]; [lia|]. destruct n as [|n]; [lia|].
    unfold ascii_text in Ha. cbn [forall_byte] in Ha. apply andb_true_iff in Ha as [Ha Hs].
    cbn [json_body]. assert (byteZ a <? 128 = true) as ->.
    { apply Z.ltb_lt. unfold ascii_byte in Ha. apply N.ltb_lt in Ha. unfold byteZ. lia. }
    rewrite str_app_assoc, json_literal_escape by done. by rewrite IH by (done || lia).
Qed.

Lemma json_body_length (n : nat) (s : string) :
  (String.length s <= n)%nat -> ascii_text s = true -> (String.length s <= String.length (json_body n s))%nat.
Proof.
  revert n. induction s as [|a s IH]; intros [|n] Hn Ha; cbn [String.length] in *; try lia.
  unfold ascii_text in Ha. cbn [forall_byte] in Ha. apply andb_true_iff in Ha as [Ha Hs].
  cbn [json_body]. assert (byteZ a <? 128 = true) as ->.
  { apply Z.ltb_lt. unfold ascii_byte in Ha. apply N.ltb_lt in Ha. unfold byteZ. lia. }
  rewrite str_app_length. assert (1 <= String.length (json_escape a))%nat.
  { destruct a as [[] [] [] [] [] [] [] []]; try done; vm_compute; lia. }
  specialize (IH n ltac:(lia) Hs). lia.
Qed.

(** Encoded ASCII texts are ASCII. *)
Lemma json_body_ascii (n : nat) (s : string) : ascii_text s = true -> ascii_text (json_body n s) = true.
Proof.
  revert n. induction s as [|a s IH]; intros [|n] Ha; try done. unfold ascii_text in *. cbn [forall_byte json_body] in *.
  apply andb_true_iff in Ha as [Ha Hs]. assert (byteZ a <? 128 = true) as ->.
  { apply Z.ltb_lt. unfold ascii_byte in Ha. apply N.ltb_lt in Ha. unfold byteZ. lia. }
  rewrite forall_byte_app, IH, andb_true_r by done. destruct a as [[] [] [] [] [] [] [] []]; try done; by vm_compute.
Qed.

Lemma json_quote_ascii (s : string) : ascii_text s = true -> ascii_text (json_quote s) = true.
Proof.
  intros Hs. unfold json_quote, ascii_text. cbn [forall_byte]. rewrite forall_byte_app.
  change (forall_byte ascii_byte (json_body (String.length s) s)) with (ascii_text (json_body (String.length s) s)).
  by rewrite json_body_ascii.
Qed.

Lemma Join_ascii (l : list string) (sep : string) :
  Forall (fun s => ascii_text s = true) l -> ascii_text sep = true -> ascii_text (Join l sep) = true.
Proof.
  intros Hl Hsep. unfold ascii_text in *. induction Hl as [|s l Hs Hl IH]; [done|]. cbn [Join]. destruct l; [done|].
  by rewrite !forall_byte_app, Hs, Hsep, IH.
Qed.

(** Trimming leaves an encoded list as it is. *)
Lemma TrimSpace_Marshal (l : list string) :
  Forall (fun s => ascii_text s = true) l -> TrimSpace (MarshalStrings l) = MarshalStrings l.
Proof.
  intros Hl. unfold TrimSpace, MarshalStrings. rewrite !str_app_cons, str_app_nil_l.
  rewrite trim_left_id by by apply lead_space_plain.
  rewrite <- str_app_cons. apply trim_right_ascii_app; [|done]. cbn [forall_byte].
  change (forall_byte ascii_byte (Join (map json_quote l) ",")) with (ascii_text (Join (map json_quote l) ",")).
  rewrite Join_ascii; [done| |done]. apply Forall_fmap. eapply Forall_impl; [exact Hl|]. apply json_quote_ascii.
Qed.

Lemma json_element_quote (s t : string) : ascii_text s = true -> json_element (json_quote s +:+ t) = Some (s, t).
Proof.
  intros Hs. unfold json_quote. rewrite str_app_cons. unfold json_element.
  change (byteZ quote_char =? 34) with true. cbv iota. rewrite str_app_assoc.
  apply json_literal_body; [done| |lia]. cbn [String.length]. rewrite !str_app_length.
  pose proof (json_body_length (String.length s) s (le_n _) Hs). lia.
Qed.

Lemma skip_space_quote (s t : string) : skip_space (json_quote s +:+ t) = json_quote s +:+ t.
Proof. done. Qed.

Lemma json_elements_join (x : string) (l : list string) (t : string) (fuel : nat) :
  ascii_text x = true -> Forall (fun s => ascii_text s = true) l -> (length l < fuel)%nat ->
  json_elements fuel (Join (map json_quote (x :: l)) "," +:+ String "]" t) = Some (x :: l, t).
Proof.
  intros Hx Hl. revert x Hx fuel. induction Hl as [|y l Hy Hl IH]; intros x Hx fuel Hf.
  - destruct fuel; [lia|]. cbn [json_elements map Join]. rewrite skip_space_quote, json_element_quote by done. done.
  - destruct fuel; [lia|]. cbn [length] in Hf. cbn [json_elements].
    change (Join (map json_quote (x :: y :: l)) ",") with (json_quote x +:+ "," +:+ Join (map json_quote (y :: l)) ",").
    rewrite !str_app_assoc, skip_space_quote, json_element_quote by done.
    specialize (IH y Hy fuel ltac:(lia)). set (J := _ +:+ String "]" t) in *.
    change (skip_space ("," +:+ J)) with (String "," J). cbv iota beta.
    change (byteZ "," =? 44) with true. cbv iota. by rewrite IH.
Qed.

Lemma json_quote_length (s : string) : (2 <= String.length (json_quote s))%nat.
Proof. unfold json_quote. cbn [String.length]. rewrite str_app_length. cbn [String.length]. lia. Qed.

Lemma Join_length (l : list string) :
  (length l <= S (String.length (Join (map json_quote l) ",")))%nat.
Proof.
  induction l as [|x [|y l] IH]; [simpl; lia|simpl; lia|].
  change (Join (map json_quote (x :: y :: l)) ",") with (json_quote x +:+ "," +:+ Join (map json_quote (y :: l)) ",").
  rewrite !str_app_length. pose proof (json_quote_length x). cbn [length] in *. cbn [String.length]. lia.
Qed.

Lemma Unmarshal_Marshal (l : list string) :
  Forall (fun s => ascii_text s = true) l -> UnmarshalStrings (MarshalStrings l) = Some l.
Proof.
  intros Hl. destruct l as [|x l]; [done|]. inversion Hl as [|? ? Hx Hl']; subst.
  assert (exists b, Join (map json_quote (x :: l)) "," = String quote_char b) as [b Hb].
  { destruct l; cbn [map Join]; unfold json_quote; rewrite ?str_app_cons; by eexists. }
  unfold UnmarshalStrings, MarshalStrings. cbv zeta. set (J := Join (map json_quote (x :: l)) ",") in *.
  change (skip_space ("[" +:+ J +:+ "]")) with ("[" +:+ J +:+ "]").
  change (CutPrefix ("[" +:+ J +:+ "]") "null") with (@None string).
  change (CutPrefix ("[" +:+ J +:+ "]") "[") with (CutPrefix (J +:+ "]") "").
  assert (CutPrefix (J +:+ "]") "" = Some (J +:+ "]")) as -> by by rewrite Hb.
  assert (CutPrefix (skip_space (J +:+ "]")) "]" = None) as -> by by rewrite Hb.
  unfold J at 2. rewrite json_elements_join; [done..|].
  rewrite str_app_length. pose proof (Join_length (x :: l)) as H. fold J in H. cbn [length String.length] in *. lia.
Qed.
