(* ===== verification/JsonRaw.v ===== *)
(** * Raw JSON values ([jsonrpc/rpc_params.go])

    What the RPC layer uses of [encoding/json]'s decoder: a [json.RawMessage] is the
    text of one value, found by scanning without building it; arrays and objects are
    opened one element at a time up to a limit; scalars are decoded from their text. *)
From S2P Require Import Prelude GoStrings GoURL Text Json.

(** ** Errors

    [JParse] stands for the errors [isJSONParseError] recognises: syntax errors, ends of
    input and trailing data. *)
Inductive jsonError := JParse | JTooLarge | JOther.

Inductive jres (A : Type) := JOk (a : A) | JErr (e : jsonError).
Arguments JOk {A} _.
Arguments JErr {A} _.

Definition isJSONParseError (e : jsonError) : bool := match e with JParse => true | _ => false end.

(** ** Scanning one value: the text after it *)

Fixpoint skip_digits (s : string) : string :=
  match s with String a s' => if is_digit a then skip_digits s' else s | "" => "" end.

(** At least one digit. *)
Definition some_digits (s : string) : option string :=
  match s with String a s' => if is_digit a then Some (skip_digits s') else None | "" => None end.

Definition scan_exponent (s : string) : option string :=
  match s with
  | String a s' =>
      if Ascii.eqb a "e" || Ascii.eqb a "E" then
        match s' with
        | String b s2 => if Ascii.eqb b "+" || Ascii.eqb b "-" then some_digits s2 else some_digits s'
        | "" => None
        end
      else Some s
  | "" => Some s
  end.

Definition scan_fraction (s : string) : option string :=
  match s with
  | String a s' => if Ascii.eqb a "." then some_digits s' else Some s
  | "" => Some s
  end.

Definition scan_number (s : string) : option string :=
  let s := match CutPrefix s "-" with Some s' => s' | None => s end in
  match s with
  | String a s' =>
      let integer := if Ascii.eqb a "0" then Some s' else if is_digit a then Some (skip_digits s') else None in
      match integer with
      | Some s => match scan_fraction s with Some s => scan_exponent s | None => None end
      | None => None
      end
  | "" => None
  end.

Definition scan_string (s : string) : option string :=
  match json_literal (String.length s) s with Some (_, rest) => Some rest | None => None end.

Definition maxNestingDepth : Z := 10000.

(** The fuel bounds the calls: every call but the first consumes a byte or directly
    follows one that does. *)
Fixpoint scan_value (fuel : nat) (depth : Z) (s : string) : option string :=
  match fuel with
  | O => None
  | S fuel' =>
      match s with
      | "" => None
      | String a s' =>
          if Ascii.eqb a "{" then
            if maxNestingDepth <=? depth then None
            else match CutPrefix (skip_space s') "}" with
                 | Some rest => Some rest
                 | None => scan_members fuel' (depth + 1) (skip_space s')
                 end
          else if Ascii.eqb a "[" then
            if maxNestingDepth <=? depth then None
            else match CutPrefix (skip_space s') "]" with
                 | Some rest => Some rest
                 | None => scan_elements fuel' (depth + 1) (skip_space s')
                 end
          else if Ascii.eqb a quote_char then scan_string s'
          else if Ascii.eqb a "t" then CutPrefix s' "rue"
          else if Ascii.eqb a "f" then CutPrefix s' "alse"
          else if Ascii.eqb a "n" then CutPrefix s' "ull"
          else scan_number s
      end
  end
with scan_elements (fuel : nat) (depth : Z) (s : string) : option string :=
  match fuel with
  | O => None
  | S fuel' =>
      match scan_value fuel' depth s with
      | None => None
      | Some rest =>
          match skip_space rest with
          | String a rest' =>
              if Ascii.eqb a "," then scan_elements fuel' depth (skip_space rest')
              else if Ascii.eqb a "]" then Some rest' else None
          | "" => None
          end
      end
  end
with scan_members (fuel : nat) (depth : Z) (s : string) : option string :=
  match fuel with
  | O => None
  | S fuel' =>
      match CutPrefix s (String quote_char "") with
      | None => None
      | Some s' =>
          match scan_string s' with
          | None => None
          | Some rest =>
              match CutPrefix (skip_space rest) ":" with
              | None => None
              | Some rest =>
                  match scan_value fuel' depth (skip_space rest) with
                  | None => None
                  | Some rest =>
                      match skip_space rest with
                      | String a rest' =>
                          if Ascii.eqb a "," then scan_members fuel' depth (skip_space rest')
                          else if Ascii.eqb a "}" then Some rest' else None
                      | "" => None
                      end
                  end
              end
          end
      end
  end.

(** The next value as a raw message, and what follows it. *)
Definition rawValue (s : string) : option (string * string) :=
  let s := skip_space s in
  match scan_value (S (2 * String.length s)) 0 s with
  | Some rest => Some (String.substring 0 (String.length s - String.length rest) s, rest)
  | None => None
  end.

(** [requireJSONEOF]: whatever follows fails as a parse error. *)
Definition requireJSONEOF (s : string) : bool := String.eqb (skip_space s) "".

Definition atEOF {A} (a : A) (rest : string) : jres A := if requireJSONEOF rest then JOk a else JErr JParse.

(** ** Opening arrays and objects *)

(** The error of a text that does not open the collection: a complete value of another
    kind or the other bracket is "expected JSON array", anything else a parse error. *)
Definition wrongOpening (s : string) : jsonError :=
  match s with
  | String a _ =>
      if Ascii.eqb a "[" || Ascii.eqb a "{" then JOther
      else match rawValue s with Some _ => JOther | None => JParse end
  | "" => JParse
  end.

(** The elements after the bracket; [room] more are allowed. *)
Fixpoint arrayItems (room : nat) (first : bool) (s : string) : jres (list string) :=
  match skip_space s with
  | "" => JErr JParse
  | String a s' =>
      if Ascii.eqb a "]" then atEOF [] s'
      else if Ascii.eqb a "}" then JErr JParse
      else match room with
      | O => JErr JTooLarge
      | S room' =>
          let start := if first then Some (String a s') else if Ascii.eqb a "," then Some s' else None in
          match start with
          | None => JErr JParse
          | Some start =>
              match rawValue start with
              | None => JErr JParse
              | Some (item, rest) =>
                  match arrayItems room' false rest with JOk items => JOk (item :: items) | JErr e => JErr e end
              end
          end
      end
  end.

Definition decodeRawArrayLimited (data : string) (maxItems : nat) : jres (list string) :=
  match CutPrefix (skip_space data) "[" with
  | Some rest => arrayItems maxItems true rest
  | None => JErr (wrongOpening (skip_space data))
  end.

(** The fields after the brace; duplicate keys are refused as soon as they are read. *)
Fixpoint objectFields (room : nat) (first : bool) (values : gmap string string) (s : string)
    : jres (gmap string string) :=
  match skip_space s with
  | "" => JErr JParse
  | String a s' =>
      if Ascii.eqb a "}" then atEOF values s'
      else if Ascii.eqb a "]" then JErr JParse
      else match room with
      | O => JErr JTooLarge
      | S room' =>
          let start := if first then Some (String a s') else if Ascii.eqb a "," then Some (skip_space s') else None in
          match start with
          | None => JErr JParse
          | Some start =>
              match CutPrefix start (String quote_char "") with
              | None => JErr JParse
              | Some body =>
                  match json_literal (String.length body) body with
                  | None => JErr JParse
                  | Some (key, rest) =>
                      match values !! key with
                      | Some _ => JErr JOther
                      | None =>
                          match CutPrefix (skip_space rest) ":" with
                          | None => JErr JParse
                          | Some rest =>
                              match rawValue rest with
                              | None => JErr JParse
                              | Some (value, rest) => objectFields room' false (<[key := value]> values) rest
                              end
                          end
                      end
                  end
              end
          end
      end
  end.

Definition decodeRawObjectLimited (data : string) (maxFields : nat) : jres (gmap string string) :=
  match CutPrefix (skip_space data) "{" with
  | Some rest => objectFields maxFields true ∅ rest
  | None => JErr (wrongOpening (skip_space data))
  end.

(** ** Decoding scalars ([decodeUseNumber]) *)

(** The value of a text read into [any] with [UseNumber]; what an array or object holds
    is not needed. *)
Inductive jsonAny := ANull | ABool (b : bool) | ANumber (text : string) | AString (s : string) | AComposite.

Definition decodeAny (data : string) : option jsonAny :=
  match rawValue data with
  | Some (String a s as raw, rest) =>
      if requireJSONEOF rest then
        if Ascii.eqb a quote_char then
          match json_literal (String.length s) s with Some (v, _) => Some (AString v) | None => None end
        else if Ascii.eqb a "n" then Some ANull
        else if Ascii.eqb a "t" then Some (ABool true)
        else if Ascii.eqb a "f" then Some (ABool false)
        else if Ascii.eqb a "[" || Ascii.eqb a "{" then Some AComposite
        else Some (ANumber raw)
      else None
  | _ => None
  end.

(** Into a [string] that is empty before: [null] leaves it so. *)
Definition decodeString (data : string) : option string :=
  match decodeAny data with Some (AString s) => Some s | Some ANull => Some "" | _ => None end.

(** Into a [json.Number], for a text that starts like a number. *)
Definition decodeNumber (data : string) : option string :=
  match decodeAny data with Some (ANumber text) => Some text | _ => None end.

(** The first byte of a text without surrounding space. *)
Definition startsWith (c : ascii) (s : string) : bool := HasPrefix (TrimSpace s) (String c "").
