(* ===== verification/Pieces.v ===== *)
(** * Ranges, pieces and bitfields ([download_util.go], [downloader.go])

    The arithmetic shared by the HTTP and the torrent downloads: the partition of
    a file into ranges, the number of completed pieces and the hexadecimal
    bitfields reported to clients.  [hex_bit] reads a piece's bit back from such a
    text; the operations are specified through it. *)
From S2P Require Import Prelude GoStrings.

Definition defaultHTTPSegmentSize : Z := 52428800.
Definition maxHTTPSegmentCount : Z := 65536.
Definition maxTorrentPieceCount : Z := 1048576.

Definition ceilDivInt64 (n d : Z) : Z :=
  if (n <=? 0) || (d <=? 0) then 0 else 1 + (n - 1) / d.

Definition nonNegativeLength (n : Z) : Z := if n <? 0 then 0 else n.

(** ** Ranges *)

Record chunkRange := mkChunk { ch_start : Z; ch_end : Z }.

(** The loop of [makeChunks]: at most [fuel] chunks from [start]. *)
Fixpoint chunksFrom (fuel : nat) (start total chunkSize : Z) : list chunkRange :=
  match fuel with
  | O => []
  | S fuel' =>
      if start <? total then
        let size := Z.min chunkSize (total - start) in
        let stop := start + size - 1 in
        mkChunk start stop :: chunksFrom fuel' (stop + 1) total chunkSize
      else []
  end.

Definition effectiveChunkSize (total chunkSize : Z) : Z :=
  let chunkSize := if chunkSize <=? 0 then defaultHTTPSegmentSize else chunkSize in
  Z.max chunkSize (ceilDivInt64 total maxHTTPSegmentCount).

(** The fuel is the capacity the code allocates for the result. *)
Definition makeChunks (total chunkSize : Z) : list chunkRange :=
  if total <=? 0 then []
  else let chunkSize := effectiveChunkSize total chunkSize in
       chunksFrom (Z.to_nat (ceilDivInt64 total chunkSize)) 0 total chunkSize.

(** ** Bitfields *)

Definition hexDigits : list ascii :=
  ["0"; "1"; "2"; "3"; "4"; "5"; "6"; "7"; "8"; "9"; "a"; "b"; "c"; "d"; "e"; "f"]%char.
Definition hexDigit (n : Z) : ascii := nth (Z.to_nat n) hexDigits zero.

(** [hex.EncodeToString] *)
Fixpoint hexEncode (bytes : list Z) : string :=
  match bytes with
  | [] => ""
  | b :: bs => String (hexDigit (b / 16)) (String (hexDigit (b mod 16)) (hexEncode bs))
  end.

Definition decodeHexNibble (c : ascii) : option Z :=
  let b := Z.of_N (byte_val c) in
  if (48 <=? b) && (b <=? 57) then Some (b - 48)
  else if (97 <=? b) && (b <=? 102) then Some (b - 97 + 10)
  else if (65 <=? b) && (b <=? 70) then Some (b - 65 + 10)
  else None.

(** [bits[i/8] |= 1 << uint(7-i%8)] *)
Definition setBit (bits : list Z) (i : Z) : list Z :=
  alter (fun b => Z.lor b (Z.shiftl 1 (7 - i mod 8))) (Z.to_nat (i / 8)) bits.

Definition zeroBytes (n : Z) : list Z := replicate (Z.to_nat n) 0.

Definition completedPieces (total completed pieceLength : Z) : Z :=
  if (total <=? 0) || (completed <=? 0) || (pieceLength <=? 0) then 0
  else let pieces := ceilDivInt64 total pieceLength in
       let done := completed / pieceLength in
       if (total <=? completed) || (pieces <? done) then pieces else done.

Definition bitfieldFor (total completed pieceLength : Z) : string :=
  if (total <=? 0) || (pieceLength <=? 0) then ""
  else let pieceCount := ceilDivInt64 total pieceLength in
       if (pieceCount <=? 0) || (maxTorrentPieceCount <? pieceCount) || (max_int64 <? pieceCount) then ""
       else
         let bits := zeroBytes ((pieceCount + 7) / 8) in
         let completePieces := completedPieces total completed pieceLength in
         hexEncode (foldl setBit bits (seqZ 0 completePieces)).

(** [strings.Repeat("00", n)] for the bytes of [numPieces] bits. *)
Definition unknownTorrentBitfield (numPieces : Z) : string :=
  let bytesLen := ceilDivInt64 numPieces 8 in
  if (bytesLen <=? 0) || (max_int64 / 2 <? bytesLen) then ""
  else hexEncode (zeroBytes bytesLen).

(** *** Piece states of a torrent, as runs *)

Record pieceRun := mkRun { run_Length : Z; run_Ok : bool; run_Complete : bool }.

(** The first loop of [torrentPieceProgress]; [None] is its early return. *)
Fixpoint countRunPieces (runs : list pieceRun) (pieces : Z) : option Z :=
  match runs with
  | [] => Some pieces
  | run :: runs' =>
      if run_Length run <=? 0 then countRunPieces runs' pieces
      else if maxTorrentPieceCount - pieces <? run_Length run then None
      else countRunPieces runs' (pieces + run_Length run)
  end.

(** The second loop: [index] is the next piece, [done] the complete ones so far. *)
Fixpoint markRuns (runs : list pieceRun) (pieces index done : Z) (bits : list Z) : Z * list Z :=
  match runs with
  | [] => (done, bits)
  | run :: runs' =>
      if run_Length run <=? 0 then markRuns runs' pieces index done bits
      else
        let stop := index + run_Length run in
        let stop := if (stop <? index) || (pieces <? stop) then pieces else stop in
        let '(done, bits) :=
          if run_Ok run && run_Complete run then
            (done + (stop - index), foldl setBit bits (seqZ index (stop - index)))
          else (done, bits) in
        if stop =? pieces then (done, bits) else markRuns runs' pieces stop done bits
  end.

Definition torrentPieceProgress (runs : list pieceRun) : Z * string :=
  match countRunPieces runs 0 with
  | None => (0, "")
  | Some pieces =>
      if pieces =? 0 then (0, "")
      else let '(done, bits) := markRuns runs pieces 0 0 (zeroBytes ((pieces + 7) / 8)) in
           (done, hexEncode bits)
  end.

(** ** Reading bitfields back *)

(** The bit of piece [i] in a hexadecimal bitfield. *)
Definition hex_bit (s : string) (i : Z) : bool :=
  match String.get (Z.to_nat (i / 4)) s with
  | Some c => match decodeHexNibble c with
              | Some n => Z.testbit n (3 - i mod 4)
              | None => false
              end
  | None => false
  end.

(** The same bit in a list of bytes. *)
Definition byteAt (bits : list Z) (n : nat) : Z := default 0 (bits !! n).
Definition byte_bit (bits : list Z) (i : Z) : bool :=
  Z.testbit (byteAt bits (Z.to_nat (i / 8))) (7 - i mod 8).

Definition is_byte (b : Z) : Prop := 0 <= b < 256.

(** Whether piece [i] lies in a complete run, the runs starting at [index]. *)
Fixpoint in_complete_run (runs : list pieceRun) (index i : Z) : bool :=
  match runs with
  | [] => false
  | run :: runs' =>
      if run_Length run <=? 0 then in_complete_run runs' index i
      else ((index <=? i) && (i <? index + run_Length run) && run_Ok run && run_Complete run)
           || in_complete_run runs' (index + run_Length run) i
  end.

Fixpoint run_total (runs : list pieceRun) : Z :=
  match runs with
  | [] => 0
  | run :: runs' => Z.max 0 (run_Length run) + run_total runs'
  end.

(** The pieces in complete runs. *)
Fixpoint complete_total (runs : list pieceRun) : Z :=
  match runs with
  | [] => 0
  | run :: runs' =>
      (if run_Ok run && run_Complete run then Z.max 0 (run_Length run) else 0) + complete_total runs'
  end.

(** The number of set bits among the first [n] pieces. *)
Definition bits_set (f : Z -> bool) (n : Z) : Z :=
  Z.of_nat (length (filter (fun i => f i = true) (seqZ 0 n))).

(** ** Lemmas: division and chunks *)

Lemma ceilDiv_spec (n d : Z) : 0 < n -> 0 < d -> (ceilDivInt64 n d - 1) * d < n <= ceilDivInt64 n d * d.
Proof.
  intros Hn Hd. unfold ceilDivInt64.
  destruct (n <=? 0) eqn:E1; [zbool; lia|]. destruct (d <=? 0) eqn:E2; [zbool; lia|]. simpl.
  pose proof (Z.div_mod (n - 1) d ltac:(lia)). pose proof (Z.mod_pos_bound (n - 1) d Hd). nia.
Qed.

Lemma ceilDiv_nonneg (n d : Z) : 0 <= ceilDivInt64 n d.
Proof.
  unfold ceilDivInt64. case_if; [lia|]. zbool. pose proof (Z.div_pos (n - 1) d). lia.
Qed.

Lemma ceilDiv_pos (n d : Z) : 0 < n -> 0 < d -> 0 < ceilDivInt64 n d.
Proof. intros Hn Hd. pose proof (ceilDiv_spec n d Hn Hd). nia. Qed.

(** The ceiling is the only number with these bounds. *)
Lemma ceilDiv_unique (n d c : Z) : 0 < n -> 0 < d -> (c - 1) * d < n <= c * d -> ceilDivInt64 n d = c.
Proof. intros Hn Hd Hc. pose proof (ceilDiv_spec n d Hn Hd). nia. Qed.

Lemma ceilDiv_le (n d m : Z) : 0 < d -> 0 <= m -> n <= m * d -> ceilDivInt64 n d <= m.
Proof.
  intros Hd Hm H. destruct (Z.le_gt_cases n 0).
  - unfold ceilDivInt64. destruct (Z.leb_spec n 0); simpl; lia.
  - pose proof (ceilDiv_spec n d). nia.
Qed.

Lemma effectiveChunkSize_pos (total chunkSize : Z) : 0 < effectiveChunkSize total chunkSize.
Proof. unfold effectiveChunkSize, defaultHTTPSegmentSize. case_if; zbool; lia. Qed.

Lemma chunksFrom_spec (fuel : nat) (start total size : Z) :
  0 < size -> start <= total -> total - start <= Z.of_nat fuel * size ->
  let cs := chunksFrom fuel start total size in
  Z.of_nat (length cs) = ceilDivInt64 (total - start) size
  /\ forall i c, cs !! i = Some c ->
       ch_start c = start + Z.of_nat i * size /\ ch_end c = Z.min (ch_start c + size) total - 1
       /\ ch_start c < total.
Proof.
  revert start. induction fuel as [|fuel IH]; intros start Hsize Hst Hf; simpl.
  - split; [|by intros ? ? ?]. unfold ceilDivInt64. destruct (Z.leb_spec (total - start) 0); simpl; lia.
  - destruct (start <? total) eqn:E; zbool.
    + set (size' := Z.min size (total - start)).
      replace (start + size' - 1 + 1) with (start + size') by lia.
      destruct (IH (start + size')) as [IHl IHc]; [lia|lia|unfold size'; nia|]. split.
      * simpl length. rewrite Nat2Z.inj_succ, IHl. destruct (Z.le_gt_cases (total - start) size).
        -- unfold size'. rewrite Z.min_r by lia.
           rewrite (ceilDiv_unique (total - start) size 1) by lia.
           unfold ceilDivInt64. destruct (Z.leb_spec (total - (start + (total - start))) 0); simpl; lia.
        -- unfold size'. rewrite Z.min_l by lia.
           pose proof (ceilDiv_spec (total - (start + size)) size ltac:(lia) Hsize) as Hc.
           symmetry. apply ceilDiv_unique; [lia..|]. nia.
      * intros [|i] c; simpl; [intros [= <-]; simpl; lia|].
        intros Hc. apply IHc in Hc as (H1 & H2 & H3). split; [|done].
        rewrite H1. unfold size' in *. destruct (Z.le_gt_cases (total - start) size); [lia|].
        rewrite Z.min_l by lia. lia.
    + split; [|by intros ? ? ?]. simpl. unfold ceilDivInt64. destruct (Z.leb_spec (total - start) 0); simpl; lia.
Qed.

(** ** Lemmas: hexadecimal texts *)

Lemma hexDigit_decode (n : Z) : 0 <= n < 16 -> decodeHexNibble (hexDigit n) = Some n.
Proof.
  intros H. assert (n ∈ seqZ 0 16) as Hin by (apply elem_of_seqZ; lia).
  assert (Forall (fun n => decodeHexNibble (hexDigit n) = Some n) (seqZ 0 16)) as Hf.
  { apply (bool_decide_unpack _). by vm_compute. }
  rewrite Forall_forall in Hf. by apply Hf.
Qed.

Lemma hexEncode_get (bytes : list Z) (k : Z) :
  0 <= k < 2 * Z.of_nat (length bytes) ->
  String.get (Z.to_nat k) (hexEncode bytes)
  = Some (hexDigit (if k mod 2 =? 0 then byteAt bytes (Z.to_nat (k / 2)) / 16 else byteAt bytes (Z.to_nat (k / 2)) mod 16)).
Proof.
  revert k. induction bytes as [|b bs IH]; intros k Hk; simpl in *; [lia|].
  destruct (decide (k = 0)) as [->|H0]; [done|]. destruct (decide (k = 1)) as [->|H1]; [done|].
  replace (Z.to_nat k) with (S (S (Z.to_nat (k - 2)))) by lia. simpl. rewrite IH by lia.
  replace ((k - 2) mod 2) with (k mod 2) by (rewrite <- (Z_mod_plus_full (k - 2) 1 2); f_equal; lia).
  replace (k / 2) with ((k - 2) / 2 + 1) by (rewrite <- Z.div_add by lia; f_equal; lia).
  pose proof (Z.div_pos (k - 2) 2 ltac:(lia) ltac:(lia)).
  by replace (Z.to_nat ((k - 2) / 2 + 1)) with (S (Z.to_nat ((k - 2) / 2))) by lia.
Qed.

Lemma byte_nibbles (b : Z) : is_byte b -> 0 <= b / 16 < 16 /\ 0 <= b mod 16 < 16.
Proof.
  unfold is_byte. intros H. pose proof (Z.mod_pos_bound b 16 ltac:(lia)).
  split; [|lia]. split; [apply Z.div_pos; lia|]. apply Z.div_lt_upper_bound; lia.
Qed.

Lemma lookup_total_byte (bytes : list Z) (n : nat) : Forall is_byte bytes -> is_byte (byteAt bytes n).
Proof.
  intros Hf. unfold byteAt. destruct (bytes !! n) as [b|] eqn:H; simpl.
  - by eapply Forall_lookup_1 in H.
  - unfold is_byte. lia.
Qed.

Lemma hex_bit_encode (bytes : list Z) (i : Z) :
  Forall is_byte bytes -> 0 <= i < 8 * Z.of_nat (length bytes) -> hex_bit (hexEncode bytes) i = byte_bit bytes i.
Proof.
  intros Hf Hi. unfold hex_bit, byte_bit.
  assert (0 <= i / 4 < 2 * Z.of_nat (length bytes)) as Hk.
  { split; [apply Z.div_pos; lia|]. apply Z.div_lt_upper_bound; lia. }
  rewrite hexEncode_get by done.
  assert (i / 4 / 2 = i / 8) as -> by (rewrite Z.div_div by lia; done).
  set (b := byteAt bytes _). assert (is_byte b) as Hb by (by apply lookup_total_byte).
  destruct (byte_nibbles b Hb) as [H1 H2].
  pose proof (Z.div_mod i 8 ltac:(lia)). pose proof (Z.mod_pos_bound i 8 ltac:(lia)).
  pose proof (Z.div_mod i 4 ltac:(lia)). pose proof (Z.mod_pos_bound i 4 ltac:(lia)).
  pose proof (Z.div_mod (i / 4) 2 ltac:(lia)) as Hd2. pose proof (Z.mod_pos_bound (i / 4) 2 ltac:(lia)).
  assert (i / 4 / 2 = i / 8) as E by (rewrite Z.div_div by lia; done). rewrite E in Hd2.
  destruct (i / 4 mod 2 =? 0) eqn:Hm; zbool.
  - rewrite hexDigit_decode by done. change 16 with (2 ^ 4). rewrite Z.div_pow2_bits by lia. f_equal. lia.
  - rewrite hexDigit_decode by done. change 16 with (2 ^ 4).
    rewrite Z.mod_pow2_bits_low by lia. f_equal. lia.
Qed.

Lemma setBit_length (bits : list Z) (i : Z) : length (setBit bits i) = length bits.
Proof. apply length_alter. Qed.

Lemma setBit_byte (bits : list Z) (i : Z) : Forall is_byte bits -> Forall is_byte (setBit bits i).
Proof.
  intros Hf. apply Forall_alter; [done|]. intros b _ Hb. unfold is_byte in *.
  pose proof (Z.mod_pos_bound i 8 ltac:(lia)).
  assert (0 <= Z.shiftl 1 (7 - i mod 8)) as Hs by (apply Z.shiftl_nonneg; lia).
  split; [apply Z.lor_nonneg; lia|]. change 256 with (2 ^ 8).
  destruct (Z.eq_dec b 0) as [->|Hne].
  - rewrite Z.lor_0_l, Z.shiftl_mul_pow2, Z.mul_1_l by lia. apply Z.pow_lt_mono_r; lia.
  - apply Z.log2_lt_pow2; [|].
    + pose proof (Z.lor_nonneg b (Z.shiftl 1 (7 - i mod 8))).
      destruct (Z.eq_dec (Z.lor b (Z.shiftl 1 (7 - i mod 8))) 0) as [E|]; [apply Z.lor_eq_0_l in E; lia|].
      assert (0 <= Z.lor b (Z.shiftl 1 (7 - i mod 8))) by tauto. lia.
    + rewrite Z.log2_lor by lia. apply Z.max_lub_lt.
      * apply Z.log2_lt_pow2; lia.
      * rewrite Z.shiftl_mul_pow2, Z.mul_1_l, Z.log2_pow2 by lia. lia.
Qed.

Lemma setBit_bit (bits : list Z) (i j : Z) :
  0 <= i < 8 * Z.of_nat (length bits) -> 0 <= j ->
  byte_bit (setBit bits i) j = byte_bit bits j || (i =? j).
Proof.
  intros Hi Hj. unfold byte_bit, byteAt, setBit.
  pose proof (Z.mod_pos_bound i 8 ltac:(lia)). pose proof (Z.mod_pos_bound j 8 ltac:(lia)).
  pose proof (Z.div_mod i 8 ltac:(lia)). pose proof (Z.div_mod j 8 ltac:(lia)).
  pose proof (Z.div_pos i 8 ltac:(lia) ltac:(lia)). pose proof (Z.div_pos j 8 ltac:(lia) ltac:(lia)).
  destruct (decide (i / 8 = j / 8)) as [E|E].
  - rewrite <- E. rewrite list_lookup_alter_eq.
    assert (i / 8 < Z.of_nat (length bits)) by (apply Z.div_lt_upper_bound; lia).
    destruct (lookup_lt_is_Some_2 bits (Z.to_nat (i / 8))) as [b Hb]; [lia|].
    rewrite Hb. simpl. rewrite Z.lor_spec. f_equal.
    rewrite Z.shiftl_spec by lia. destruct (i =? j) eqn:Hij; zbool.
    + subst. by rewrite Z.sub_diag.
    + destruct (Z.lt_ge_cases (7 - j mod 8) (7 - i mod 8)); [by rewrite Z.testbit_neg_r by lia|].
      change 1 with (2 ^ 0). rewrite Z.pow2_bits_false by lia. done.
  - rewrite list_lookup_alter_ne by lia.
    destruct (i =? j) eqn:Hij; [zbool; subst; done|]. by rewrite orb_false_r.
Qed.

Lemma setBits_spec (bits : list Z) (a n : Z) :
  0 <= a -> 0 <= n -> a + n <= 8 * Z.of_nat (length bits) -> Forall is_byte bits ->
  let bits' := foldl setBit bits (seqZ a n) in
  length bits' = length bits /\ Forall is_byte bits'
  /\ forall j, 0 <= j -> byte_bit bits' j = byte_bit bits j || ((a <=? j) && (j <? a + n)).
Proof.
  intros Ha Hn. revert a Ha bits. pattern n. apply natlike_ind; [| |done].
  - intros a Ha bits _ Hf. simpl. split_and!; [done|done|]. intros j Hj.
    destruct (Z.leb_spec a j), (Z.ltb_spec j (a + 0)); simpl; try lia; by rewrite orb_false_r.
  - clear n Hn. intros n Hn IH a Ha bits Hl Hf. rewrite seqZ_cons by lia. simpl.
    rewrite Z.pred_succ.
    destruct (IH (Z.succ a) ltac:(lia) (setBit bits a)) as (H1 & H2 & H3);
      [rewrite setBit_length; lia|by apply setBit_byte|].
    split_and!; [by rewrite H1, setBit_length|done|]. intros j Hj.
    rewrite H3, setBit_bit by lia. rewrite <- orb_assoc. f_equal.
    destruct (Z.eqb_spec a j), (Z.leb_spec (Z.succ a) j), (Z.ltb_spec j (Z.succ a + n)),
      (Z.leb_spec a j), (Z.ltb_spec j (a + Z.succ n)); simpl; lia.
Qed.

Lemma zeroBytes_bit (n j : Z) : byte_bit (zeroBytes n) j = false.
Proof.
  unfold byte_bit, byteAt, zeroBytes.
  destruct (_ !! _) as [b|] eqn:H; cbn [default from_option id]; [|apply Z.testbit_0_l].
  apply lookup_replicate in H as [-> _]. apply Z.testbit_0_l.
Qed.

Lemma zeroBytes_byte (n : Z) : Forall is_byte (zeroBytes n).
Proof. apply Forall_replicate. unfold is_byte. lia. Qed.

Lemma completedPieces_range (total completed pieceLength : Z) :
  0 <= completedPieces total completed pieceLength <= ceilDivInt64 total pieceLength.
Proof.
  pose proof (ceilDiv_nonneg total pieceLength). unfold completedPieces.
  case_if; [lia|]. zbool. pose proof (Z.div_pos completed pieceLength). cbv zeta.
  case_if; [lia|]. zbool. lia.
Qed.

Lemma bytes_for (pieces : Z) : 0 <= pieces -> pieces <= 8 * Z.of_nat (length (zeroBytes ((pieces + 7) / 8))).
Proof.
  intros H. unfold zeroBytes. rewrite length_replicate.
  pose proof (Z.div_mod (pieces + 7) 8 ltac:(lia)). pose proof (Z.mod_pos_bound (pieces + 7) 8 ltac:(lia)). lia.
Qed.

Lemma run_total_nonneg (runs : list pieceRun) : 0 <= run_total runs.
Proof. induction runs; simpl; lia. Qed.

Lemma in_complete_run_empty (runs : list pieceRun) (k j : Z) :
  run_total runs = 0 -> in_complete_run runs k j = false /\ complete_total runs = 0.
Proof.
  revert k. induction runs as [|r rs IH]; intros k; simpl; [done|]. intros H.
  pose proof (run_total_nonneg rs). destruct (IH k ltac:(lia)) as [H1 H2].
  destruct (run_Length r <=? 0) eqn:E; zbool; [|lia]. split; [done|]. case_if; lia.
Qed.

Lemma countRunPieces_spec (runs : list pieceRun) (pieces : Z) :
  pieces <= maxTorrentPieceCount ->
  countRunPieces runs pieces
  = if pieces + run_total runs <=? maxTorrentPieceCount then Some (pieces + run_total runs) else None.
Proof.
  revert pieces. induction runs as [|run runs IH]; intros pieces Hp; simpl.
  - destruct (Z.leb_spec (pieces + 0) maxTorrentPieceCount); [f_equal; lia|lia].
  - pose proof (run_total_nonneg runs). destruct (Z.leb_spec (run_Length run) 0).
    + rewrite IH by done. by rewrite Z.max_l by lia.
    + rewrite Z.max_r by lia. destruct (Z.ltb_spec (maxTorrentPieceCount - pieces) (run_Length run)).
      * destruct (Z.leb_spec (pieces + (run_Length run + run_total runs)) maxTorrentPieceCount); [lia|done].
      * rewrite IH by lia. by rewrite Z.add_assoc.
Qed.

Lemma markRuns_spec (runs : list pieceRun) (pieces index done : Z) (bits : list Z) :
  0 <= index -> index + run_total runs = pieces -> pieces <= 8 * Z.of_nat (length bits) -> Forall is_byte bits ->
  let r := markRuns runs pieces index done bits in
  length r.2 = length bits /\ Forall is_byte r.2
  /\ (forall j, 0 <= j -> byte_bit r.2 j = byte_bit bits j || in_complete_run runs index j)
  /\ r.1 = done + complete_total runs.
Proof.
  revert index done bits. induction runs as [|run runs IH]; intros index done bits Hi Ht Hl Hf; simpl.
  { split_and!; [done|done| |lia]. intros j Hj. by rewrite orb_false_r. }
  simpl in Ht. pose proof (run_total_nonneg runs). destruct (run_Length run <=? 0) eqn:El; zbool.
  { rewrite Z.max_l by lia. rewrite Z.max_l in Ht by lia.
    replace (if run_Ok run && run_Complete run then 0 else 0) with 0 by (by case_if). rewrite Z.add_0_l.
    by apply IH. }
  rewrite Z.max_r in Ht |- * by lia. set (n := run_Length run) in *.
  assert (((index + n <? index) || (pieces <? index + n)) = false) as ->.
  { destruct (Z.ltb_spec (index + n) index), (Z.ltb_spec pieces (index + n)); simpl; lia. }
  replace (index + n - index) with n by lia. set (c := run_Ok run && run_Complete run).
  assert (forall j, (index <=? j) && (j <? index + n) && run_Ok run && run_Complete run
                    = (index <=? j) && (j <? index + n) && c) as Hc by (intros j; by rewrite <- andb_assoc).
  set (dn := if c then done + n else done).
  set (bs := if c then foldl setBit bits (seqZ index n) else bits).
  replace (if c then (done + n, foldl setBit bits (seqZ index n)) else (done, bits)) with (dn, bs)
    by (by unfold dn, bs; destruct c).
  assert (length bs = length bits /\ Forall is_byte bs
    /\ forall j, 0 <= j -> byte_bit bs j = byte_bit bits j || ((index <=? j) && (j <? index + n) && c))
    as (Hbl & Hbf & Hbb).
  { unfold bs. destruct c.
    - destruct (setBits_spec bits index n) as (H1 & H2 & H3); [lia..|done|]. split_and!; [done|done|].
      intros j Hj. by rewrite H3, andb_true_r by done.
    - split_and!; [done|done|]. intros j Hj. by rewrite andb_false_r, orb_false_r. }
  destruct (index + n =? pieces) eqn:Estop; zbool.
  - simpl. split_and!; [done|done| |].
    + intros j Hj. destruct (in_complete_run_empty runs (index + n) j ltac:(lia)) as [-> _].
      by rewrite Hbb, orb_false_r, Hc.
    + destruct (in_complete_run_empty runs 0 0 ltac:(lia)) as [_ ->]. unfold dn. destruct c; lia.
  - destruct (IH (index + n) dn bs) as (H1 & H2 & H3 & H4); [lia|lia|lia|done|].
    split_and!; [lia|done| |rewrite H4; unfold dn; destruct c; lia].
    intros j Hj. by rewrite H3, Hbb, Hc, orb_assoc.
Qed.

(** ** Properties *)

(** The ranges of a segmented download partition the file: there are as many
    as the rounded-up quotient, at most the segment limit, and the i-th covers
    exactly the bytes from i times the chunk size up to the next multiple or the
    end of the file. *)
Theorem make_chunks_partition (total chunkSize : Z) :
  0 < total <= max_int64 ->
  let cs := makeChunks total chunkSize in
  let size := effectiveChunkSize total chunkSize in
  Z.of_nat (length cs) = ceilDivInt64 total size
  /\ 0 < Z.of_nat (length cs) <= maxHTTPSegmentCount
  /\ (0 < chunkSize -> chunkSize <= size)
  /\ (forall i c, cs !! i = Some c ->
        ch_start c = Z.of_nat i * size /\ ch_end c = Z.min (ch_start c + size) total - 1)
  /\ (forall b, 0 <= b < total -> exists i c, cs !! i = Some c /\ ch_start c <= b <= ch_end c).
Proof.
  intros Ht. cbv zeta. set (size := effectiveChunkSize total chunkSize).
  pose proof (effectiveChunkSize_pos total chunkSize) as Hsize. fold size in Hsize.
  pose proof (ceilDiv_spec total size ltac:(lia) Hsize) as Hc.
  pose proof (ceilDiv_pos total size ltac:(lia) Hsize).
  unfold makeChunks. destruct (Z.leb_spec total 0) as [|_]; [lia|]. fold size.
  destruct (chunksFrom_spec (Z.to_nat (ceilDivInt64 total size)) 0 total size) as [Hl Hcs]; [lia..|nia|].
  rewrite Z.sub_0_r in Hl. split_and!; [done|lia| | |..].
  - rewrite Hl. apply ceilDiv_le; [done|unfold maxHTTPSegmentCount; lia|].
    pose proof (ceilDiv_spec total maxHTTPSegmentCount ltac:(lia) ltac:(unfold maxHTTPSegmentCount; lia)).
    assert (ceilDivInt64 total maxHTTPSegmentCount <= size) by (unfold size, effectiveChunkSize; lia).
    unfold maxHTTPSegmentCount in *. nia.
  - intros Hp. unfold size, effectiveChunkSize. destruct (Z.leb_spec chunkSize 0); lia.
  - intros i c Hi. apply Hcs in Hi as (-> & -> & _). lia.
  - intros b Hb. pose proof (Z.div_pos b size ltac:(lia) Hsize).
    pose proof (Z.div_mod b size ltac:(lia)). pose proof (Z.mod_pos_bound b size Hsize).
    destruct (lookup_lt_is_Some_2 (chunksFrom (Z.to_nat (ceilDivInt64 total size)) 0 total size)
      (Z.to_nat (b / size))) as [c Hi].
    { apply Nat2Z.inj_lt. rewrite Hl, Z2Nat.id by lia. nia. }
    exists (Z.to_nat (b / size)), c. split; [done|]. apply Hcs in Hi as (-> & -> & _).
    rewrite Z2Nat.id by lia. lia.
Qed.

Lemma make_chunks_partition_witness :
  0 < 100 <= max_int64 /\ makeChunks 100 30 = [mkChunk 0 29; mkChunk 30 59; mkChunk 60 89; mkChunk 90 99]
  /\ exists i c, makeChunks 100 30 !! i = Some c /\ ch_start c <= 95 <= ch_end c.
Proof.
  split; [by vm_compute|]. split; [by vm_compute|].
  apply (make_chunks_partition 100 30); [by vm_compute|lia].
Defined.

(** The bitfield of a sequential download has a bit per piece, and the bit of a
    piece is set exactly when all its bytes are below the completed length; the
    number of completed pieces is the number of those. *)
Theorem bitfield_is_completed_prefix (total completed pieceLength i : Z) :
  0 < total -> 0 < pieceLength -> ceilDivInt64 total pieceLength <= maxTorrentPieceCount ->
  0 <= completed -> 0 <= i < ceilDivInt64 total pieceLength ->
  hex_bit (bitfieldFor total completed pieceLength) i = (Z.min ((i + 1) * pieceLength) total <=? completed)
  /\ (i <? completedPieces total completed pieceLength) = (Z.min ((i + 1) * pieceLength) total <=? completed).
Proof.
  intros Ht Hp Hmax Hc Hi.
  pose proof (completedPieces_range total completed pieceLength) as Hr.
  pose proof (ceilDiv_spec total pieceLength Ht Hp) as Hs.
  assert ((i <? completedPieces total completed pieceLength) = (Z.min ((i + 1) * pieceLength) total <=? completed)) as E.
  { unfold completedPieces in *. destruct (Z.leb_spec total 0), (Z.leb_spec pieceLength 0); try lia.
    rewrite orb_false_r. pose proof (Z.div_mod completed pieceLength ltac:(lia)).
    pose proof (Z.mod_pos_bound completed pieceLength Hp).
    destruct (Z.leb_spec completed 0); simpl in *.
    { destruct (Z.ltb_spec i 0), (Z.leb_spec (Z.min ((i + 1) * pieceLength) total) completed); try nia. }
    destruct (Z.leb_spec total completed); simpl in *.
    { destruct (Z.ltb_spec i (ceilDivInt64 total pieceLength)),
        (Z.leb_spec (Z.min ((i + 1) * pieceLength) total) completed); lia. }
    assert (completed / pieceLength <= ceilDivInt64 total pieceLength) by nia.
    destruct (Z.ltb_spec (ceilDivInt64 total pieceLength) (completed / pieceLength)); [lia|].
    destruct (Z.ltb_spec i (completed / pieceLength)),
      (Z.leb_spec (Z.min ((i + 1) * pieceLength) total) completed); nia. }
  split; [|done]. rewrite <- E. unfold bitfieldFor. cbv zeta.
  destruct (Z.leb_spec total 0), (Z.leb_spec pieceLength 0); try lia. simpl.
  destruct (Z.leb_spec (ceilDivInt64 total pieceLength) 0); [lia|].
  destruct (Z.ltb_spec maxTorrentPieceCount (ceilDivInt64 total pieceLength)); [lia|].
  destruct (Z.ltb_spec max_int64 (ceilDivInt64 total pieceLength)); [unfold maxTorrentPieceCount, max_int64 in *; lia|].
  simpl. pose proof (bytes_for (ceilDivInt64 total pieceLength) ltac:(lia)) as Hb.
  destruct (setBits_spec (zeroBytes ((ceilDivInt64 total pieceLength + 7) / 8)) 0
    (completedPieces total completed pieceLength)) as (Hlen & Hbf & Hbb); [lia..|apply zeroBytes_byte|].
  rewrite hex_bit_encode by (done || (rewrite Hlen; lia)). rewrite Hbb, zeroBytes_bit by lia.
  destruct (Z.leb_spec 0 i); [|lia]. done.
Qed.

Lemma bitfield_is_completed_prefix_witness :
  bitfieldFor 100 60 10 = "fc00" /\ hex_bit (bitfieldFor 100 60 10) 5 = (Z.min ((5 + 1) * 10) 100 <=? 60).
Proof.
  split; [by vm_compute|].
  apply (bitfield_is_completed_prefix 100 60 10 5); try lia; by vm_compute.
Defined.

(** The progress of a torrent read off its piece-state runs counts exactly the
    pieces in verified complete runs and sets exactly their bits; runs beyond the
    piece limit give an empty bitfield. *)
Theorem torrent_piece_progress_exact (runs : list pieceRun) :
  let '(done, bitfield) := torrentPieceProgress runs in
  if (0 <? run_total runs) && (run_total runs <=? maxTorrentPieceCount) then
    done = complete_total runs
    /\ forall i, 0 <= i < run_total runs -> hex_bit bitfield i = in_complete_run runs 0 i
  else done = 0 /\ bitfield = "".
Proof.
  unfold torrentPieceProgress. rewrite countRunPieces_spec by (unfold maxTorrentPieceCount; lia).
  rewrite Z.add_0_l. pose proof (run_total_nonneg runs).
  destruct (Z.leb_spec (run_total runs) maxTorrentPieceCount); [|by rewrite andb_false_r].
  rewrite andb_true_r. destruct (Z.ltb_spec 0 (run_total runs)), (Z.eqb_spec (run_total runs) 0); try lia; [|done].
  set (bits := zeroBytes _). pose proof (bytes_for (run_total runs) ltac:(lia)) as Hb. fold bits in Hb.
  destruct (markRuns_spec runs (run_total runs) 0 0 bits) as (Hlen & Hbf & Hbb & Hdone); [lia..|apply zeroBytes_byte|].
  destruct (markRuns runs (run_total runs) 0 0 bits) as [dn bs]. simpl in *. split; [lia|].
  intros i Hi. rewrite hex_bit_encode by (done || (rewrite Hlen; lia)). rewrite Hbb by lia. unfold bits. by rewrite zeroBytes_bit.
Qed.
