(* ===== verification/Reservations.v ===== *)
(** * Output paths and their reservations ([download_util.go])

    The canonical key of an output path, automatic renaming, and the two maps [pathReservations] and [reservedPathsByGID] of the engine that keep
    two downloads from writing the same file. *)
From S2P Require Import Prelude GoStrings GoPath.

(** ** The file system

    What the code observes of it: the working directory, whether a path is a
    symbolic link ([Lstat]), its target ([Readlink]), the resolution of all the
    links of an existing path ([EvalSymlinks]), and directory and size ([Stat]). *)
Class FileSystem := {
  Getwd : result string;
  Lstat : string -> result bool;
  Readlink : string -> result string;
  EvalSymlinks : string -> result string;
  Stat : string -> result (bool * Z)
}.

(** [errors.Is(err, os.ErrNotExist)] *)
Definition isNotExist (e : error) : bool :=
  errors_is (fun e => match e with ENotExist => true | _ => false end) e.

Definition maxSymlinkHops : nat := 255.

Section key.
Context {fs : FileSystem}.

Definition absPath (path : string) : result string :=
  if IsAbs path then Ok (Clean path) else let! cwd := Getwd in Ok (Abs cwd path).

(** The resolution loop.  [current] is a cleaned rooted path throughout; it is
    held as the stack of its elements, so that going to the parent directory is
    popping the stack ([Dir_unelems], [Base_unelems]) and the loop ends at the
    root.  [suffix] holds the popped elements, the last one first, so the code's
    downward loop over it is a left fold. *)
Fixpoint resolveKey (hops : nat) (path absolute : string) : list string -> list string -> result string :=
  fix climb (stack suffix : list string) : result string :=
    let current := unelems true (rev stack) in
    let onward :=
      match EvalSymlinks current with
      | Ok resolved => Ok (Clean (foldl (fun r e => JoinPath [r; e]) resolved suffix))
      | Err err =>
          if isNotExist err then
            match stack with
            | [] => Ok absolute
            | base :: parent => climb parent (base :: suffix)
            end
          else Err err
      end in
    match Lstat current with
    | Ok true =>
        match hops with
        | O => Err (EText ("too many symlinks while resolving " +:+ path))
        | S hops' =>
            let! target := Readlink current in
            let target := if IsAbs target then target else JoinPath [Dir current; target] in
            resolveKey hops' path absolute (rev (elems (Clean target))) suffix
        end
    | Ok false => onward
    | Err lstatErr => if isNotExist lstatErr then onward else Err lstatErr
    end.

Definition outputPathReservationKey (path : string) : result string :=
  let! absolute := absPath path in
  resolveKey maxSymlinkHops path absolute (rev (elems absolute)) [].
End key.

(** ** Containment and renaming *)

Definition pathWithinDirectory (dir path : string) : bool :=
  match Rel dir path with
  | Some rel => negb (String.eqb rel "..") && negb (HasPrefix rel (".." +:+ sep))
  | None => false
  end.

Definition renamed (path : string) (i : Z) : string := path +:+ "." +:+ FormatInt i.

Definition maxRenames : nat := 9999.

Section paths.
Context {fs : FileSystem}.

(** The renaming loop from candidate [i] on, [n] candidates left. *)
Fixpoint nextAvailable (path : string) (n : nat) (i : Z) : result string :=
  match n with
  | O => Err (EText ("could not find available auto-renamed path for " +:+ path))
  | S n' =>
      match Stat (renamed path i) with
      | Ok _ => nextAvailable path n' (i + 1)
      | Err err => if isNotExist err then Ok (renamed path i) else Err err
      end
  end.

Definition nextAvailableOutputPath (path : string) : result string := nextAvailable path maxRenames 1.

(** ** Reservations *)

Record Paths := mkPaths {
  pathReservations : gmap string string;
  reservedPathsByGID : gmap string (gset string)
}.
#[global] Instance eta_Paths : Eta Paths :=
  fun p => mkPaths (pathReservations p) (reservedPathsByGID p).

Definition noPaths : Paths := mkPaths ∅ ∅.

(** The paths recorded for a gid; a missing entry is a nil map. *)
Definition pathsOf (gid : string) (p : Paths) : gset string :=
  default ∅ (reservedPathsByGID p !! gid).

Definition recordPathReservationLocked (path gid : string) (p : Paths) : Paths :=
  mkPaths (<[path := gid]> (pathReservations p))
          (<[gid := {[path]} ∪ pathsOf gid p]> (reservedPathsByGID p)).

Definition releaseOutputPaths (gid : string) (p : Paths) : Paths :=
  mkPaths (set_fold (fun path owners =>
             if bool_decide (owners !! path = Some gid) then delete path owners else owners)
             (pathReservations p) (pathsOf gid p))
          (delete gid (reservedPathsByGID p)).

(** The candidates of [reserveOutputPath]'s loop. *)
Fixpoint reserveRenamed (path gid : string) (n : nat) (i : Z) (p : Paths) : result (string * Paths) :=
  match n with
  | O => Err (EText ("could not find available auto-renamed path for " +:+ path))
  | S n' =>
      let candidate := renamed path i in
      let! candidateKey := outputPathReservationKey candidate in
      match pathReservations p !! candidateKey with
      | Some _ => reserveRenamed path gid n' (i + 1) p
      | None =>
          match Stat candidate with
          | Ok _ => reserveRenamed path gid n' (i + 1) p
          | Err err =>
              if isNotExist err then Ok (candidate, recordPathReservationLocked candidateKey gid p)
              else Err err
          end
      end
  end.

Definition reserveOutputPath (path gid : string) (autoRename : bool) (p : Paths) : result (string * Paths) :=
  let! key := outputPathReservationKey path in
  match pathReservations p !! key with
  | Some owner =>
      if String.eqb owner gid then Ok (path, recordPathReservationLocked key gid p)
      else if negb autoRename then Err (EText ("output path is already in use: " +:+ path))
      else reserveRenamed path gid maxRenames 1 p
  | None => Ok (path, recordPathReservationLocked key gid p)
  end.

(** The keys of the paths with the paths, in order; an error for two paths with one key. *)
Fixpoint collectReservations (paths : list string) (seen : gmap string string)
    : result (list (string * string) * gmap string string) :=
  match paths with
  | [] => Ok ([], seen)
  | path :: rest =>
      let! key := outputPathReservationKey path in
      match seen !! key with
      | Some previous =>
          Err (EText ("multiple files use the same output path: " +:+ previous +:+ " and " +:+ path))
      | None =>
          let! r := collectReservations rest (<[key := path]> seen) in
          Ok ((key, path) :: r.1, r.2)
      end
  end.

Definition conflicting (gid : string) (p : Paths) (r : string * string) : bool :=
  match pathReservations p !! r.1 with
  | Some owner => negb (String.eqb owner gid)
  | None => false
  end.

(** The [replace] branch: the recorded paths of [gid] that are not kept. *)
Definition dropObsolete (seen : gmap string string) (gid : string) (p : Paths) : Paths :=
  set_fold (fun existing p =>
    match seen !! existing with
    | Some _ => p
    | None =>
        mkPaths (delete existing (pathReservations p))
                (<[gid := pathsOf gid p ∖ {[existing]}]> (reservedPathsByGID p))
    end) p (pathsOf gid p).

Definition updateOutputPathReservations (paths : list string) (gid : string) (replace : bool) (p : Paths)
    : result Paths :=
  let! r := collectReservations paths ∅ in
  match List.find (conflicting gid p) r.1 with
  | Some candidate => Err (EText ("output path is already in use: " +:+ candidate.2))
  | None =>
      let p := if replace then dropObsolete r.2 gid p else p in
      Ok (foldl (fun p candidate => recordPathReservationLocked candidate.1 gid p) p r.1)
  end.

Definition reserveOutputPaths (paths : list string) (gid : string) : Paths -> result Paths :=
  updateOutputPathReservations paths gid false.
Definition replaceOutputPaths (paths : list string) (gid : string) : Paths -> result Paths :=
  updateOutputPathReservations paths gid true.
End paths.

(** ** Specification: the two maps describe one ownership relation *)

Definition reservations_ok (p : Paths) : Prop :=
  forall k g, pathReservations p !! k = Some g <-> k ∈ pathsOf g p.

(** [p'] gives [gid] exactly the keys of [ks] and leaves the other owners alone. *)
Definition owns_exactly (gid : string) (ks : gset string) (p p' : Paths) : Prop :=
  forall k g, pathReservations p' !! k = Some g <->
    (g = gid /\ k ∈ ks) \/ (g <> gid /\ pathReservations p !! k = Some g).

(** Successful outcomes of two runs of the same validation agree. *)
Definition keys_of (r : list (string * string)) : gset string := list_to_set r.*1.

(** The operations on the reservations, for histories of any length; an
    operation that fails leaves the maps as they were. *)
Inductive path_op :=
| OpReserve (path gid : string) (autoRename : bool)
| OpUpdate (paths : list string) (gid : string) (replace : bool)
| OpRelease (gid : string).

Definition op_gid (op : path_op) : string :=
  match op with OpReserve _ g _ | OpUpdate _ g _ | OpRelease g => g end.

Definition run_op {fs : FileSystem} (p : Paths) (op : path_op) : Paths :=
  match op with
  | OpReserve path gid autoRename =>
      match reserveOutputPath path gid autoRename p with Ok r => r.2 | Err _ => p end
  | OpUpdate paths gid replace =>
      match updateOutputPathReservations paths gid replace p with Ok p' => p' | Err _ => p end
  | OpRelease gid => releaseOutputPaths gid p
  end.

Definition in_dir (p : string) : bool := existsb (String.eqb p) ["/"; "/d"; "/d/a"].

(** A small file system for the examples: [/d] exists, with one file [/d/a], and
    [/link] is a symbolic link to [/d]. *)
Definition exampleFS : FileSystem := {|
  Getwd := Ok "/d";
  Lstat := fun p => if String.eqb p "/link" then Ok true
                    else if in_dir p then Ok false else Err ENotExist;
  Readlink := fun p => if String.eqb p "/link" then Ok "d" else Err (EText "not a link");
  EvalSymlinks := fun p => if String.eqb p "/link" then Ok "/d"
                           else if in_dir p then Ok p else Err ENotExist;
  Stat := fun p => if String.eqb p "/d/a" then Ok (false, 3)
                   else if in_dir p then Ok (true, 0) else Err ENotExist
|}.

(** The same without the link. *)
Definition plainFS : FileSystem := {|
  Getwd := Ok "/d";
  Lstat := fun p => if in_dir p then Ok false else Err ENotExist;
  Readlink := fun p => Err (EText "not a link");
  EvalSymlinks := fun p => if in_dir p then Ok p else Err ENotExist;
  Stat := fun p => if in_dir p then Ok (true, 0) else Err ENotExist
|}.

(** A file system without symbolic links: [Lstat] never reports one, and an
    existing path resolves to itself. *)
Definition no_symlinks {fs : FileSystem} : Prop :=
  (forall p, Lstat p = Ok false \/ exists e, Lstat p = Err e /\ isNotExist e = true)
  /\ (forall p, EvalSymlinks p = Ok p \/ exists e, EvalSymlinks p = Err e /\ isNotExist e = true).

(** ** Lemmas *)

Lemma maxRenames_val : Z.of_nat maxRenames = 9999.
Proof. by vm_compute. Qed.
#[global] Opaque maxRenames.

Lemma pathsOf_insert (gid g : string) (s : gset string) (owners : gmap string string) p :
  pathsOf g (mkPaths owners (<[gid := s]> (reservedPathsByGID p)))
  = if decide (g = gid) then s else pathsOf g p.
Proof.
  unfold pathsOf; simpl. case_decide as Hg; [subst; by rewrite lookup_insert_eq|].
  by rewrite lookup_insert_ne.
Qed.

Lemma pathsOf_delete (gid g : string) (owners : gmap string string) p :
  pathsOf g (mkPaths owners (delete gid (reservedPathsByGID p)))
  = if decide (g = gid) then ∅ else pathsOf g p.
Proof.
  unfold pathsOf; simpl. case_decide as Hg; [subst; by rewrite lookup_delete_eq|].
  by rewrite lookup_delete_ne.
Qed.

Lemma record_spec (k gid : string) (p : Paths) :
  reservations_ok p -> (forall g, pathReservations p !! k = Some g -> g = gid) ->
  owns_exactly gid ({[k]} ∪ pathsOf gid p) p (recordPathReservationLocked k gid p)
  /\ reservations_ok (recordPathReservationLocked k gid p).
Proof.
  intros Hok Hk. split.
  - intros k' g. unfold recordPathReservationLocked; simpl.
    destruct (decide (k' = k)) as [->|Hn]; [rewrite lookup_insert_eq|rewrite lookup_insert_ne by done].
    + split; [intros [= <-]; set_solver|]. intros [[-> _]|[Hg H]]; [done|]. by apply Hk in H.
    + rewrite (Hok k' g). destruct (decide (g = gid)) as [->|Hg]; set_solver.
  - intros k' g. unfold recordPathReservationLocked. rewrite pathsOf_insert. simpl.
    destruct (decide (k' = k)) as [->|Hn]; [rewrite lookup_insert_eq|rewrite lookup_insert_ne by done].
    + destruct (decide (g = gid)) as [->|Hg]; [set_solver|].
      split; [congruence|]. rewrite <- (Hok k g). intros H. by apply Hk in H.
    + rewrite (Hok k' g). destruct (decide (g = gid)) as [->|Hg]; set_solver.
Qed.

(** Deleting a set of keys that all belong to [gid], in any order. *)
Lemma release_owners (gid : string) (s : gset string) (owners : gmap string string) (k g : string) :
  set_fold (fun path owners =>
    if bool_decide (owners !! path = Some gid) then delete path owners else owners) owners s !! k = Some g
  <-> owners !! k = Some g /\ ~ (k ∈ s /\ g = gid).
Proof.
  apply (set_fold_ind_L (fun (r : gmap string string) (s : gset string) =>
    r !! k = Some g <-> owners !! k = Some g /\ ~ (k ∈ s /\ g = gid))).
  - set_solver.
  - intros x X r Hx IH. case_bool_decide as Hr;
      (destruct (decide (k = x)) as [->|Hn]; [|rewrite ?lookup_delete_ne by done; rewrite IH; set_solver]).
    + rewrite lookup_delete_eq. split; [done|]. intros [Ho Hng]. destruct (decide (g = gid)) as [->|Hg]; [set_solver|].
      assert (r !! x = Some g) as Hc by (apply IH; set_solver). congruence.
    + rewrite IH. set_solver.
Qed.

Lemma release_spec (gid : string) (p : Paths) :
  reservations_ok p ->
  owns_exactly gid ∅ p (releaseOutputPaths gid p) /\ reservations_ok (releaseOutputPaths gid p).
Proof.
  intros Hok.
  assert (forall k g, pathReservations (releaseOutputPaths gid p) !! k = Some g <->
                      g <> gid /\ pathReservations p !! k = Some g) as H.
  { intros k g. simpl. rewrite release_owners. pose proof (Hok k gid).
    destruct (decide (g = gid)) as [->|]; tauto. }
  split.
  - intros k g. rewrite H. set_solver.
  - intros k g. rewrite H. unfold releaseOutputPaths. rewrite pathsOf_delete, (Hok k g).
    case_decide; set_solver.
Qed.

Lemma dropObsolete_spec (seen : gmap string string) (gid : string) (p : Paths) :
  reservations_ok p ->
  owns_exactly gid (pathsOf gid p ∩ dom seen) p (dropObsolete seen gid p)
  /\ reservations_ok (dropObsolete seen gid p).
Proof.
  intros Hok. unfold dropObsolete.
  pose (I := fun (r : Paths) (X : gset string) => X ⊆ pathsOf gid p ->
    owns_exactly gid (pathsOf gid p ∖ (X ∖ dom seen)) p r
    /\ pathsOf gid r = pathsOf gid p ∖ (X ∖ dom seen) /\ reservations_ok r).
  match goal with |- context [set_fold ?f _ _] => cut (I (set_fold f p (pathsOf gid p)) (pathsOf gid p)) end.
  { intros H. destruct (H ltac:(done)) as (H1 & _ & H2). split; [|done].
    replace (pathsOf gid p ∩ dom seen) with (pathsOf gid p ∖ (pathsOf gid p ∖ dom seen)); [done|].
    apply set_eq. intros x. destruct (decide (x ∈ dom seen)); set_solver. }
  apply (set_fold_ind_L I).
  - intros _. split; [|split; [|done]].
    + intros k g. rewrite (Hok k g). destruct (decide (g = gid)) as [->|]; set_solver.
    + set_solver.
  - intros x X r Hx IH HX. destruct (IH ltac:(set_solver)) as (Ho & Hp & Hr).
    destruct (seen !! x) as [y|] eqn:Hseen.
    + apply elem_of_dom_2 in Hseen.
      replace (({[x]} ∪ X) ∖ dom seen) with (X ∖ dom seen) by set_solver. done.
    + apply not_elem_of_dom_2 in Hseen.
      assert (pathReservations r !! x = Some gid) as Hrx by (apply Ho; left; set_solver).
      split; [|split].
      * intros k g. simpl. destruct (decide (k = x)) as [->|Hn].
        -- rewrite lookup_delete_eq. split; [done|]. intros [[_ Hc]|[Hg Hc]]; [set_solver|].
           assert (x ∈ pathsOf gid p) as Hx' by set_solver. apply Hok in Hx'. congruence.
        -- rewrite lookup_delete_ne by done. rewrite (Ho k g). set_solver.
      * rewrite pathsOf_insert, decide_True by done. rewrite Hp. set_solver.
      * intros k g. rewrite pathsOf_insert. simpl. destruct (decide (k = x)) as [->|Hn].
        -- rewrite lookup_delete_eq. split; [done|]. case_decide as Hg; [set_solver|].
           intros Hc. apply Hr in Hc. congruence.
        -- rewrite lookup_delete_ne by done. rewrite (Hr k g). case_decide as Hg; [subst; set_solver|done].
Qed.

Lemma collect_spec {fs : FileSystem} (paths : list string) (seen : gmap string string) rs seen' :
  collectReservations paths seen = Ok (rs, seen') ->
  Forall2 (fun path r => outputPathReservationKey path = Ok r.1 /\ r.2 = path) paths rs
  /\ NoDup rs.*1 /\ (forall k, k ∈ rs.*1 -> seen !! k = None)
  /\ dom seen' = dom seen ∪ keys_of rs.
Proof.
  revert seen rs seen'. induction paths as [|path rest IH]; simpl; intros seen rs seen' H.
  - simplify_eq. repeat split; [constructor|constructor|set_solver|]. unfold keys_of; simpl. set_solver.
  - apply result_bind_ok in H as (key & Hkey & H).
    destruct (seen !! key) as [prev|] eqn:Hseen; [done|].
    apply result_bind_ok in H as ([rs0 seen0] & H0 & H). simpl in H. simplify_eq.
    destruct (IH _ _ _ H0) as (Hf & Hnd & Hns & Hd). repeat split.
    + by constructor.
    + simpl. constructor; [|done]. intros Hin. apply Hns in Hin. by rewrite lookup_insert_eq in Hin.
    + simpl. intros k [->|Hk]%elem_of_cons; [done|]. apply Hns in Hk.
      by apply lookup_insert_None in Hk as [? _].
    + rewrite Hd. unfold keys_of. rewrite dom_insert_L. simpl. set_solver.
Qed.

Lemma owns_exactly_trans (gid : string) (ks ks' : gset string) (p p' p'' : Paths) :
  owns_exactly gid ks p p' -> owns_exactly gid ks' p' p'' -> owns_exactly gid ks' p p''.
Proof. intros H H' k g. rewrite (H' k g), (H k g). tauto. Qed.

Lemma owned_pathsOf (gid : string) (ks : gset string) (p p' : Paths) :
  owns_exactly gid ks p p' -> reservations_ok p' -> pathsOf gid p' = ks.
Proof. intros H Hok. apply set_eq. intros k. rewrite <- (Hok k gid), (H k gid). tauto. Qed.

Lemma record_all_spec (rs : list (string * string)) (gid : string) (p : Paths) :
  reservations_ok p -> Forall (fun r => forall g, pathReservations p !! r.1 = Some g -> g = gid) rs ->
  let p' := foldl (fun p candidate => recordPathReservationLocked candidate.1 gid p) p rs in
  owns_exactly gid (keys_of rs ∪ pathsOf gid p) p p' /\ reservations_ok p'.
Proof.
  revert p. induction rs as [|r rs IH]; intros p Hok Hf; simpl.
  - split; [|done]. intros k g. rewrite (Hok k g). unfold keys_of; simpl.
    destruct (decide (g = gid)) as [->|]; set_solver.
  - inversion Hf as [|?? Hr Hrs]; subst. destruct (record_spec r.1 gid p Hok Hr) as [Ho Hok'].
    destruct (IH (recordPathReservationLocked r.1 gid p)) as [H1 H2]; [done| |].
    + eapply Forall_impl; [exact Hrs|]. intros r' Hr' g Hg. apply Ho in Hg. naive_solver.
    + split; [|done]. rewrite (owned_pathsOf _ _ _ _ Ho Hok') in H1.
      pose proof (owns_exactly_trans _ _ _ _ _ _ Ho H1) as Ht.
      replace (keys_of (r :: rs) ∪ pathsOf gid p) with (keys_of rs ∪ ({[r.1]} ∪ pathsOf gid p)); [done|].
      unfold keys_of. simpl. set_solver.
Qed.

Lemma find_conflicting (gid : string) (p : Paths) (rs : list (string * string)) :
  List.find (conflicting gid p) rs = None ->
  Forall (fun r => forall g, pathReservations p !! r.1 = Some g -> g = gid) rs.
Proof.
  intros H. apply Forall_forall. intros r Hr g Hg. apply list_elem_of_In in Hr.
  pose proof (find_none _ _ H r Hr) as Hc. unfold conflicting in Hc. rewrite Hg in Hc.
  apply negb_false_iff in Hc. by apply String.eqb_eq.
Qed.

Lemma update_spec {fs : FileSystem} (paths : list string) (gid : string) (replace : bool) (p p' : Paths) :
  reservations_ok p -> updateOutputPathReservations paths gid replace p = Ok p' ->
  exists rs, Forall2 (fun path r => outputPathReservationKey path = Ok r.1 /\ r.2 = path) paths rs
    /\ NoDup rs.*1
    /\ Forall (fun r => forall g, pathReservations p !! r.1 = Some g -> g = gid) rs
    /\ owns_exactly gid (keys_of rs ∪ if replace then ∅ else pathsOf gid p) p p'
    /\ reservations_ok p'.
Proof.
  intros Hok H. unfold updateOutputPathReservations in H.
  apply result_bind_ok in H as ([rs seen] & Hc & H). simpl in H.
  destruct (collect_spec _ _ _ _ Hc) as (Hf & Hnd & _ & Hd).
  destruct (List.find (conflicting gid p) rs) as [c|] eqn:Hfind; [done|]. simplify_eq.
  exists rs. split; [done|]. split; [done|]. apply find_conflicting in Hfind. split; [done|].
  destruct replace.
  - destruct (dropObsolete_spec seen gid p Hok) as [Ho1 Hok1].
    destruct (record_all_spec rs gid (dropObsolete seen gid p) Hok1) as [Ho2 Hok2].
    { eapply Forall_impl; [exact Hfind|]. intros r Hr g Hg. apply Ho1 in Hg. naive_solver. }
    split; [|done]. rewrite (owned_pathsOf _ _ _ _ Ho1 Hok1) in Ho2.
    pose proof (owns_exactly_trans _ _ _ _ _ _ Ho1 Ho2) as Ho.
    replace (keys_of rs ∪ ∅) with (keys_of rs ∪ (pathsOf gid p ∩ dom seen)); [done|].
    rewrite Hd. set_solver.
  - by apply record_all_spec.
Qed.

Lemma reserveRenamed_spec {fs : FileSystem} (path gid : string) (n : nat) (i : Z) (p p' : Paths) (out : string) :
  reserveRenamed path gid n i p = Ok (out, p') ->
  exists j key err, i <= j < i + Z.of_nat n /\ out = renamed path j
    /\ outputPathReservationKey out = Ok key /\ pathReservations p !! key = None
    /\ Stat out = Err err /\ isNotExist err = true /\ p' = recordPathReservationLocked key gid p.
Proof.
  revert i. induction n as [|n IH]; intros i H; [done|]. simpl in H.
  apply result_bind_ok in H as (key & Hkey & H).
  assert (reserveRenamed path gid n (i + 1) p = Ok (out, p') ->
    exists j key err, i <= j < i + Z.of_nat (S n) /\ out = renamed path j
      /\ outputPathReservationKey out = Ok key /\ pathReservations p !! key = None
      /\ Stat out = Err err /\ isNotExist err = true /\ p' = recordPathReservationLocked key gid p) as Hnext.
  { intros Hn. destruct (IH _ Hn) as (j & k & e & Hj & Hrest). exists j, k, e. split; [lia|done]. }
  destruct (pathReservations p !! key) eqn:Hp; [by apply Hnext|].
  destruct (Stat (renamed path i)) as [st|err] eqn:Hst; [by apply Hnext|].
  destruct (isNotExist err) eqn:He; [|done]. simplify_eq.
  exists i, key, err. repeat split; [lia|lia|done..].
Qed.

(** ** The climb of the key resolution goes to the parent directory *)

Lemma str_length_app (s t : string) : String.length (s +:+ t) = (String.length s + String.length t)%nat.
Proof. induction s as [|a s IH]; [done|]. simpl. by rewrite IH. Qed.

Lemma split_last_app (s e : string) :
  ContainsByte e slash = false -> split_last (s +:+ String slash e) = (s +:+ sep, e).
Proof.
  intros He. induction s as [|a s IH].
  - change ("" +:+ String slash e) with (String slash e). simpl.
    assert (split_last e = ("", e)) as ->; [|done].
    clear -He. induction e as [|a e IH]; [done|]. rewrite ContainsByte_cons in He.
    apply orb_false_iff in He as [Ha He]. simpl. rewrite (IH He). simpl.
    by rewrite Ascii.eqb_sym, Ha.
  - change (String a s +:+ String slash e) with (String a (s +:+ String slash e)). simpl.
    rewrite IH. destruct (String.eqb_spec (s +:+ sep) "") as [E|_]; [|done].
    apply (f_equal String.length) in E. rewrite str_length_app in E. simpl in E. lia.
Qed.

Lemma Join_snoc (l : list string) (e s : string) :
  Join (l ++ [e]) s = match l with [] => e | _ => Join l s +:+ s +:+ e end.
Proof.
  induction l as [|x l IH]; [done|]. destruct l as [|y l]; [done|].
  change (Join ((x :: y :: l) ++ [e]) s) with (x +:+ s +:+ Join ((y :: l) ++ [e]) s).
  rewrite IH. change (Join (x :: y :: l) s) with (x +:+ s +:+ Join (y :: l) s).
  by rewrite !str_app_assoc.
Qed.

Lemma unelems_snoc (es : list string) (e : string) :
  exists d, unelems true (es ++ [e]) = d +:+ String slash e
    /\ d +:+ sep = (match es with [] => sep | _ => unelems true es +:+ sep end).
Proof.
  unfold unelems. rewrite Join_snoc. destruct es as [|x es]; [by exists ""|].
  exists (sep +:+ Join (x :: es) sep). split; [by rewrite str_app_assoc|done].
Qed.

(** The parent directory of a path is the path of the popped stack. *)
Lemma Dir_unelems (es : list string) (e : string) :
  Forall plain_elem es -> plain_elem e -> Dir (unelems true (es ++ [e])) = unelems true es.
Proof.
  intros Hes (_ & _ & _ & He). destruct (unelems_snoc es e) as (d & -> & Hd). unfold Dir.
  rewrite split_last_app by done. simpl. rewrite Hd. destruct es as [|x es]; [done|].
  rewrite Clean_trailing by apply IsAbs_unelems. by apply Clean_unelems.
Qed.

(** Popping and re-appending elements rebuilds the path. *)
Lemma rejoin (es suffix : list string) :
  Forall plain_elem es -> Forall plain_elem suffix ->
  foldl (fun r e => JoinPath [r; e]) (unelems true es) suffix = unelems true (es ++ suffix).
Proof.
  intros Hes Hs. revert es Hes. induction Hs as [|e suffix He Hs IH]; intros es Hes; simpl.
  - by rewrite app_nil_r.
  - rewrite JoinPath_elem by done. rewrite IH by (apply Forall_app; split; [done|by apply Forall_singleton]).
    by rewrite <- app_assoc.
Qed.

Lemma resolveKey_no_symlinks {fs : FileSystem} (hops : nat) (path : string) (stack suffix : list string) :
  no_symlinks -> Forall plain_elem stack -> Forall plain_elem suffix ->
  resolveKey hops path (unelems true (rev stack ++ suffix)) stack suffix
  = Ok (unelems true (rev stack ++ suffix)).
Proof.
  intros [Hl He] Hst. revert suffix. induction Hst as [|e st Hp Hst IH]; intros suffix Hs.
  - assert (IH := rejoin [] suffix ltac:(done) Hs). simpl rev in *. simpl app in *.
    destruct hops; cbn [resolveKey]; set (current := unelems true (rev [])) in *;
      (destruct (Hl current) as [->|(e1 & -> & ->)]; destruct (He current) as [->|(e2 & -> & ->)];
        [unfold current; simpl rev; rewrite IH; by rewrite Clean_unelems|done
        |unfold current; simpl rev; rewrite IH; by rewrite Clean_unelems|done]).
  - assert (Forall plain_elem (rev (e :: st))) as Hrev by (apply Forall_rev; by constructor).
    assert (rev (e :: st) ++ suffix = rev st ++ e :: suffix) as E by (simpl; by rewrite <- app_assoc).
    specialize (IH (e :: suffix)). rewrite <- E in IH.
    destruct hops; cbn [resolveKey] in *; set (current := unelems true (rev (e :: st))) in *;
      (destruct (Hl current) as [->|(e1 & -> & ->)]; destruct (He current) as [->|(e2 & -> & ->)];
        [unfold current; rewrite rejoin, Clean_unelems by (first [done|by apply Forall_app]); done
        |apply IH; by constructor
        |unfold current; rewrite rejoin, Clean_unelems by (first [done|by apply Forall_app]); done
        |apply IH; by constructor]).
Qed.

Lemma collect_complete {fs : FileSystem} (paths ks : list string) (seen : gmap string string) :
  Forall2 (fun path k => outputPathReservationKey path = Ok k) paths ks ->
  NoDup ks -> (forall k, k ∈ ks -> seen !! k = None) ->
  exists seen', collectReservations paths seen = Ok (zip ks paths, seen').
Proof.
  intros Hf. revert seen. induction Hf as [|path k paths ks Hk Hf IH]; intros seen Hnd Hs; simpl; [by eexists|].
  rewrite Hk. simpl. rewrite Hs by set_solver. inversion Hnd as [|?? Hnk Hnd']; subst.
  destruct (IH (<[k := path]> seen) Hnd') as [seen' ->]; [|by eexists].
  intros k' Hk'. rewrite lookup_insert_ne by (intros ->; done). apply Hs. set_solver.
Qed.

Lemma update_complete {fs : FileSystem} (paths ks : list string) (gid : string) (replace : bool) (p : Paths) :
  Forall2 (fun path k => outputPathReservationKey path = Ok k) paths ks ->
  NoDup ks -> Forall (fun k => forall g, pathReservations p !! k = Some g -> g = gid) ks ->
  exists p', updateOutputPathReservations paths gid replace p = Ok p'.
Proof.
  intros Hf Hnd Ho. destruct (collect_complete paths ks ∅ Hf Hnd) as [seen Hc]; [done|].
  unfold updateOutputPathReservations. rewrite Hc. simpl.
  destruct (List.find _ _) as [c|] eqn:Hfind; [|by eexists]. exfalso.
  apply find_some in Hfind as [Hin Hc']. apply list_elem_of_In in Hin. unfold conflicting in Hc'.
  destruct c as [k path]. apply elem_of_zip_l in Hin. rewrite Forall_forall in Ho.
  simpl in Hc'. destruct (pathReservations p !! k) eqn:Hk; [|done].
  rewrite (Ho _ Hin _ Hk), String.eqb_refl in Hc'. done.
Qed.

Lemma reserve_spec {fs : FileSystem} (path gid out : string) (autoRename : bool) (p p' : Paths) :
  reservations_ok p -> reserveOutputPath path gid autoRename p = Ok (out, p') ->
  exists key, outputPathReservationKey out = Ok key
    /\ owns_exactly gid ({[key]} ∪ pathsOf gid p) p p' /\ reservations_ok p'
    /\ (forall g, pathReservations p !! key = Some g -> g = gid)
    /\ (out = path \/ autoRename = true /\ exists i err, 1 <= i <= 9999 /\ out = renamed path i
          /\ Stat out = Err err /\ isNotExist err = true).
Proof.
  intros Hok H. unfold reserveOutputPath in H. apply result_bind_ok in H as (key & Hkey & H).
  assert (forall k, pathReservations p !! k = None -> forall g, pathReservations p !! k = Some g -> g = gid)
    as Hfree by congruence.
  destruct (pathReservations p !! key) as [owner|] eqn:Hown.
  - destruct (String.eqb_spec owner gid) as [->|Hne].
    + simplify_eq. destruct (record_spec key gid p Hok) as [H1 H2]; [congruence|].
      exists key. split_and!; [done|done|done|congruence|by left].
    + destruct autoRename; [|done]. simpl in H.
      destruct (reserveRenamed_spec _ _ _ _ _ _ _ H) as (j & k & err & Hj & -> & Hk & Hnone & Hst & He & ->).
      destruct (record_spec k gid p Hok (Hfree _ Hnone)) as [H1 H2]. exists k.
      split_and!; [done|done|done|by apply Hfree|].
      right. split; [done|]. exists j, err. rewrite maxRenames_val in Hj. split_and!; [lia|lia|done..].
  - simplify_eq. destruct (record_spec key gid p Hok (Hfree _ Hown)) as [H1 H2].
    exists key. split_and!; [done|done|done|by apply Hfree|by left].
Qed.

Lemma run_op_spec {fs : FileSystem} (p : Paths) (op : path_op) :
  reservations_ok p ->
  reservations_ok (run_op p op)
  /\ forall k g, g <> op_gid op -> (pathReservations (run_op p op) !! k = Some g <-> pathReservations p !! k = Some g).
Proof.
  intros Hok. destruct op as [path gid auto|paths gid rep|gid]; simpl.
  - destruct (reserveOutputPath path gid auto p) as [[out p']|e] eqn:H; [|done].
    destruct (reserve_spec _ _ _ _ _ _ Hok H) as (key & _ & Ho & Hok' & _). simpl. split; [done|].
    intros k g Hg. rewrite (Ho k g). tauto.
  - destruct (updateOutputPathReservations paths gid rep p) as [p'|e] eqn:H; [|done].
    destruct (update_spec _ _ _ _ _ Hok H) as (rs & _ & _ & _ & Ho & Hok'). split; [done|].
    intros k g Hg. rewrite (Ho k g). tauto.
  - destruct (release_spec gid p Hok) as [Ho Hok']. split; [done|].
    intros k g Hg. rewrite (Ho k g). tauto.
Qed.

Lemma noPaths_ok : reservations_ok noPaths.
Proof. intros k g. unfold noPaths, pathsOf; simpl. rewrite !lookup_empty. simpl. set_solver. Qed.

(** ** Properties *)

(** C7: after any history of reservations, replacements and releases from the
    empty state the two maps describe one ownership relation, and an operation of
    one download never takes or drops a path of another. *)
Theorem reservations_exclusive {fs : FileSystem} (ops : list path_op) (op : path_op) :
  let p := foldl run_op noPaths ops in
  reservations_ok p
  /\ forall k g, g <> op_gid op ->
       (pathReservations (run_op p op) !! k = Some g <-> pathReservations p !! k = Some g).
Proof.
  assert (forall p, reservations_ok p -> reservations_ok (foldl run_op p ops)) as H.
  { induction ops as [|o ops IH]; intros p Hp; simpl; [done|]. apply IH. by apply run_op_spec. }
  split; [|apply run_op_spec]; apply H, noPaths_ok.
Qed.

(** Reserving a set of paths succeeds exactly when every path has a key, no
    two have the same and none is owned by another download; then the download
    owns the keys of these paths, together with its previous ones unless the set
    replaces them, and everyone else owns what they owned. *)
Theorem reserve_paths_refines {fs : FileSystem} (paths : list string) (gid : string) (replace : bool) (p : Paths) :
  reservations_ok p ->
  ((exists p', updateOutputPathReservations paths gid replace p = Ok p') <->
   exists ks, Forall2 (fun path k => outputPathReservationKey path = Ok k) paths ks /\ NoDup ks
     /\ Forall (fun k => forall g, pathReservations p !! k = Some g -> g = gid) ks)
  /\ (forall p' ks, updateOutputPathReservations paths gid replace p = Ok p' ->
       Forall2 (fun path k => outputPathReservationKey path = Ok k) paths ks ->
       owns_exactly gid (list_to_set ks ∪ if replace then ∅ else pathsOf gid p) p p').
Proof.
  intros Hok.
  assert (forall rs, Forall2 (fun path r => outputPathReservationKey path = Ok r.1 /\ r.2 = path) paths rs ->
    Forall2 (fun path k => outputPathReservationKey path = Ok k) paths rs.*1) as Hfst.
  { intros rs Hf. apply Forall2_fmap_r. eapply Forall2_impl; [exact Hf|]. by intros ? ? [? _]. }
  split; [split|].
  - intros [p' H]. destruct (update_spec _ _ _ _ _ Hok H) as (rs & Hf & Hnd & Hc & _).
    exists rs.*1. split; [by apply Hfst|]. split; [done|]. by apply Forall_fmap.
  - intros (ks & Hf & Hnd & Hc). by eapply update_complete.
  - intros p' ks H Hks. destruct (update_spec _ _ _ _ _ Hok H) as (rs & Hf & _ & _ & Ho & _).
    replace ks with (rs.*1); [exact Ho|].
    apply Hfst in Hf. clear -Hf Hks. revert ks Hks.
    induction Hf; intros ks Hks; inversion Hks; simplify_eq; [done|]. f_equal; [congruence|by auto].
Qed.

Lemma reserve_paths_refines_witness :
  @updateOutputPathReservations exampleFS ["/d/x"; "/link/y"] "g" false noPaths <> Err EEOF
  /\ exists p', @updateOutputPathReservations exampleFS ["/d/x"; "/link/y"] "g" false noPaths = Ok p'.
Proof.
  split; [by vm_compute|].
  destruct (@reserve_paths_refines exampleFS ["/d/x"; "/link/y"] "g" false noPaths) as [[_ H] _].
  { apply noPaths_ok. }
  apply H. exists ["/d/x"; "/d/y"]. split; [|split].
  - by repeat constructor; vm_compute.
  - apply (bool_decide_unpack _). by vm_compute.
  - by repeat constructor.
Defined.

(** Reserving one output path gives the download a path nobody else owns: the
    requested one, or, when renaming is allowed, a numbered one that does not exist
    on disk; the download keeps its other paths and other downloads theirs. *)
Theorem reserve_path_refines {fs : FileSystem} (path gid out : string) (autoRename : bool) (p p' : Paths) :
  reservations_ok p -> reserveOutputPath path gid autoRename p = Ok (out, p') ->
  exists key, outputPathReservationKey out = Ok key
    /\ owns_exactly gid ({[key]} ∪ pathsOf gid p) p p'
    /\ (forall g, pathReservations p !! key = Some g -> g = gid)
    /\ (out = path \/ autoRename = true /\ exists i err, 1 <= i <= 9999 /\ out = renamed path i
          /\ Stat out = Err err /\ isNotExist err = true).
Proof.
  intros Hok H. destruct (reserve_spec _ _ _ _ _ _ Hok H) as (key & H1 & H2 & _ & H3). by exists key.
Qed.

Lemma reserve_path_refines_witness :
  exists key, @outputPathReservationKey exampleFS "/link/x.1" = Ok key /\ key = "/d/x.1"
    /\ forall g, ({["/d/x" := "h"]} : gmap string string) !! key = Some g -> g = "g".
Proof.
  destruct (@reserve_path_refines exampleFS "/link/x" "g" "/link/x.1" true
    (mkPaths {["/d/x" := "h"]} {["h" := {["/d/x"]}]})
    (recordPathReservationLocked "/d/x.1" "g" (mkPaths {["/d/x" := "h"]} {["h" := {["/d/x"]}]})))
    as (key & Hk & _ & Ho & _).
  - intros k g. unfold pathsOf; simpl. destruct (decide (g = "h")) as [->|Hg].
    + rewrite lookup_singleton_eq. simpl. rewrite elem_of_singleton.
      destruct (decide (k = "/d/x")) as [->|]; [by rewrite lookup_singleton_eq|].
      by rewrite lookup_singleton_ne.
    + rewrite (lookup_singleton_ne "h") by done. simpl. rewrite lookup_singleton_Some. set_solver.
  - by vm_compute.
  - exists key. split; [done|]. split; [|done]. assert (Ok key = Ok "/d/x.1") as [= ->]; [|done].
    rewrite <- Hk. by vm_compute.
Defined.

(** Without symbolic links the reservation key of a path is its cleaned
    absolute path, whether or not the file and its directories exist, so lexical
    variants of one path share a key. *)
Theorem key_without_symlinks {fs : FileSystem} (cwd path : string) :
  no_symlinks -> Getwd = Ok cwd -> IsAbs cwd = true -> outputPathReservationKey path = Ok (Abs cwd path).
Proof.
  intros Hn Hcwd Habs. unfold outputPathReservationKey, absPath. rewrite Hcwd.
  generalize maxSymlinkHops; intros hops.
  assert ((if IsAbs path then Ok (Clean path) else let! cwd := Ok cwd in Ok (Abs cwd path)) = Ok (Abs cwd path)) as ->.
  { unfold Abs. by destruct (IsAbs path). }
  simpl. destruct (Abs_unelems cwd path Habs) as (es & -> & Hes).
  rewrite elems_unelems by done.
  pose proof (resolveKey_no_symlinks hops path (rev es) [] Hn ltac:(by apply Forall_rev) ltac:(done)) as H.
  rewrite rev_involutive, app_nil_r in H. exact H.
Qed.

Lemma key_without_symlinks_witness :
  @outputPathReservationKey plainFS "x/../a//b" = Ok "/d/a/b".
Proof.
  rewrite (@key_without_symlinks plainFS "/d" "x/../a//b"); [by vm_compute| |done|done].
  split; intros p; simpl; destruct (in_dir p); eauto.
Defined.
