(* ===== verification/Filename.v ===== *)
(** * File names from URIs and responses, and output paths

    [query.go] ([filenameFromURI], [safeURIFilename]) and [download_util.go]
    ([resolveOutputPath], [isSimpleRelativeName]): how the local name of a download
    is derived from untrusted text, and where it is put. *)
From S2P Require Import Prelude GoStrings GoPath GoURL Reservations.

Definition backslash : ascii := ascii_of_N 92.

Definition safeURIFilename (raw : string) : string :=
  let name := Base raw in
  if String.eqb name "." || String.eqb name ".." || String.eqb name "/"
     || String.eqb name (String backslash "") || String.eqb name "" || ContainsByte name zero
  then "index.html" else name.

(** The text before the first [?] or [#]. *)
Fixpoint beforeQuery (s : string) : string :=
  match s with
  | "" => ""
  | String a s' => if ContainsByte "?#" a then "" else String a (beforeQuery s')
  end.

Definition filenameFromURI (raw : string) : string :=
  match parse raw with
  | Some u =>
      let escapedPath := u_EscapedPath u in
      if String.eqb escapedPath "" || HasSuffix escapedPath "/" then "index.html"
      else
        let segment := Base escapedPath in
        if negb (String.eqb segment ".") && negb (String.eqb segment "/") && negb (String.eqb segment "") then
          match PathUnescape segment with
          | Some decoded => safeURIFilename decoded
          | None => safeURIFilename segment
          end
        else "index.html"
  | None => safeURIFilename (beforeQuery raw)
  end.

Definition isSimpleRelativeName (name : string) : bool :=
  negb (String.eqb name "") && negb (String.eqb name ".") && negb (String.eqb name "..")
  && negb (ContainsAny name (String slash (String backslash ""))).

Definition resolveOutputPath (dir out filename rawURI : string) : string :=
  let dir := if String.eqb dir "" then "." else dir in
  let out := if String.eqb out "" then filename else out in
  let out := if String.eqb out "" then filenameFromURI rawURI else out in
  if IsAbs out then Clean out
  else if isSimpleRelativeName out && negb (String.eqb dir "") && negb (String.eqb dir ".") then
    dir +:+ sep +:+ out
  else JoinPath [dir; Clean out].

(** ** Lemmas *)

Lemma split_last_file (s : string) : ContainsByte (split_last s).2 slash = false.
Proof.
  induction s as [|a s IH]; [done|]. simpl. destruct (split_last s) as [d f]. simpl in IH.
  destruct (String.eqb d "" && negb (Ascii.eqb a slash)) eqn:E; simpl; [|done].
  apply andb_true_iff in E as [_ E]. apply negb_true_iff in E.
  by rewrite ContainsByte_cons, Ascii.eqb_sym, E.
Qed.

Lemma Base_cases (s : string) : Base s = "." \/ Base s = sep \/ (Base s <> "" /\ ContainsByte (Base s) slash = false).
Proof.
  unfold Base. destruct (String.eqb_spec s ""); [by left|]. right. cbv zeta.
  destruct (String.eqb_spec (split_last (strip_trailing s)).2 ""); [by left|]. right.
  split; [done|]. apply split_last_file.
Qed.

Lemma safeURIFilename_plain (raw : string) :
  plain_elem (safeURIFilename raw) /\ ContainsByte (safeURIFilename raw) zero = false.
Proof.
  unfold safeURIFilename. cbv zeta.
  destruct (_ || ContainsByte (Base raw) zero) eqn:E; [by repeat split|].
  repeat rewrite orb_false_iff in E. destruct E as (((((H1 & H2) & H3) & _) & H4) & H5).
  apply String.eqb_neq in H1, H2, H3, H4.
  destruct (Base_cases raw) as [H|[H|[_ H]]]; [done|done|]. by repeat split.
Qed.

Lemma filenameFromURI_plain (raw : string) :
  plain_elem (filenameFromURI raw) /\ ContainsByte (filenameFromURI raw) zero = false.
Proof.
  unfold filenameFromURI. destruct (parse raw) as [u|]; [|apply safeURIFilename_plain].
  cbv zeta. case_if; [by repeat split|]. case_if; [|by repeat split].
  destruct (PathUnescape _); apply safeURIFilename_plain.
Qed.

Lemma plain_not_abs (name : string) : plain_elem name -> IsAbs name = false.
Proof.
  intros (_ & _ & _ & H). destruct name as [|a name]; [done|].
  rewrite ContainsByte_cons in H. apply orb_false_iff in H as [H _].
  change (IsAbs (String a name)) with (Ascii.eqb slash a && HasPrefix name ""). by rewrite H.
Qed.

Lemma Clean_plain (name : string) : plain_elem name -> Clean name = name.
Proof.
  intros H. pose proof H as (H1 & H2 & H3 & H4). unfold Clean.
  destruct (String.eqb_spec name ""); [done|].
  rewrite plain_not_abs by done.
  rewrite elems_plain by done. unfold clean_elems. simpl. unfold clean_step.
  destruct (String.eqb_spec name ""); [done|]. destruct (String.eqb_spec name "."); [done|].
  by destruct (String.eqb_spec name "..").
Qed.

(** Cleaning a rooted path with one more plain element appends the element. *)
Lemma elems_Clean_child (dir name : string) :
  IsAbs dir = true -> plain_elem name ->
  Clean (dir +:+ sep +:+ name) = unelems true (elems (Clean dir) ++ [name])
  /\ Forall plain_elem (elems (Clean dir) ++ [name]).
Proof.
  intros Hd Hn. pose proof (elems_Clean_plain dir Hd) as Hp.
  assert (Forall plain_elem (elems (Clean dir) ++ [name])) as Hf
    by (apply Forall_app; split; [done|by apply Forall_singleton]).
  split; [|done]. rewrite Clean_abs by (by apply IsAbs_app). rewrite elems_sep, (elems_plain name) by done.
  destruct (Clean_rooted dir Hd) as (es & E & Hes). rewrite E, elems_unelems by done.
  rewrite Clean_abs in E by done.
  assert (clean_elems true (elems dir) = es) as Ees.
  { apply (f_equal elems) in E. rewrite !elems_unelems in E; try done.
    apply clean_elems_plain. eapply Forall_impl; [apply elems_no_sep|]. by intros ? [_ ?]. }
  f_equal. unfold clean_elems in *. rewrite foldl_app. simpl. unfold clean_step at 1.
  destruct Hn as (H1 & H2 & H3 & _).
  destruct (String.eqb_spec name ""); [done|]. destruct (String.eqb_spec name "."); [done|].
  destruct (String.eqb_spec name ".."); [done|]. simpl. by rewrite Ees.
Qed.

Lemma elems_Clean_child_elems (dir name : string) :
  IsAbs dir = true -> plain_elem name ->
  elems (Clean (dir +:+ sep +:+ name)) = elems (Clean dir) ++ [name]
  /\ Clean (Clean (dir +:+ sep +:+ name)) = Clean (dir +:+ sep +:+ name).
Proof.
  intros Hd Hn. destruct (elems_Clean_child dir name Hd Hn) as [-> Hf].
  by rewrite elems_unelems, Clean_unelems.
Qed.

Lemma resolve_plain (dir out filename raw name : string) :
  IsAbs dir = true -> plain_elem name ->
  name = (if String.eqb out "" then if String.eqb filename "" then filenameFromURI raw else filename else out) ->
  elems (Clean (resolveOutputPath dir out filename raw)) = elems (Clean dir) ++ [name].
Proof.
  intros Hd Hn Hname. unfold resolveOutputPath.
  assert (dir <> "") as Hne by (by apply IsAbs_neq).
  assert (dir <> ".") as Hnd by (by intros ->).
  destruct (String.eqb_spec dir ""); [done|]. cbv zeta.
  set (o := if String.eqb out "" then filename else out).
  assert ((if String.eqb o "" then filenameFromURI raw else o) = name) as ->.
  { rewrite Hname. unfold o. destruct (String.eqb out "") eqn:E; [done|by rewrite E]. }
  rewrite plain_not_abs by done. destruct (elems_Clean_child_elems dir name Hd Hn) as [H1 H2].
  case_if; [done|]. rewrite (Clean_plain name) by done. unfold JoinPath.
  rewrite filter_cons_True by done. rewrite filter_cons_True by apply Hn.
  change (filter _ []) with (@nil string). cbn [Join]. by rewrite H2.
Qed.

(** A path below a directory, element by element, is within it. *)
Lemma within_prefix (dir path : string) (rest : list string) :
  IsAbs dir = true -> IsAbs path = true -> elems (Clean path) = elems (Clean dir) ++ rest ->
  pathWithinDirectory dir path = true.
Proof.
  intros Hd Hp E. unfold pathWithinDirectory, Rel. cbv zeta.
  destruct (String.eqb_spec (Clean dir) (Clean path)); [done|].
  rewrite !IsAbs_Clean by done. simpl.
  destruct (String.eqb_spec (Clean dir) ".") as [E'|_].
  { pose proof (IsAbs_Clean dir Hd) as H. by rewrite E' in H. }
  rewrite E, strip_common_prefix. simpl.
  pose proof (elems_Clean_plain path Hp) as Hf. rewrite E in Hf. apply Forall_app in Hf as [_ Hf].
  destruct Hf as [|r rs (H1 & H2 & H3 & H4) Hf]; [done|].
  destruct (Join (r :: rs) sep) eqn:EJ.
  { apply (f_equal elems) in EJ. rewrite elems_Join in EJ; [done|].
    constructor; [done|]. by apply plain_elem_sep. }
  rewrite <- EJ. apply andb_true_iff. split; apply negb_true_iff.
  - apply String.eqb_neq. intros EJ'. apply (f_equal elems) in EJ'.
    rewrite elems_Join in EJ'; [|constructor; [done|by apply plain_elem_sep]].
    change (elems "..") with [".."] in EJ'. by injection EJ'.
  - apply not_true_iff_false. intros [t EJ']%HasPrefix_inv. apply (f_equal elems) in EJ'.
    rewrite elems_Join in EJ'; [|constructor; [done|by apply plain_elem_sep]].
    rewrite str_app_assoc, elems_sep in EJ'. change (elems "..") with [".."] in EJ'. by injection EJ'.
Qed.

(** ** Properties *)

(** C8: the file name taken from a URI, or from a response header through
    [safeURIFilename], is a single ordinary path element without NUL; so with an
    absolute download directory the output path is one element below it. *)
Theorem derived_output_stays_in_directory (dir raw header : string) :
  IsAbs dir = true ->
  let filename := if String.eqb header "" then "" else safeURIFilename header in
  let path := resolveOutputPath dir "" filename raw in
  (exists name, plain_elem name /\ ContainsByte name zero = false
     /\ elems (Clean path) = elems (Clean dir) ++ [name])
  /\ (IsAbs path = true -> pathWithinDirectory dir path = true).
Proof.
  intros Hd. cbv zeta. set (filename := if String.eqb header "" then "" else safeURIFilename header).
  set (name := if String.eqb filename "" then filenameFromURI raw else filename).
  assert (plain_elem name /\ ContainsByte name zero = false) as [Hn Hz].
  { unfold name, filename. destruct (String.eqb header ""); [simpl; apply filenameFromURI_plain|].
    case_if; [apply filenameFromURI_plain|apply safeURIFilename_plain]. }
  pose proof (resolve_plain dir "" filename raw name Hd Hn eq_refl) as He. split.
  - by exists name.
  - intros Hp. by eapply within_prefix.
Qed.

Lemma derived_output_stays_in_directory_witness :
  resolveOutputPath "/data/in" "" "" "http://h/..%2f..%2fetc/p%20w?x" = "/data/in/p w"
  /\ pathWithinDirectory "/data/in" (resolveOutputPath "/data/in" "" "" "http://h/..%2f..%2fetc/p%20w?x") = true.
Proof.
  split; [by vm_compute|].
  apply (derived_output_stays_in_directory "/data/in" "http://h/..%2f..%2fetc/p%20w?x" ""); by vm_compute.
Defined.
