(* ===== verification/Options.v ===== *)
(** * Options ([options.go]): the option maps, their layering and validation

    An [Options] map is modelled by its own entries and, when the private key
    [optionBaseKey] holds another option map, that base ([LayeredOptions]).  Values of the Go type
    [any] are the cases the type switches of the code distinguish. *)
From S2P Require Import Prelude GoStrings.

(** ** Values *)

(** A [float64] as the code observes it: whether it is integral (with its
    conversion to [int64]), its [FormatFloat(x, 'f', -1, 64)] text and its
    [fmt.Sprint] text. *)
Record gofloat := mkFloat { fl_integral : option Z; fl_fixed : string; fl_sprint : string }.

#[warnings="-register-all"]
Inductive oval :=
| VNil
| VStr (s : string)
| VStrs (l : list string)
| VAnys (l : list oval)
| VNum (s : string)
| VFloat (x : gofloat)
| VInt (n : Z)
| VInt64 (n : Z)
| VBool (b : bool)
| VOther (text : string).

(** [fmt.Sprint] *)
Fixpoint Sprint (v : oval) : string :=
  match v with
  | VNil => "<nil>"
  | VStr s => s
  | VStrs l => "[" +:+ Join l " " +:+ "]"
  | VAnys l => "[" +:+ Join (map Sprint l) " " +:+ "]"
  | VNum s => s
  | VFloat x => fl_sprint x
  | VInt n | VInt64 n => FormatInt n
  | VBool b => FormatBool b
  | VOther t => t
  end.

(** ** Option maps *)

Inductive Options :=
| PlainOptions (entries : gmap string oval)
| LayeredOptions (entries : gmap string oval) (base : Options).

Definition own (o : Options) : gmap string oval :=
  match o with PlainOptions m | LayeredOptions m _ => m end.
Definition obase (o : Options) : option Options :=
  match o with PlainOptions _ => None | LayeredOptions _ b => Some b end.

(** The same base under other entries. *)
Definition with_own (m : gmap string oval) (o : Options) : Options :=
  match o with PlainOptions _ => PlainOptions m | LayeredOptions _ b => LayeredOptions m b end.

(** [out[key] = v] *)
Definition setOption (key : string) (v : oval) (o : Options) : Options := with_own (<[key := v]> (own o)) o.

(** [delete(opts, key)] *)
Definition deleteOption (key : string) (o : Options) : Options := with_own (delete key (own o)) o.

(** The nil map and the empty map behave alike. *)
Definition noOptions : Options := PlainOptions ∅.

Definition optionBaseKey : string := String zero "goaria.base-options".
Definition sessionTorrentFinalizedOption : string := "goaria-internal-torrent-finalized-files".
Definition sessionExplicitOptionsOption : string := "goaria-internal-explicit-options".

Definition maxDownloadOptionKeys : Z := 128.
Definition maxDownloadOptionListItems : Z := 64.
Definition maxDownloadOptionValueSize : Z := 1048576.
Definition maxSupportedTorrentSize : Z := 67108864.

(** The private keys that every layering operation skips. *)
Definition private_key (k : string) : bool :=
  String.eqb k optionBaseKey || String.eqb k sessionTorrentFinalizedOption
  || String.eqb k sessionExplicitOptionsOption.

Definition defaultOptions (dir : string) (maxConcurrent maxResult : Z) : Options :=
  let maxConcurrent := if maxConcurrent <=? 0 then 5 else maxConcurrent in
  let maxResult := if maxResult <=? 0 then 1000 else maxResult in
  PlainOptions (list_to_map (map (fun '(k, v) => (k, VStr v))
    [("dir", dir);
     ("split", "5");
     ("max-connection-per-server", "1");
     ("min-split-size", "20M");
     ("max-concurrent-downloads", Itoa maxConcurrent);
     ("max-download-result", Itoa maxResult);
     ("keep-unfinished-download-result", "true");
     ("max-download-limit", "0");
     ("max-overall-download-limit", "0");
     ("allow-overwrite", "false");
     ("auto-file-renaming", "true");
     ("continue", "false");
     ("follow-metalink", "false");
     ("follow-torrent", "false");
     ("lowest-speed-limit", "0");
     ("max-file-not-found", "0");
     ("goaria-http-segment-size", "50M");
     ("goaria-max-torrent-size", "16M");
     ("max-tries", "5");
     ("retry-wait", "0");
     ("connect-timeout", "60");
     ("timeout", "60");
     ("check-certificate", "true");
     ("enable-http-keep-alive", "true");
     ("http-version", "auto");
     ("remote-time", "false");
     ("user-agent", "goaria")])).

(** A fresh copy: option maps are values here, so the copy is the map itself; the
    base is shared, as in the code. *)
Definition cloneOptions (o : Options) : Options := with_own (own o) o.

Definition normalizeOptionValue (v : oval) : oval :=
  match v with
  | VNil => VStr ""
  | VStr s => VStr s
  | VStrs l => VStrs l
  | VAnys l => VStrs (map Sprint l)
  | VNum s => VStr s
  | VFloat x => VStr (match fl_integral x with Some n => FormatInt n | None => fl_fixed x end)
  | VInt n => VStr (Itoa n)
  | VInt64 n => VStr (FormatInt n)
  | VBool b => VStr (if b then "true" else "false")
  | VOther t => VStr t
  end.

(** The overlay's entries that layering keeps, normalised. *)
Definition overlay_entries (overlay : Options) : gmap string oval :=
  normalizeOptionValue <$> filter (fun kv => private_key kv.1 = false) (own overlay).

Definition layerOptions (base overlay : Options) : Options :=
  LayeredOptions (overlay_entries overlay) base.

Definition mergeOptions (base overlay : Options) : Options :=
  let out := cloneOptions base in
  with_own (overlay_entries overlay ∪ own out) out.

(** ** Reading options *)

(** [optionValue] returns the value and whether it is present and not nil. *)
Fixpoint optionValue (o : Options) (key : string) : oval * bool :=
  match own o !! key with
  | Some v => (v, match v with VNil => false | _ => true end)
  | None =>
      match o with
      | PlainOptions _ => (VNil, false)
      | LayeredOptions _ base => optionValue base key
      end
  end.

Definition optionString (o : Options) (key : string) : string :=
  let '(v, ok) := optionValue o key in
  if negb ok then ""
  else match v with
       | VStr x => x
       | VStrs x => Join x (String (ascii_of_N 10) "")
       | x => Sprint x
       end.

Definition optionPresent (o : Options) (key : string) : bool := (optionValue o key).2.

Definition optionExplicit (o : Options) (key : string) : bool :=
  match own o !! key with
  | Some _ => true
  | None => String.eqb key optionBaseKey && match obase o with Some _ => true | None => false end
  end.

Definition optionStringList (o : Options) (key : string) : list string :=
  let '(v, ok) := optionValue o key in
  if negb ok then []
  else match v with
       | VStrs x => x
       | VAnys x => map Sprint x
       | VStr x => if String.eqb x "" then [] else [x]
       | x => [Sprint x]
       end.

Definition in_words (s : string) (ws : list string) : bool := existsb (String.eqb s) ws.

Definition optionBool (o : Options) (key : string) : bool :=
  in_words (ToLower (optionString o key)) ["true"; "yes"; "1"].

Definition optionBoolDefault (o : Options) (key : string) (fallback : bool) : bool :=
  if negb (optionPresent o key) then fallback else optionBool o key.

Definition optionInt (o : Options) (key : string) (fallback : Z) : Z :=
  let s := TrimSpace (optionString o key) in
  if String.eqb s "" then fallback
  else match Atoi s with Some n => n | None => fallback end.

(** ** Sizes *)

(** The longest prefix of decimal digits and the rest. *)
Fixpoint span_digits (s : string) : string * string :=
  match s with
  | "" => ("", "")
  | String a s' =>
      if is_digit a then let '(d, r) := span_digits s' in (String a d, r) else ("", s)
  end.

(** The exponent part: sign and digits after [e]/[E]. *)
Definition exponent_part (s : string) : option (bool * string * string) :=
  match s with
  | String a s' =>
      if Ascii.eqb a "e"%char || Ascii.eqb a "E"%char then
        let '(neg, t) :=
          match s' with
          | String b t => if Ascii.eqb b "-"%char then (true, t) else if Ascii.eqb b "+"%char then (false, t) else (false, s')
          | "" => (false, "")
          end in
        let '(d, r) := span_digits t in
        Some (neg, d, r)
      else None
  | "" => None
  end.

Definition validDecimalSizeNumber (s : string) : bool :=
  if String.eqb s "" then false
  else
    let '(d1, r1) := span_digits s in
    let '(d2, r2) :=
      match r1 with
      | String a t => if Ascii.eqb a "."%char then span_digits t else ("", r1)
      | "" => ("", r1)
      end in
    if len d1 + len d2 =? 0 then false
    else match exponent_part r2 with
         | Some (_, d, r3) => if len d =? 0 then false else String.eqb r3 ""
         | None => String.eqb r2 ""
         end.

(** The value of a decimal number of the grammar above as a mantissa and a power
    of ten, read as [big.Rat.SetString] reads it: the exponent must fit [int64],
    and the scale of a non-zero number must be at most 10^6 in absolute value. *)
Definition rat_SetString (s : string) : option (Z * Z) :=
  let '(d1, r1) := span_digits s in
  let '(d2, r2) :=
    match r1 with
    | String a t => if Ascii.eqb a "."%char then span_digits t else ("", r1)
    | "" => ("", r1)
    end in
  match parse_digits (d1 +:+ d2) 0 with
  | None => None
  | Some m =>
      let exp :=
        match exponent_part r2 with
        | Some (neg, d, _) =>
            match parse_digits d 0 with
            | Some n => let v := if neg then - n else n in
                        if (min_int64 <=? v) && (v <=? max_int64) then Some v else None
            | None => None
            end
        | None => Some 0
        end in
      match exp with
      | None => None
      | Some e =>
          if m =? 0 then Some (0, 0)
          else let scale := e - len d2 in
               if Z.abs scale <=? 1000000 then Some (m, scale) else None
      end
  end.

(** The integer part of [mul * mantissa * 10^scale]. *)
Definition scaled_quotient (mul : Z) (q : Z * Z) : Z :=
  let '(m, scale) := q in
  if 0 <=? scale then mul * m * 10 ^ scale else Z.quot (mul * m) (10 ^ (- scale)).

Definition size_suffix (s : string) : Z * string :=
  match CutSuffix s "K", CutSuffix s "k", CutSuffix s "M", CutSuffix s "m", CutSuffix s "G", CutSuffix s "g" with
  | Some t, _, _, _, _, _ | _, Some t, _, _, _, _ => (1024, t)
  | _, _, Some t, _, _, _ | _, _, _, Some t, _, _ => (1024 * 1024, t)
  | _, _, _, _, Some t, _ | _, _, _, _, _, Some t => (1024 * 1024 * 1024, t)
  | _, _, _, _, _, _ => (1, s)
  end.

(** [strconv.ParseFloat] fails on a grammatical number only when it overflows a
    [float64]; such a number is out of the [int64] range as well, so the guard is
    subsumed by the range check. *)
Definition parseSizeValue (s : string) : result Z :=
  let s := TrimSpace s in
  if String.eqb s "" then Err (EText "empty size")
  else
    let '(mul, s) := size_suffix s in
    let s := TrimSpace s in
    if negb (validDecimalSizeNumber s) then Err (EText "invalid size")
    else match rat_SetString s with
         | None => Err (EText "invalid size")
         | Some q =>
             let n := scaled_quotient mul q in
             if (min_int64 <=? n) && (n <=? max_int64) then Ok n else Err (EText "invalid size")
         end.

Definition parseSize (s : string) (fallback : Z) : Z :=
  match parseSizeValue s with Ok n => n | Err _ => fallback end.

Definition optionBytes (o : Options) (key : string) (fallback : Z) : Z :=
  parseSize (optionString o key) fallback.

(** ** Validation *)

Definition quoted (s : string) : string :=
  let q := String (ascii_of_N 34) "" in q +:+ s +:+ q.

(** The keys of an option map, in some iteration order. *)
Definition option_keys (o : Options) : list string :=
  match obase o with Some _ => [optionBaseKey] | None => [] end ++ map fst (map_to_list (own o)).

Definition count_keys (skip : string -> bool) (o : Options) : Z :=
  Z.of_nat (length (List.filter (fun k => negb (skip k)) (option_keys o))).

Definition too_many_options (count : Z) : error :=
  EText ("too many download options: " +:+ FormatInt count).

Definition validateOptionCount (o : Options) (maxKeys : Z) : result unit :=
  let count := count_keys private_key o in
  if maxKeys <? count then Err (too_many_options count) else Ok tt.

Definition validateOptionLayerSize (o : Options) : result unit :=
  let count := count_keys (fun k => private_key k || in_words k ["gid"; "pause"]) o in
  if maxDownloadOptionKeys <? count then Err (too_many_options count) else Ok tt.

(** The key rules shared by option maps and session files. *)
Definition badOptionKey (key : string) : bool :=
  String.eqb key "" || (256 <? len key) || ContainsByte key "="%char || has_space key.

Definition invalidOptionKey (key : string) : bool :=
  String.eqb key "" || (256 <? len key) || private_key key || ContainsByte key "="%char || has_space key.

(** Line breaks: the bytes 10 and 13. *)
Definition crlf : string := String (ascii_of_N 13) (String (ascii_of_N 10) "").

Definition validateOptionItem (key item : string) : result unit :=
  if maxDownloadOptionValueSize <? len item then Err (EText ("value for option " +:+ quoted key +:+ " is too large"))
  else if ContainsAny item crlf || negb (String.eqb (TrimSpace item) item) then
    Err (EText ("invalid value for option " +:+ quoted key
                +:+ ": leading/trailing whitespace and line breaks are not supported"))
  else Ok tt.

Fixpoint first_error (rs : list (result unit)) : result unit :=
  match rs with
  | [] => Ok tt
  | Ok _ :: rs' => first_error rs'
  | Err e :: _ => Err e
  end.

Definition too_many_values (key : string) (n : Z) : error :=
  EText ("too many values for option " +:+ quoted key +:+ ": " +:+ FormatInt n).

(** The values of an entry that are checked one by one. *)
Definition option_items (o : Options) (key : string) : result (list string) :=
  match own o !! key with
  | Some (VStrs raw) =>
      let n := Z.of_nat (length raw) in
      if maxDownloadOptionListItems <? n then Err (too_many_values key n) else Ok raw
  | Some (VAnys raw) =>
      let n := Z.of_nat (length raw) in
      if maxDownloadOptionListItems <? n then Err (too_many_values key n) else Ok (map Sprint raw)
  | _ => Ok [optionString o key]
  end.

Definition booleanOptions : list string :=
  ["allow-overwrite"; "auto-file-renaming"; "bt-metadata-only"; "check-certificate"; "conditional-get";
   "continue"; "disable-ipv6"; "disable-utp"; "dry-run"; "enable-http-keep-alive"; "follow-metalink";
   "follow-torrent"; "goaria-disable-dht"; "goaria-disable-pex"; "goaria-disable-trackers";
   "goaria-disable-utp"; "goaria-torrent-disable-smart-ban"; "goaria-torrent-no-upload";
   "http-accept-gzip"; "http-auth-challenge"; "http-no-cache"; "keep-unfinished-download-result";
   "parameterized-uri"; "pause"; "remote-time"; "rpc-save-upload-metadata"; "use-head"].

Definition integerOptions : list string :=
  ["bt-max-peers"; "connect-timeout"; "goaria-torrent-max-active-files"; "listen-port";
   "max-concurrent-downloads"; "max-connection-per-server"; "max-download-result";
   "max-file-not-found"; "max-tries"; "retry-wait"; "split"; "timeout"].

Definition sizeOptions : list string :=
  ["goaria-http-segment-size"; "goaria-max-torrent-size"; "goaria-torrent-readahead";
   "lowest-speed-limit"; "max-download-limit"; "max-overall-download-limit"; "max-upload-limit";
   "min-split-size"].

Definition httpVersionWords : list string :=
  [""; "auto"; "1"; "1.1"; "2"; "2.0"; "3"; "3.0"; "http/1.1"; "http/2"; "http/3"; "h1"; "h2"; "h3"].

Definition invalid_value (what key value : string) : result unit :=
  Err (EText (what +:+ quoted key +:+ ": " +:+ quoted value)).

(** [math.MaxInt64 / time.Second] *)
Definition max_seconds : Z := 9223372036.

(** The switch on the key: the value's own syntax. *)
Definition validateOptionSyntax (key value : string) : result unit :=
  let untrimmed := negb (String.eqb (TrimSpace value) value) in
  if in_words key booleanOptions then
    if untrimmed then invalid_value "invalid value for option " key value
    else if in_words (ToLower value) ["true"; "false"; "yes"; "no"; "1"; "0"] then Ok tt
    else invalid_value "invalid boolean value for option " key value
  else if in_words key integerOptions then
    if untrimmed then invalid_value "invalid value for option " key value
    else match Atoi value with
         | None => invalid_value "invalid non-negative integer for option " key value
         | Some n =>
             if n <? 0 then invalid_value "invalid non-negative integer for option " key value
             else if in_words key ["connect-timeout"; "retry-wait"; "timeout"] && (max_seconds <? n)
             then invalid_value "duration for option is too large: " key value
             else if String.eqb key "listen-port" && (65535 <? n)
             then invalid_value "invalid port for option " key value
             else Ok tt
         end
  else if in_words key sizeOptions then
    if untrimmed then invalid_value "invalid value for option " key value
    else match parseSizeValue value with
         | Err _ => invalid_value "invalid size for option " key value
         | Ok size =>
             if String.eqb key "goaria-max-torrent-size" && (maxSupportedTorrentSize <? size)
             then Err (EText ("option " +:+ quoted key +:+ " exceeds supported maximum "
                              +:+ FormatInt maxSupportedTorrentSize))
             else Ok tt
         end
  else if String.eqb key "http-version" then
    if untrimmed then invalid_value "invalid value for option " key value
    else if in_words (ToLower value) httpVersionWords then Ok tt
    else Err (EText ("invalid HTTP version " +:+ quoted value))
  else Ok tt.

(** One round of the loop over the keys. *)
Definition validateOptionEntry (o : Options) (key : string) : result unit :=
  if invalidOptionKey key then Err (EText ("invalid option key " +:+ quoted key))
  else let! items := option_items o key in
       let! _ := first_error (map (validateOptionItem key) items) in
       validateOptionSyntax key (optionString o key).

Definition validateOptionValuesWithLimit (o : Options) (maxKeys : Z) : result unit :=
  let! _ := validateOptionCount o maxKeys in
  first_error (map (validateOptionEntry o) (option_keys o)).

Definition validateOptionValues (o : Options) : result unit :=
  validateOptionValuesWithLimit o maxDownloadOptionKeys.

(** ** Flattening for RPC and sessions *)

(** A value of the flat map: a list of strings or a text. *)
Inductive rpcval := RStrs (l : list string) | RStr (s : string).

Definition rpc_value (v : oval) : rpcval :=
  match v with VStrs l => RStrs l | x => RStr (Sprint x) end.

Fixpoint optionsForRPC (o : Options) : gmap string rpcval :=
  let entries := rpc_value <$> filter (fun kv => private_key kv.1 = false) (own o) in
  match o with
  | PlainOptions _ => entries
  | LayeredOptions _ base => entries ∪ optionsForRPC base
  end.

(** ** Vocabulary of the specification *)

(** Presence of a value: it is not nil. *)
Definition present (v : oval) : oval * bool := (v, match v with VNil => false | _ => true end).

(** The value an overlay gives a key when layered or merged over [base]. *)
Definition effective (base overlay : Options) (k : string) : oval * bool :=
  match own overlay !! k with
  | Some v => if private_key k then optionValue base k else present (normalizeOptionValue v)
  | None => optionValue base k
  end.

(** The text of a size: digits and a unit. *)
Definition size_units : list (string * Z) :=
  [("", 1); ("K", 1024); ("k", 1024); ("M", 1048576); ("m", 1048576); ("G", 1073741824); ("g", 1073741824)].

(** No layer of the map holds a nil value: layering normalises nil to the empty string. *)
Fixpoint no_nil (o : Options) : Prop :=
  map_Forall (fun _ v => v <> VNil) (own o)
  /\ match o with PlainOptions _ => True | LayeredOptions _ b => no_nil b end.

Definition sample_options : Options :=
  PlainOptions {["split" := VStr "8"; "max-download-limit" := VStr "1.5M"; "continue" := VBool true]}.

(** ** Lemmas: layering *)

Lemma own_with_own (m : gmap string oval) (o : Options) : own (with_own m o) = m.
Proof. by destruct o. Qed.

Lemma obase_with_own (m : gmap string oval) (o : Options) : obase (with_own m o) = obase o.
Proof. by destruct o. Qed.

Lemma with_own_own (o : Options) : with_own (own o) o = o.
Proof. by destruct o. Qed.

Lemma optionValue_own (o : Options) (k : string) (v : oval) :
  own o !! k = Some v -> optionValue o k = present v.
Proof. destruct o; simpl; by intros ->. Qed.

Lemma optionValue_base (o : Options) (k : string) :
  own o !! k = None ->
  optionValue o k = match obase o with Some b => optionValue b k | None => (VNil, false) end.
Proof. destruct o; simpl; by intros ->. Qed.

Lemma overlay_entries_lookup (o : Options) (k : string) :
  overlay_entries o !! k = if private_key k then None else normalizeOptionValue <$> own o !! k.
Proof.
  unfold overlay_entries. rewrite lookup_fmap.
  destruct (own o !! k) as [v|] eqn:E.
  - destruct (private_key k) eqn:Hp.
    + rewrite map_lookup_filter_None_2; [done|]. right. intros x _. simpl. by rewrite Hp.
    + rewrite (map_lookup_filter_Some_2 _ _ k v); done.
  - rewrite map_lookup_filter_None_2; [|by left]. by destruct (private_key k).
Qed.

Lemma layer_effective (base overlay : Options) (k : string) :
  optionValue (layerOptions base overlay) k = effective base overlay k.
Proof.
  unfold layerOptions, effective. simpl. rewrite overlay_entries_lookup.
  destruct (private_key k), (own overlay !! k); done.
Qed.

Lemma merge_effective (base overlay : Options) (k : string) :
  optionValue (mergeOptions base overlay) k = effective base overlay k.
Proof.
  unfold mergeOptions, effective, cloneOptions.
  rewrite with_own_own. cbv zeta.
  destruct (overlay_entries overlay !! k) as [v|] eqn:E.
  - rewrite (optionValue_own _ k v).
    2:{ rewrite own_with_own. by apply lookup_union_Some_l. }
    rewrite overlay_entries_lookup in E.
    destruct (private_key k); [done|]. destruct (own overlay !! k); simplify_eq/=. done.
  - assert (optionValue (with_own (overlay_entries overlay ∪ own base) base) k = optionValue base k) as ->.
    { destruct (own base !! k) as [v|] eqn:Hb.
      - rewrite (optionValue_own base k v) by done. apply optionValue_own.
        rewrite own_with_own, lookup_union_r; done.
      - rewrite (optionValue_base base) by done. rewrite optionValue_base.
        + by rewrite obase_with_own.
        + rewrite own_with_own, lookup_union_r; done. }
    rewrite overlay_entries_lookup in E.
    destruct (private_key k), (own overlay !! k); simplify_eq/=; done.
Qed.

(** ** Lemmas: validation *)

Lemma first_error_ok {A} (f : A -> result unit) (l : list A) :
  first_error (map f l) = Ok tt <-> Forall (fun x => f x = Ok tt) l.
Proof.
  induction l as [|x l IH]; simpl; [by split|].
  rewrite Forall_cons, <- IH. destruct (f x) as [[]|e]; [tauto|]. split; [done|by intros []].
Qed.

Lemma option_keys_own (o : Options) (k : string) (v : oval) :
  own o !! k = Some v -> k ∈ option_keys o.
Proof.
  intros H. unfold option_keys. apply elem_of_app. right.
  apply list_elem_of_fmap. exists (k, v). split; [done|]. by apply elem_of_map_to_list.
Qed.

(** Each entry of a validated map passes its round of the loop. *)
Lemma validated_entry (o : Options) (n : Z) (k : string) (v : oval) :
  validateOptionValuesWithLimit o n = Ok tt -> own o !! k = Some v ->
  validateOptionEntry o k = Ok tt.
Proof.
  unfold validateOptionValuesWithLimit. intros (u & _ & H)%result_bind_ok Hk.
  apply first_error_ok in H. rewrite Forall_forall in H. eapply H, option_keys_own; done.
Qed.

Lemma validated_syntax (o : Options) (n : Z) (k : string) (v : oval) :
  validateOptionValuesWithLimit o n = Ok tt -> own o !! k = Some v ->
  validateOptionSyntax k (optionString o k) = Ok tt.
Proof.
  intros H Hk. pose proof (validated_entry o n k v H Hk) as He.
  unfold validateOptionEntry in He. destruct (invalidOptionKey k); [done|].
  apply result_bind_ok in He as (items & _ & He). by apply result_bind_ok in He as ([] & _ & He).
Qed.

Lemma in_words_elem (s : string) (ws : list string) : in_words s ws = true <-> s ∈ ws.
Proof.
  unfold in_words. rewrite existsb_exists. split.
  - intros (x & Hx & ->%String.eqb_eq). by apply list_elem_of_In.
  - intros H. exists s. split; [by apply list_elem_of_In|]. apply String.eqb_refl.
Qed.

Lemma words_disjoint (ws ws' : list string) (s : string) :
  forallb (fun w => negb (in_words w ws')) ws = true ->
  in_words s ws = true -> in_words s ws' = false.
Proof.
  intros H Hs%in_words_elem. rewrite forallb_forall in H.
  apply negb_true_iff, H. by apply list_elem_of_In.
Qed.

Lemma validated_integer_read (o : Options) (k : string) (fb : Z) :
  in_words k integerOptions = true -> validateOptionSyntax k (optionString o k) = Ok tt ->
  exists n, Atoi (optionString o k) = Some n /\ 0 <= n /\ optionInt o k fb = n
            /\ (in_words k ["connect-timeout"; "retry-wait"; "timeout"] = true -> n <= max_seconds)
            /\ (k = "listen-port" -> n <= 65535).
Proof.
  intros Hk H. unfold validateOptionSyntax in H. rewrite Hk in H. cbv zeta in H.
  destruct (in_words k booleanOptions) eqn:Hb.
  { by rewrite (words_disjoint integerOptions booleanOptions k eq_refl Hk) in Hb. }
  destruct (String.eqb (TrimSpace (optionString o k)) (optionString o k)) eqn:Ht; [cbn [negb] in H|done].
  apply String.eqb_eq in Ht. destruct (Atoi (optionString o k)) as [n|] eqn:Ha; [|done].
  exists n. destruct (n <? 0) eqn:Hn; [done|]. zbool.
  split; [done|]. split; [done|]. split.
  { unfold optionInt. rewrite Ht. cbv zeta.
    destruct (String.eqb (optionString o k) "") eqn:He; [|by rewrite Ha].
    apply String.eqb_eq in He. by rewrite He in Ha. }
  destruct (in_words k ["connect-timeout"; "retry-wait"; "timeout"]) eqn:Hw; cbn [andb] in H.
  - destruct (max_seconds <? n) eqn:Hm; [done|]. zbool. split; [done|]. intros ->. by vm_compute in Hw.
  - split; [done|]. intros ->. rewrite String.eqb_refl in H.
    destruct (65535 <? n) eqn:Hp; [done|]. by zbool.
Qed.

Lemma validated_size_read (o : Options) (k : string) (fb : Z) :
  in_words k sizeOptions = true -> validateOptionSyntax k (optionString o k) = Ok tt ->
  exists n, parseSizeValue (optionString o k) = Ok n /\ optionBytes o k fb = n
            /\ (k = "goaria-max-torrent-size" -> n <= maxSupportedTorrentSize).
Proof.
  intros Hk H. unfold validateOptionSyntax in H. rewrite Hk in H. cbv zeta in H.
  destruct (in_words k booleanOptions) eqn:Hb.
  { by rewrite (words_disjoint sizeOptions booleanOptions k eq_refl Hk) in Hb. }
  destruct (in_words k integerOptions) eqn:Hi.
  { by rewrite (words_disjoint sizeOptions integerOptions k eq_refl Hk) in Hi. }
  destruct (negb _); [done|].
  unfold optionBytes, parseSize. destruct (parseSizeValue (optionString o k)) as [n|]; [|done].
  exists n. split; [done|]. split; [done|]. intros ->. rewrite String.eqb_refl in H.
  destruct (maxSupportedTorrentSize <? n) eqn:Hm; [done|]. by zbool.
Qed.

Lemma validated_bool_read (o : Options) (k : string) :
  in_words k booleanOptions = true -> validateOptionSyntax k (optionString o k) = Ok tt ->
  in_words (ToLower (optionString o k)) ["true"; "yes"; "1"; "false"; "no"; "0"] = true.
Proof.
  intros Hk H. unfold validateOptionSyntax in H. rewrite Hk in H. cbv zeta in H.
  destruct (negb _); [done|].
  destruct (in_words _ _) eqn:Hw in H; [|done]. apply in_words_elem in Hw. apply in_words_elem.
  rewrite !elem_of_cons in Hw |- *. tauto.
Qed.

(** ** Lemmas: sizes *)

Lemma parseSizeValue_nonneg (s : string) (n : Z) :
  parseSizeValue s = Ok n -> 0 <= n <= max_int64.
Proof.
  unfold parseSizeValue. cbv zeta. destruct (String.eqb _ _); [done|].
  destruct (size_suffix (TrimSpace s)) as [mul t] eqn:Hm.
  assert (0 < mul).
  { unfold size_suffix in Hm. repeat case_match; simplify_eq; lia. }
  destruct (negb _); [done|]. destruct (rat_SetString (TrimSpace t)) as [[m sc]|] eqn:Hr; [|done].
  destruct (_ && _) eqn:Hb; [|done]. intros [= <-].
  apply andb_true_iff in Hb as [_ Hb%Z.leb_le]. split; [|done].
  assert (0 <= m).
  { unfold rat_SetString in Hr.
    destruct (span_digits (TrimSpace t)) as [d1 r1].
    set (p2 := match r1 with String a t0 => if Ascii.eqb a "."%char then span_digits t0 else ("", r1) | "" => ("", r1) end) in Hr.
    destruct p2 as [d2 r2]. destruct (parse_digits (d1 +:+ d2) 0) as [m'|] eqn:Hp; [|done].
    apply parse_digits_nonneg in Hp; [|lia].
    repeat case_match; simplify_eq; lia. }
  unfold scaled_quotient. destruct (0 <=? sc) eqn:Hs; zbool.
  - pose proof (Z.pow_nonneg 10 sc). nia.
  - apply Z.quot_pos; [nia|]. apply Z.pow_pos_nonneg; lia.
Qed.

Lemma span_digits_all (s : string) : forall_byte is_digit s = true -> span_digits s = (s, "").
Proof.
  induction s as [|a s IH]; [done|]. cbn [forall_byte span_digits].
  intros [-> Hs]%andb_true_iff. by rewrite IH.
Qed.

Lemma digits_plain (s : string) : forall_byte is_digit s = true -> forall_byte plain_byte s = true.
Proof. apply forall_byte_impl, is_digit_plain. Qed.

Lemma digits_len (s : string) : s <> "" -> (len s + len "" =? 0) = false.
Proof. intros H. apply Z.eqb_neq. destruct s; [done|]. unfold len. simpl. lia. Qed.

Lemma validDecimal_digits (s : string) :
  s <> "" -> forall_byte is_digit s = true -> validDecimalSizeNumber s = true.
Proof.
  intros Hne Hd. unfold validDecimalSizeNumber.
  assert (String.eqb s "" = false) as -> by (by apply String.eqb_neq).
  rewrite span_digits_all by done. rewrite digits_len by done. done.
Qed.

Lemma rat_SetString_digits (n : Z) :
  0 <= n -> rat_SetString (FormatInt n) = Some (n, 0).
Proof.
  intros Hn. unfold rat_SetString. rewrite span_digits_all by (by apply FormatInt_digits).
  rewrite str_app_nil_r, parse_digits_FormatInt by done. cbn [exponent_part].
  destruct (n =? 0) eqn:E; zbool; [by subst|]. by vm_compute.
Qed.

Lemma size_suffix_digits (s u : string) (mul : Z) :
  s <> "" -> forall_byte is_digit s = true -> (u, mul) ∈ size_units -> size_suffix (s +:+ u) = (mul, s).
Proof.
  intros Hne Hd Hu. unfold size_suffix. unfold size_units in Hu.
  rewrite !elem_of_cons in Hu.
  destruct Hu as [[= -> ->]|[[= -> ->]|[[= -> ->]|[[= -> ->]|[[= -> ->]|[[= -> ->]|[[= -> ->]|H%elem_of_nil]]]]]]];
    [|rewrite !CutSuffix_snoc; reflexivity..|done].
  rewrite str_app_nil_r. destruct (str_snoc s Hne) as (t & a & ->).
  rewrite forall_byte_app in Hd. apply andb_true_iff in Hd as [_ Ha]. simpl in Ha.
  rewrite andb_true_r in Ha. rewrite !CutSuffix_snoc.
  repeat match goal with |- context [Ascii.eqb a ?b] =>
    assert (Ascii.eqb a b = false) as -> by (apply Ascii.eqb_neq; intros ->; by vm_compute in Ha) end.
  done.
Qed.

Lemma size_unit_plain (u : string) (mul : Z) : (u, mul) ∈ size_units -> forall_byte plain_byte u = true.
Proof.
  unfold size_units. rewrite !elem_of_cons.
  intros [[= -> ->]|[[= -> ->]|[[= -> ->]|[[= -> ->]|[[= -> ->]|[[= -> ->]|[[= -> ->]|H%elem_of_nil]]]]]]]; done.
Qed.

Lemma size_unit_pos (u : string) (mul : Z) : (u, mul) ∈ size_units -> 0 < mul.
Proof.
  unfold size_units. rewrite !elem_of_cons.
  intros [[= -> ->]|[[= -> ->]|[[= -> ->]|[[= -> ->]|[[= -> ->]|[[= -> ->]|[[= -> ->]|H%elem_of_nil]]]]]]]; done || lia.
Qed.

Lemma parseSizeValue_units (n mul : Z) (u : string) :
  0 <= n -> (u, mul) ∈ size_units ->
  parseSizeValue (FormatInt n +:+ u)
  = if mul * n <=? max_int64 then Ok (mul * n) else Err (EText "invalid size").
Proof.
  intros Hn Hu. pose proof (FormatInt_nonempty n) as Hne. pose proof (FormatInt_digits n Hn) as Hd.
  unfold parseSizeValue. cbv zeta.
  rewrite TrimSpace_plain.
  2:{ rewrite forall_byte_app, digits_plain by done. simpl. by eapply size_unit_plain. }
  assert (String.eqb (FormatInt n +:+ u) "" = false) as ->.
  { apply String.eqb_neq. by destruct (FormatInt n). }
  rewrite (size_suffix_digits _ _ mul) by done.
  rewrite TrimSpace_plain by (by apply digits_plain).
  rewrite validDecimal_digits by done. cbn [negb]. rewrite rat_SetString_digits by done.
  apply size_unit_pos in Hu. cbn -[Z.mul]. rewrite Z.mul_1_r.
  assert ((min_int64 <=? mul * n) = true) as -> by (apply Z.leb_le; unfold min_int64; nia). done.
Qed.

(** ** Lemmas: flattening *)

Lemma rpc_entries_lookup (m : gmap string oval) (k : string) :
  private_key k = false ->
  (rpc_value <$> filter (fun kv : string * oval => private_key kv.1 = false) m) !! k = rpc_value <$> m !! k.
Proof.
  intros Hp. rewrite lookup_fmap. destruct (m !! k) as [v|] eqn:E.
  - by rewrite (map_lookup_filter_Some_2 _ m k v).
  - by rewrite map_lookup_filter_None_2; [|left].
Qed.

Lemma optionsForRPC_lookup (o : Options) (k : string) :
  no_nil o -> private_key k = false ->
  optionsForRPC o !! k
  = if (optionValue o k).2 then Some (rpc_value (optionValue o k).1) else None.
Proof.
  intros Hn Hp. induction o as [m|m b IH]; simpl in *; destruct Hn as [Hm Hb].
  - rewrite rpc_entries_lookup by done. destruct (m !! k) as [v|] eqn:E; [|done].
    specialize (Hm k v E). by destruct v.
  - rewrite lookup_union, rpc_entries_lookup by done. destruct (m !! k) as [v|] eqn:E.
    + specialize (Hm k v E). simpl. destruct (optionsForRPC b !! k); by destruct v.
    + simpl. rewrite IH by done. by destruct (if _ : bool then _ else _).
Qed.

Lemma overlay_entries_no_nil (o : Options) : map_Forall (fun _ v => v <> VNil) (overlay_entries o).
Proof.
  intros k v. rewrite overlay_entries_lookup. destruct (private_key k); [done|].
  destruct (own o !! k) as [w|]; [|done]. intros [= <-]. by destruct w.
Qed.

Lemma layer_no_nil (base overlay : Options) : no_nil base -> no_nil (layerOptions base overlay).
Proof. intros H. split; [apply overlay_entries_no_nil|done]. Qed.

Lemma merge_no_nil (base overlay : Options) : no_nil base -> no_nil (mergeOptions base overlay).
Proof.
  intros H. unfold mergeOptions, cloneOptions. rewrite with_own_own. cbv zeta.
  destruct base as [m|m b]; simpl in *; destruct H as [H1 H2]; (split; [|done]);
    apply map_Forall_union_2; done || apply overlay_entries_no_nil.
Qed.

(** ** Properties *)

(** Layering an overlay over a base (the way a new download sees the global
    options) and merging it into the base (the way option changes are applied)
    give every key the same value: the overlay's normalised value when the overlay
    sets a non-private key, and the base's value otherwise. *)
Theorem option_layering_agrees (base overlay : Options) (k : string) :
  optionValue (layerOptions base overlay) k = optionValue (mergeOptions base overlay) k
  /\ optionValue (mergeOptions base overlay) k
     = match own overlay !! k with
       | Some v => if private_key k then optionValue base k else (normalizeOptionValue v, true)
       | None => optionValue base k
       end.
Proof.
  rewrite layer_effective, merge_effective. split; [done|]. unfold effective, present.
  destruct (own overlay !! k) as [v|]; [|done]. by destruct (private_key k), v.
Qed.



(** The flat option map reported over RPC and written to sessions has, for
    every non-private key, exactly the effective value that the option readers see
    through the layers, and it never contains a private key. *)
Theorem rpc_flattening_is_effective (o : Options) (k : string) :
  no_nil o ->
  optionsForRPC o !! k
  = if private_key k then None
    else if (optionValue o k).2 then Some (rpc_value (optionValue o k).1) else None.
Proof.
  intros Hn. destruct (private_key k) eqn:Hp; [|by apply optionsForRPC_lookup].
  clear Hn. induction o as [m|m b IH]; simpl.
  - rewrite lookup_fmap, map_lookup_filter_None_2; [done|]. right. intros v _. simpl. by rewrite Hp.
  - rewrite lookup_union, IH, lookup_fmap, map_lookup_filter_None_2; [done|].
    right. intros v _. simpl. by rewrite Hp.
Qed.

Lemma rpc_flattening_is_effective_witness :
  optionsForRPC (layerOptions (defaultOptions "/d" 3 9) sample_options) !! "split" = Some (RStr "8").
Proof.
  rewrite rpc_flattening_is_effective; [by vm_compute|].
  apply layer_no_nil. split; [|done]. repeat (apply map_Forall_insert_2; [done|]). apply map_Forall_empty.
Defined.

(** A decimal number of bytes followed by a unit (none, K, M or G in either
    case) is parsed to the number times the unit, and rejected exactly when the
    product does not fit [int64]; an accepted size is never negative. *)
Theorem parse_size_units (n mul : Z) (u : string) :
  0 <= n -> (u, mul) ∈ size_units ->
  parseSizeValue (FormatInt n +:+ u)
  = (if mul * n <=? max_int64 then Ok (mul * n) else Err (EText "invalid size"))
  /\ forall s m, parseSizeValue s = Ok m -> 0 <= m <= max_int64.
Proof.
  intros Hn Hu. split; [by apply parseSizeValue_units|]. intros s m. apply parseSizeValue_nonneg.
Qed.

Lemma parse_size_units_witness :
  parseSizeValue (FormatInt 20 +:+ "M") = Ok 20971520.
Proof.
  destruct (parse_size_units 20 1048576 "M") as [-> _]; [lia| |by vm_compute].
  apply (bool_decide_unpack _). by vm_compute.
Defined.
