(* ===== verification/Http.v ===== *)
(** * HTTP requests, responses and ranges ([download_http.go], [download_util.go])

    Header maps, the headers the options put on a request, what a response says
    about the file, the [Content-Range] syntax and the validation of partial
    responses, the classification of errors for retries, and checksums.  Times,
    media types and digests are read by the standard library through [HTTPLib]. *)
From S2P Require Import Prelude GoStrings GoPath GoURL Text Base64 Pieces Reservations Filename Options.

(** ** Headers *)

(** [http.Header]: values by canonical key. *)
Definition Header : Type := gmap string (list string).

Definition token_byte (a : ascii) : bool := is_alnum a || ContainsByte "!#$%&'*+-.^_`|~" a.
Definition ascii_upper (a : ascii) : ascii :=
  let n := byte_val a in
  if ((97 <=? n) && (n <=? 122))%N then ascii_of_N (n - 32) else a.

Fixpoint canonical_from (upper : bool) (s : string) : string :=
  match s with
  | "" => ""
  | String a s' => String (if upper then ascii_upper a else ascii_lower a) (canonical_from (Ascii.eqb a "-"%char) s')
  end.

(** [textproto.CanonicalMIMEHeaderKey] *)
Definition CanonicalHeaderKey (k : string) : string :=
  if forall_byte token_byte k then canonical_from true k else k.

Definition hValues (h : Header) (k : string) : list string := default [] (h !! CanonicalHeaderKey k).
Definition hGet (h : Header) (k : string) : string := default "" (head (hValues h k)).
Definition hSet (k v : string) (h : Header) : Header := <[CanonicalHeaderKey k := [v]]> h.
Definition hAdd (k v : string) (h : Header) : Header := <[CanonicalHeaderKey k := hValues h k ++ [v]]> h.
Definition hDel (k : string) (h : Header) : Header := delete (CanonicalHeaderKey k) h.

(** ** Requests *)

(** What the code reads of a request's URL and writes to the request. *)
Record Request := mkRequest {
  rq_Header : Header;
  rq_Host : string;
  rq_User : option (string * string);   (* decoded name and password of the URL *)
  rq_URLWithoutUser : string
}.
#[global] Instance eta_Request : Eta Request := fun r =>
  mkRequest (rq_Header r) (rq_Host r) (rq_User r) (rq_URLWithoutUser r).

Definition setHeader (k v : string) (r : Request) : Request := r <| rq_Header ::= hSet k v |>.

Definition SetBasicAuth (user pass : string) (r : Request) : Request :=
  setHeader "Authorization" ("Basic " +:+ EncodeToString StdEncoding (user +:+ ":" +:+ pass)) r.

(** One [header] option; the flag says whether a user agent was given. *)
Definition applyHeaderOption (h : string) (acc : bool * Request) : bool * Request :=
  let '(agent, r) := acc in
  match Cut h ":" with
  | None => (agent, r)
  | Some (name, value) =>
      let name := TrimSpace name in
      if String.eqb name "" then (agent, r)
      else
        let value := TrimSpace value in
        if EqualFold name "Host" then (agent, r <| rq_Header ::= hDel "Host" |> <| rq_Host := value |>)
        else if EqualFold name "User-Agent" then (true, setHeader name value r)
        else (agent, r <| rq_Header ::= hAdd name value |>)
  end.

Definition basicAuthCredentials (r : Request) (opts : Options) : option (string * string) :=
  let user := optionString opts "http-user" in
  if negb (String.eqb user "") then Some (user, optionString opts "http-passwd") else rq_User r.

Definition applyRequestOptions (opts : Options) (r : Request) : Request :=
  let '(agent, r) := foldl (fun acc h => applyHeaderOption h acc) (false, r) (optionStringList opts "header") in
  let ua := optionString opts "user-agent" in
  let r := if negb (String.eqb ua "") && negb agent then setHeader "User-Agent" ua r else r in
  let ref := optionString opts "referer" in
  let r := if String.eqb ref "" then r
           else setHeader "Referer" (if String.eqb ref "*" then rq_URLWithoutUser r else ref) r in
  let r := if optionBool opts "http-no-cache"
           then setHeader "Pragma" "no-cache" (setHeader "Cache-Control" "no-cache" r) else r in
  let r := if optionBool opts "http-accept-gzip" then setHeader "Accept-Encoding" "gzip" r
           else if String.eqb (hGet (rq_Header r) "Accept-Encoding") "" then setHeader "Accept-Encoding" "identity" r
           else r in
  if optionBool opts "http-auth-challenge" then r
  else match basicAuthCredentials r opts with
       | Some (user, pass) => SetBasicAuth user pass r
       | None => r
       end.

Definition applyMetadataRequestOptions (opts : Options) (r : Request) : Request :=
  setHeader "Accept-Encoding" "identity" (applyRequestOptions opts r <| rq_Header ::= hDel "Range" |>).

Definition applyRangeRequestOptions (opts : Options) (rangeValue : string) (r : Request) : Request :=
  setHeader "Accept-Encoding" "identity" (setHeader "Range" rangeValue (applyRequestOptions opts r)).

(** ** Responses *)

Record Response := mkResponse {
  rs_Header : Header;
  rs_StatusCode : Z;
  rs_Status : string;                       (* the status line, such as 200 OK *)
  rs_ContentLength : Z;                     (* -1 when unknown *)
  rs_RequestURL : option (string * string)  (* the final URL: its text and its path *)
}.

Record remoteMeta := mkMeta {
  m_Length : Z; m_AcceptRange : bool; m_FinalURI : string; m_Filename : string;
  m_LastModified : string; m_ETag : string; m_NotModified : bool
}.
#[global] Instance eta_remoteMeta : Eta remoteMeta := fun m =>
  mkMeta (m_Length m) (m_AcceptRange m) (m_FinalURI m) (m_Filename m) (m_LastModified m) (m_ETag m) (m_NotModified m).

(** The standard library's readers of times, media types and digests. *)
Class HTTPLib := {
  ParseTime : string -> option Z;
  FormatTime : Z -> string;
  DispositionFilename : string -> option string;  (* the [filename] parameter, when the media type parses *)
  ModTime : string -> Z;
  Digest : string -> string -> string;            (* algorithm, contents: the hexadecimal digest *)
  ReadFile : string -> result string
}.

(** The tokens of the comma-separated values of a header. *)
Definition headerTokens (h : Header) (k : string) : list string :=
  concat (map (fun value => map TrimSpace (Split value ",")) (hValues h k)).

Definition hasByteRangeSupport (h : Header) : bool :=
  existsb (fun token => EqualFold token "bytes") (headerTokens h "Accept-Ranges").

Definition hasNonIdentityContentEncoding (h : Header) : bool :=
  existsb (fun token => negb (String.eqb token "") && negb (EqualFold token "identity"))
    (headerTokens h "Content-Encoding").

Definition hasBasicAuthChallenge (resp : Response) : bool :=
  existsb (fun challenge => match Fields challenge with [] => false | f :: _ => EqualFold f "Basic" end)
    (headerTokens (rs_Header resp) "WWW-Authenticate").

Definition strongETag (etag : string) : string :=
  let etag := TrimSpace etag in
  if String.eqb etag "" || HasPrefix (ToLower etag) "w/" then "" else etag.

Definition responseBodyDecoded (resp : Response) (opts : Options) : bool :=
  optionBool opts "http-accept-gzip" && EqualFold (hGet (rs_Header resp) "Content-Encoding") "gzip".

Section responses.
Context {fs : FileSystem} {http : HTTPLib}.

Definition applyIfRange (meta : remoteMeta) (r : Request) : Request :=
  let etag := strongETag (m_ETag meta) in
  if negb (String.eqb etag "") then setHeader "If-Range" etag r
  else match ParseTime (m_LastModified meta) with
       | Some modified => setHeader "If-Range" (FormatTime modified) r
       | None => r
       end.

Definition applyConditionalHeaders (opts : Options) (path : string) (r : Request) : Request :=
  if negb (optionBool opts "conditional-get") then r
  else match Stat path with
       | Ok (false, _) => setHeader "If-Modified-Since" (FormatTime (ModTime path)) r
       | _ => r
       end.

Definition filenameFromResponse (resp : Response) (original : string) : string :=
  let fromURL :=
    match rs_RequestURL resp with
    | Some (_, path) =>
        let name := Base path in
        if negb (String.eqb name ".") && negb (String.eqb name "/") && negb (String.eqb name "")
        then safeURIFilename name else filenameFromURI original
    | None => filenameFromURI original
    end in
  let cd := hGet (rs_Header resp) "Content-Disposition" in
  if String.eqb cd "" then fromURL
  else match DispositionFilename cd with
       | Some name => if String.eqb name "" then fromURL else safeURIFilename name
       | None => fromURL
       end.

Definition metaFromResponse (resp : Response) (original : string) (opts : Options) : remoteMeta :=
  let decoded := responseBodyDecoded resp opts in
  mkMeta (if decoded then 0 else nonNegativeLength (rs_ContentLength resp))
         (if decoded then false else hasByteRangeSupport (rs_Header resp))
         (match rs_RequestURL resp with Some (url, _) => url | None => original end)
         (filenameFromResponse resp original)
         (hGet (rs_Header resp) "Last-Modified") (hGet (rs_Header resp) "ETag") false.

Definition notModifiedMeta (rawURI path : string) : remoteMeta :=
  let '(size, lastModified) := match Stat path with
                               | Ok (_, size) => (size, FormatTime (ModTime path))
                               | Err _ => (0, "")
                               end in
  mkMeta size true rawURI (Base path) lastModified "" true.

(** ** Existing output files *)

Definition resolveExistingOutputPath (path : string) (opts : Options) (allowResume : bool) : result string :=
  match Stat path with
  | Err err => if isNotExist err then Ok path else Err err
  | Ok (true, _) => Err (EText ("output path is a directory: " +:+ path))
  | Ok (false, _) =>
      if allowResume || optionBool opts "allow-overwrite" then Ok path
      else if optionBoolDefault opts "auto-file-renaming" true then nextAvailableOutputPath path
      else Err (EText ("file already exists: " +:+ path))
  end.

Definition canResumeExistingOutput (path : string) (opts : Options) (meta : remoteMeta) (segmented : bool) : bool :=
  if segmented || negb (optionBool opts "continue") || negb (m_AcceptRange meta) || (m_Length meta <=? 0) then false
  else match Stat path with
       | Ok (false, size) => (0 <? size) && (size <? m_Length meta)
       | _ => false
       end.

(** [strings.ReplaceAll(s, "-", "")] *)
Definition dropDashes (s : string) : string := without (Ascii.eqb "-"%char) s.

Definition checksumAlgorithms : list string := ["md5"; "sha1"; "sha224"; "sha256"; "sha384"; "sha512"].

Definition verifyChecksum (path : string) (opts : Options) : result unit :=
  let spec := optionString opts "checksum" in
  if String.eqb spec "" then Ok tt
  else match Cut spec "=" with
  | None => Err (EText "invalid checksum format")
  | Some (algo, expected) =>
      let name := ToLower (dropDashes algo) in
      if negb (in_words name checksumAlgorithms) then
        Err (EText ("unsupported checksum algorithm " +:+ quoted algo))
      else
        let! contents := ReadFile path in
        let got := Digest name contents in
        let expected := ToLower (TrimSpace expected) in
        if String.eqb got expected then Ok tt
        else Err (EText ("checksum mismatch: got " +:+ got +:+ " want " +:+ expected))
  end.
End responses.

(** ** Content ranges *)

Record byteContentRange := mkCR {
  cr_start : Z; cr_end : Z; cr_total : Z; cr_totalKnown : bool; cr_unsatisfied : bool
}.
#[export] Instance byteContentRange_eq_dec : EqDecision byteContentRange.
Proof. solve_decision. Defined.

Definition parseHTTPNonNegativeDecimal (s : string) : option Z :=
  if String.eqb s "" then None
  else if negb (forall_byte is_digit s) then None
  else ParseInt s.

Definition parseByteContentRange (s : string) : option byteContentRange :=
  match Fields (TrimSpace s) with
  | [unit_; spec] =>
      if negb (EqualFold unit_ "bytes") then None
      else match Cut spec "/" with
      | None => None
      | Some (rangePart, totalPart) =>
          if String.eqb totalPart "" then None
          else
            let totalKnown := negb (String.eqb totalPart "*") in
            match (if totalKnown then parseHTTPNonNegativeDecimal totalPart else Some (-1)) with
            | None => None
            | Some total =>
                if String.eqb rangePart "*" then
                  if negb totalKnown then None else Some (mkCR 0 0 total true true)
                else match Cut rangePart "-" with
                | None => None
                | Some (startPart, endPart) =>
                    match parseHTTPNonNegativeDecimal startPart, parseHTTPNonNegativeDecimal endPart with
                    | Some start, Some stop =>
                        if stop <? start then None
                        else if totalKnown && (total <=? stop) then None
                        else Some (mkCR start stop total totalKnown false)
                    | _, _ => None
                    end
                end
            end
      end
  | _ => None
  end.

Definition protocolError {A} (msg : string) : result A := Err (EHTTPProtocol msg).

Definition crText (resp : Response) : string := quoted (hGet (rs_Header resp) "Content-Range").

Definition validatePartialContentRange (resp : Response) : result byteContentRange :=
  if hasNonIdentityContentEncoding (rs_Header resp) then
    protocolError ("partial response uses unsupported Content-Encoding "
      +:+ quoted (hGet (rs_Header resp) "Content-Encoding"))
  else match parseByteContentRange (hGet (rs_Header resp) "Content-Range") with
  | Some cr => if cr_unsatisfied cr then protocolError ("partial response has invalid Content-Range " +:+ crText resp)
               else Ok cr
  | None => protocolError ("partial response has invalid Content-Range " +:+ crText resp)
  end.

Definition validateContentRangeLength (resp : Response) (cr : byteContentRange) : result unit :=
  let want := addInt64 (wrap64 (cr_end cr - cr_start cr)) 1 in
  if (0 <=? rs_ContentLength resp) && negb (rs_ContentLength resp =? want) then
    protocolError ("partial response Content-Length " +:+ FormatInt (rs_ContentLength resp)
      +:+ " does not match Content-Range length " +:+ FormatInt want)
  else Ok tt.

Definition validateProbeRangeResponse (resp : Response) (requestedStart requestedEnd : Z) : result byteContentRange :=
  let! cr := validatePartialContentRange resp in
  if negb (cr_start cr =? requestedStart) || (cr_end cr <? requestedStart) || (requestedEnd <? cr_end cr) then
    protocolError ("partial response Content-Range " +:+ crText resp +:+ " does not satisfy requested range bytes="
      +:+ FormatInt requestedStart +:+ "-" +:+ FormatInt requestedEnd)
  else let! _checked := validateContentRangeLength resp cr in Ok cr.

(** A known total other than the expected one, when one is expected. *)
Definition totalMismatch (cr : byteContentRange) (expectedTotal : Z) : bool :=
  (0 <=? expectedTotal) && cr_totalKnown cr && negb (cr_total cr =? expectedTotal).

Definition totalError {A} (cr : byteContentRange) (expectedTotal : Z) : result A :=
  protocolError ("partial response Content-Range total " +:+ FormatInt (cr_total cr)
    +:+ " does not match expected total " +:+ FormatInt expectedTotal).

Definition validateExactRangeResponse (resp : Response) (expectedStart expectedEnd expectedTotal : Z)
    : result byteContentRange :=
  let! cr := validatePartialContentRange resp in
  if negb (cr_start cr =? expectedStart) || negb (cr_end cr =? expectedEnd) then
    protocolError ("partial response Content-Range " +:+ crText resp +:+ " does not match requested range bytes="
      +:+ FormatInt expectedStart +:+ "-" +:+ FormatInt expectedEnd)
  else if totalMismatch cr expectedTotal then totalError cr expectedTotal
  else let! _checked := validateContentRangeLength resp cr in Ok cr.

Definition validateOpenRangeResponse (resp : Response) (expectedStart expectedTotal : Z) : result byteContentRange :=
  let! cr := validatePartialContentRange resp in
  if negb (cr_start cr =? expectedStart) then
    protocolError ("partial response Content-Range " +:+ crText resp +:+ " does not start at requested offset "
      +:+ FormatInt expectedStart)
  else if totalMismatch cr expectedTotal then totalError cr expectedTotal
  else if (0 <=? expectedTotal) && negb (cr_end cr =? wrap64 (expectedTotal - 1)) then
    protocolError ("partial response Content-Range " +:+ crText resp +:+ " does not complete expected total "
      +:+ FormatInt expectedTotal)
  else if cr_totalKnown cr && negb (cr_end cr =? wrap64 (cr_total cr - 1)) then
    protocolError ("partial response Content-Range " +:+ crText resp +:+ " does not complete the open-ended range")
  else let! _checked := validateContentRangeLength resp cr in Ok cr.

Definition completeLengthFromUnsatisfiedRange (resp : Response) : option Z :=
  match parseByteContentRange (hGet (rs_Header resp) "Content-Range") with
  | Some cr => if cr_unsatisfied cr && cr_totalKnown cr then Some (cr_total cr) else None
  | None => None
  end.

Definition isHTTPTransferSuccess (status : Z) : bool := (200 <=? status) && (status <? 300).
Definition isHTTPBodySuccess (status : Z) : bool :=
  isHTTPTransferSuccess status && negb (status =? 204) && negb (status =? 205).

(** ** Classification of errors *)

Definition retryableStatus (status : Z) : bool := bool_decide (status ∈ [408; 429; 500; 502; 503; 504]).

(** [errors.As(err, &status)] for the status error of a response *)
Definition statusCodeOf (err : error) : option Z :=
  errors_find (fun e => match e with EHTTPStatus _ _ status _ => Some status | _ => None end) err.

Definition isRetryableDownloadError (err : error) : bool :=
  if errors_is (fun e => match e with ECanceled | EDeadlineExceeded => true | _ => false end) err then false
  else if errors_is (fun e => match e with EHTTPProtocol _ => true | _ => false end) err then false
  else match statusCodeOf err with
  | Some status => retryableStatus status
  | None =>
      errors_is (fun e => match e with EUnexpectedEOF | EEOF | EShortWrite => true | _ => false end) err
      || errors_is (fun e => match e with EURL _ _ _ => true | _ => false end) err
      || errors_is (fun e => match e with ENet _ => true | _ => false end) err
  end.

Definition isFileNotFoundError (err : error) : bool :=
  match statusCodeOf err with Some status => status =? 404 | None => false end.

(** ** Specification *)

(** The text of a content range, as servers write it. *)
Definition printContentRange (cr : byteContentRange) : string :=
  let total := if cr_totalKnown cr then FormatInt (cr_total cr) else "*" in
  "bytes " +:+ (if cr_unsatisfied cr then "*" else FormatInt (cr_start cr) +:+ "-" +:+ FormatInt (cr_end cr))
  +:+ "/" +:+ total.

(** The ranges a response can describe. *)
Definition valid_range (cr : byteContentRange) : Prop :=
  if cr_unsatisfied cr
  then cr_start cr = 0 /\ cr_end cr = 0 /\ cr_totalKnown cr = true /\ 0 <= cr_total cr <= max_int64
  else 0 <= cr_start cr <= cr_end cr /\ cr_end cr <= max_int64
       /\ (if cr_totalKnown cr then cr_end cr < cr_total cr <= max_int64 else cr_total cr = -1).

(** ** Lemmas *)

Lemma parse_decimal (n : Z) : 0 <= n <= max_int64 -> parseHTTPNonNegativeDecimal (FormatInt n) = Some n.
Proof.
  intros Hn. unfold parseHTTPNonNegativeDecimal. rewrite eqb_empty by apply FormatInt_nonempty.
  rewrite FormatInt_digits by lia. by apply ParseInt_FormatInt.
Qed.

Lemma parse_decimal_range (s : string) (n : Z) : parseHTTPNonNegativeDecimal s = Some n -> 0 <= n <= max_int64.
Proof.
  unfold parseHTTPNonNegativeDecimal. destruct (String.eqb_spec s "") as [|Hne]; [done|].
  destruct (forall_byte is_digit s) eqn:Hd; [|done]. cbn [negb]. intros H. apply ParseInt_range in H as Hr.
  split; [|unfold max_int64 in *; lia]. unfold ParseInt in H. cbv zeta in H. destruct s as [|a t]; [done|].
  destruct (is_digit_not_sign a (digits_first _ _ _ Hd eq_refl)) as [E1 E2]. rewrite E1, E2 in H.
  destruct (parse_digits (String a t) 0) as [m|] eqn:Hp; [|done]. apply parse_digits_nonneg in Hp; [|lia].
  destruct (_ && _); [|done]. by simplify_eq.
Qed.

Lemma FormatInt_no (n : Z) (c : ascii) : 0 <= n -> is_digit c = false -> ContainsByte (FormatInt n) c = false.
Proof. intros Hn Hc. by apply (forall_byte_not_contains is_digit); [apply FormatInt_digits|]. Qed.

(** A header value of two tokens. *)
Lemma Fields_two (s t : string) : token s -> token t -> trim_right t = t -> Fields (TrimSpace (s +:+ String " " t)) = [s; t].
Proof.
  intros Hs Ht Htr. unfold TrimSpace. rewrite trim_left_id by by (apply lead_space_token; [|apply Hs..]).
  rewrite trim_right_app; [|apply Hs|done|].
  - rewrite Fields_cons by done. by rewrite Fields_one.
  - cbn [trim_right]. unfold all_space. rewrite trim_left_space by done.
    rewrite trim_left_id by (apply lead_space_no_space, Ht). rewrite eqb_empty by apply Ht. by rewrite Htr.
Qed.

(** What an accepted partial response says, whichever validation accepted it. *)
Lemma partial_accepted (resp : Response) (cr : byteContentRange) :
  validatePartialContentRange resp = Ok cr ->
  parseByteContentRange (hGet (rs_Header resp) "Content-Range") = Some cr /\ cr_unsatisfied cr = false
  /\ hasNonIdentityContentEncoding (rs_Header resp) = false.
Proof.
  unfold validatePartialContentRange. destruct (hasNonIdentityContentEncoding _); [done|].
  destruct (parseByteContentRange _) as [cr'|]; [|done]. destruct (cr_unsatisfied cr') eqn:E; [done|].
  by intros [= ->].
Qed.

Lemma parse_valid (s : string) (cr : byteContentRange) : parseByteContentRange s = Some cr -> valid_range cr.
Proof.
  unfold parseByteContentRange. destruct (Fields _) as [|u [|spec [|]]]; try done.
  destruct (EqualFold u "bytes"); [|done]. cbn [negb]. destruct (Cut spec "/") as [[rp tp]|]; [|done].
  destruct (String.eqb tp ""); [done|]. destruct (String.eqb tp "*"); cbn [negb].
  - destruct (String.eqb rp "*"); [done|]. destruct (Cut rp "-") as [[sp ep]|]; [|done].
    destruct (parseHTTPNonNegativeDecimal sp) as [a|] eqn:Ha; [|done].
    destruct (parseHTTPNonNegativeDecimal ep) as [b|] eqn:Hb; [|done].
    apply parse_decimal_range in Ha, Hb. destruct (Z.ltb_spec b a); [done|]. cbn [andb]. intros [= <-].
    unfold valid_range. simpl. lia.
  - destruct (parseHTTPNonNegativeDecimal tp) as [t|] eqn:Ht; [|done]. apply parse_decimal_range in Ht.
    destruct (String.eqb rp "*"); [intros [= <-]; unfold valid_range; simpl; lia|].
    destruct (Cut rp "-") as [[sp ep]|]; [|done].
    destruct (parseHTTPNonNegativeDecimal sp) as [a|] eqn:Ha; [|done].
    destruct (parseHTTPNonNegativeDecimal ep) as [b|] eqn:Hb; [|done].
    apply parse_decimal_range in Ha, Hb. destruct (Z.ltb_spec b a); [done|]. cbn [andb].
    destruct (Z.leb_spec t b); [done|]. intros [= <-]. unfold valid_range. simpl. lia.
Qed.

Lemma parse_print (cr : byteContentRange) : valid_range cr -> parseByteContentRange (printContentRange cr) = Some cr.
Proof.
  destruct cr as [a b t known unsat]. unfold valid_range, printContentRange. cbn [cr_start cr_end cr_total cr_totalKnown cr_unsatisfied].
  intros Hv. set (total := if known then FormatInt t else "*").
  assert (total <> "" /\ forall_byte plain_byte total = true
    /\ (if negb (String.eqb total "*") then parseHTTPNonNegativeDecimal total else Some (-1)) = Some t
    /\ negb (String.eqb total "*") = known) as (Hne & Hpl & Hp & Hk).
  { unfold total. destruct known.
    - assert (0 <= t <= max_int64) by (destruct unsat; lia).
      assert (String.eqb (FormatInt t) "*" = false) as E.
      { apply String.eqb_neq. intros E. pose proof (FormatInt_digits t ltac:(lia)) as Hd. rewrite E in Hd. done. }
      rewrite E. split_and!; [apply FormatInt_nonempty|apply FormatInt_plain; lia|by apply parse_decimal|done].
    - destruct unsat; [by destruct Hv as (_ & _ & ? & _)|]. destruct Hv as (_ & _ & ->). done. }
  set (rp := if unsat then "*" else FormatInt a +:+ "-" +:+ FormatInt b).
  assert (rp <> "" /\ forall_byte plain_byte rp = true /\ ContainsByte rp "/" = false) as (Hrne & Hrpl & Hrc).
  { unfold rp. destruct unsat; [done|]. destruct Hv as (? & ? & _).
    assert (forall f, f "-"%char = true -> (forall c, is_digit c = true -> f c = true) ->
      forall_byte f (FormatInt a +:+ "-" +:+ FormatInt b) = true) as Hall.
    { intros f H1 H2. rewrite forall_byte_app. apply andb_true_iff. split.
      - eapply forall_byte_impl; [exact H2|]. apply FormatInt_digits. lia.
      - change ("-" +:+ FormatInt b) with (String "-" (FormatInt b)). cbn [forall_byte]. rewrite H1. simpl.
        eapply forall_byte_impl; [exact H2|]. apply FormatInt_digits. lia. }
    split_and!.
    - destruct (FormatInt a) eqn:E; [by destruct (FormatInt_nonempty a)|done].
    - apply Hall; [done|apply is_digit_plain].
    - apply (forall_byte_not_contains (fun c => negb (Ascii.eqb c "/"%char))); [|done]. apply Hall; [done|].
      intros c Hc. apply negb_true_iff, Ascii.eqb_neq. by intros ->. }
  assert (forall_byte plain_byte (rp +:+ "/" +:+ total) = true) as Hspec.
  { rewrite forall_byte_app, Hrpl. change ("/" +:+ total) with (String "/" total). cbn [forall_byte]. by rewrite Hpl. }
  unfold parseByteContentRange. change ("bytes " +:+ rp +:+ "/" +:+ total) with ("bytes" +:+ String " " (rp +:+ "/" +:+ total)).
  rewrite Fields_two; [|done|apply plain_has_no_space; [by destruct rp|done]|by apply trim_right_no_space, has_space_plain].
  assert (EqualFold "bytes" "bytes" = true) as -> by done. cbn [negb].
  change (rp +:+ "/" +:+ total) with (rp +:+ String "/" total). rewrite Cut_app by done.
  rewrite eqb_empty by done. rewrite Hp, Hk. unfold rp. destruct unsat.
  - destruct Hv as (-> & -> & -> & _). done.
  - assert (String.eqb (FormatInt a +:+ "-" +:+ FormatInt b) "*" = false) as ->.
    { apply String.eqb_neq. intros E. destruct Hv as (? & ? & _). pose proof (FormatInt_digits a ltac:(lia)) as Hd.
      destruct (FormatInt a) as [|c r]; [by destruct (FormatInt_nonempty a)|].
      rewrite str_app_cons in E. injection E as -> _. done. }
    destruct Hv as (? & ? & Ht).
    change (FormatInt a +:+ "-" +:+ FormatInt b) with (FormatInt a +:+ String "-" (FormatInt b)).
    rewrite Cut_app by (apply FormatInt_no; [lia|done]). rewrite !parse_decimal by lia.
    destruct (Z.ltb_spec b a); [lia|]. destruct known; cbn [andb]; [|done]. by destruct (Z.leb_spec t b); [lia|].
Qed.

(** ** Properties *)

(** The [Content-Range] reader is exact: it reads back every well-formed range
    as it is printed, and whatever it accepts is well-formed, that is, starts and
    ends are non-negative 64-bit offsets in order, below the total when the total
    is known, and an unsatisfied range has a total. *)
Theorem content_range_roundtrip :
  (forall cr, valid_range cr -> parseByteContentRange (printContentRange cr) = Some cr)
  /\ (forall s cr, parseByteContentRange s = Some cr -> valid_range cr).
Proof. split; [apply parse_print|apply parse_valid]. Qed.

Lemma content_range_roundtrip_witness :
  parseByteContentRange "bytes 5-9/100" = Some (mkCR 5 9 100 true false)
  /\ printContentRange (mkCR 5 9 100 true false) = "bytes 5-9/100".
Proof.
  split; [|by vm_compute].
  exact (proj1 content_range_roundtrip (mkCR 5 9 100 true false) ltac:(unfold valid_range, max_int64; simpl; lia)).
Defined.

(** A partial response accepted for the bytes [first..last] of a file of
    [total] bytes describes exactly these bytes: the range starts and ends there,
    the file's length agrees when both are known, the body is not encoded and its
    length, when announced, is the length of the range.  A response accepted for an
    open range from [first] runs to the last byte of the file. *)
Theorem partial_response_matches_request (resp : Response) (first last total : Z) (cr : byteContentRange) :
  (validateExactRangeResponse resp first last total = Ok cr ->
     cr_start cr = first /\ cr_end cr = last /\ valid_range cr
     /\ (0 <= total -> cr_totalKnown cr = true -> cr_total cr = total)
     /\ hasNonIdentityContentEncoding (rs_Header resp) = false
     /\ (0 <= rs_ContentLength resp -> rs_ContentLength resp = last - first + 1))
  /\ (validateOpenRangeResponse resp first total = Ok cr ->
     cr_start cr = first /\ valid_range cr /\ (0 <= total <= max_int64 -> cr_end cr = total - 1)
     /\ (cr_totalKnown cr = true -> cr_end cr = cr_total cr - 1)
     /\ (0 <= rs_ContentLength resp -> rs_ContentLength resp = cr_end cr - first + 1)).
Proof.
  assert (forall cr', valid_range cr' -> cr_unsatisfied cr' = false -> validateContentRangeLength resp cr' = Ok tt ->
    0 <= rs_ContentLength resp -> rs_ContentLength resp = cr_end cr' - cr_start cr' + 1) as Hlen.
  { intros cr' Hv Hu. unfold validateContentRangeLength, addInt64. cbv zeta. intros H Hc.
    destruct (Z.leb_spec 0 (rs_ContentLength resp)); [|lia]. cbn [andb] in H.
    destruct (Z.eqb_spec (rs_ContentLength resp) (wrap64 (wrap64 (cr_end cr' - cr_start cr') + 1))) as [E|]; [|done].
    unfold valid_range in Hv. rewrite Hu in Hv. destruct Hv as (? & ? & _).
    rewrite (wrap64_id (cr_end cr' - cr_start cr')) in E by (unfold in_int64, min_int64, max_int64 in *; lia).
    destruct (decide (cr_end cr' - cr_start cr' = max_int64)) as [Hmax|Hmax].
    - rewrite Hmax in E. assert (wrap64 (max_int64 + 1) < 0) by (by vm_compute). lia.
    - rewrite wrap64_id in E by (unfold in_int64, min_int64, max_int64 in *; lia). lia. }
  split.
  - unfold validateExactRangeResponse. intros (cr' & Hp & H)%result_bind_ok.
    apply partial_accepted in Hp as (Hparse & Hu & Henc). apply parse_valid in Hparse as Hv.
    destruct (Z.eqb_spec (cr_start cr') first) as [<-|]; [|done]. destruct (Z.eqb_spec (cr_end cr') last) as [<-|]; [|done].
    cbn [negb orb] in H. destruct (totalMismatch cr' total) eqn:Ht; [done|].
    apply result_bind_ok in H as ([] & Hl & H). injection H as <-. split_and!; try done; [|by apply Hlen].
    intros H0 Hk. unfold totalMismatch in Ht. destruct (Z.leb_spec 0 total); [|lia]. rewrite Hk in Ht.
    cbn [andb] in Ht. by apply negb_false_iff, Z.eqb_eq in Ht.
  - unfold validateOpenRangeResponse. intros (cr' & Hp & H)%result_bind_ok.
    apply partial_accepted in Hp as (Hparse & Hu & _). apply parse_valid in Hparse as Hv.
    destruct (Z.eqb_spec (cr_start cr') first) as [<-|]; [|done]. cbn [negb] in H.
    destruct (totalMismatch cr' total); [done|].
    destruct ((0 <=? total) && _) eqn:He; [done|]. destruct (cr_totalKnown cr' && _) eqn:Hk; [done|].
    apply result_bind_ok in H as ([] & Hl & H). injection H as <-. split_and!; try done; [| |by apply Hlen].
    + intros H0. destruct (Z.leb_spec 0 total); [|lia]. cbn [andb] in He. apply negb_false_iff, Z.eqb_eq in He.
      rewrite wrap64_id in He by (unfold in_int64, min_int64, max_int64 in *; lia). done.
    + intros Hkn. rewrite Hkn in Hk. cbn [andb] in Hk. apply negb_false_iff, Z.eqb_eq in Hk.
      unfold valid_range in Hv. rewrite Hu, Hkn in Hv. destruct Hv as (? & ? & ?).
      rewrite wrap64_id in Hk by (unfold in_int64, min_int64, max_int64 in *; lia). done.
Qed.

Lemma partial_response_matches_request_witness :
  let resp := mkResponse (hSet "Content-Range" "bytes 5-9/100" ∅) 206 "206 Partial Content" 5 None in
  validateExactRangeResponse resp 5 9 100 = Ok (mkCR 5 9 100 true false) /\ rs_ContentLength resp = 9 - 5 + 1.
Proof.
  set (resp := mkResponse (hSet "Content-Range" "bytes 5-9/100" ∅) 206 "206 Partial Content" 5 None).
  assert (validateExactRangeResponse resp 5 9 100 = Ok (mkCR 5 9 100 true false)) as H by by vm_compute.
  split; [done|].
  destruct (proj1 (partial_response_matches_request resp 5 9 100 (mkCR 5 9 100 true false)) H) as (_ & _ & _ & _ & _ & Hl).
  apply Hl. simpl. lia.
Defined.
