(* ===== verification/Torrent.v ===== *)
(** * Torrent metadata and file selection ([torrent_download.go], pure part)

    Validation of untrusted torrent metadata, the selection of files by index and
    by extension, the file states of a download with their output paths, and the
    merging of web seeds and trackers.  The types of the torrent library are
    records of what its methods return; its functions are operations of the
    [TorrentLib] class. *)
From S2P Require Import Prelude GoStrings GoPath Pieces Reservations Options.

(** ** The library's metadata, as the program observes it *)

(** A file of [UpvertedFiles], [UpvertedV1Files] or [Files]. *)
Record upFile := mkUpFile {
  uf_BestPath : list string; uf_Length : Z; uf_TorrentOffset : Z; uf_Attr : string; uf_DisplayPath : string
}.

(** A file node of the v2 file tree, in [Walk] order. *)
Record leaf := mkLeaf { lf_path : list string; lf_Length : Z; lf_PiecesRoot : option string }.

Record Info := mkInfo {
  i_PieceLength : Z;
  i_PiecesLen : Z;                  (* len(info.Pieces) *)
  i_Length : Z;
  i_Files : list upFile;
  i_HasV1 : bool;
  i_HasV2 : bool;
  i_FileTree : list leaf;
  i_FileTreeValid : option error;   (* info.FileTree.Validate() *)
  i_UpvertedV1Files : list upFile;
  i_UpvertedFiles : list upFile;
  i_BestName : string;
  i_Private : option bool;
  i_IsDir : bool
}.

Definition HashSize : Z := 20.
Definition maxTorrentProtocolPieceLength : Z := 4294967295.

Definition joinedPath (path : list string) : string := Join path "/".

(** ** Geometry *)

(** The running sum of the lengths of both length functions. *)
Fixpoint sumLengths (files : list (list string * Z)) (total : Z) : result Z :=
  match files with
  | [] => Ok total
  | (path, length) :: rest =>
      if length <? 0 then Err (EText ("file " +:+ quoted (joinedPath path) +:+ " has negative length"))
      else if max_int64 - total <? length then Err (EText "torrent file lengths overflow int64")
      else sumLengths rest (total + length)
  end.

Definition v1TorrentLength (info : Info) : result Z :=
  if i_Length info <? 0 then Err (EText ("negative torrent length " +:+ FormatInt (i_Length info)))
  else match i_Files info with
       | [] => Ok (i_Length info)
       | files => sumLengths (map (fun f => (uf_BestPath f, uf_Length f)) files) 0
       end.

Definition v2TorrentLength (tree : list leaf) : result Z :=
  sumLengths (map (fun f => (lf_path f, lf_Length f)) tree) 0.

(** The walk of [validateV2TorrentGeometry] with its two running sums. *)
Fixpoint v2Geometry (tree : list leaf) (pieceLength pieces paddedLength : Z) : result Z :=
  match tree with
  | [] => Ok pieces
  | node :: rest =>
      let name := quoted (joinedPath (lf_path node)) in
      if lf_Length node <? 0 then Err (EText ("file " +:+ name +:+ " has negative length"))
      else
        let filePieces := ceilDivInt64 (lf_Length node) pieceLength in
        if maxTorrentPieceCount - pieces <? filePieces then
          Err (EText ("torrent has more pieces than the limit at file " +:+ name))
        else if max_int64 / pieceLength <? filePieces then
          Err (EText ("padded v2 file length overflows int64 at file " +:+ name))
        else
          let fileSpan := filePieces * pieceLength in
          if max_int64 - paddedLength <? fileSpan then
            Err (EText ("padded v2 torrent length overflows int64 at file " +:+ name))
          else v2Geometry rest pieceLength (pieces + filePieces) (paddedLength + fileSpan)
  end.

Definition validateV2TorrentGeometry (tree : list leaf) (pieceLength : Z) : result Z :=
  if pieceLength <=? 0 then Err (EText ("invalid v2 piece length " +:+ FormatInt pieceLength))
  else v2Geometry tree pieceLength 0 0.

Definition torrentInfoPieceCount (info : Info) : result Z :=
  if i_HasV2 info then validateV2TorrentGeometry (i_FileTree info) (i_PieceLength info)
  else Ok (i_PiecesLen info / HashSize).

Fixpoint equalTorrentPath (left right : list string) : bool :=
  match left, right with
  | [], [] => true
  | x :: left', y :: right' => String.eqb x y && equalTorrentPath left' right'
  | _, _ => false
  end.

(** The file-by-file comparison of [validateHybridTorrentLayout]. *)
Fixpoint sameLayout (single : bool) (name : string) (v1 v2 : list upFile) : result unit :=
  match v1, v2 with
  | f1 :: v1', f2 :: v2' =>
      let v1Path := if single && (match uf_BestPath f1 with [] => true | _ => false end)
                    then [name] else uf_BestPath f1 in
      if negb (equalTorrentPath v1Path (uf_BestPath f2)) then Err (EText "hybrid file paths differ")
      else if negb (uf_Length f1 =? uf_Length f2) then
        Err (EText ("hybrid file " +:+ quoted (joinedPath (uf_BestPath f2)) +:+ " lengths differ"))
      else if negb (uf_TorrentOffset f1 =? uf_TorrentOffset f2) then
        Err (EText ("hybrid file " +:+ quoted (joinedPath (uf_BestPath f2)) +:+ " offsets differ"))
      else sameLayout single name v1' v2'
  | _, _ => Ok tt
  end.

Definition validateHybridTorrentLayout (info : Info) : result unit :=
  let v1Files := filter (fun f => ContainsByte (uf_Attr f) "p" = false) (i_UpvertedV1Files info) in
  let v2Files := i_UpvertedFiles info in
  if negb (Nat.eqb (length v1Files) (length v2Files)) then Err (EText "hybrid file counts differ")
  else sameLayout (match i_Files info with [] => true | _ => false end) (i_BestName info) v1Files v2Files.

Definition isPowerOfTwo (n : Z) : bool := Z.land n (n - 1) =? 0.

Definition validateTorrentInfo (info : Info) : result unit :=
  if negb (i_PiecesLen info mod HashSize =? 0) then Err (EText "pieces has invalid length")
  else
    let! v1Total := v1TorrentLength info in
    let! total :=
      if i_HasV2 info then
        match i_FileTreeValid info with
        | Some err => Err (EWrap "bad v2 file tree" err)
        | None => v2TorrentLength (i_FileTree info)
        end
      else Ok v1Total in
    let pieceLength := i_PieceLength info in
    let invalid := Err (EText ("invalid piece length " +:+ FormatInt pieceLength)) in
    if pieceLength <=? 0 then
      if (pieceLength <? 0) || negb (total =? 0) || negb (i_PiecesLen info =? 0) || i_HasV2 info
      then invalid else Ok tt
    else if maxTorrentProtocolPieceLength <? pieceLength then
      Err (EText ("piece length " +:+ FormatInt pieceLength +:+ " exceeds peer protocol limit"))
    else if i_HasV2 info && ((pieceLength <? 16384) || negb (isPowerOfTwo pieceLength)) then
      Err (EText ("invalid v2 piece length " +:+ FormatInt pieceLength))
    else
      let v1Pieces := i_PiecesLen info / HashSize in
      let! _checked :=
        if i_HasV1 info then
          if negb (ceilDivInt64 v1Total pieceLength =? v1Pieces) then
            Err (EText "piece count and file lengths are at odds")
          else if maxTorrentPieceCount <? v1Pieces then
            Err (EText ("torrent has " +:+ FormatInt v1Pieces +:+ " pieces, limit is 1048576"))
          else Ok tt
        else Ok tt in
      if i_HasV2 info then
        let! v2Pieces := torrentInfoPieceCount info in
        if i_HasV1 info then
          if negb (v1Pieces =? v2Pieces) then Err (EText "hybrid piece counts differ")
          else validateHybridTorrentLayout info
        else Ok tt
      else Ok tt.

(** ** v2 piece layers

    [CompactLayerToSliceHashes] and [RootWithPadHash] of the merkle library and
    SHA-256 are arguments. *)
Section layers.
Context (compactLayer : string -> result (list string)) (rootWithPadHash : list string -> string -> string).
Context (sha256 : string -> string).

Definition merkleBlockSize : Z := 16384.

(** [for blocks := n; blocks > 1; blocks >>= 1]: at most 63 rounds for an [int64]. *)
Fixpoint padHashFrom (rounds : nat) (blocks : Z) (hash : string) : string :=
  match rounds with
  | O => hash
  | S r => if 1 <? blocks then padHashFrom r (Z.shiftr blocks 1) (sha256 (hash +:+ hash)) else hash
  end.

Definition zeroHash : string := String.string_of_list_ascii (replicate 32 zero).

Definition torrentPiecePadHash (pieceLength : Z) : string :=
  padHashFrom 63 (Z.quot pieceLength merkleBlockSize) zeroHash.

(** The walk over the file tree; [validated] holds the roots already checked. *)
Fixpoint walkLayers (layers : gmap string string) (pieceLength : Z) (padHash : string)
    (tree : list leaf) (validated : gset string) : result (gset string) :=
  match tree with
  | [] => Ok validated
  | node :: rest =>
      let name := quoted (joinedPath (lf_path node)) in
      match lf_PiecesRoot node with
      | None => walkLayers layers pieceLength padHash rest validated
      | Some root =>
          let expectedHashes := ceilDivInt64 (lf_Length node) pieceLength in
          if expectedHashes <=? 1 then
            match layers !! root with
            | Some _ => Err (EText ("unexpected piece layer for file " +:+ name))
            | None => walkLayers layers pieceLength padHash rest validated
            end
          else
            match layers !! root with
            | None => Err (EText ("no piece layers for file " +:+ name))
            | Some layer =>
                if negb (len layer =? expectedHashes * 32) then
                  Err (EText ("file " +:+ name +:+ " piece layer has the wrong size"))
                else if bool_decide (root ∈ validated) then
                  walkLayers layers pieceLength padHash rest validated
                else
                  match compactLayer layer with
                  | Err err => Err (EWrap ("file " +:+ name) err)
                  | Ok hashes =>
                      if negb (String.eqb (rootWithPadHash hashes padHash) root) then
                        Err (EText ("file " +:+ name +:+ ": unexpected hash"))
                      else walkLayers layers pieceLength padHash rest ({[root]} ∪ validated)
                  end
            end
      end
  end.

Definition validateTorrentPieceLayers (layers : gmap string string) (info : Info) : result unit :=
  let padHash := torrentPiecePadHash (i_PieceLength info) in
  let! validated := walkLayers layers (i_PieceLength info) padHash (i_FileTree info) ∅ in
  if bool_decide (dom layers ⊆ validated) then Ok tt
  else Err (EText "a piece layer root is not referenced by the file tree").

Definition validateRefreshedTorrentMetadata (layers : gmap string string) (info : Info) (magnet : bool) : result unit :=
  match validateTorrentInfo info with
  | Err err => Err (EWrap "invalid torrent metadata" err)
  | Ok _ =>
      if i_HasV2 info && negb magnet then
        match validateTorrentPieceLayers layers info with
        | Err err => Err (EWrap "invalid torrent metadata: bad v2 piece layers" err)
        | Ok _ => Ok tt
        end
      else Ok tt
  end.
End layers.

(** ** Selection options *)

Definition torrentSelectFileExtOption : string := "goaria-select-file-ext".
Definition torrentExcludeFileExtOption : string := "goaria-exclude-file-ext".

(** The items of a comma-separated list, trimmed, empty ones dropped. *)
Definition csvItems (raw : string) : list string :=
  filter (fun item => item <> "") (map TrimSpace (Split raw ",")).

Definition splitCSVOptions (opts : Options) (key : string) : list string :=
  concat (map csvItems (optionStringList opts key)).

(** The indexes one item of a [select-file] list denotes. *)
Definition selectItem (numFiles : Z) (item : string) : result (list Z) :=
  let item := TrimSpace item in
  if String.eqb item "" then Err (EText "invalid empty select-file item")
  else match Cut item "-" with
       | None =>
           match Atoi (TrimSpace item) with
           | Some n => if (n <? 1) || (numFiles <? n)
                       then Err (EText ("select-file index " +:+ quoted item +:+ " out of range"))
                       else Ok [n]
           | None => Err (EText ("select-file index " +:+ quoted item +:+ " out of range"))
           end
       | Some (first, last) =>
           match Atoi (TrimSpace first), Atoi (TrimSpace last) with
           | Some start, Some stop =>
               if (start <? 1) || (stop <? start) || (numFiles <? stop)
               then Err (EText ("invalid select-file range " +:+ quoted item))
               else Ok (seqZ start (stop - start + 1))
           | _, _ => Err (EText ("invalid select-file range " +:+ quoted item))
           end
       end.

Fixpoint selectItems (numFiles : Z) (items : list string) (selected : gset Z) : result (gset Z) :=
  match items with
  | [] => Ok selected
  | item :: rest =>
      let! indexes := selectItem numFiles item in
      selectItems numFiles rest (list_to_set indexes ∪ selected)
  end.

(** The set of the one-based indexes mapped to [true]. *)
Definition selectedFileSet (numFiles : Z) (spec : string) : result (gset Z) :=
  if String.eqb (TrimSpace spec) "" then Ok (list_to_set (seqZ 1 numFiles))
  else selectItems numFiles (Split spec ",") ∅.

Definition parseIndexOutItem (raw : string) : result (Z * string) :=
  match Cut raw "=" with
  | None => Err (EText ("invalid index-out " +:+ quoted raw))
  | Some (lhs, rhs) =>
      match Atoi (TrimSpace lhs) with
      | Some index =>
          if index <=? 0 then Err (EText ("invalid index-out index " +:+ quoted lhs))
          else let path := TrimSpace rhs in
               if String.eqb path "" then Err (EText "invalid empty index-out path") else Ok (index, path)
      | None => Err (EText ("invalid index-out index " +:+ quoted lhs))
      end
  end.

Fixpoint parseIndexOutItems (raws : list string) (out : gmap Z string) : result (gmap Z string) :=
  match raws with
  | [] => Ok out
  | raw :: rest => let! r := parseIndexOutItem raw in parseIndexOutItems rest (<[r.1 := r.2]> out)
  end.

Definition parseIndexOut (opts : Options) : result (gmap Z string) :=
  parseIndexOutItems (optionStringList opts "index-out") ∅.

(** *** Extension filters *)

Record torrentExtensionFilters := mkFilters { include : gset string; exclude : gset string }.

Definition parseExtension (key raw : string) : result (option string) :=
  let ext := ToLower (TrimSpace raw) in
  if String.eqb ext "" then Ok None
  else if String.eqb ext "." || ContainsAny ext (String slash (String (ascii_of_N 92) "")) || ContainsByte ext zero
  then Err (EText ("invalid " +:+ key +:+ " extension " +:+ quoted raw))
  else Ok (Some (if HasPrefix ext "." then ext else "." +:+ ext)).

Fixpoint parseExtensions (key : string) (raws : list string) (exts : gset string) : result (gset string) :=
  match raws with
  | [] => Ok exts
  | raw :: rest =>
      let! ext := parseExtension key raw in
      parseExtensions key rest (match ext with Some e => {[e]} ∪ exts | None => exts end)
  end.

Definition parseTorrentExtensionFilter (opts : Options) (key : string) : result (gset string) :=
  parseExtensions key (splitCSVOptions opts key) ∅.

Definition parseTorrentExtensionFilters (opts : Options) : result torrentExtensionFilters :=
  let! inc := parseTorrentExtensionFilter opts torrentSelectFileExtOption in
  let! exc := parseTorrentExtensionFilter opts torrentExcludeFileExtOption in
  Ok (mkFilters inc exc).

Definition validateTorrentExtensionOptions (opts : Options) : result unit :=
  let! _checked := parseTorrentExtensionFilters opts in Ok tt.

Definition matchesTorrentExtension (path : string) (exts : gset string) : bool :=
  existsb (HasSuffix path) (elements exts).

(** [filepath.ToSlash] is the identity on Unix. *)
Definition matches (f : torrentExtensionFilters) (path : string) : bool :=
  let lowerPath := ToLower path in
  if bool_decide (include f <> ∅) && negb (matchesTorrentExtension lowerPath (include f)) then false
  else if bool_decide (exclude f <> ∅) && matchesTorrentExtension lowerPath (exclude f) then false
  else true.

(** The path a file is filtered by: its [index-out] override or its display path. *)
Definition filteredPath (indexOut : gmap Z string) (index : Z) (fi : upFile) : string :=
  match indexOut !! index with
  | Some override => if String.eqb override "" then uf_DisplayPath fi else override
  | None => uf_DisplayPath fi
  end.

(** The loop over the files, [index] being the one-based index of the first. *)
Fixpoint filterFiles (f : torrentExtensionFilters) (selected : gset Z) (indexOut : gmap Z string)
    (files : list upFile) (index : Z) (out : gset Z) : gset Z :=
  match files with
  | [] => out
  | fi :: rest =>
      let keep := bool_decide (index ∈ selected) && matches f (filteredPath indexOut index fi) in
      filterFiles f selected indexOut rest (index + 1) (if keep then {[index]} ∪ out else out)
  end.

Definition applyTorrentExtensionSelection (info : Info) (selected : gset Z) (indexOut : gmap Z string)
    (opts : Options) : result (gset Z) :=
  let! filters := parseTorrentExtensionFilters opts in
  if bool_decide (include filters = ∅) && bool_decide (exclude filters = ∅) then Ok selected
  else Ok (filterFiles filters selected indexOut (i_UpvertedFiles info) 1 ∅).

Definition torrentSelectionAndIndexOut (info : Info) (opts : Options) : result (gset Z * gmap Z string) :=
  let numFiles := Z.of_nat (length (i_UpvertedFiles info)) in
  let! selected := selectedFileSet numFiles (optionString opts "select-file") in
  let! indexOut := parseIndexOut opts in
  if bool_decide (exists i, i ∈ dom indexOut /\ ~ (1 <= i <= numFiles)) then
    Err (EText "index-out file index out of range")
  else if bool_decide (exists i, i ∈ selected /\ ~ (1 <= i <= numFiles)) then
    Err (EText "select-file index out of range")
  else
    let! selected := applyTorrentExtensionSelection info selected indexOut opts in
    Ok (selected, indexOut).

(** ** File states *)

Record torrentFileState := mkFileState {
  tf_Index : Z; tf_Path : string; tf_Length : Z; tf_Completed : Z; tf_Selected : bool
}.
#[global] Instance eta_torrentFileState : Eta torrentFileState :=
  fun s => mkFileState (tf_Index s) (tf_Path s) (tf_Length s) (tf_Completed s) (tf_Selected s).

(** [safeTorrentRelPath]: the ordinary elements of a path. *)
Definition safeTorrentRelPath (path : string) : string :=
  let clean := filter (fun e => e <> "." /\ e <> "..") (elems path) in
  match clean with
  | [] => "torrent"
  | _ => JoinPath clean
  end.

Record FilePathMakerOpts := mkFPM {
  fpm_FileIndex : Z; fpm_DefaultPath : string; fpm_InfoName : option string; fpm_FilePath : list string
}.

Definition torrentFilePathMaker (opts : Options) : option (FilePathMakerOpts -> string) :=
  let indexOut := match parseIndexOut opts with Ok m => m | Err _ => ∅ end in
  if bool_decide (indexOut = ∅) then None
  else Some (fun pathOpts =>
    match indexOut !! (fpm_FileIndex pathOpts + 1) with
    | Some override =>
        if negb (String.eqb override "") then safeTorrentRelPath override
        else if negb (String.eqb (fpm_DefaultPath pathOpts) "") then fpm_DefaultPath pathOpts
        else JoinPath (option_list (fpm_InfoName pathOpts) ++ fpm_FilePath pathOpts)
    | None =>
        if negb (String.eqb (fpm_DefaultPath pathOpts) "") then fpm_DefaultPath pathOpts
        else JoinPath (option_list (fpm_InfoName pathOpts) ++ fpm_FilePath pathOpts)
    end).

Record planFile := mkPlanFile { pf_Index : Z; pf_StoragePath : string; pf_Length : Z }.
Record filePlan := mkPlan { fp_TorrentDir : string; fp_Files : list planFile }.

(** The storage library's plan for the files of a torrent below a directory. *)
Class TorrentStorage := {
  PlanFiles : string -> option (FilePathMakerOpts -> string) -> Info -> string -> result filePlan
}.

Section states.
Context {fs : FileSystem} {storage : TorrentStorage}.

(** The loop over the planned files of [torrentFileStates]. *)
Fixpoint planStates (canonicalDir : string) (selected : gset Z) (files : list planFile)
    : result (list torrentFileState) :=
  match files with
  | [] => Ok []
  | file :: rest =>
      let! canonicalPath := outputPathReservationKey (pf_StoragePath file) in
      if negb (pathWithinDirectory canonicalDir canonicalPath) then
        Err (EText ("torrent output path escapes download directory: " +:+ pf_StoragePath file))
      else
        let index := pf_Index file + 1 in
        let! out := planStates canonicalDir selected rest in
        Ok (mkFileState index (pf_StoragePath file) (pf_Length file) 0 (bool_decide (index ∈ selected)) :: out)
  end.

Definition torrentFileStates (info : Info) (infoHash : string) (opts : Options) (dir : string)
    : result (list torrentFileState) :=
  let! selected := torrentSelectionAndIndexOut info opts in
  let! plan := PlanFiles dir (torrentFilePathMaker opts) info infoHash in
  let! canonicalDir := outputPathReservationKey (fp_TorrentDir plan) in
  planStates canonicalDir selected.1 (fp_Files plan).

(** One file of [rebuildTorrentFileStatesPreservingProgress]; [byIndex] holds the
    previous states, the last one for an index. *)
Definition byIndex (previous : list torrentFileState) : gmap Z torrentFileState :=
  list_to_map (map (fun s => (tf_Index s, s)) (rev previous)).

Definition carryProgress (previous : gmap Z torrentFileState) (finalized : gset Z) (next : torrentFileState)
    : torrentFileState :=
  let next :=
    match previous !! tf_Index next with
    | Some old =>
        let next := next <| tf_Completed := tf_Completed old |> in
        let next := if bool_decide (tf_Index next ∈ finalized) then next <| tf_Path := tf_Path old |> else next in
        if tf_Length next <? tf_Completed next then next <| tf_Completed := tf_Length next |> else next
    | None => next
    end in
  if bool_decide (tf_Index next ∈ finalized) then next <| tf_Completed := tf_Length next |> else next.

(** The zero [metainfo.Hash], in hexadecimal. *)
Definition zeroInfoHash : string := String.string_of_list_ascii (replicate 40 "0"%char).

(** The sums over the selected files, in [int64]. *)
Definition sumSelected (f : torrentFileState -> Z) (files : list torrentFileState) : Z :=
  foldl (fun total s => if tf_Selected s then addInt64 total (f s) else total) 0 files.

Definition rebuildTorrentFileStatesPreservingProgress (info : Info) (opts : Options) (dir : string)
    (previous : list torrentFileState) (finalized : gset Z) : result (list torrentFileState * Z * Z) :=
  let! next := torrentFileStates info zeroInfoHash opts dir in
  let next := map (carryProgress (byIndex previous) finalized) next in
  Ok (next, sumSelected tf_Length next, sumSelected tf_Completed next).
End states.

Definition torrentSelectedLength (files : list torrentFileState) : Z := sumSelected tf_Length files.

Definition validateTorrentFinalizedIndexes (files : list torrentFileState) (finalized : gset Z) : result unit :=
  let valid : gset Z := list_to_set (map tf_Index files) in
  match filter (fun index => index ∉ valid) (elements finalized) with
  | [] => Ok tt
  | index :: _ => Err (EText ("finalized torrent file index " +:+ FormatInt index +:+ " out of range"))
  end.

(** The files are updated in place: the result holds them too. *)
Definition clampProgress (finalized : gset Z) (s : torrentFileState) : torrentFileState :=
  if bool_decide (tf_Index s ∈ finalized) then s <| tf_Completed := tf_Length s |>
  else
    let s := if tf_Completed s <? 0 then s <| tf_Completed := 0 |> else s in
    if tf_Length s <? tf_Completed s then s <| tf_Completed := tf_Length s |> else s.

Definition torrentFileStateProgress (files : list torrentFileState) (finalized : gset Z)
    : list torrentFileState * Z * Z :=
  let files := map (clampProgress finalized) files in
  (files, sumSelected tf_Length files, sumSelected tf_Completed files).

Definition pendingFile (finalized : gset Z) (s : torrentFileState) : bool :=
  tf_Selected s && negb (bool_decide (tf_Index s ∈ finalized)).

Definition selectedTorrentOutputPaths (states : list torrentFileState) (finalized : gset Z) : list string :=
  map tf_Path (filter (fun s => pendingFile finalized s = true) states).

(** Zero-based positions of the pending files. *)
Definition selectedTorrentFileIndexesFromStates (states : list torrentFileState) (finalized : gset Z) : list Z :=
  map (fun p => Z.of_nat p.1) (filter (fun p => pendingFile finalized p.2 = true) (imap pair states)).

(** *** Live progress *)

Record fileSnapshot := mkSnapshot { sn_Released : bool; sn_VerifiedCompleted : Z }.

Definition verifiedTorrentFileProgress (snapshot : fileSnapshot) (length : Z) : Z :=
  let n := sn_VerifiedCompleted snapshot in
  if n <? 0 then 0 else if length <? n then length else n.

(** The per-file loop of [updateTorrentProgress]. *)
Fixpoint refreshFiles (files : list torrentFileState) (snapshots : list fileSnapshot) (finalized : gset Z)
    : list torrentFileState :=
  match files with
  | [] => []
  | s :: rest =>
      let n :=
        if bool_decide (tf_Index s ∈ finalized) then tf_Length s
        else match snapshots with
             | [] => tf_Completed s
             | sn :: _ => if sn_Released sn then tf_Length s else verifiedTorrentFileProgress sn (tf_Length s)
             end in
      (s <| tf_Completed := n |>) :: refreshFiles rest (tail snapshots) finalized
  end.

(** ** Trackers, web seeds, peer discovery, rate limits, identity *)

Definition maxDownloadURIs : Z := 64.
Definition maxTorrentWebSeeds : Z := maxDownloadURIs.

(** [appendUnique] over a list: [urls] are the kept ones, which are also [seen]. *)
Fixpoint mergeUnique (raws urls : list string) : result (list string) :=
  match raws with
  | [] => Ok urls
  | raw :: rest =>
      if bool_decide (raw ∈ urls) then mergeUnique rest urls
      else if maxTorrentWebSeeds <=? Z.of_nat (length urls) then
        Err (EText "too many torrent webseeds: maximum is 64")
      else mergeUnique rest (urls ++ [raw])
  end.

Definition mergeTorrentWebSeedURLs (embedded uris : list string) : result (list string) :=
  let! urls := mergeUnique embedded [] in mergeUnique uris urls.

Definition applyTorrentTrackerOptions (trackers : list (list string)) (opts : Options) : list (list string) :=
  let exclude := splitCSVOptions opts "bt-exclude-tracker" in
  let trackers :=
    match exclude with
    | [] => trackers
    | _ =>
        if bool_decide ("*" ∈ exclude) then []
        else filter (fun tier => tier <> []) (map (filter (fun t => t ∉ exclude)) trackers)
    end in
  match splitCSVOptions opts "bt-tracker" with
  | [] => trackers
  | added => trackers ++ [added]
  end.

Record peerDiscovery := mkDiscovery { pd_NoDHT : bool; pd_DisableTrackers : bool; pd_DisablePEX : bool }.

Definition torrentInfoPrivate (info : Info) : bool := match i_Private info with Some b => b | None => false end.

Definition applyTorrentPeerDiscoveryOptions (opts : Options) (privateTorrent : bool) : peerDiscovery :=
  mkDiscovery
    (optionBool opts "goaria-disable-dht" || (privateTorrent && negb (optionExplicit opts "goaria-disable-dht")))
    (optionBool opts "goaria-disable-trackers")
    (optionBool opts "goaria-disable-pex" || (privateTorrent && negb (optionExplicit opts "goaria-disable-pex"))).

(** The upload and download limits in bytes per second; [None] is no limiter. *)
Definition applyTorrentRateLimitOptions (opts : Options) : option Z * option Z :=
  let uploadLimit := optionBytes opts "max-upload-limit" 0 in
  let downloadLimit := optionBytes opts "max-download-limit" 0 in
  let overallLimit := optionBytes opts "max-overall-download-limit" 0 in
  let downloadLimit :=
    if (0 <? overallLimit) && ((downloadLimit <=? 0) || (overallLimit <? downloadLimit))
    then overallLimit else downloadLimit in
  (if 0 <? uploadLimit then Some uploadLimit else None,
   if 0 <? downloadLimit then Some downloadLimit else None).

Record clientIdentity := mkIdentity { ci_Bep20 : string; ci_HTTPUserAgent : string; ci_HandshakeVersion : string }.

Definition qBittorrentBep20Prefix : string := "-qB5200-".
Definition qBittorrentPeerVisibleVersion : string := "qBittorrent/5.2.0".

Definition override (value : string) (default : string) : string :=
  if String.eqb value "" then default else value.

Definition applyTorrentClientIdentityOptions (cfg : clientIdentity) (opts : Options) : result clientIdentity :=
  let profile := ToLower (TrimSpace (optionString opts "goaria-torrent-peer-profile")) in
  let profile := override profile "qbittorrent" in
  let! cfg :=
    if in_words profile ["qbittorrent"; "qbt"; "qbit"] then
      Ok (mkIdentity qBittorrentBep20Prefix qBittorrentPeerVisibleVersion qBittorrentPeerVisibleVersion)
    else if in_words profile ["native"; "anacrolix"; "goaria"] then
      Ok (mkIdentity (ci_Bep20 cfg) (override (optionString opts "user-agent") (ci_HTTPUserAgent cfg))
            (ci_HandshakeVersion cfg))
    else Err (EText ("invalid goaria-torrent-peer-profile " +:+ quoted profile)) in
  let prefix := optionString opts "goaria-torrent-bep20-prefix" in
  if negb (String.eqb prefix "") && (20 <? len prefix) then
    Err (EText ("goaria-torrent-bep20-prefix too long: " +:+ FormatInt (len prefix) +:+ " bytes"))
  else
    Ok (mkIdentity (override prefix (ci_Bep20 cfg))
          (override (optionString opts "goaria-torrent-user-agent") (ci_HTTPUserAgent cfg))
          (override (optionString opts "goaria-torrent-client-version") (ci_HandshakeVersion cfg))).

Definition defaultMaxTorrentSize : Z := 16777216.

Definition torrentSizeLimit (opts : Options) : Z :=
  let maxSize := optionBytes opts "goaria-max-torrent-size" defaultMaxTorrentSize in
  if maxSize <=? 0 then defaultMaxTorrentSize
  else if maxSupportedTorrentSize <? maxSize then maxSupportedTorrentSize
  else maxSize.

(** ** Vocabulary of the specification *)

(** The inclusive range a [select-file] item denotes. *)
Definition item_range (item : string) : option (Z * Z) :=
  let item := TrimSpace item in
  if String.eqb item "" then None
  else match Cut item "-" with
       | None => n ← Atoi (TrimSpace item); Some (n, n)
       | Some (first, last) =>
           a ← Atoi (TrimSpace first); b ← Atoi (TrimSpace last); Some (a, b)
       end.

(** The sum of a list, exact. *)
Definition sumZ (l : list Z) : Z := foldr Z.add 0 l.

(** The files of a torrent in the v1 view, with their lengths. *)
Definition v1Lengths (info : Info) : list Z :=
  match i_Files info with [] => [i_Length info] | files => map uf_Length files end.

(** A two-file torrent and a storage that puts every file below the directory by
    its display path, for the examples. *)
Definition sampleInfo : Info :=
  let files := [mkUpFile ["a.mkv"] 30 0 "" "a.mkv"; mkUpFile ["b.txt"] 12 30 "" "b.txt"] in
  mkInfo 16 60 42 files true false [] None files files "t" None true.

Definition sampleStorage : TorrentStorage := {|
  PlanFiles := fun dir pathMaker info _ =>
    Ok (mkPlan dir (imap (fun i f => mkPlanFile (Z.of_nat i) (JoinPath [dir; uf_DisplayPath f]) (uf_Length f))
                     (i_UpvertedFiles info)))
|}.

(** ** Lemmas: selection *)

Lemma selectItem_range (n : Z) (item : string) (ixs : list Z) :
  selectItem n item = Ok ixs <->
  exists a b, item_range item = Some (a, b) /\ 1 <= a <= b /\ b <= n /\ ixs = seqZ a (b - a + 1).
Proof.
  unfold selectItem, item_range. cbv zeta.
  destruct (String.eqb (TrimSpace item) ""); [naive_solver|].
  destruct (Cut (TrimSpace item) "-") as [[f l]|].
  - destruct (Atoi (TrimSpace f)) as [a|]; [|naive_solver].
    destruct (Atoi (TrimSpace l)) as [b|]; [|naive_solver]. simpl.
    destruct (Z.ltb_spec a 1), (Z.ltb_spec b a), (Z.ltb_spec n b); simpl; naive_solver lia.
  - destruct (Atoi (TrimSpace (TrimSpace item))) as [a|]; [|naive_solver]. simpl.
    destruct (Z.ltb_spec a 1), (Z.ltb_spec n a); simpl; try naive_solver lia.
    split.
    + intros [= <-]. exists a, a. replace (a - a + 1) with 1 by lia. split_and!; try done; lia.
    + intros (x & y & [= <- <-] & _ & _ & ->). by replace (a - a + 1) with 1 by lia.
Qed.

Lemma selectItems_spec (n : Z) (items : list string) (sel s : gset Z) :
  selectItems n items sel = Ok s <->
  Forall (fun item => exists a b, item_range item = Some (a, b) /\ 1 <= a <= b /\ b <= n) items
  /\ forall i, i ∈ s <-> i ∈ sel \/ exists item a b, item ∈ items /\ item_range item = Some (a, b) /\ a <= i <= b.
Proof.
  revert sel. induction items as [|item items IH]; intros sel; simpl.
  - split.
    + intros [= ->]. split; [constructor|]. intros i. set_solver.
    + intros [_ H]. f_equal. apply set_eq. intros i. rewrite H. set_solver.
  - split.
    + intros (ixs & Hi & H)%result_bind_ok. apply selectItem_range in Hi as (a & b & Hr & Hab & Hb & ->).
      apply IH in H as [Hf H]. split; [constructor; [by exists a, b|done]|].
      intros i. rewrite H, elem_of_union, elem_of_list_to_set, elem_of_seqZ. split.
      * intros [[?|?]|(it & x & y & Hit & Hxy & ?)]; [|by left|].
        -- right. exists item, a, b. split_and!; [set_solver|done|lia|lia].
        -- right. exists it, x, y. split_and!; [set_solver|done|lia|lia].
      * intros [?|(it & x & y & Hit & Hxy & ?)]; [by left; right|].
        apply elem_of_cons in Hit as [->|Hit]; [|right; by exists it, x, y].
        left. left. rewrite Hr in Hxy. simplify_eq. lia.
    + intros [Hf H]. inversion Hf as [|?? (a & b & Hr & Hab & Hb) Hf']; subst.
      apply result_bind_ok. exists (seqZ a (b - a + 1)). split; [apply selectItem_range; by exists a, b|].
      apply IH. split; [done|]. intros i. rewrite H, elem_of_union, elem_of_list_to_set, elem_of_seqZ. split.
      * intros [?|(it & x & y & Hit & Hxy & ?)]; [by left; right|].
        apply elem_of_cons in Hit as [->|Hit]; [|right; by exists it, x, y].
        left. left. rewrite Hr in Hxy. simplify_eq. lia.
      * intros [[?|?]|(it & x & y & Hit & Hxy & ?)]; [|by left|].
        -- right. exists item, a, b. split_and!; [set_solver|done|lia|lia].
        -- right. exists it, x, y. split_and!; [set_solver|done|lia|lia].
Qed.

Lemma selectedFileSet_range (n : Z) (spec : string) (s : gset Z) (i : Z) :
  selectedFileSet n spec = Ok s -> i ∈ s -> 1 <= i <= n.
Proof.
  unfold selectedFileSet. case_if.
  - intros [= <-] Hi. rewrite elem_of_list_to_set, elem_of_seqZ in Hi. lia.
  - intros [Hf H]%selectItems_spec Hi. apply H in Hi as [Hi|(it & a & b & Hit & Hr & Hab)]; [set_solver|].
    rewrite Forall_forall in Hf. apply Hf in Hit as (a' & b' & Hr' & ? & ?). rewrite Hr in Hr'. simplify_eq. lia.
Qed.

Lemma filterFiles_spec f sel indexOut (files : list upFile) (index : Z) (out : gset Z) (i : Z) :
  i ∈ filterFiles f sel indexOut files index out <->
  i ∈ out \/ (i ∈ sel /\ index <= i /\ exists fi, files !! Z.to_nat (i - index) = Some fi
                /\ matches f (filteredPath indexOut i fi) = true).
Proof.
  revert index out. induction files as [|fi files IH]; intros index out; simpl; [set_solver|].
  rewrite IH. clear IH. split.
  - intros [Hi|(Hs & Hle & fj & Hj & Hm)].
    + destruct (bool_decide (index ∈ sel) && _) eqn:E; [|by left].
      apply andb_true_iff in E as [E1%bool_decide_eq_true E2].
      apply elem_of_union in Hi as [->%elem_of_singleton|Hi]; [|by left]. right.
      split_and!; [done|lia|]. exists fi. by replace (Z.to_nat (index - index)) with 0%nat by lia.
    + right. split_and!; [done|lia|]. exists fj. split; [|done].
      by replace (Z.to_nat (i - index)) with (S (Z.to_nat (i - (index + 1)))) by lia.
  - intros [Hi|(Hs & Hle & fj & Hj & Hm)]; [left; case_if; set_solver|].
    destruct (decide (i = index)) as [->|Hne].
    + left. replace (Z.to_nat (index - index)) with 0%nat in Hj by lia. simpl in Hj. simplify_eq.
      rewrite bool_decide_true, Hm by done. set_solver.
    + right. split_and!; [done|lia|]. exists fj. split; [|done].
      replace (Z.to_nat (i - index)) with (S (Z.to_nat (i - (index + 1)))) in Hj by lia. done.
Qed.

Lemma applySelection_spec info sel indexOut opts s (i : Z) :
  applyTorrentExtensionSelection info sel indexOut opts = Ok s ->
  (forall j, j ∈ sel -> 1 <= j <= Z.of_nat (length (i_UpvertedFiles info))) ->
  exists f, parseTorrentExtensionFilters opts = Ok f /\
  (i ∈ s <-> i ∈ sel /\ exists fi, i_UpvertedFiles info !! Z.to_nat (i - 1) = Some fi
                /\ matches f (filteredPath indexOut i fi) = true).
Proof.
  unfold applyTorrentExtensionSelection. intros (f & Hf & H)%result_bind_ok Hr. exists f. split; [done|].
  destruct (bool_decide (include f = ∅) && bool_decide (exclude f = ∅)) eqn:E; simplify_eq.
  - apply andb_true_iff in E as [E1%bool_decide_eq_true E2%bool_decide_eq_true].
    split; [|by intros [? _]]. intros Hi. split; [done|]. apply Hr in Hi.
    destruct (lookup_lt_is_Some_2 (i_UpvertedFiles info) (Z.to_nat (i - 1))) as [fi Hfi]; [lia|].
    exists fi. split; [done|]. unfold matches. cbv zeta. rewrite E1, E2.
    by rewrite !bool_decide_false by (intros H; by apply H).
  - rewrite filterFiles_spec. split.
    + intros [?|(? & _ & ?)]; [set_solver|done].
    + intros [Hi (fi & ?)]. right. apply Hr in Hi as Hi'. split_and!; [done|lia|by exists fi].
Qed.

(** ** Lemmas: geometry *)

Lemma sumLengths_spec (files : list (list string * Z)) (total r : Z) :
  0 <= total <= max_int64 -> sumLengths files total = Ok r ->
  Forall (fun f => 0 <= f.2) files /\ r = total + sumZ (map snd files) /\ total <= r <= max_int64.
Proof.
  revert total. induction files as [|[p l] files IH]; intros total Ht H; simpl in *.
  - simplify_eq. split_and!; [constructor|lia..].
  - destruct (Z.ltb_spec l 0); [done|]. destruct (Z.ltb_spec (max_int64 - total) l); [done|].
    destruct (IH (total + l) ltac:(lia) H) as (Hf & -> & ?).
    split_and!; [by constructor|unfold sumZ in *; lia..].
Qed.

Lemma v1TorrentLength_spec (info : Info) (total : Z) :
  v1TorrentLength info = Ok total -> i_Length info <= max_int64 ->
  Forall (fun l => 0 <= l) (v1Lengths info) /\ total = sumZ (v1Lengths info) /\ 0 <= total <= max_int64.
Proof.
  unfold v1TorrentLength, v1Lengths. intros H Hl. destruct (Z.ltb_spec (i_Length info) 0); [done|].
  destruct (i_Files info) as [|f fs].
  - simplify_eq. split_and!; [by repeat constructor|simpl; lia..].
  - apply sumLengths_spec in H as (Hf & -> & ?); [|unfold max_int64; lia].
    rewrite List.Forall_map in Hf. rewrite List.map_map in *. rewrite Z.add_0_l in *.
    split_and!; [by apply List.Forall_map|done|lia..].
Qed.

Lemma v2Geometry_spec (tree : list leaf) (pl pieces padded n : Z) :
  0 < pl -> 0 <= pieces <= maxTorrentPieceCount -> padded = pieces * pl -> padded <= max_int64 ->
  v2Geometry tree pl pieces padded = Ok n ->
  Forall (fun f => 0 <= lf_Length f) tree
  /\ n = pieces + sumZ (map (fun f => ceilDivInt64 (lf_Length f) pl) tree)
  /\ pieces <= n <= maxTorrentPieceCount /\ n * pl <= max_int64.
Proof.
  intros Hpl. revert pieces padded. induction tree as [|f tree IH]; intros pieces padded Hp -> Hm H; simpl in H.
  - simplify_eq. split_and!; [constructor|simpl; lia..].
  - destruct (Z.ltb_spec (lf_Length f) 0); [done|]. cbv zeta in H.
    pose proof (ceilDiv_nonneg (lf_Length f) pl).
    destruct (Z.ltb_spec (maxTorrentPieceCount - pieces) (ceilDivInt64 (lf_Length f) pl)); [done|].
    destruct (Z.ltb_spec (max_int64 / pl) (ceilDivInt64 (lf_Length f) pl)); [done|].
    destruct (Z.ltb_spec (max_int64 - pieces * pl) (ceilDivInt64 (lf_Length f) pl * pl)); [done|].
    apply IH in H as (Hf & -> & ? & ?); [|lia..].
    split_and!; [by constructor|unfold sumZ; simpl; lia|lia..].
Qed.

Lemma isPowerOfTwo_spec (n : Z) : 0 < n -> isPowerOfTwo n = true -> n = 2 ^ Z.log2 n.
Proof.
  unfold isPowerOfTwo. intros Hn H. apply Z.eqb_eq in H.
  destruct (Z.log2_spec n Hn) as [H1 H2]. destruct (Z.eq_dec n (2 ^ Z.log2 n)) as [|Hne]; [done|].
  exfalso. assert (0 <= Z.log2 n) as Hl by apply Z.log2_nonneg.
  pose proof (Z.pow_pos_nonneg 2 (Z.log2 n) ltac:(lia) Hl).
  assert (Z.log2 (n - 1) = Z.log2 n) as E by (apply Z.log2_unique; lia).
  apply (f_equal (fun z => Z.testbit z (Z.log2 n))) in H.
  rewrite Z.land_spec, Z.testbit_0_l, Z.bit_log2 in H by lia.
  rewrite <- E in H at 1. rewrite Z.bit_log2 in H by lia. done.
Qed.

(** ** Lemmas: file states *)

Lemma planStates_spec {fs : FileSystem} (dir : string) (sel : gset Z) (files : list planFile) states :
  planStates dir sel files = Ok states ->
  Forall2 (fun file s =>
    s = mkFileState (pf_Index file + 1) (pf_StoragePath file) (pf_Length file) 0
          (bool_decide (pf_Index file + 1 ∈ sel))
    /\ exists key, outputPathReservationKey (tf_Path s) = Ok key /\ pathWithinDirectory dir key = true) files states.
Proof.
  revert states. induction files as [|file files IH]; intros states H; simpl in H; [by simplify_eq|].
  apply result_bind_ok in H as (key & Hk & H). destruct (pathWithinDirectory dir key) eqn:Hw; [|done].
  simpl in H. apply result_bind_ok in H as (out & Hout & H). simplify_eq.
  constructor; [|by apply IH]. split; [done|]. by exists key.
Qed.

(** Sums in [int64] are exact when they fit. *)
Lemma sumSelected_exact (f : torrentFileState -> Z) (files : list torrentFileState) :
  Forall (fun s => 0 <= f s) files ->
  sumZ (map f (filter (fun s => tf_Selected s = true) files)) <= max_int64 ->
  sumSelected f files = sumZ (map f (filter (fun s => tf_Selected s = true) files)).
Proof.
  intros Hf. unfold sumSelected.
  cut (forall t, 0 <= t -> t + sumZ (map f (filter (fun s => tf_Selected s = true) files)) <= max_int64 ->
    foldl (fun total s => if tf_Selected s then addInt64 total (f s) else total) t files
    = t + sumZ (map f (filter (fun s => tf_Selected s = true) files))).
  { intros H Hm. by rewrite H by lia. }
  induction Hf as [|s files Hs Hf IH]; intros t Ht Hm; simpl; [lia|].
  assert (forall l : list torrentFileState, Forall (fun s => 0 <= f s) l ->
    0 <= sumZ (map f (filter (fun s => tf_Selected s = true) l))) as Hpos.
  { clear. intros l Hl. induction Hl as [|x l Hx Hl IHl]; simpl; [lia|]. rewrite filter_cons.
    case_decide; simpl; lia. }
  specialize (Hpos files Hf). rewrite filter_cons in *. case_decide as Hsel.
  - rewrite Hsel. simpl in *. unfold addInt64. rewrite wrap64_id by (unfold in_int64, min_int64; lia).
    rewrite IH by lia. lia.
  - apply not_true_iff_false in Hsel. rewrite Hsel. by apply IH.
Qed.

Lemma byIndex_lookup (previous : list torrentFileState) (i : Z) (old : torrentFileState) :
  byIndex previous !! i = Some old -> old ∈ previous /\ tf_Index old = i.
Proof.
  unfold byIndex. intros H. apply elem_of_list_to_map_2 in H. apply list_elem_of_fmap in H as (s & [= -> ->] & Hs).
  split; [|done]. apply list_elem_of_In in Hs. apply list_elem_of_In. by apply in_rev.
Qed.

Lemma carryProgress_spec (prev : gmap Z torrentFileState) (fin : gset Z) (s : torrentFileState) :
  let s' := carryProgress prev fin s in
  tf_Index s' = tf_Index s /\ tf_Length s' = tf_Length s /\ tf_Selected s' = tf_Selected s
  /\ tf_Completed s' = (if bool_decide (tf_Index s ∈ fin) then tf_Length s
                        else match prev !! tf_Index s with
                             | Some old => Z.min (tf_Completed old) (tf_Length s)
                             | None => tf_Completed s
                             end)
  /\ tf_Path s' = (match prev !! tf_Index s with
                   | Some old => if bool_decide (tf_Index s ∈ fin) then tf_Path old else tf_Path s
                   | None => tf_Path s
                   end).
Proof.
  unfold carryProgress. destruct (prev !! tf_Index s) as [old|]; simpl;
    [destruct (bool_decide (tf_Index s ∈ fin)) eqn:E; simpl;
      (destruct (Z.ltb_spec (tf_Length s) (tf_Completed old)); simpl; rewrite E; simpl)
    |destruct (bool_decide (tf_Index s ∈ fin)) eqn:E; simpl];
    split_and!; try done; lia.
Qed.

(** ** Lemmas: web seeds *)

Lemma mergeUnique_spec (raws urls out : list string) :
  NoDup urls -> Z.of_nat (length urls) <= maxTorrentWebSeeds -> mergeUnique raws urls = Ok out ->
  NoDup out /\ (forall u, u ∈ out <-> u ∈ urls \/ u ∈ raws) /\ Z.of_nat (length out) <= maxTorrentWebSeeds
  /\ urls `prefix_of` out.
Proof.
  revert urls. induction raws as [|raw raws IH]; intros urls Hnd Hl H; simpl in H.
  - simplify_eq. split_and!; [done|set_solver|done|done].
  - case_bool_decide as Hin.
    + destruct (IH urls Hnd Hl H) as (H1 & H2 & H3 & H4). split_and!; [done|set_solver|done|done].
    + destruct (Z.leb_spec maxTorrentWebSeeds (Z.of_nat (length urls))); [done|].
      destruct (IH (urls ++ [raw])) as (H1 & H2 & H3 & H4); [by apply NoDup_snoc| |done|].
      { rewrite length_app. simpl. lia. }
      split_and!; [done|set_solver|done|]. by eapply prefix_app_l.
Qed.

Lemma mergeUnique_fails (raws urls : list string) e :
  NoDup urls -> Z.of_nat (length urls) <= maxTorrentWebSeeds -> mergeUnique raws urls = Err e ->
  maxTorrentWebSeeds < Z.of_nat (size (list_to_set (urls ++ raws) : gset string)).
Proof.
  revert urls. induction raws as [|raw raws IH]; intros urls Hnd Hl H; simpl in H; [done|].
  case_bool_decide as Hin.
  - replace (list_to_set (urls ++ raw :: raws) : gset string) with (list_to_set (urls ++ raws) : gset string);
      [by apply IH|]. rewrite !list_to_set_app_L. simpl. set_solver.
  - destruct (Z.leb_spec maxTorrentWebSeeds (Z.of_nat (length urls))).
    + assert (size (list_to_set (urls ++ [raw]) : gset string) = S (length urls)) as E.
      { rewrite size_list_to_set by (by apply NoDup_snoc). rewrite length_app. simpl. lia. }
      assert (size (list_to_set (urls ++ [raw]) : gset string) <= size (list_to_set (urls ++ raw :: raws) : gset string))%nat.
      { apply subseteq_size. rewrite !list_to_set_app_L. simpl. set_solver. }
      lia.
    + replace (urls ++ raw :: raws) with ((urls ++ [raw]) ++ raws) by (by rewrite <- app_assoc).
      apply IH; [by apply NoDup_snoc|rewrite length_app; simpl; lia|done].
Qed.

(** ** Properties *)

(** A [select-file] list selects exactly the files of its ranges, or all files
    when it is blank, and is accepted exactly when every item is a range inside
    the torrent; with the extension filters, the selected files are those among
    them whose path passes the filters. *)
Theorem torrent_selection_exact (info : Info) (opts : Options) (selected : gset Z) (indexOut : gmap Z string) (i : Z) :
  torrentSelectionAndIndexOut info opts = Ok (selected, indexOut) ->
  let n := Z.of_nat (length (i_UpvertedFiles info)) in
  let spec := optionString opts "select-file" in
  (forall j, j ∈ dom indexOut -> 1 <= j <= n)
  /\ exists f, parseTorrentExtensionFilters opts = Ok f
  /\ (i ∈ selected <->
       (if String.eqb (TrimSpace spec) "" then 1 <= i <= n
        else exists item a b, item ∈ Split spec "," /\ item_range item = Some (a, b) /\ a <= i <= b)
       /\ exists fi, i_UpvertedFiles info !! Z.to_nat (i - 1) = Some fi
            /\ matches f (filteredPath indexOut i fi) = true)
  /\ (forall item, String.eqb (TrimSpace spec) "" = false -> item ∈ Split spec "," ->
       exists a b, item_range item = Some (a, b) /\ 1 <= a <= b /\ b <= n).
Proof.
  unfold torrentSelectionAndIndexOut. intros (base & Hbase & H)%result_bind_ok. cbv zeta.
  apply result_bind_ok in H as (idx & _ & H).
  case_bool_decide as Hidx; [done|]. case_bool_decide as Hsel; [done|].
  apply result_bind_ok in H as (sel & Happ & H). simplify_eq.
  pose proof (fun j => selectedFileSet_range _ _ _ j Hbase) as Hr.
  destruct (applySelection_spec _ _ _ _ _ i Happ Hr) as (f & Hf & Hi).
  split; [|exists f; split; [done|]; split].
  - intros j Hj. destruct (decide (1 <= j <= Z.of_nat (length (i_UpvertedFiles info)))) as [|Hn]; [done|].
    destruct Hidx. by exists j.
  - rewrite Hi. f_equiv. unfold selectedFileSet in Hbase. destruct (String.eqb (TrimSpace _) "").
    + simplify_eq. rewrite elem_of_list_to_set, elem_of_seqZ. lia.
    + apply selectItems_spec in Hbase as [_ Hb]. rewrite Hb. set_solver.
  - intros item Hblank Hitem. unfold selectedFileSet in Hbase. rewrite Hblank in Hbase.
    apply selectItems_spec in Hbase as [Hb _]. rewrite Forall_forall in Hb. by apply Hb.
Qed.

Lemma torrent_selection_exact_witness :
  exists idx, torrentSelectionAndIndexOut sampleInfo
      (PlainOptions {["select-file" := VStr "1-2"; "goaria-select-file-ext" := VStr "MKV"]}) = Ok ({[1]}, idx)
  /\ (1 ∈ ({[1]} : gset Z) <->
        (exists item a b, item ∈ Split "1-2" "," /\ item_range item = Some (a, b) /\ a <= 1 <= b)
        /\ exists fi, i_UpvertedFiles sampleInfo !! 0%nat = Some fi
             /\ matches (mkFilters {[".mkv"]} ∅) (filteredPath idx 1 fi) = true).
Proof.
  exists ∅. split; [by vm_compute|].
  destruct (torrent_selection_exact sampleInfo
    (PlainOptions {["select-file" := VStr "1-2"; "goaria-select-file-ext" := VStr "MKV"]}) {[1]} ∅ 1)
    as (_ & f & Hf & Hi & _); [by vm_compute|].
  assert (Ok f = Ok (mkFilters {[".mkv"]} ∅)) as [= ->] by (rewrite <- Hf; by vm_compute).
  exact Hi.
Defined.

(** C9: metadata that passes validation has a piece length a peer can address, at
    most 2^20 pieces, and byte totals that fit [int64]: a v1 view has exactly the
    rounded-up number of pieces of its total length; a v2 view has a power-of-two
    piece length of at least 16 KiB and its file-aligned pieces span at most
    [max_int64] bytes; a hybrid has both with the same piece count. *)
Theorem validated_torrent_geometry (info : Info) :
  validateTorrentInfo info = Ok tt -> 0 <= i_PiecesLen info -> i_Length info <= max_int64 ->
  0 <= i_PieceLength info <= maxTorrentProtocolPieceLength
  /\ i_PiecesLen info mod HashSize = 0
  /\ Forall (fun l => 0 <= l) (v1Lengths info) /\ sumZ (v1Lengths info) <= max_int64
  /\ (i_HasV1 info = true -> 0 < i_PieceLength info ->
       i_PiecesLen info / HashSize = ceilDivInt64 (sumZ (v1Lengths info)) (i_PieceLength info)
       /\ i_PiecesLen info / HashSize <= maxTorrentPieceCount)
  /\ (i_HasV2 info = true ->
       16384 <= i_PieceLength info /\ i_PieceLength info = 2 ^ Z.log2 (i_PieceLength info)
       /\ exists n, torrentInfoPieceCount info = Ok n
         /\ n = sumZ (map (fun f => ceilDivInt64 (lf_Length f) (i_PieceLength info)) (i_FileTree info))
         /\ 0 <= n <= maxTorrentPieceCount /\ n * i_PieceLength info <= max_int64
         /\ (i_HasV1 info = true -> n = i_PiecesLen info / HashSize)).
Proof.
  unfold validateTorrentInfo. intros H Hpl Hlen.
  destruct (Z.eqb_spec (i_PiecesLen info mod HashSize) 0) as [Hmod|]; [|done]. simpl in H.
  apply result_bind_ok in H as (v1Total & Hv1 & H). apply v1TorrentLength_spec in Hv1 as (Hf & -> & Hv1); [|done].
  apply result_bind_ok in H as (total & _ & H).
  destruct (Z.leb_spec (i_PieceLength info) 0) as [Hle|Hgt].
  { destruct (Z.ltb_spec (i_PieceLength info) 0); [done|].
    destruct (i_HasV2 info) eqn:Hv2; [by rewrite orb_true_r in H|].
    unfold maxTorrentProtocolPieceLength. split_and!; try done; try lia. }
  destruct (Z.ltb_spec maxTorrentProtocolPieceLength (i_PieceLength info)); [done|].
  destruct (i_HasV2 info && _) eqn:Hv2bad; [done|]. apply result_bind_ok in H as ([] & Hpieces & H).
  split_and!; [lia|done|done|done|lia| |].
  - intros Hh _. rewrite Hh in Hpieces.
    destruct (Z.eqb_spec (ceilDivInt64 (sumZ (v1Lengths info)) (i_PieceLength info))
      (i_PiecesLen info / HashSize)) as [E|]; [|done]. simpl in Hpieces.
    destruct (Z.ltb_spec maxTorrentPieceCount (i_PiecesLen info / HashSize)); [done|]. split; [done|lia].
  - intros Hv2. rewrite Hv2 in Hv2bad, H. simpl in Hv2bad. apply orb_false_iff in Hv2bad as [H16 Hpow].
    apply Z.ltb_ge in H16. apply negb_false_iff in Hpow. split; [lia|]. split; [by apply isPowerOfTwo_spec|].
    apply result_bind_ok in H as (n & Hn & H). exists n. split; [done|].
    unfold torrentInfoPieceCount, validateV2TorrentGeometry in Hn. rewrite Hv2 in Hn.
    destruct (Z.leb_spec (i_PieceLength info) 0); [done|].
    apply v2Geometry_spec in Hn as (_ & -> & Hn & Hspan); [|done|unfold maxTorrentPieceCount; lia|lia|unfold max_int64; lia].
    split_and!; [lia|lia|lia|done|]. intros Hh. rewrite Hh in H.
    destruct (Z.eqb_spec (i_PiecesLen info / HashSize)
      (0 + sumZ (map (fun f => ceilDivInt64 (lf_Length f) (i_PieceLength info)) (i_FileTree info)))); [done|done].
Qed.

Lemma validated_torrent_geometry_witness :
  validateTorrentInfo sampleInfo = Ok tt /\ i_PiecesLen sampleInfo / HashSize = 3
  /\ sumZ (v1Lengths sampleInfo) <= max_int64.
Proof.
  split; [by vm_compute|]. split; [by vm_compute|].
  apply (validated_torrent_geometry sampleInfo); by vm_compute.
Defined.



(** When the options of a torrent change, its files are those of a fresh layout
    with the progress of the previous state: a finalized file is complete and keeps
    its old path, another file keeps its completed bytes up to its length, and the
    totals are the exact sums over the selected files, completed never above total. *)
Theorem rebuild_preserves_progress {fs : FileSystem} {storage : TorrentStorage}
    (info : Info) (opts : Options) (dir : string) (previous next : list torrentFileState)
    (finalized : gset Z) (total completed : Z) :
  rebuildTorrentFileStatesPreservingProgress info opts dir previous finalized = Ok (next, total, completed) ->
  Forall (fun s => 0 <= tf_Completed s) previous -> Forall (fun s => 0 <= tf_Length s) next ->
  let selected := filter (fun s => tf_Selected s = true) next in
  sumZ (map tf_Length selected) <= max_int64 ->
  (exists fresh, torrentFileStates info zeroInfoHash opts dir = Ok fresh
     /\ next = map (carryProgress (byIndex previous) finalized) fresh)
  /\ Forall (fun s => 0 <= tf_Completed s <= tf_Length s
       /\ (tf_Index s ∈ finalized -> tf_Completed s = tf_Length s
            /\ forall old, byIndex previous !! tf_Index s = Some old -> tf_Path s = tf_Path old)
       /\ (tf_Index s ∉ finalized -> forall old, byIndex previous !! tf_Index s = Some old ->
            tf_Completed s = Z.min (tf_Completed old) (tf_Length s))) next
  /\ total = sumZ (map tf_Length selected) /\ completed = sumZ (map tf_Completed selected)
  /\ completed <= total.
Proof.
  unfold rebuildTorrentFileStatesPreservingProgress. intros (fresh & Hfresh & H)%result_bind_ok Hprev Hlen.
  injection H as Hnext Htotal Hcompleted. cbv zeta. intros Hmax.
  assert (Forall (fun s => tf_Completed s = 0) fresh) as Hzero.
  { unfold torrentFileStates in Hfresh. apply result_bind_ok in Hfresh as (sel & _ & H).
    apply result_bind_ok in H as (plan & _ & H). apply result_bind_ok in H as (cdir & _ & H).
    apply planStates_spec in H. clear -H. by induction H as [|f s fs' ss [-> _] _ IH]; constructor. }
  assert (Forall (fun s => 0 <= tf_Completed s <= tf_Length s
       /\ (tf_Index s ∈ finalized -> tf_Completed s = tf_Length s
            /\ forall old, byIndex previous !! tf_Index s = Some old -> tf_Path s = tf_Path old)
       /\ (tf_Index s ∉ finalized -> forall old, byIndex previous !! tf_Index s = Some old ->
            tf_Completed s = Z.min (tf_Completed old) (tf_Length s))) next) as Hf.
  { subst next. apply List.Forall_map. rewrite List.Forall_map in Hlen.
    apply Forall_forall. intros s Hs. rewrite Forall_forall in Hzero, Hlen.
    specialize (Hzero s Hs). specialize (Hlen s Hs).
    destruct (carryProgress_spec (byIndex previous) finalized s) as (Hi & Hl & _ & Hc & Hp).
    rewrite Hi, Hl, Hc, Hp in *. split_and!.
    - case_bool_decide; [lia|]. destruct (byIndex previous !! tf_Index s) as [old|] eqn:Hold; [|lia].
      apply byIndex_lookup in Hold as [Hin _]. rewrite Forall_forall in Hprev. specialize (Hprev _ Hin). lia.
    - case_bool_decide; [lia|]. destruct (byIndex previous !! tf_Index s) as [old|]; lia.
    - intros Hfin. rewrite bool_decide_true by done. split; [done|]. intros old Hold. by rewrite Hold.
    - intros Hfin old Hold. rewrite bool_decide_false by done. by rewrite Hold. }
  assert (forall l, Forall (fun s => 0 <= tf_Completed s <= tf_Length s) l ->
    0 <= sumZ (map tf_Completed l) <= sumZ (map tf_Length l)) as Hsum.
  { clear. intros l Hl. induction Hl; simpl; lia. }
  assert (Forall (fun s => 0 <= tf_Completed s <= tf_Length s) (filter (fun s => tf_Selected s = true) next)) as Hsel.
  { apply Forall_forall. intros s [_ Hs]%list_elem_of_filter. rewrite Forall_forall in Hf. by apply Hf. }
  specialize (Hsum _ Hsel).
  assert (total = sumZ (map tf_Length (filter (fun s => tf_Selected s = true) next))) as ->.
  { rewrite <- Htotal, Hnext. by apply sumSelected_exact. }
  assert (completed = sumZ (map tf_Completed (filter (fun s => tf_Selected s = true) next))) as ->.
  { rewrite <- Hcompleted, Hnext. apply sumSelected_exact; [|lia].
    eapply Forall_impl; [exact Hf|]. intros s (? & _). lia. }
  split; [by exists fresh|]. split_and!; [done|done|done|lia].
Qed.

Lemma rebuild_preserves_progress_witness :
  sumSelected tf_Completed [mkFileState 1 "/d/a.mkv" 30 30 true; mkFileState 2 "/d/b.txt" 12 5 true]
  <= sumSelected tf_Length [mkFileState 1 "/d/a.mkv" 30 30 true; mkFileState 2 "/d/b.txt" 12 5 true].
Proof.
  destruct (@rebuild_preserves_progress plainFS sampleStorage sampleInfo noOptions "/d"
    [mkFileState 1 "/d/a.mkv" 30 7 true; mkFileState 2 "/x/b.txt" 12 5 true]
    [mkFileState 1 "/d/a.mkv" 30 30 true; mkFileState 2 "/d/b.txt" 12 5 true] {[1]} 42 35) as (_ & _ & Ht & Hc & Hle).
  - by vm_compute.
  - by repeat constructor.
  - by repeat constructor.
  - by vm_compute.
  - by vm_compute.
Defined.

(** Merging the web seeds of a torrent with the user's keeps each URL once, in
    order of first appearance with the embedded ones first, and fails exactly when
    there are more than 64 distinct ones. *)
Theorem merge_webseeds_exact (embedded uris : list string) :
  match mergeTorrentWebSeedURLs embedded uris with
  | Ok urls => NoDup urls /\ (forall u, u ∈ urls <-> u ∈ embedded \/ u ∈ uris)
      /\ Z.of_nat (length urls) <= maxTorrentWebSeeds
      /\ exists urls1, mergeUnique embedded [] = Ok urls1 /\ urls1 `prefix_of` urls
           /\ forall u, u ∈ urls1 <-> u ∈ embedded
  | Err _ => maxTorrentWebSeeds < Z.of_nat (size (list_to_set (embedded ++ uris) : gset string))
  end.
Proof.
  unfold mergeTorrentWebSeedURLs. destruct (mergeUnique embedded []) as [urls1|e] eqn:H1; simpl.
  - apply mergeUnique_spec in H1 as H; [|constructor|unfold maxTorrentWebSeeds, maxDownloadURIs; simpl; lia].
    destruct H as (Hnd & Hin & Hlen & _). destruct (mergeUnique uris urls1) as [urls|e] eqn:H2.
    + destruct (mergeUnique_spec _ _ _ Hnd Hlen H2) as (Hnd' & Hin' & Hlen' & Hpre). split_and!; [done|set_solver|done|].
      exists urls1. split_and!; [done|done|set_solver].
    + apply mergeUnique_fails in H2; [|done|done]. eapply Z.lt_le_trans; [exact H2|]. apply Nat2Z.inj_le.
      apply subseteq_size. set_solver.
  - apply mergeUnique_fails in H1; [|constructor|unfold maxTorrentWebSeeds, maxDownloadURIs; simpl; lia].
    eapply Z.lt_le_trans; [exact H1|]. apply Nat2Z.inj_le. apply subseteq_size. set_solver.
Qed.
