(* ===== verification/Queue.v ===== *)
(** * The waiting queue, the stopped list and gid lookup

    The pure list functions of [engine.go] and [engine_scheduler.go]: insertion at
    a position, moving an item, pruning stopped results, gids and gid prefixes. *)
From S2P Require Import Prelude GoStrings Options Pieces GoURL.

(** ** Positions *)

(** [append; copy(l[pos+1:], l[pos:]); l[pos] = x] *)
Definition insertAt {A} (pos : nat) (x : A) (l : list A) : list A := take pos l ++ x :: drop pos l.

Definition insertWaiting (gid : string) (position : option Z) (waiting : list string) : list string :=
  match position with
  | None => waiting ++ [gid]
  | Some pos =>
      if Z.of_nat (length waiting) <=? pos then waiting ++ [gid]
      else insertAt (Z.to_nat (if pos <? 0 then 0 else pos)) gid waiting
  end.

Definition clampedQueuePosition (base delta maximum : Z) : Z :=
  let base := if base <? 0 then 0 else base in
  if 0 <=? delta then
    if (maximum <=? base) || (maximum - base <? delta) then maximum else base + delta
  else if delta <? - base then 0
  else let position := base + delta in
       if maximum <? position then maximum else position.

(** [slices.Index] *)
Definition index_of (x : string) (l : list string) : option nat := fst <$> list_find (fun y => y = x) l.

(** The moved queue and the new position, once [gid] is known to be at [idx]. *)
Definition moveTo (gid : string) (idx : nat) (pos : Z) (how : string) (waiting : list string)
    : option (list string * Z) :=
  if negb (in_words how ["POS_SET"; "POS_CUR"; "POS_END"]) then None
  else
    let waiting := take idx waiting ++ drop (S idx) waiting in
    let n := Z.of_nat (length waiting) in
    let dst := if String.eqb how "POS_SET" then pos
               else if String.eqb how "POS_CUR" then clampedQueuePosition (Z.of_nat idx) pos n
               else clampedQueuePosition (n + 1) pos n in
    let dst := if dst <? 0 then 0 else dst in
    let dst := if n <? dst then n else dst in
    Some (insertAt (Z.to_nat dst) gid waiting, dst).

(** [slices.DeleteFunc(l, func(x) x == gid)] *)
Definition deleteGid (gid : string) (l : list string) : list string := filter (fun g => g <> gid) l.

(** ** Gids *)

Definition validGID (gid : string) : bool :=
  (len gid =? 16) && forall_byte (fun a => isSome (hexval a)) gid.

(** ** Pruning: the kept gids and the dropped ones, in order *)
Fixpoint pruneList (isProtected : string -> bool) (stopped : list string) (excess : Z)
    : list string * list string :=
  match stopped with
  | [] => ([], [])
  | gid :: rest =>
      if (0 <? excess) && negb (isProtected gid) then
        let '(kept, dropped) := pruneList isProtected rest (excess - 1) in (kept, gid :: dropped)
      else
        let '(kept, dropped) := pruneList isProtected rest excess in (gid :: kept, dropped)
  end.

Definition prunable (isProtected : string -> bool) (stopped : list string) : list string :=
  filter (fun g => isProtected g = false) stopped.

(** ** Lemmas *)

Lemma insertAt_Permutation {A} (pos : nat) (x : A) (l : list A) : insertAt pos x l ≡ₚ x :: l.
Proof.
  unfold insertAt. rewrite <- (take_drop pos l) at 3. by rewrite Permutation_middle.
Qed.

Lemma insertAt_lookup {A} (pos : nat) (x : A) (l : list A) : (pos <= length l)%nat -> insertAt pos x l !! pos = Some x.
Proof. intros H. unfold insertAt. rewrite lookup_app_r; rewrite length_take_le by done; [|done]. by rewrite Nat.sub_diag. Qed.

Lemma insertAt_remove {A} `{EqDecision A} (pos : nat) (x : A) (l : list A) :
  x ∉ l -> filter (fun y => y <> x) (insertAt pos x l) = l.
Proof.
  intros Hx. unfold insertAt. rewrite filter_app, filter_cons_False by (intros H; by apply H).
  rewrite !filter_id; [apply take_drop| |]; apply Forall_forall; intros y Hy ->; apply Hx.
  - rewrite <- (take_drop pos l). apply elem_of_app. by right.
  - rewrite <- (take_drop pos l). apply elem_of_app. by left.
Qed.

Lemma insertWaiting_Permutation (gid : string) (position : option Z) (waiting : list string) :
  insertWaiting gid position waiting ≡ₚ gid :: waiting.
Proof.
  unfold insertWaiting. destruct position as [p|]; [case_if|]; try apply insertAt_Permutation;
    by rewrite Permutation_app_comm.
Qed.

Lemma clampedQueuePosition_spec (base delta maximum : Z) :
  0 <= maximum -> clampedQueuePosition base delta maximum = Z.max 0 (Z.min maximum (Z.max 0 base + delta)).
Proof.
  intros Hm. unfold clampedQueuePosition. cbv zeta.
  destruct (Z.ltb_spec base 0), (Z.leb_spec 0 delta); try lia;
    repeat match goal with |- context [if ?b then _ else _] => destruct b eqn:? end;
    repeat match goal with
    | H : (_ || _) = true |- _ => apply orb_true_iff in H as [?|?]
    end; zbool; lia.
Qed.

Lemma index_of_Some (x : string) (l : list string) (i : nat) : index_of x l = Some i -> l !! i = Some x.
Proof.
  unfold index_of. destruct (list_find _ l) as [[j y]|] eqn:E; [|done]. intros [= <-].
  apply list_find_Some in E as (Hj & -> & _). done.
Qed.

Lemma index_of_None (x : string) (l : list string) : index_of x l = None <-> x ∉ l.
Proof.
  unfold index_of. destruct (list_find _ l) as [[j y]|] eqn:E; simpl.
  - apply list_find_Some in E as (Hj & -> & _). split; [done|]. intros H. destruct H. by eapply list_elem_of_lookup_2.
  - apply list_find_None in E. rewrite Forall_forall in E. split; [|done]. intros _ Hx. by apply (E x).
Qed.

(** Removing the item at [idx] from a duplicate-free queue removes the item. *)
Lemma remove_at (x : string) (l : list string) (idx : nat) :
  NoDup l -> l !! idx = Some x -> take idx l ++ drop (S idx) l = deleteGid x l.
Proof.
  intros Hnd Hl. unfold deleteGid.
  rewrite <- (take_drop_middle l idx x Hl) in Hnd.
  assert (l = take idx l ++ x :: drop (S idx) l) as E by (by rewrite take_drop_middle).
  rewrite E at 3. apply NoDup_app in Hnd as (H1 & H2 & H3). apply NoDup_cons in H3 as [H3 _].
  rewrite filter_app, filter_cons_False by (intros H; by apply H).
  rewrite !filter_id; [done| |]; apply Forall_forall; intros y Hy ->; [done|].
  apply (H2 x Hy). by left.
Qed.

Lemma elem_of_deleteGid (x g : string) (l : list string) : g ∈ deleteGid x l <-> g <> x /\ g ∈ l.
Proof. unfold deleteGid. by rewrite list_elem_of_filter. Qed.

Lemma deleteGid_NoDup (x : string) (l : list string) : NoDup l -> NoDup (deleteGid x l).
Proof. apply NoDup_filter. Qed.

Lemma deleteGid_notin (x : string) (l : list string) : x ∉ deleteGid x l.
Proof. rewrite elem_of_deleteGid. tauto. Qed.

Lemma deleteGid_absent (x : string) (l : list string) : x ∉ l -> deleteGid x l = l.
Proof. intros Hx. unfold deleteGid. apply filter_id, Forall_forall. by intros y Hy ->. Qed.

(** Taking the first items out of a duplicate-free list drops them. *)
Lemma filter_notin_take (k : nat) (l : list string) : NoDup l -> filter (fun x => x ∉ take k l) l = drop k l.
Proof.
  intros Hnd. assert (l = take k l ++ drop k l) as E by (by rewrite take_drop). rewrite E in Hnd.
  apply NoDup_app in Hnd as (_ & H & _).
  transitivity (filter (fun x => x ∉ take k l) (take k l ++ drop k l)); [by rewrite take_drop|].
  rewrite filter_app, filter_none, filter_id; [done| |].
  - apply Forall_forall. intros x Hx Hin. by apply (H x).
  - apply Forall_forall. intros x Hx Hn. done.
Qed.

#[export] Hint Resolve deleteGid_NoDup deleteGid_notin : goaria.

Lemma moveTo_spec (gid how : string) (idx : nat) (pos dst : Z) (waiting waiting' : list string) :
  NoDup waiting -> waiting !! idx = Some gid -> moveTo gid idx pos how waiting = Some (waiting', dst) ->
  let others := deleteGid gid waiting in
  let n := Z.of_nat (length others) in
  let target := if String.eqb how "POS_SET" then pos
                else if String.eqb how "POS_CUR" then Z.of_nat idx + pos else n + 1 + pos in
  dst = Z.max 0 (Z.min n (if String.eqb how "POS_END" && (pos <? 0) then Z.max 0 target else target))
  /\ waiting' = insertAt (Z.to_nat dst) gid others.
Proof.
  intros Hnd Hidx H. unfold moveTo in H. destruct (negb _); [done|]. cbv zeta in H. simplify_eq.
  rewrite (remove_at gid) by done. cbv zeta. split; [|done].
  set (n := Z.of_nat (length (deleteGid gid waiting))). assert (0 <= n) by lia.
  rewrite !clampedQueuePosition_spec by done.
  destruct (String.eqb_spec how "POS_SET") as [->|]; simpl.
  { destruct (Z.ltb_spec pos 0); [destruct (Z.ltb_spec n 0); lia|]. destruct (Z.ltb_spec n pos); lia. }
  destruct (String.eqb_spec how "POS_CUR") as [->|]; simpl.
  { destruct (Z.ltb_spec (Z.max 0 (Z.min n (Z.max 0 (Z.of_nat idx) + pos))) 0); [lia|].
    destruct (Z.ltb_spec n (Z.max 0 (Z.min n (Z.max 0 (Z.of_nat idx) + pos)))); lia. }
  destruct (Z.ltb_spec (Z.max 0 (Z.min n (Z.max 0 (n + 1) + pos))) 0); [lia|].
  destruct (Z.ltb_spec n (Z.max 0 (Z.min n (Z.max 0 (n + 1) + pos)))); [lia|].
  case_if; lia.
Qed.

Lemma pruneList_dropped (prot : string -> bool) (stopped : list string) (excess : Z) :
  (pruneList prot stopped excess).2 = take (Z.to_nat excess) (prunable prot stopped).
Proof.
  revert excess. induction stopped as [|g rest IH]; intros excess; simpl; [by destruct (Z.to_nat excess)|].
  unfold prunable. rewrite filter_cons. fold (prunable prot rest). destruct (prot g) eqn:Hp.
  - rewrite andb_false_r, decide_False by done. specialize (IH excess).
    by destruct (pruneList prot rest excess).
  - rewrite decide_True by done. rewrite andb_true_r. destruct (Z.ltb_spec 0 excess).
    + specialize (IH (excess - 1)). destruct (pruneList prot rest (excess - 1)). simpl in *.
      replace (Z.to_nat excess) with (S (Z.to_nat (excess - 1))) by lia. simpl. by rewrite IH.
    + specialize (IH excess). destruct (pruneList prot rest excess). simpl in *.
      replace (Z.to_nat excess) with 0%nat in * by lia. by rewrite IH, !take_0.
Qed.

Lemma prunable_subset (prot : string -> bool) (stopped : list string) (n : nat) (g : string) :
  g ∈ take n (prunable prot stopped) -> g ∈ stopped /\ prot g = false.
Proof.
  intros (i & Hi & _)%elem_of_take. apply list_elem_of_lookup_2 in Hi.
  by apply list_elem_of_filter in Hi as [? ?].
Qed.

Lemma pruneList_kept (prot : string -> bool) (stopped : list string) (excess : Z) :
  NoDup stopped ->
  (pruneList prot stopped excess).1 = filter (fun g => g ∉ (pruneList prot stopped excess).2) stopped.
Proof.
  revert excess. induction stopped as [|g rest IH]; intros excess Hnd; simpl; [done|].
  apply NoDup_cons in Hnd as [Hg Hnd].
  pose proof (pruneList_dropped prot rest) as Hd.
  destruct ((0 <? excess) && negb (prot g)).
  - specialize (IH (excess - 1) Hnd). destruct (pruneList prot rest (excess - 1)) as [kept dropped]. simpl in *.
    rewrite filter_cons_False by set_solver. rewrite IH. apply list_filter_iff'. intros x Hx.
    assert (x <> g) by (by intros ->). set_solver.
  - specialize (IH excess Hnd). specialize (Hd excess).
    destruct (pruneList prot rest excess) as [kept dropped]. simpl in *.
    rewrite filter_cons_True; [by rewrite IH|]. rewrite Hd. intros [Hin _]%prunable_subset. done.
Qed.
