(* ===== verification/State.v ===== *)
(** * The state of the engine ([engine.go], [types.go])

    The records of a download and of the engine with the source's fields.  The
    downloads live in a heap, because a download removed from the engine's map can
    still be referenced by the goroutine that runs it; the map holds locations. *)
From S2P Require Import Prelude GoStrings Options Reservations Torrent.

Inductive Status :=
| StatusActive | StatusWaiting | StatusPaused | StatusError | StatusComplete | StatusRemoved.
#[export] Instance Status_eq_dec : EqDecision Status.
Proof. solve_decision. Defined.

Definition statusText (s : Status) : string :=
  match s with
  | StatusActive => "active"
  | StatusWaiting => "waiting"
  | StatusPaused => "paused"
  | StatusError => "error"
  | StatusComplete => "complete"
  | StatusRemoved => "removed"
  end.

Definition isTerminal (s : Status) : bool :=
  match s with StatusComplete | StatusError | StatusRemoved => true | _ => false end.

Inductive URIStatus := URIStatusUsed | URIStatusWaiting.
#[export] Instance URIStatus_eq_dec : EqDecision URIStatus.
Proof. solve_decision. Defined.

Record URIInfo := mkURI { URI : string; uriStatus : URIStatus }.
#[export] Instance URIInfo_eq_dec : EqDecision URIInfo.
Proof. solve_decision. Defined.

Inductive downloadKind := downloadKindURI | downloadKindTorrent.
#[export] Instance downloadKind_eq_dec : EqDecision downloadKind.
Proof. solve_decision. Defined.

Record BittorrentInfo := mkBt {
  bt_AnnounceList : list (list string); bt_Comment : string; bt_CreationDate : Z;
  bt_Mode : string; bt_Name : string
}.

(** A live torrent of the library, seen through its [Metainfo]: [None] without
    metadata, otherwise the result of unmarshalling it. *)
Record torrentRuntime := mkRuntime { rt_Metainfo : option (result Info) }.

(** A context is its number; [cancel] closures are the context they cancel. *)
Abbreviation context := positive.

Record Download := mkDownload {
  d_kind : downloadKind;
  d_gid : string;
  d_uris : list URIInfo;
  d_options : Options;
  d_status : Status;
  d_dir : string;
  d_out : string;
  d_path : string;
  d_currentURI : string;
  d_totalLength : Z;
  d_completedLen : Z;
  d_downloadBPS : Z;
  d_connections : Z;
  d_pieceLength : Z;
  d_numPieces : Z;
  d_donePieces : Z;
  d_bitfield : string;
  d_infoHash : string;
  d_numSeeders : Z;
  d_seeder : bool;
  d_bittorrent : option BittorrentInfo;
  d_torrent : option torrentRuntime;
  d_torrentFiles : list torrentFileState;
  d_torrentFinalized : gset Z;
  d_torrentData : string;
  d_torrentMagnet : string;
  d_errorCode : string;
  d_errorMessage : string;
  d_createdAt : Z;
  d_stoppedAt : option Z;
  d_ctx : option context;
  d_cancel : option context;
  d_pathResetAfterRun : option context;
  d_retainReservationsAfterRun : option context;
  d_reservationTransitionAfterRun : option context;
  d_reservationPathsAfterRun : list string
}.

#[global] Instance eta_Download : Eta Download := fun d =>
  mkDownload (d_kind d) (d_gid d) (d_uris d) (d_options d) (d_status d) (d_dir d) (d_out d) (d_path d)
    (d_currentURI d) (d_totalLength d) (d_completedLen d) (d_downloadBPS d) (d_connections d)
    (d_pieceLength d) (d_numPieces d) (d_donePieces d) (d_bitfield d) (d_infoHash d) (d_numSeeders d)
    (d_seeder d) (d_bittorrent d) (d_torrent d) (d_torrentFiles d) (d_torrentFinalized d) (d_torrentData d)
    (d_torrentMagnet d) (d_errorCode d) (d_errorMessage d) (d_createdAt d) (d_stoppedAt d) (d_ctx d)
    (d_cancel d) (d_pathResetAfterRun d) (d_retainReservationsAfterRun d)
    (d_reservationTransitionAfterRun d) (d_reservationPathsAfterRun d).

(** The zero [Download] of a kind. *)
Definition zeroDownload (kind : downloadKind) (gid : string) (opts : Options) (now : Z) : Download :=
  mkDownload kind gid [] opts StatusWaiting "" "" "" "" 0 0 0 0 0 0 0 "" "" 0 false None None [] ∅ "" "" "" ""
    now None None None None None None [].

(** What the engine tells the outside, in order: notifications to subscribers and
    best-effort session saves. *)
Inductive event :=
| Notify (method gid : string)
| SaveSession
| QueueSessionSave.

Abbreviation loc := positive.

Record Engine := mkEngine {
  e_cfgMaxConcurrentDownloads : Z;
  e_cfgMaxDownloadResult : Z;
  e_ctxErr : bool;                        (* e.ctx is cancelled *)
  e_heap : gmap loc Download;
  e_downloads : gmap string loc;
  e_waiting : list string;
  e_active : gset string;
  e_stopped : list string;
  e_stoppedSet : gset string;
  e_stoppedTotal : Z;
  e_global : Options;
  e_wake : bool;                          (* the wake channel holds a token *)
  e_shutdownReq : option bool;            (* the shutdown channel's element *)
  e_paths : Paths;
  e_cancelled : gset context;
  e_nextCtx : context;
  e_events : list event
}.

#[global] Instance eta_Engine : Eta Engine := fun e =>
  mkEngine (e_cfgMaxConcurrentDownloads e) (e_cfgMaxDownloadResult e) (e_ctxErr e) (e_heap e)
    (e_downloads e) (e_waiting e) (e_active e) (e_stopped e) (e_stoppedSet e) (e_stoppedTotal e)
    (e_global e) (e_wake e) (e_shutdownReq e) (e_paths e) (e_cancelled e) (e_nextCtx e) (e_events e).

(** ** Small effects shared by the operations *)

Definition emit (ev : event) (e : Engine) : Engine := e <| e_events ::= fun l => l ++ [ev] |>.
Definition notify (method gid : string) : Engine -> Engine := emit (Notify method gid).
Definition saveSessionBestEffort : Engine -> Engine := emit SaveSession.
Definition signal (e : Engine) : Engine := e <| e_wake := true |>.

(** Calling a [cancel] closure that may be nil. *)
Definition callCancel (cancel : option context) (e : Engine) : Engine :=
  match cancel with
  | Some c => e <| e_cancelled ::= fun s => {[c]} ∪ s |>
  | None => e
  end.

Definition store (l : loc) (d : Download) (e : Engine) : Engine := e <| e_heap ::= <[l := d]> |>.

(** [e.downloads[gid]] *)
Definition lookupDownload (gid : string) (e : Engine) : option (loc * Download) :=
  match e_downloads e !! gid with
  | Some l => match e_heap e !! l with Some d => Some (l, d) | None => None end
  | None => None
  end.

(** ** The torrent library's parsers *)

Record MetaInfo := mkMetaInfo {
  mi_UrlList : list string;
  mi_PieceLayers : gmap string string;
  mi_UpvertedAnnounceList : list (list string);
  mi_Comment : string;
  mi_CreationDate : Z;
  mi_HashInfoBytes : string;      (* hexadecimal v1 info hash *)
  mi_ShortV2Hash : string         (* hexadecimal short v2 info hash *)
}.

Record MagnetSpec := mkSpec {
  ms_DisplayName : string;
  ms_Webseeds : list string;
  ms_InfoHash : option string;    (* a non-zero v1 hash *)
  ms_InfoHashV2Short : option string
}.

Class TorrentLib := {
  ParseMetaInfoBytes : string -> result (MetaInfo * Info);
  TorrentSpecFromMagnetUri : string -> result MagnetSpec;
  NamedInfo : string -> Info;     (* the observations of metainfo.Info{Name: name} *)
  CompactLayerToSliceHashes : string -> result (list string);
  RootWithPadHash : list string -> string -> string;
  Sum256 : string -> string
}.

(** ** Error texts *)

Fixpoint errorText (e : error) : string :=
  match e with
  | EText msg => msg
  | EWrap msg e' => msg +:+ ": " +:+ errorText e'
  | EJoin e1 e2 => errorText e1 +:+ String (ascii_of_N 10) (errorText e2)
  | ErrNotFound => "download not found"
  | ErrInvalidGID => "invalid gid"
  | ErrInvalidParams => "invalid params"
  | ErrUnsupportedProtocol => "only http and https downloads are supported"
  | ErrUnsupportedMethod => "method is unsupported for http/https-only mode"
  | ErrShutdown => "engine is shutting down"
  | ECanceled => "context canceled"
  | EDeadlineExceeded => "context deadline exceeded"
  | EServerClosed => "http: Server closed"
  | EEOF => "EOF"
  | EUnexpectedEOF => "unexpected EOF"
  | EShortWrite => "short write"
  | ENotExist => "file does not exist"
  | EExist => "file already exists"
  | EURL op url e' => op +:+ " " +:+ quoted url +:+ ": " +:+ errorText e'
  | ENet msg => msg
  | EHTTPProtocol msg => msg
  | EHTTPStatus method url _ text => method +:+ " " +:+ url +:+ ": " +:+ text
  | ERangeBody e' _ => errorText e'
  | ETorrentSize max => "torrent data exceeds goaria-max-torrent-size " +:+ FormatInt max
  | ECall _ msg => msg
  end.
