(* ===== verification/Engine.v ===== *)
(** * The engine's operations ([engine.go], [engine_scheduler.go], [torrent_download.go])

    Each exported method and each scheduler handler is a function from the engine
    to its result and the new engine, one critical section per function, with the
    cancellations, notifications and saves that follow the section in order.
    Random gids and clock readings are arguments. *)
From S2P Require Import Prelude GoStrings GoPath GoURL Pieces Options Reservations Torrent Queue State.

(** ** Lookup *)

Definition findDownloadLocked (gid : string) (e : Engine) : result (loc * Download) :=
  if String.eqb gid "" then Err ErrNotFound
  else match lookupDownload gid e with
  | Some r => Ok r
  | None =>
      match filter (fun kv => HasPrefix kv.1 gid = true) (map_to_list (e_downloads e)) with
      | [] => Err ErrNotFound
      | [(id, l)] => match e_heap e !! l with Some d => Ok (l, d) | None => Err ErrNotFound end
      | _ => Err (EText "gid prefix is not unique")
      end
  end.

Definition statusIn (statuses : list Status) (e : Engine) (l : loc) : bool :=
  match e_heap e !! l with Some d => bool_decide (d_status d ∈ statuses) | None => false end.

(** The gids of the downloads in one of the statuses, in map order. *)
Definition gidsByStatus (statuses : list Status) (e : Engine) : list string :=
  map fst (filter (fun kv => statusIn statuses e kv.2 = true) (map_to_list (e_downloads e))).

(** ** Validation of URIs *)

Definition validateHTTPURI (raw : string) : result unit :=
  match parse raw with
  | None => Err ErrUnsupportedProtocol
  | Some u =>
      if String.eqb (u_Scheme u) "" || String.eqb (u_Host u) "" then Err ErrUnsupportedProtocol
      else if negb (String.eqb (u_Scheme u) "http") && negb (String.eqb (u_Scheme u) "https")
      then Err ErrUnsupportedProtocol
      else Ok tt
  end.

Definition isMagnetURI (raw : string) : bool :=
  match parse raw with Some u => EqualFold (u_Scheme u) "magnet" | None => false end.

Definition isHTTPTorrentURL (raw : string) : bool :=
  match parse raw with
  | Some u => negb (String.eqb (u_Host u) "") && (String.eqb (u_Scheme u) "http" || String.eqb (u_Scheme u) "https")
  | None => false
  end.

(** ** The stopped list *)

Definition isProtected (keepUnfinished : bool) (e : Engine) (gid : string) : bool :=
  keepUnfinished &&
  match lookupDownload gid e with Some (_, d) => bool_decide (d_status d = StatusError) | None => false end.

Definition pruneStoppedLocked (e : Engine) : Engine :=
  let maxResult := optionInt (e_global e) "max-download-result" (e_cfgMaxDownloadResult e) in
  let maxResult := if maxResult <? 0 then 0 else maxResult in
  let keepUnfinished := optionBoolDefault (e_global e) "keep-unfinished-download-result" true in
  let prot := isProtected keepUnfinished e in
  let excess := Z.of_nat (length (prunable prot (e_stopped e))) - maxResult in
  if excess <=? 0 then e
  else
    let '(kept, dropped) := pruneList prot (e_stopped e) excess in
    e <| e_stopped := kept |>
      <| e_stoppedSet ::= fun s => s ∖ list_to_set dropped |>
      <| e_downloads ::= fun m => foldr delete m dropped |>.

Definition appendStoppedLocked (gid : string) (e : Engine) : Engine :=
  let e := if bool_decide (gid ∈ e_stoppedSet e) then e
           else e <| e_stopped ::= fun l => l ++ [gid] |>
                  <| e_stoppedSet ::= fun s => {[gid]} ∪ s |>
                  <| e_stoppedTotal ::= fun n => n + 1 |> in
  pruneStoppedLocked e.

Definition insertWaitingLocked (gid : string) (position : option Z) (e : Engine) : Engine :=
  e <| e_waiting ::= insertWaiting gid position |>.

(** ** Creating downloads *)

Definition uriInfos (uris : list string) : list URIInfo :=
  imap (fun i raw => mkURI raw (match i with O => URIStatusUsed | _ => URIStatusWaiting end)) uris.

Definition newDownload (gid : string) (uris : list string) (opts : Options) (now : Z) : Download :=
  zeroDownload downloadKindURI gid opts now
    <| d_uris := uriInfos uris |>
    <| d_dir := optionString opts "dir" |>
    <| d_out := optionString opts "out" |>.

(** The gid of a new download: the option, or the random one. *)
Definition chooseGID (merged : Options) (random : string) (e : Engine) : result string :=
  let gid := optionString merged "gid" in
  let! gid := if String.eqb gid "" then Ok random
              else if negb (validGID gid) then Err ErrInvalidGID else Ok gid in
  match e_downloads e !! gid with
  | Some _ => Err (EText "gid already exists")
  | None => Ok gid
  end.

(** A new download enters the map, and the queue unless it is paused. *)
Definition enlist (d : Download) (position : option Z) (e : Engine) : Engine :=
  let l := fresh (dom (e_heap e)) in
  let e :=
    if optionBool (d_options d) "pause" then
      store l (d <| d_status := StatusPaused |>) e
    else insertWaitingLocked (d_gid d) position (store l d e) in
  e <| e_downloads ::= <[d_gid d := l]> |>.

(** Registering a new download: the tail of the three add operations. *)
Definition register (d : Download) (position : option Z) (e : Engine) : Engine :=
  saveSessionBestEffort (signal (enlist d position e)).

Section torrents.
Context {fs : FileSystem} {storage : TorrentStorage} {lib : TorrentLib}.

Definition torrentMetaInfo (data : string) : result (MetaInfo * Info) :=
  match ParseMetaInfoBytes data with
  | Err err => Err (EWrap "invalid torrent metainfo" err)
  | Ok (mi, info) =>
      match validateTorrentInfo info with
      | Err err => Err (EWrap "invalid torrent metainfo" err)
      | Ok _ =>
          if i_HasV2 info then
            match validateTorrentPieceLayers CompactLayerToSliceHashes RootWithPadHash Sum256
                    (mi_PieceLayers mi) info with
            | Err err => Err (EWrap "invalid torrent metainfo: bad v2 piece layers" err)
            | Ok _ => Ok (mi, info)
            end
          else Ok (mi, info)
      end
  end.

Definition canonicalTorrentMetaInfoHash (mi : option MetaInfo) (info : Info) : string :=
  match mi with
  | None => zeroInfoHash
  | Some mi => if i_HasV1 info then mi_HashInfoBytes mi else mi_ShortV2Hash mi
  end.

Definition canonicalTorrentSpecInfoHash (spec : MagnetSpec) : string :=
  match ms_InfoHash spec with
  | Some h => h
  | None => match ms_InfoHashV2Short spec with Some h => h | None => zeroInfoHash end
  end.

Definition bittorrentInfo (mi : option MetaInfo) (info : Info) : BittorrentInfo :=
  let mode := if (match i_Files info with [] => false | _ => true end) || (i_HasV2 info && i_IsDir info)
              then "multi" else "single" in
  match mi with
  | Some mi => mkBt (mi_UpvertedAnnounceList mi) (mi_Comment mi) (mi_CreationDate mi) mode (i_BestName info)
  | None => mkBt [] "" 0 mode (i_BestName info)
  end.

Definition newTorrentDownload (gid data magnet : string) (uris : list string) (opts : Options)
    (mi : option MetaInfo) (info : Info) (now : Z) : result Download :=
  match validateTorrentInfo info with
  | Err err => Err (EWrap "invalid torrent metadata" err)
  | Ok _ =>
  match torrentInfoPieceCount info with
  | Err err => Err (EWrap "invalid torrent metadata" err)
  | Ok numPieces =>
      let infos := uriInfos uris in
      let! _seeds := match mi with
                     | Some mi => mergeTorrentWebSeedURLs (mi_UrlList mi) (map URI infos)
                     | None => Ok []
                     end in
      let dir := optionString opts "dir" in
      let dir := if String.eqb dir "" then "." else dir in
      let infoHash := canonicalTorrentMetaInfoHash mi info in
      let layoutOpts := if negb (String.eqb magnet "") && (match mi with None => true | _ => false end)
                        then noOptions else opts in
      let! files := torrentFileStates info infoHash layoutOpts dir in
      let total := torrentSelectedLength files in
      Ok (zeroDownload downloadKindTorrent gid opts now
            <| d_uris := infos |>
            <| d_dir := dir |>
            <| d_totalLength := total |>
            <| d_pieceLength := i_PieceLength info |>
            <| d_numPieces := numPieces |>
            <| d_torrentFiles := files |>
            <| d_torrentData := data |>
            <| d_torrentMagnet := magnet |>
            <| d_bittorrent := Some (bittorrentInfo mi info) |>
            <| d_infoHash := match mi with Some _ => infoHash | None => "" end |>
            <| d_bitfield := unknownTorrentBitfield numPieces |>)
  end
  end.

Definition newMagnetDownload (gid raw : string) (uris : list string) (opts : Options) (now : Z) : result Download :=
  let! spec := TorrentSpecFromMagnetUri raw in
  let! _seeds := mergeTorrentWebSeedURLs (ms_Webseeds spec) uris in
  let! d := newTorrentDownload gid "" raw uris opts None (NamedInfo (ms_DisplayName spec)) now in
  Ok (d <| d_infoHash := canonicalTorrentSpecInfoHash spec |>).

(** ** Adding *)

Definition addMagnet (raw : string) (opts : Options) (position : option Z) (random : string) (now : Z) (e : Engine)
    : result string * Engine :=
  match TorrentSpecFromMagnetUri raw with
  | Err err => (Err err, e)
  | Ok _ =>
      if e_ctxErr e then (Err ErrShutdown, e)
      else
        let merged := layerOptions (e_global e) opts in
        match (let! _checked := validateTorrentExtensionOptions merged in
               let! gid := chooseGID merged random e in
               newMagnetDownload gid raw [] merged now) with
        | Err err => (Err err, e)
        | Ok d => (Ok (d_gid d), register d position e)
        end
  end.

Definition AddURI (uris : list string) (opts : Options) (position : option Z) (random : string) (now : Z) (e : Engine)
    : result string * Engine :=
  match validateOptionValues opts with
  | Err err => (Err err, e)
  | Ok _ =>
  match uris with
  | [] => (Err (EText "no URI to download"), e)
  | raw0 :: more =>
      if maxDownloadURIs <? Z.of_nat (length uris) then (Err (EText "too many URIs: maximum is 64"), e)
      else if (match more with [] => true | _ => false end) && isMagnetURI raw0 then
        addMagnet raw0 opts position random now e
      else
        match first_error (map (fun raw => if isMagnetURI raw then Err ErrUnsupportedProtocol
                                           else validateHTTPURI raw) uris) with
        | Err err => (Err err, e)
        | Ok _ =>
            if e_ctxErr e then (Err ErrShutdown, e)
            else
              let merged := layerOptions (e_global e) opts in
              match chooseGID merged random e with
              | Err err => (Err err, e)
              | Ok gid => (Ok gid, register (newDownload gid uris merged now) position e)
              end
        end
  end
  end.

(** [AddTorrent] reads the global options under the lock, resolves the source
    without it, and registers the download under the lock again: two steps, with
    the resolved source as the argument of the second. *)
Definition addTorrentBegin (uris : list string) (opts : Options) (e : Engine) : result Options :=
  let! _checked := validateOptionValues opts in
  if maxDownloadURIs <? Z.of_nat (length uris) then
    Err (EText "too many webseed URIs: maximum is 64")
  else
    let! _valid := first_error (map validateHTTPURI uris) in
    if e_ctxErr e then Err ErrShutdown else Ok (layerOptions (cloneOptions (e_global e)) opts).

Definition addTorrentCommit (merged : Options) (source : result (string * MetaInfo * Info * string))
    (uris : list string) (position : option Z) (random : string) (now : Z) (e : Engine)
    : result string * Engine :=
  match source with
  | Err err => (Err err, e)
  | Ok (data, mi, info, sourceURL) =>
      let prepared :=
        if negb (String.eqb sourceURL "") then
          let merged := setOption "goaria-torrent-source-url" (VStr sourceURL) merged in
          let! _checked := validateOptionLayerSize merged in Ok merged
        else Ok merged in
      match (let! merged := prepared in
             let! _selection := torrentSelectionAndIndexOut info merged in
             if e_ctxErr e then Err ErrShutdown
             else
               let! gid := chooseGID merged random e in
               newTorrentDownload gid data "" uris merged (Some mi) info now) with
      | Err err => (Err err, e)
      | Ok d => (Ok (d_gid d), register d position e)
      end
  end.
End torrents.

(** ** Pausing, removing, resuming *)

Definition pause (gid : string) (e : Engine) : result string * Engine :=
  match findDownloadLocked gid e with
  | Err err => (Err err, e)
  | Ok (l, d) =>
      if isTerminal (d_status d) then (Err (EText "cannot pause stopped download"), e)
      else
        let cancel := d_cancel d in
        let d' := d <| d_cancel := None |> <| d_status := StatusPaused |>
                    <| d_connections := 0 |> <| d_downloadBPS := 0 |> in
        let e := store l d' (e <| e_waiting ::= deleteGid (d_gid d) |>) in
        let e := notify "aria2.onDownloadPause" (d_gid d) (callCancel cancel e) in
        (Ok (d_gid d), saveSessionBestEffort (signal e))
  end.

Definition remove (gid : string) (now : Z) (e : Engine) : result string * Engine :=
  match findDownloadLocked gid e with
  | Err err => (Err err, e)
  | Ok (l, d) =>
      let e := e <| e_waiting ::= deleteGid (d_gid d) |> in
      if isTerminal (d_status d) then (Err (EText "cannot remove stopped download"), e)
      else
        let cancel := d_cancel d in
        let d' := d <| d_cancel := None |> <| d_status := StatusRemoved |>
                    <| d_connections := 0 |> <| d_downloadBPS := 0 |> <| d_stoppedAt := Some now |> in
        let e := appendStoppedLocked (d_gid d) (store l d' e) in
        let e := notify "aria2.onDownloadStop" (d_gid d) (callCancel cancel e) in
        (Ok (d_gid d), saveSessionBestEffort (signal e))
  end.

Definition Unpause (gid : string) (e : Engine) : result string * Engine :=
  match findDownloadLocked gid e with
  | Err err => (Err err, e)
  | Ok (l, d) =>
      if negb (bool_decide (d_status d = StatusPaused)) then (Ok (d_gid d), e)
      else
        let d' := d <| d_status := StatusWaiting |> <| d_errorCode := "" |> <| d_errorMessage := "" |> in
        let e := store l d' e <| e_waiting ::= fun w => w ++ [d_gid d] |> in
        (Ok (d_gid d), saveSessionBestEffort (signal e))
  end.

(** The bulk operations visit the gids that have the status when they start. *)
Definition PauseAll (e : Engine) : string * Engine :=
  ("OK", foldl (fun e gid => (pause gid e).2) e (gidsByStatus [StatusActive; StatusWaiting] e)).

Definition UnpauseAll (e : Engine) : string * Engine :=
  ("OK", foldl (fun e gid => (Unpause gid e).2) e (gidsByStatus [StatusPaused] e)).

(** ** Changing the queue *)

Definition ChangePosition (gid : string) (pos : Z) (how : string) (e : Engine) : result Z * Engine :=
  match findDownloadLocked gid e with
  | Err err => (Err err, e)
  | Ok (l, d) =>
      match index_of (d_gid d) (e_waiting e) with
      | None => (Err (EText "download is not in waiting queue"), e)
      | Some idx =>
          match moveTo (d_gid d) idx pos how (e_waiting e) with
          | None => (Err (EText "invalid position mode"), e)
          | Some (waiting, dst) => (Ok dst, saveSessionBestEffort (e <| e_waiting := waiting |>))
          end
      end
  end.

(** ** Restarting an active download

    [restartActiveDownloadLocked] queues an active item behind its current run and
    returns the cancel function of the run. *)
Definition restartActiveDownloadLocked (d : Download) (e : Engine) : option context * Download * Engine :=
  if negb (bool_decide (d_status d = StatusActive)) then (None, d, e)
  else
    let d' := d <| d_status := StatusWaiting |> <| d_connections := 0 |> <| d_downloadBPS := 0 |>
                <| d_cancel := None |> in
    let e := match index_of (d_gid d) (e_waiting e) with
             | Some _ => e
             | None => e <| e_waiting ::= fun w => w ++ [d_gid d] |>
             end in
    (d_cancel d, d', e).

(** Cancelling a run and waking the scheduler, as after a change of options or URIs. *)
Definition cancelAndSignal (cancel : option context) (e : Engine) : Engine :=
  match cancel with
  | Some _ => signal (callCancel cancel e)
  | None => e
  end.

(** ** Changing URIs *)

Fixpoint removeFirstURI (raw : string) (uris : list URIInfo) : option (list URIInfo) :=
  match uris with
  | [] => None
  | u :: rest => if String.eqb (URI u) raw then Some rest
                 else match removeFirstURI raw rest with Some r => Some (u :: r) | None => None end
  end.

Fixpoint deleteURIs (delURIs : list string) (uris : list URIInfo) (deleted : Z) : list URIInfo * Z :=
  match delURIs with
  | [] => (uris, deleted)
  | raw :: rest =>
      match removeFirstURI raw uris with
      | Some uris' => deleteURIs rest uris' (deleted + 1)
      | None => deleteURIs rest uris deleted
      end
  end.

Definition insertURIs (addURIs : list string) (position : option Z) (uris : list URIInfo) : list URIInfo :=
  let n := Z.of_nat (length uris) in
  let at_ := match position with
             | None => n
             | Some p => let p := if p <? 0 then 0 else p in if n <? p then n else p
             end in
  take (Z.to_nat at_) uris ++ map (fun raw => mkURI raw URIStatusWaiting) addURIs ++ drop (Z.to_nat at_) uris.

Definition ChangeURI (gid : string) (fileIndex : Z) (delURIs addURIs : list string) (position : option Z)
    (e : Engine) : result (Z * Z) * Engine :=
  if negb (fileIndex =? 1) then (Err (EText "fileIndex out of range"), e)
  else if (maxDownloadURIs <? Z.of_nat (length delURIs)) || (maxDownloadURIs <? Z.of_nat (length addURIs)) then
    (Err (EText "too many URI changes: maximum is 64"), e)
  else match first_error (map validateHTTPURI addURIs) with
  | Err err => (Err err, e)
  | Ok _ =>
  match findDownloadLocked gid e with
  | Err err => (Err err, e)
  | Ok (l, d) =>
      let '(remaining, deleted) := deleteURIs delURIs (d_uris d) 0 in
      let added := Z.of_nat (length addURIs) in
      let nextURIs := insertURIs addURIs position remaining in
      if maxDownloadURIs <? Z.of_nat (length nextURIs) then (Err (EText "too many URIs: maximum is 64"), e)
      else if bool_decide (d_kind d = downloadKindURI) && (match nextURIs with [] => true | _ => false end) then
        (Err (EText "URI download must retain at least one URI"), e)
      else
        let d := d <| d_uris := nextURIs |> in
        let '(cancel, d, e) :=
          if 0 <? deleted + added then
            let d := if bool_decide (d_status d = StatusActive)
                     then d <| d_retainReservationsAfterRun := d_ctx d |> else d in
            restartActiveDownloadLocked d e
          else (None, d, e) in
        (Ok (deleted, added), saveSessionBestEffort (cancelAndSignal cancel (store l d e)))
  end
  end.

(** ** Changing options *)

(** The public keys an option change names. *)
Definition changedKeys (opts : Options) : list string :=
  filter (fun k => private_key k = false) (option_keys opts).

Definition activeOptionChangeRequiresRestart (kind : downloadKind) (opts : Options) : bool :=
  existsb (fun key => negb (bool_decide (kind = downloadKindURI) && String.eqb key "max-download-limit"))
    (changedKeys opts).

Definition onlyChanges (keys : list string) (opts : Options) : bool :=
  match changedKeys opts with
  | [] => false
  | changed => forallb (fun key => in_words key keys) changed
  end.

Definition torrentSelectionOnlyChange : Options -> bool :=
  onlyChanges ["select-file"; torrentSelectFileExtOption; torrentExcludeFileExtOption].

Definition uriSegmentedLiveOptionChange : Options -> bool :=
  onlyChanges ["max-download-limit"; "max-connection-per-server"; "split"].

Definition frozenOptions : list string :=
  ["dry-run"; "gid"; "metalink-base-uri"; "parameterized-uri"; "pause"; "piece-length"; "rpc-save-upload-metadata"].

Section options.
Context {fs : FileSystem} {storage : TorrentStorage} {lib : TorrentLib}.

Definition metadataInfoLocked (d : Download) : result (option Info) :=
  if negb (String.eqb (d_torrentData d) "") then
    if negb (String.eqb (d_torrentMagnet d) "") then
      match ParseMetaInfoBytes (d_torrentData d) with
      | Err err => Err (EWrap "invalid cached magnet metadata" err)
      | Ok (_, parsed) =>
          match validateTorrentInfo parsed with
          | Err err => Err (EWrap "invalid cached magnet metadata" err)
          | Ok _ => Ok (Some parsed)
          end
      end
    else let! r := torrentMetaInfo (d_torrentData d) in Ok (Some r.2)
  else match d_torrent d with
       | Some rt =>
           match rt_Metainfo rt with
           | None => Ok None
           | Some r => let! info := r in Ok (Some info)
           end
       | None => Ok None
       end.

(** What [ChangeOption] computes before it changes anything: the merged options,
    the torrent metadata and the rebuilt file states. *)
Definition prepareOptionChange (d : Download) (opts : Options)
    : result (Options * option (list torrentFileState * Z * Z)) :=
  let merged := mergeOptions (d_options d) opts in
  let! _size := validateOptionLayerSize merged in
  let! torrentInfo :=
    if bool_decide (d_kind d = downloadKindTorrent) then
      let! _ext := validateTorrentExtensionOptions merged in metadataInfoLocked d
    else Ok None in
  match torrentInfo with
  | None => Ok (merged, None)
  | Some info =>
      let! next := rebuildTorrentFileStatesPreservingProgress info merged (optionString merged "dir")
                     (d_torrentFiles d) (d_torrentFinalized d) in
      Ok (merged, Some next)
  end.

Definition optionChangeRestarts (d : Download) (opts : Options) (hasInfo : bool) : bool :=
  let r := activeOptionChangeRequiresRestart (d_kind d) opts in
  let r := if bool_decide (d_kind d = downloadKindURI) && bool_decide (d_status d = StatusActive)
              && (1 <? d_numPieces d) && uriSegmentedLiveOptionChange opts then false else r in
  if bool_decide (d_kind d = downloadKindTorrent) && negb hasInfo && torrentSelectionOnlyChange opts
  then false else r.

(** A torrent run that is, or is about to be, restarted may still write the old selection. *)
Definition transitioningTorrentRun (d : Download) (hasInfo requiresRestart : bool) : bool :=
  hasInfo && requiresRestart && isSome (d_ctx d)
  && (bool_decide (d_status d = StatusActive)
      || (bool_decide (d_status d = StatusWaiting) && bool_decide (d_retainReservationsAfterRun d = d_ctx d))).

(** The changes to the download, once nothing can fail. *)
Definition applyOptionChange (l : loc) (d : Download) (opts merged : Options)
    (next : option (list torrentFileState * Z * Z)) (requiresRestart : bool) (e : Engine) : Engine :=
  let nextDir := optionString merged "dir" in
  let nextOut := optionString merged "out" in
  let pathChanged := bool_decide (d_kind d = downloadKindURI)
    && ((optionExplicit opts "dir" && negb (String.eqb (d_dir d) nextDir))
        || (optionExplicit opts "out" && negb (String.eqb (d_out d) nextOut))) in
  let d := d <| d_options := merged |> <| d_dir := nextDir |> <| d_out := nextOut |> in
  let d := if pathChanged then
             let d := d <| d_path := "" |> in
             match d_ctx d with Some c => d <| d_pathResetAfterRun := Some c |> | None => d end
           else d in
  let d := match next with
           | Some (files, total, completed) =>
               d <| d_torrentFiles := files |> <| d_totalLength := total |> <| d_completedLen := completed |>
           | None => d
           end in
  let '(cancel, d, e) :=
    if requiresRestart then
      let d := if bool_decide (d_status d = StatusActive)
                  && (bool_decide (d_kind d = downloadKindTorrent) || negb pathChanged)
               then d <| d_retainReservationsAfterRun := d_ctx d |> else d in
      restartActiveDownloadLocked d e
    else (None, d, e) in
  saveSessionBestEffort (cancelAndSignal cancel (store l d e)).

Definition ChangeOption (gid : string) (opts : Options) (e : Engine) : result string * Engine :=
  match List.find (optionExplicit opts) frozenOptions with
  | Some key => (Err (EText ("option " +:+ quoted key +:+ " cannot be changed dynamically")), e)
  | None =>
  match validateOptionValues opts with
  | Err err => (Err err, e)
  | Ok _ =>
  match findDownloadLocked gid e with
  | Err err => (Err err, e)
  | Ok (l, d) =>
  match prepareOptionChange d opts with
  | Err err => (Err err, e)
  | Ok (merged, next) =>
      let requiresRestart := optionChangeRestarts d opts (isSome next) in
      if transitioningTorrentRun d (isSome next) requiresRestart then
        let nextPaths := match next with
                         | Some (files, _, _) => selectedTorrentOutputPaths files (d_torrentFinalized d)
                         | None => []
                         end in
        match reserveOutputPaths nextPaths (d_gid d) (e_paths e) with
        | Err err => (Err err, e)
        | Ok paths =>
            let d := d <| d_reservationTransitionAfterRun := d_ctx d |>
                       <| d_reservationPathsAfterRun := nextPaths |> in
            (Ok "OK", applyOptionChange l d opts merged next requiresRestart (e <| e_paths := paths |>))
        end
      else (Ok "OK", applyOptionChange l d opts merged next requiresRestart e)
  end
  end
  end
  end.
End options.

Definition GetOption (gid : string) (e : Engine) : result (gmap string rpcval) :=
  let! r := findDownloadLocked gid e in Ok (optionsForRPC (d_options r.2)).

Definition GetGlobalOption (e : Engine) : gmap string rpcval := optionsForRPC (e_global e).

Definition ChangeGlobalOption (opts : Options) (e : Engine) : result string * Engine :=
  if optionExplicit opts "gid" then
    (Err (EText ("option " +:+ quoted "gid" +:+ " cannot be changed globally")), e)
  else
    let merged := mergeOptions (e_global e) opts in
    match (let! _values := validateOptionValues opts in
           let! _size := validateOptionLayerSize merged in
           validateTorrentExtensionOptions merged) with
    | Err err => (Err err, e)
    | Ok _ =>
        let e := e <| e_global := merged |> in
        let e := e <| e_cfgMaxConcurrentDownloads ::= optionInt merged "max-concurrent-downloads" |>
                   <| e_cfgMaxDownloadResult ::= optionInt merged "max-download-result" |> in
        (Ok "OK", saveSessionBestEffort (signal (pruneStoppedLocked e)))
    end.

(** ** Results *)

Definition PurgeDownloadResult (e : Engine) : string * Engine :=
  let e := e <| e_downloads ::= fun m => foldr delete m (e_stopped e) |>
             <| e_stoppedSet ::= fun s => s ∖ list_to_set (e_stopped e) |>
             <| e_stopped := [] |> in
  ("OK", saveSessionBestEffort e).

Definition RemoveDownloadResult (gid : string) (e : Engine) : result string * Engine :=
  match findDownloadLocked gid e with
  | Err err => (Err err, e)
  | Ok (l, d) =>
      if negb (isTerminal (d_status d)) then (Err (EText "download result is not stopped"), e)
      else
        let e := e <| e_downloads ::= delete (d_gid d) |>
                   <| e_stoppedSet ::= fun s => s ∖ {[d_gid d]} |>
                   <| e_stopped ::= deleteGid (d_gid d) |> in
        (Ok "OK", saveSessionBestEffort e)
  end.

(** ** Shutdown *)

(** The request channel holds one element: a forced request replaces a queued
    graceful one, a graceful one never replaces anything. *)
Definition RequestShutdown (force : bool) (e : Engine) : Engine :=
  match e_shutdownReq e with
  | None => e <| e_shutdownReq := Some force |>
  | Some _ => if force then e <| e_shutdownReq := Some true |> else e
  end.

(** The cancellation at the head of [Close]. *)
Definition closeBegin (e : Engine) : Engine := signal (e <| e_ctxErr := true |>).

(** ** The scheduler *)

(** One start: the new run's context, and the download that runs. *)
Definition startDownload (gid : string) (l : loc) (d : Download) (e : Engine) : context * Engine :=
  let c := e_nextCtx e in
  let d' := d <| d_ctx := Some c |> <| d_cancel := Some c |> <| d_status := StatusActive |>
              <| d_errorCode := "" |> <| d_errorMessage := "" |>
              <| d_downloadBPS := 0 |> <| d_connections := 0 |> in
  (c, store l d' e <| e_nextCtx ::= Pos.succ |> <| e_active ::= fun s => {[gid]} ∪ s |>).

(** The scheduling loop; [candidates] is its counter. *)
Fixpoint scheduleLoop (candidates : nat) (maxActive : Z) (e : Engine) : list (loc * context) * Engine :=
  match candidates with
  | O => ([], e)
  | S candidates' =>
      if negb (e_ctxErr e) && (Z.of_nat (size (e_active e)) <? maxActive) then
        match e_waiting e with
        | [] => ([], e)
        | gid :: rest =>
            if bool_decide (gid ∈ e_active e) then
              scheduleLoop candidates' maxActive (e <| e_waiting := rest ++ [gid] |>)
            else
              let e := e <| e_waiting := rest |> in
              match lookupDownload gid e with
              | None => scheduleLoop candidates' maxActive e
              | Some (l, d) =>
                  if negb (bool_decide (d_status d = StatusWaiting)) then scheduleLoop candidates' maxActive e
                  else
                    let '(c, e) := startDownload gid l d e in
                    let '(starts, e) := scheduleLoop candidates' maxActive e in
                    ((l, c) :: starts, e)
              end
        end
      else ([], e)
  end.

(** [schedule]: the new engine, with the start notifications, and the runs it spawns. *)
Definition schedule (e : Engine) : list (loc * context) * Engine :=
  let maxActive := optionInt (e_global e) "max-concurrent-downloads" (e_cfgMaxConcurrentDownloads e) in
  let '(starts, e) := scheduleLoop (length (e_waiting e)) maxActive e in
  (starts, foldl (fun e (s : loc * context) =>
     match e_heap e !! s.1 with
     | Some d => notify "aria2.onDownloadStart" (d_gid d) e
     | None => e
     end) e starts).

(** The scheduler goroutine takes the wake token and schedules. *)
Definition schedulerStep (e : Engine) : list (loc * context) * Engine := schedule (e <| e_wake := false |>).

(** *** The end of a run *)

Definition metadataOnly (d : Download) : bool :=
  (bool_decide (d_kind d = downloadKindURI) && optionBool (d_options d) "dry-run")
  || (bool_decide (d_kind d = downloadKindTorrent) && optionBool (d_options d) "bt-metadata-only").

(** The outcome of an active download's run, with the notification to send. *)
Definition finishActive (err : option error) (shutdown : bool) (now : Z) (d : Download) : Download * string :=
  let d := d <| d_cancel := None |> <| d_connections := 0 |> <| d_downloadBPS := 0 |>
             <| d_stoppedAt := Some now |> in
  match err with
  | None =>
      let d := d <| d_status := StatusComplete |> in
      let d := if (0 <? d_totalLength d) && negb (metadataOnly d) then d <| d_completedLen := d_totalLength d |>
               else if 0 <? d_completedLen d then d <| d_totalLength := d_completedLen d |>
               else d in
      (d, "aria2.onDownloadComplete")
  | Some err =>
      if shutdown then (d <| d_status := StatusWaiting |>, "")
      else if errors_is (fun e => match e with ECanceled => true | _ => false end) err then
        (d <| d_status := StatusPaused |>, "")
      else (d <| d_status := StatusError |> <| d_errorCode := "1" |> <| d_errorMessage := errorText err |>,
            "aria2.onDownloadError")
  end.

Definition sameCtx (a : option context) (c : context) : bool := bool_decide (a = Some c).

Section finish.
Context {fs : FileSystem}.

(** The reservation work of a finished run: the new reservations, the cleared
    download, and whether its reservations are kept. *)
Definition settleReservations (runCtx : context) (d : Download) (paths : Paths) : Paths * Download * bool :=
  let retain := bool_decide (d_status d = StatusWaiting) && sameCtx (d_retainReservationsAfterRun d) runCtx in
  let d := if sameCtx (d_retainReservationsAfterRun d) runCtx
           then d <| d_retainReservationsAfterRun := None |> else d in
  let d := if sameCtx (d_pathResetAfterRun d) runCtx
           then d <| d_path := "" |> <| d_dir := optionString (d_options d) "dir" |>
                  <| d_out := optionString (d_options d) "out" |> <| d_pathResetAfterRun := None |>
           else d in
  if sameCtx (d_reservationTransitionAfterRun d) runCtx then
    let d' := d <| d_reservationTransitionAfterRun := None |> <| d_reservationPathsAfterRun := [] |> in
    match replaceOutputPaths (d_reservationPathsAfterRun d) (d_gid d) paths with
    | Ok paths' => (paths', d', retain)
    | Err _ => (paths, d', false)
    end
  else (paths, d, retain).

Definition finishDownload (l : loc) (runCtx : context) (err : option error) (now : Z) (e : Engine) : Engine :=
  match e_heap e !! l with
  | None => e
  | Some d =>
      if negb (sameCtx (d_ctx d) runCtx) then
        if negb (bool_decide (d_status d = StatusActive)) then store l (d <| d_torrent := None |>) e else e
      else
        let e := e <| e_active ::= fun s => s ∖ {[d_gid d]} |> in
        let '(paths, d, retain) := settleReservations runCtx d (e_paths e) in
        let d := d <| d_ctx := None |> <| d_torrent := None |> in
        let wasActive := bool_decide (d_status d = StatusActive) in
        let cancel := if wasActive then d_cancel d else None in
        let '(d, notification) := if wasActive then finishActive err (e_ctxErr e) now d else (d, "") in
        let e := store l d (e <| e_paths := paths |>) in
        let e := if wasActive && isTerminal (d_status d) then appendStoppedLocked (d_gid d) e else e in
        let e := if retain then e else e <| e_paths ::= releaseOutputPaths (d_gid d) |> in
        let e := callCancel cancel e in
        let e := if String.eqb notification "" then e else notify notification (d_gid d) e in
        saveSessionBestEffort (signal e)
  end.
End finish.

(** ** The engine at start *)

Record Config := mkConfig {
  cfg_Dir : string; cfg_MaxConcurrentDownloads : Z; cfg_MaxDownloadResult : Z;
  cfg_UserAgent : string; cfg_SaveSession : string
}.

Definition Version : string := "0.3.0".

(** [NewEngine] without an input file (the session component loads one); the HTTP
    client, the transports and the scheduler goroutine have no state here, and the
    scheduler is woken at once. *)
Definition NewEngine (cwd : string) (cfg : Config) : Engine :=
  let dir := Abs cwd (if String.eqb (cfg_Dir cfg) "" then "." else cfg_Dir cfg) in
  let maxConcurrent := if cfg_MaxConcurrentDownloads cfg <=? 0 then 5 else cfg_MaxConcurrentDownloads cfg in
  let maxResult := if cfg_MaxDownloadResult cfg <=? 0 then 1000 else cfg_MaxDownloadResult cfg in
  let userAgent := if String.eqb (cfg_UserAgent cfg) "" then "goaria/" +:+ Version else cfg_UserAgent cfg in
  let global := setOption "user-agent" (VStr userAgent) (defaultOptions dir maxConcurrent maxResult) in
  let global := if String.eqb (cfg_SaveSession cfg) "" then global
                else setOption "save-session" (VStr (cfg_SaveSession cfg)) global in
  signal (mkEngine maxConcurrent maxResult false ∅ ∅ [] ∅ [] ∅ 0 global false None noPaths ∅ 1 []).
