(* ===== verification/Progress.v ===== *)
(** * Progress of a download ([download_progress.go], [torrent_download.go])

    The methods of [Download] a run calls to publish what it has done: metadata,
    bytes, pieces of segmented downloads, and the files of a torrent that are
    finalized, reconciled or refreshed.  Each is a function on the record; the
    caller holds the download's lock. *)
From S2P Require Import Prelude GoStrings GoPath GoURL Pieces Options Http Reservations Torrent State Engine.

(** ** URI downloads *)

Definition setURIUsed (raw : string) (d : Download) : Download :=
  d <| d_uris ::= map (fun u => mkURI (URI u) (if String.eqb (URI u) raw then URIStatusUsed else URIStatusWaiting)) |>.

Definition setMetadata (meta : remoteMeta) (path : string) (d : Download) : Download :=
  let total := nonNegativeLength (m_Length meta) in
  let d := d <| d_path := path |> <| d_dir := Dir path |> <| d_out := Base path |>
             <| d_currentURI := m_FinalURI meta |> <| d_totalLength := total |> in
  let d := if (0 <? total) && (total <? d_completedLen d) then d <| d_completedLen := 0 |> else d in
  d <| d_pieceLength := 0 |> <| d_numPieces := 0 |> <| d_donePieces := 0 |> <| d_bitfield := "" |>.

Definition outputPath (d : Download) : string := d_path d.

(** The piece counters for the current lengths. *)
Definition recountPieces (d : Download) : Download :=
  d <| d_donePieces := completedPieces (d_totalLength d) (d_completedLen d) (d_pieceLength d) |>
    <| d_bitfield := bitfieldFor (d_totalLength d) (d_completedLen d) (d_pieceLength d) |>.

Definition resetProgress (total : Z) (chunks : list chunkRange) (d : Download) : Download :=
  let total := nonNegativeLength total in
  let d := d <| d_totalLength := total |> <| d_completedLen := 0 |> in
  let d := match chunks with
           | c :: _ => d <| d_pieceLength := addInt64 (wrap64 (ch_end c - ch_start c)) 1 |>
                         <| d_numPieces := Z.of_nat (length chunks) |>
           | [] => d <| d_pieceLength := total |> <| d_numPieces := 1 |>
           end in
  recountPieces d.

Definition resetSingleProgress (total completed : Z) (d : Download) : Download :=
  let total := nonNegativeLength total in
  let completed := nonNegativeLength completed in
  let d := d <| d_totalLength := total |> <| d_completedLen := completed |> in
  if 0 <? total then recountPieces (d <| d_pieceLength := total |> <| d_numPieces := 1 |>) else d.

Definition addCompleted (n : Z) (d : Download) : Download :=
  if n <=? 0 then d
  else
    let d := d <| d_completedLen ::= fun c => addInt64 c n |> in
    let d := if (0 <? d_totalLength d) && (d_totalLength d <? d_completedLen d)
             then d <| d_completedLen := d_totalLength d |> else d in
    if (0 <? d_pieceLength d) && (d_numPieces d <=? 1) then
      let done := completedPieces (d_totalLength d) (d_completedLen d) (d_pieceLength d) in
      if done =? d_donePieces d then d else recountPieces d
    else d.

Definition rollbackCompleted (n : Z) (d : Download) : Download :=
  if n <=? 0 then d
  else
    let completed := wrap64 (d_completedLen d - n) in
    d <| d_completedLen := if completed <? 0 then 0 else completed |>.

(** [bits[k] = c] in a text *)
Fixpoint setChar (k : nat) (c : ascii) (s : string) : string :=
  match s with
  | "" => ""
  | String a s' => match k with O => String c s' | S k' => String a (setChar k' c s') end
  end.

Definition markPieceComplete (index : Z) (d : Download) : Download :=
  if (index <? 0) || (d_numPieces d <=? index) || String.eqb (d_bitfield d) "" then d
  else
    let hexIndex := Z.to_nat (index / 4) in
    match String.get hexIndex (d_bitfield d) with
    | None => d
    | Some c =>
        match decodeHexNibble c with
        | None => d
        | Some nibble =>
            let mask := Z.shiftl 1 (3 - index mod 4) in
            if negb (Z.land nibble mask =? 0) then d
            else d <| d_bitfield := setChar hexIndex (hexDigit (Z.lor nibble mask)) (d_bitfield d) |>
                   <| d_donePieces ::= fun n => n + 1 |>
        end
    end.

Definition setConnections (n : Z) (d : Download) : Download := d <| d_connections := n |>.
Definition setDownloadBPS (n : Z) (d : Download) : Download := d <| d_downloadBPS := n |>.

(** ** Torrent downloads *)

(** The lengths of the files and the sums over the selected ones. *)
Definition recountFiles (d : Download) : Download :=
  let '(files, total, completed) := torrentFileStateProgress (d_torrentFiles d) (d_torrentFinalized d) in
  d <| d_torrentFiles := files |> <| d_totalLength := total |> <| d_completedLen := completed |>.

Definition restoreTorrentFinalized (indexes : gset Z) (d : Download) : result Download :=
  let! _valid := if String.eqb (d_torrentMagnet d) "" then validateTorrentFinalizedIndexes (d_torrentFiles d) indexes
                 else Ok tt in
  Ok (recountFiles (d <| d_torrentFinalized := indexes |>)
        <| d_donePieces := 0 |> <| d_bitfield := unknownTorrentBitfield (d_numPieces d) |>).

(** The completion of the file at a zero-based index; [runs] are the piece states
    of the live torrent, if there is one.  The flag asks for a queued session save. *)
Definition markTorrentFileFinalized (zeroBasedIndex : Z) (runs : option (list pieceRun)) (d : Download)
    : result (Download * bool) :=
  let ariaIndex := addInt64 zeroBasedIndex 1 in
  if negb (existsb (fun s => tf_Index s =? ariaIndex) (d_torrentFiles d)) then
    Err (EText ("finalized torrent file index " +:+ FormatInt ariaIndex +:+ " out of range"))
  else
    let alreadyFinalized := bool_decide (ariaIndex ∈ d_torrentFinalized d) in
    let d := recountFiles (d <| d_torrentFinalized ::= fun f => {[ariaIndex]} ∪ f |>) in
    let '(done, bitfield) := match runs with
                             | Some runs => torrentPieceProgress runs
                             | None => (0, unknownTorrentBitfield (d_numPieces d))
                             end in
    Ok (d <| d_donePieces := done |> <| d_bitfield := bitfield |>, negb alreadyFinalized).

(** Files the library has released are finalized; the flag asks for a queued save. *)
Fixpoint releasedFiles (files : list torrentFileState) (snapshots : list fileSnapshot) (finalized : gset Z)
    : list torrentFileState * gset Z * Z :=
  match files, snapshots with
  | s :: files', sn :: snapshots' =>
      if negb (sn_Released sn) || bool_decide (tf_Index s ∈ finalized) then
        let '(rest, finalized, n) := releasedFiles files' snapshots' finalized in (s :: rest, finalized, n)
      else
        let '(rest, finalized, n) := releasedFiles files' snapshots' ({[tf_Index s]} ∪ finalized) in
        (s <| tf_Completed := tf_Length s |> :: rest, finalized, n + 1)
  | files, _ => (files, finalized, 0)
  end.

Definition reconcileReleasedTorrentFiles (snapshots : list fileSnapshot) (d : Download) : Download * bool :=
  let '(files, finalized, reconciled) := releasedFiles (d_torrentFiles d) snapshots (d_torrentFinalized d) in
  let d := d <| d_torrentFiles := files |> <| d_torrentFinalized := finalized |> in
  if reconciled =? 0 then (d, false) else (recountFiles d, true).

(** What the library reports of a live torrent. *)
Record torrentStats := mkStats {
  st_ActivePeers : Z; st_HalfOpenPeers : Z; st_ConnectedSeeders : Z; st_Seeding : bool
}.

Definition updateTorrentProgress (stats : torrentStats) (snapshots : list fileSnapshot) (runs : list pieceRun)
    (d : Download) : Download * Z :=
  let files := refreshFiles (d_torrentFiles d) snapshots (d_torrentFinalized d) in
  let completed := sumSelected tf_Completed files in
  let '(done, bitfield) := torrentPieceProgress runs in
  (d <| d_torrentFiles := files |> <| d_completedLen := completed |>
     <| d_connections := addInt64 (st_ActivePeers stats) (st_HalfOpenPeers stats) |>
     <| d_numSeeders := st_ConnectedSeeders stats |> <| d_seeder := st_Seeding stats |>
     <| d_donePieces := done |> <| d_bitfield := bitfield |>, completed).

(** Which of the torrent's files a run must still download, by position. *)
Definition selectedTorrentFiles (d : Download) (numFiles : nat) : list nat :=
  filter (fun i => match d_torrentFiles d !! i with Some s => pendingFile (d_torrentFinalized d) s | None => false end = true)
    (seq 0 numFiles).

Section refresh.
Context {fs : FileSystem} {storage : TorrentStorage} {lib : TorrentLib}.

(** [refreshTorrentMetadata] for the metadata, info hash and piece states of the
    live torrent; [encoded] is the bencoding of the metadata. *)
Definition refreshTorrentMetadata (mi : MetaInfo) (info : Info) (infoHash : string) (runs : list pieceRun)
    (encoded : result string) (d : Download) : result Download :=
  let! _valid := validateRefreshedTorrentMetadata CompactLayerToSliceHashes RootWithPadHash Sum256
                   (mi_PieceLayers mi) info (negb (String.eqb (d_torrentMagnet d) "")) in
  match torrentInfoPieceCount info with
  | Err err => Err (EWrap "invalid torrent metadata" err)
  | Ok numPieces =>
      let '(done, bitfield) := torrentPieceProgress runs in
      let! _selection := torrentSelectionAndIndexOut info (d_options d) in
      let! files := torrentFileStates info infoHash (d_options d) (d_dir d) in
      let! _finalized := validateTorrentFinalizedIndexes files (d_torrentFinalized d) in
      let d := d <| d_infoHash := infoHash |> <| d_pieceLength := i_PieceLength info |> <| d_numPieces := numPieces |>
                 <| d_bittorrent := Some (bittorrentInfo (Some mi) info) |> <| d_torrentFiles := files |> in
      let d := recountFiles d <| d_donePieces := done |> <| d_bitfield := bitfield |> in
      Ok (if String.eqb (d_torrentData d) "" then
            match encoded with Ok data => d <| d_torrentData := data |> | Err _ => d end
          else d)
  end.

Definition reserveTorrentOutputPaths (d : Download) (paths : Paths) : result Paths :=
  reserveOutputPaths (selectedTorrentOutputPaths (d_torrentFiles d) (d_torrentFinalized d)) (d_gid d) paths.
End refresh.

(** ** The selection of a live torrent *)

(** A [stream.FileSelectionController] in use: what is selected, what is done, and
    whether it was closed. *)
Record selectionState := mkSelection {
  sel_Selected : gset Z; sel_Completed : gset Z; sel_Closed : bool
}.

Definition startSelection (indexes : list Z) : selectionState := mkSelection (list_to_set indexes) ∅ false.

Definition selectionAllCompletedLocked (s : selectionState) : bool :=
  negb (bool_decide (sel_Selected s = ∅)) && bool_decide (sel_Selected s ⊆ sel_Completed s).

Definition closeSelectionLocked (s : selectionState) : selectionState :=
  mkSelection (sel_Selected s) (sel_Completed s) true.

Definition markSelectionCompleted (index : Z) (selection : option selectionState) : option selectionState :=
  match selection with
  | None => None
  | Some s =>
      if sel_Closed s then Some s
      else
        let s := mkSelection (sel_Selected s) ({[index]} ∪ sel_Completed s) false in
        Some (if selectionAllCompletedLocked s then closeSelectionLocked s else s)
  end.

(** ** Specification: histories of progress *)

(** What the workers of a segmented download report. *)
Inductive seg_op :=
| SegAdd (n : Z)
| SegRollback (n : Z)
| SegMark (index : Z).

Definition run_seg (d : Download) (op : seg_op) : Download :=
  match op with
  | SegAdd n => addCompleted n d
  | SegRollback n => rollbackCompleted n d
  | SegMark i => markPieceComplete i d
  end.

(** The pieces a history marks, among the first [n]. *)
Definition marked (n : Z) (ops : list seg_op) : gset Z :=
  list_to_set (omap (fun op => match op with SegMark i => if (0 <=? i) && (i <? n) then Some i else None | _ => None end) ops).

(** Byte counts that cannot overflow an [int64] together with the length. *)
Definition seg_op_ok (total : Z) (op : seg_op) : Prop :=
  match op with SegAdd n | SegRollback n => n <= max_int64 - total | SegMark _ => True end.

(** The operations of the torrent's progress. *)
Inductive torrent_op :=
| TorFinalize (zeroBasedIndex : Z) (runs : option (list pieceRun))
| TorReconcile (snapshots : list fileSnapshot)
| TorUpdate (stats : torrentStats) (snapshots : list fileSnapshot) (runs : list pieceRun).

Definition run_torrent_op (d : Download) (op : torrent_op) : Download :=
  match op with
  | TorFinalize i runs => match markTorrentFileFinalized i runs d with Ok (d', _) => d' | Err _ => d end
  | TorReconcile snapshots => (reconcileReleasedTorrentFiles snapshots d).1
  | TorUpdate stats snapshots runs => (updateTorrentProgress stats snapshots runs d).1
  end.

(** The files of [d] and its totals agree. *)
Definition files_consistent (d : Download) : Prop :=
  Forall (fun s => 0 <= tf_Completed s <= tf_Length s
                   /\ (tf_Index s ∈ d_torrentFinalized d -> tf_Completed s = tf_Length s)) (d_torrentFiles d)
  /\ d_totalLength d = sumSelected tf_Length (d_torrentFiles d)
  /\ d_completedLen d = sumSelected tf_Completed (d_torrentFiles d).

(** ** Lemmas: bitfields under [markPieceComplete] *)

Lemma setChar_get (k j : nat) (c : ascii) (s : string) :
  (k < String.length s)%nat -> String.get j (setChar k c s) = if decide (j = k) then Some c else String.get j s.
Proof.
  revert k j. induction s as [|a s IH]; intros k j Hk; cbn [String.length] in Hk; [lia|].
  destruct k as [|k], j as [|j]; cbn [setChar String.get]; try done.
  rewrite IH by lia. repeat case_decide; congruence || lia.
Qed.

Lemma setChar_length (k : nat) (c : ascii) (s : string) : String.length (setChar k c s) = String.length s.
Proof. revert k. induction s as [|a s IH]; intros [|k]; simpl; [done..|]. by rewrite IH. Qed.

Lemma get_lt (k : nat) (s : string) (c : ascii) : String.get k s = Some c -> (k < String.length s)%nat.
Proof. revert k. induction s as [|a s IH]; intros [|k] H; simpl in *; try done; [lia|]. apply IH in H. lia. Qed.

Lemma decodeHexNibble_range (c : ascii) (n : Z) : decodeHexNibble c = Some n -> 0 <= n < 16.
Proof. unfold decodeHexNibble. cbv zeta. repeat case_match; intros [= <-]; zbool; lia. Qed.

Lemma hexEncode_length (bytes : list Z) : String.length (hexEncode bytes) = (2 * length bytes)%nat.
Proof. induction bytes as [|b bs IH]; [done|]. simpl. rewrite IH. lia. Qed.

(** A text of hexadecimal digits, long enough for [n] pieces. *)
Definition hex_text (n : Z) (s : string) : Prop :=
  n <= 4 * Z.of_nat (String.length s)
  /\ forall k, (k < String.length s)%nat -> exists c v, String.get k s = Some c /\ decodeHexNibble c = Some v.

Lemma hexEncode_text (bytes : list Z) (n : Z) :
  Forall is_byte bytes -> n <= 8 * Z.of_nat (length bytes) -> hex_text n (hexEncode bytes).
Proof.
  intros Hb Hn. split; rewrite hexEncode_length; [lia|]. intros k Hk.
  pose proof (hexEncode_get bytes (Z.of_nat k) ltac:(lia)) as Hg. rewrite Nat2Z.id in Hg.
  eexists _, _. split; [exact Hg|]. apply hexDigit_decode.
  destruct (byte_nibbles (byteAt bytes (Z.to_nat (Z.of_nat k / 2)))) as [? ?]; [by apply lookup_total_byte|].
  by destruct (_ =? 0).
Qed.

Lemma lor_nibble (v k : Z) : 0 <= v < 16 -> 0 <= k <= 3 -> 0 <= Z.lor v (Z.shiftl 1 k) < 16.
Proof.
  intros Hv Hk. split; [apply Z.lor_nonneg; split; [lia|apply Z.shiftl_nonneg; lia]|].
  change 16 with (2 ^ 4). apply Z.log2_lt_cancel. rewrite Z.log2_lor by (try apply Z.shiftl_nonneg; lia).
  rewrite Z.log2_shiftl, Z.log2_1 by lia. assert (Z.log2 v < 4).
  { destruct (decide (v = 0)) as [->|]; [by vm_compute|]. apply Z.log2_lt_pow2; lia. }
  rewrite Z.log2_pow2 by lia. lia.
Qed.

(** The bits after a mark. *)
Lemma hex_bit_setChar (s : string) (i j v : Z) (c : ascii) :
  0 <= i -> 0 <= j -> String.get (Z.to_nat (i / 4)) s = Some c -> decodeHexNibble c = Some v ->
  hex_bit (setChar (Z.to_nat (i / 4)) (hexDigit (Z.lor v (Z.shiftl 1 (3 - i mod 4)))) s) j = hex_bit s j || (i =? j).
Proof.
  intros Hi Hj Hc Hv. apply get_lt in Hc as Hlt. apply decodeHexNibble_range in Hv as Hr.
  pose proof (Z.mod_pos_bound i 4 ltac:(lia)) as Hm. pose proof (Z.mod_pos_bound j 4 ltac:(lia)) as Hm'.
  assert (0 <= Z.lor v (Z.shiftl 1 (3 - i mod 4)) < 16) as Hl
    by (apply lor_nibble; lia).
  unfold hex_bit. rewrite setChar_get by done. case_decide as Hk.
  - assert (j / 4 = i / 4) as Hq by (apply Z2Nat.inj in Hk; [done|apply Z.div_pos; lia..]).
    rewrite hexDigit_decode by done. rewrite Hk, Hc, Hv, Z.lor_spec. f_equal.
    rewrite Z.shiftl_spec by lia. replace (i =? j) with (3 - j mod 4 - (3 - i mod 4) =? 0).
    + destruct (Z.eqb_spec (3 - j mod 4 - (3 - i mod 4)) 0) as [->|Hne]; [done|].
      destruct (decide (3 - j mod 4 - (3 - i mod 4) < 0)); [by apply Z.testbit_neg_r|].
      change 1 with (2 ^ 0). apply Z.pow2_bits_false. lia.
    + pose proof (Z.div_mod i 4 ltac:(lia)). pose proof (Z.div_mod j 4 ltac:(lia)).
      destruct (Z.eqb_spec (3 - j mod 4 - (3 - i mod 4)) 0), (Z.eqb_spec i j); lia.
  - destruct (Z.eqb_spec i j) as [->|]; [done|]. by rewrite orb_false_r.
Qed.

Lemma land_mask (v k : Z) : 0 <= k -> negb (Z.land v (Z.shiftl 1 k) =? 0) = Z.testbit v k.
Proof.
  intros Hk. rewrite Z.shiftl_1_l. destruct (Z.testbit v k) eqn:E.
  - apply negb_true_iff, Z.eqb_neq. intros H. assert (Z.testbit (Z.land v (2 ^ k)) k = true) as Ht.
    { rewrite Z.land_spec, E. by apply Z.pow2_bits_true. }
    by rewrite H, Z.testbit_0_l in Ht.
  - apply negb_false_iff, Z.eqb_eq. apply Z.bits_inj'. intros m Hm. rewrite Z.land_spec, Z.testbit_0_l.
    destruct (decide (m = k)) as [->|]; [by rewrite E|]. rewrite (Z.pow2_bits_false k m) by done. apply andb_false_r.
Qed.

(** ** Lemmas: segmented downloads *)

(** What the record of a segmented download says after some pieces are marked. *)
Definition seg_state (total n : Z) (pieces : gset Z) (d : Download) : Prop :=
  d_totalLength d = total /\ 0 <= d_completedLen d <= total /\ d_numPieces d = n
  /\ d_donePieces d = Z.of_nat (size pieces) /\ hex_text n (d_bitfield d)
  /\ forall i, 0 <= i < n -> hex_bit (d_bitfield d) i = bool_decide (i ∈ pieces).

Lemma seg_state_completed (total n : Z) (pieces : gset Z) (d : Download) (c : Z) :
  seg_state total n pieces d -> 0 <= c <= total -> seg_state total n pieces (d <| d_completedLen := c |>).
Proof. intros (H1 & _ & H3 & H4 & H5 & H6) Hc. unfold seg_state. split_and!; try done; apply Hc. Qed.

Lemma seg_step (total n : Z) (pieces : gset Z) (d : Download) (op : seg_op) :
  0 < total -> 1 < n -> seg_op_ok total op -> seg_state total n pieces d ->
  seg_state total n (pieces ∪ marked n [op]) (run_seg d op).
Proof.
  intros Htot Hn Hop Hst. pose proof Hst as (H1 & H2 & H3 & H4 & H5 & H6).
  assert (forall k, k <= max_int64 - total -> 0 < k -> in_int64 (d_completedLen d + k)) as Hsum
    by (unfold in_int64, min_int64, max_int64; intros; lia).
  destruct op as [k|k|i]; simpl in Hop |- *; unfold marked; simpl.
  - rewrite union_empty_r_L. unfold addCompleted. destruct (Z.leb_spec k 0) as [|Hk]; [done|].
    cbv zeta. unfold addInt64. simpl. rewrite !wrap64_id by by apply Hsum. rewrite H1.
    destruct (Z.ltb_spec 0 total); [|lia]. cbn [andb].
    destruct (Z.ltb_spec total (d_completedLen d + k)); simpl; rewrite H3;
      (destruct (Z.leb_spec n 1); [lia|]); rewrite andb_false_r.
    + apply (seg_state_completed total n pieces d total Hst). lia.
    + apply (seg_state_completed total n pieces d (wrap64 (d_completedLen d + k)) Hst).
      rewrite wrap64_id by by apply Hsum. lia.
  - rewrite union_empty_r_L. unfold rollbackCompleted. destruct (Z.leb_spec k 0) as [|Hk]; [done|]. cbv zeta.
    rewrite wrap64_id by (unfold in_int64, min_int64, max_int64 in *; lia).
    apply (seg_state_completed total n pieces d _ Hst). destruct (Z.ltb_spec (d_completedLen d - k) 0); lia.
  - unfold markPieceComplete. rewrite H3. destruct (Z.leb_spec 0 i) as [Hi|Hi].
    2:{ destruct (Z.ltb_spec i 0); [|lia]. simpl. by rewrite union_empty_r_L. }
    destruct (Z.ltb_spec i 0); [lia|]. destruct (Z.ltb_spec i n) as [Hin|Hin].
    2:{ destruct (Z.leb_spec n i); [|lia]. simpl. by rewrite union_empty_r_L. }
    destruct (Z.leb_spec n i); [lia|]. cbn [andb orb].
    destruct H5 as [Hlen Hhex]. destruct (String.eqb_spec (d_bitfield d) "") as [E|_]; [rewrite E in Hlen; simpl in Hlen; lia|].
    assert (Z.to_nat (i / 4) < String.length (d_bitfield d))%nat as Hlt.
    { assert (i / 4 < Z.of_nat (String.length (d_bitfield d))) by (apply Z.div_lt_upper_bound; lia).
      pose proof (Z.div_pos i 4). lia. }
    destruct (Hhex _ Hlt) as (c & v & Hc & Hv). rewrite Hc, Hv. cbv zeta.
    pose proof (Z.mod_pos_bound i 4 ltac:(lia)) as Hm. rewrite land_mask by lia.
    assert (Z.testbit v (3 - i mod 4) = bool_decide (i ∈ pieces)) as Hbit.
    { rewrite <- H6 by lia. unfold hex_bit. by rewrite Hc, Hv. }
    rewrite Hbit. case_bool_decide as Hip.
    + replace (pieces ∪ list_to_set [i]) with pieces by set_solver. exact Hst.
    + assert (pieces ∪ list_to_set [i] = {[i]} ∪ pieces) as -> by set_solver.
      unfold seg_state. split_and!; simpl; try done; try lia.
      * rewrite H4, size_union by set_solver. rewrite size_singleton. lia.
      * split; [by rewrite setChar_length|]. intros k Hk.
        rewrite setChar_length in Hk. rewrite setChar_get by done. case_decide; [|by apply Hhex].
        eexists _, _. split; [done|]. apply hexDigit_decode. apply decodeHexNibble_range in Hv.
        apply lor_nibble; lia.
      * intros j Hj. rewrite (hex_bit_setChar _ i j v c) by (done || lia). rewrite H6 by done.
        destruct (Z.eqb_spec i j) as [->|Hne]; [rewrite orb_true_r; symmetry; apply bool_decide_eq_true_2; set_solver|].
        rewrite orb_false_r. apply bool_decide_ext. set_solver.
Qed.

Lemma marked_cons (n : Z) (op : seg_op) (ops : list seg_op) : marked n (op :: ops) = marked n [op] ∪ marked n ops.
Proof. unfold marked. cbn [omap list_omap]. case_match; set_solver. Qed.

Lemma seg_steps (total n : Z) (ops : list seg_op) (pieces : gset Z) (d : Download) :
  0 < total -> 1 < n -> Forall (seg_op_ok total) ops -> seg_state total n pieces d ->
  seg_state total n (pieces ∪ marked n ops) (foldl run_seg d ops).
Proof.
  intros Htot Hn Hops. revert pieces d. induction Hops as [|op ops Hop Hops IH]; intros pieces d Hst; simpl.
  - unfold marked. simpl. by rewrite union_empty_r_L.
  - rewrite marked_cons, assoc_L by apply _. by apply IH, seg_step.
Qed.

Lemma bitfieldFor_none (total pieceLength : Z) :
  0 < total -> 0 < pieceLength -> ceilDivInt64 total pieceLength <= maxTorrentPieceCount ->
  hex_text (ceilDivInt64 total pieceLength) (bitfieldFor total 0 pieceLength)
  /\ forall i, 0 <= i < ceilDivInt64 total pieceLength -> hex_bit (bitfieldFor total 0 pieceLength) i = false.
Proof.
  intros Ht Hp Hmax. pose proof (ceilDiv_pos total pieceLength Ht Hp) as Hpos. unfold bitfieldFor.
  destruct (Z.leb_spec total 0); [lia|]. destruct (Z.leb_spec pieceLength 0); [lia|]. cbn [orb]. cbv zeta.
  destruct (Z.leb_spec (ceilDivInt64 total pieceLength) 0); [lia|].
  destruct (Z.ltb_spec maxTorrentPieceCount (ceilDivInt64 total pieceLength)); [lia|].
  destruct (Z.ltb_spec max_int64 (ceilDivInt64 total pieceLength)); [unfold maxTorrentPieceCount, max_int64 in *; lia|].
  cbn [orb]. assert (completedPieces total 0 pieceLength = 0) as ->.
  { unfold completedPieces. destruct (Z.leb_spec 0 0); [|lia]. by rewrite orb_true_r. }
  change (seqZ 0 0) with (@nil Z). cbn [foldl]. pose proof (bytes_for (ceilDivInt64 total pieceLength) ltac:(lia)). split.
  - by apply hexEncode_text; [apply zeroBytes_byte|].
  - intros i Hi. rewrite hex_bit_encode by (apply zeroBytes_byte || lia). apply zeroBytes_bit.
Qed.

Lemma resetProgress_state (total chunkSize : Z) (d : Download) :
  0 < total <= max_int64 -> 1 < Z.of_nat (length (makeChunks total chunkSize)) ->
  seg_state total (Z.of_nat (length (makeChunks total chunkSize))) ∅
    (resetProgress total (makeChunks total chunkSize) d).
Proof.
  intros Ht Hn. pose proof (effectiveChunkSize_pos total chunkSize) as Hs.
  assert (ceilDivInt64 total (effectiveChunkSize total chunkSize) <= maxHTTPSegmentCount) as Hmax.
  { apply ceilDiv_le; [done|by vm_compute|].
    pose proof (ceilDiv_spec total maxHTTPSegmentCount ltac:(lia) ltac:(by vm_compute)).
    assert (ceilDivInt64 total maxHTTPSegmentCount <= effectiveChunkSize total chunkSize)
      by (unfold effectiveChunkSize; lia).
    unfold maxHTTPSegmentCount in *. nia. }
  unfold makeChunks in *. destruct (Z.leb_spec total 0); [simpl in Hn; lia|]. cbv zeta in *.
  set (size := effectiveChunkSize total chunkSize) in *.
  pose proof (ceilDiv_spec total size ltac:(lia) Hs) as Hc.
  pose proof (ceilDiv_pos total size ltac:(lia) Hs) as Hpos.
  destruct (chunksFrom_spec (Z.to_nat (ceilDivInt64 total size)) 0 total size) as [Hl Hcs]; [lia..|nia|].
  rewrite Z.sub_0_r in Hl. rewrite Hl in *.
  destruct (chunksFrom _ 0 total size) as [|c cs] eqn:Ecs; [simpl in Hl; lia|].
  destruct (Hcs 0%nat c eq_refl) as (Hst & Hend & _).
  assert (addInt64 (wrap64 (ch_end c - ch_start c)) 1 = size) as Hsize.
  { assert (size < total) by nia. rewrite Hend, Hst, Z.min_l by lia. unfold addInt64.
    replace (0 + Z.of_nat 0 * size + size - 1 - (0 + Z.of_nat 0 * size)) with (size - 1) by lia.
    rewrite (wrap64_id (size - 1)) by (unfold in_int64, min_int64, max_int64 in *; lia).
    rewrite wrap64_id by (unfold in_int64, min_int64, max_int64 in *; lia). lia. }
  destruct (bitfieldFor_none total size) as [Hhex Hbit]; [lia..|by etransitivity; [exact Hmax|]|].
  unfold seg_state, resetProgress, recountPieces, nonNegativeLength. cbv zeta. rewrite Hsize.
  destruct (Z.ltb_spec total 0); [lia|]. split_and!; simpl; try done; try lia.
  unfold completedPieces. simpl. by rewrite orb_true_r.
Qed.

(** ** Lemmas: the files of a torrent *)

Definition file_ok (finalized : gset Z) (s : torrentFileState) : Prop :=
  0 <= tf_Completed s <= tf_Length s /\ (tf_Index s ∈ finalized -> tf_Completed s = tf_Length s).

Lemma clampProgress_ok (finalized : gset Z) (s : torrentFileState) :
  0 <= tf_Length s -> file_ok finalized (clampProgress finalized s).
Proof.
  intros Hl. unfold clampProgress, file_ok. case_bool_decide; [simpl; lia|].
  repeat case_match; zbool; simpl in *; split; try done; lia.
Qed.

Lemma clampProgress_key (finalized : gset Z) (s : torrentFileState) :
  tf_Index (clampProgress finalized s) = tf_Index s /\ tf_Length (clampProgress finalized s) = tf_Length s
  /\ tf_Selected (clampProgress finalized s) = tf_Selected s.
Proof. unfold clampProgress. by repeat case_match. Qed.

(** What never changes of a file. *)
Definition file_key (s : torrentFileState) : Z * Z * bool := (tf_Index s, tf_Length s, tf_Selected s).

Lemma sumSelected_key (l l' : list torrentFileState) :
  map file_key l = map file_key l' -> sumSelected tf_Length l = sumSelected tf_Length l'.
Proof.
  unfold sumSelected. generalize 0. revert l'. induction l as [|s l IH]; intros [|s' l'] t H; simpl in *; try done.
  injection H as H1 H2 H3 H. rewrite H2, H3. by apply IH.
Qed.

Lemma map_clamp_key (finalized : gset Z) (l : list torrentFileState) :
  map file_key (map (clampProgress finalized) l) = map file_key l.
Proof.
  rewrite map_map. apply map_ext. intros s. unfold file_key.
  by destruct (clampProgress_key finalized s) as (-> & -> & ->).
Qed.

Lemma map_key_length_nonneg (l l' : list torrentFileState) :
  map file_key l = map file_key l' -> Forall (fun s => 0 <= tf_Length s) l -> Forall (fun s => 0 <= tf_Length s) l'.
Proof.
  revert l'. induction l as [|s l IH]; intros [|s' l'] H Hl; simpl in *; try done.
  injection H as _ H2 _ H. inversion Hl; subst. constructor; [lia|]. by apply IH.
Qed.

Lemma recountFiles_consistent (d : Download) :
  Forall (fun s => 0 <= tf_Length s) (d_torrentFiles d) ->
  files_consistent (recountFiles d) /\ map file_key (d_torrentFiles (recountFiles d)) = map file_key (d_torrentFiles d).
Proof.
  intros Hl. split; [|apply map_clamp_key]. split_and!; [|done..].
  simpl. apply Forall_fmap, (Forall_impl _ _ _ Hl). intros s Hs. by apply clampProgress_ok.
Qed.

Lemma refreshFiles_ok (finalized : gset Z) (l : list torrentFileState) (snapshots : list fileSnapshot) :
  Forall (file_ok finalized) l ->
  Forall (file_ok finalized) (refreshFiles l snapshots finalized)
  /\ map file_key (refreshFiles l snapshots finalized) = map file_key l.
Proof.
  intros Hl. revert snapshots. induction Hl as [|s l [Hr Hf] Hl IH]; intros snapshots; [done|]. simpl.
  destruct (IH (tail snapshots)) as [IH1 ->]. split; [constructor; [|done]|done].
  unfold file_ok, verifiedTorrentFileProgress. simpl. case_bool_decide; [lia|].
  destruct snapshots as [|sn snapshots]; [by split|]. split; [|done]. repeat case_match; zbool; lia.
Qed.

(** Reconciling keeps the files, finalizes only files of the torrent, and counts what it
    finalizes. *)
Lemma releasedFiles_spec (l : list torrentFileState) (snapshots : list fileSnapshot) (finalized : gset Z) :
  let r := releasedFiles l snapshots finalized in
  map file_key r.1.1 = map file_key l /\ finalized ⊆ r.1.2 /\ 0 <= r.2
  /\ (r.2 = 0 -> r.1 = (l, finalized)) /\ r.1.2 ⊆ finalized ∪ list_to_set (map tf_Index l).
Proof.
  revert snapshots finalized. induction l as [|s l IH]; intros [|sn snapshots] finalized; simpl;
    try by split_and!; try done; try lia; set_solver.
  case_match.
  - specialize (IH snapshots finalized). destruct (releasedFiles l snapshots finalized) as [[l' f'] n].
    destruct IH as (H1 & H2 & H3 & H4 & H5). simpl in *. rewrite H1. split_and!; [done..| |set_solver].
    intros Hn. specialize (H4 Hn). by simplify_eq.
  - specialize (IH snapshots ({[tf_Index s]} ∪ finalized)).
    destruct (releasedFiles l snapshots ({[tf_Index s]} ∪ finalized)) as [[l' f'] n].
    destruct IH as (H1 & H2 & H3 & H4 & H5). simpl in *. rewrite H1. split_and!; [done|set_solver|lia|lia|set_solver].
Qed.

Lemma files_consistent_length (d : Download) :
  files_consistent d -> Forall (fun s => 0 <= tf_Length s) (d_torrentFiles d).
Proof. intros (H & _). apply (Forall_impl _ _ _ H). intros s [? _]. lia. Qed.

(** One operation on a torrent's progress. *)
Lemma torrent_step (d : Download) (op : torrent_op) :
  files_consistent d ->
  let d' := run_torrent_op d op in
  files_consistent d' /\ map file_key (d_torrentFiles d') = map file_key (d_torrentFiles d)
  /\ d_torrentFinalized d ⊆ d_torrentFinalized d'
  /\ d_torrentFinalized d' ⊆ d_torrentFinalized d ∪ list_to_set (map tf_Index (d_torrentFiles d)).
Proof.
  intros Hd. pose proof (files_consistent_length d Hd) as Hlen. destruct op as [i runs|snapshots|stats snapshots runs]; simpl.
  - unfold markTorrentFileFinalized. cbv zeta. destruct (existsb _ _) eqn:E; simpl; [|split_and!; try done; set_solver].
    apply existsb_exists in E as (s & Hs & Hi). zbool. apply list_elem_of_In in Hs.
    set (d1 := d <| d_torrentFinalized ::= _ |>). destruct (recountFiles_consistent d1 Hlen) as [(H1 & H2 & H3) Hk].
    destruct (match runs with Some _ => _ | None => _ end) as [done bitfield]. split_and!; [by split_and!|exact Hk|simpl; set_solver|].
    simpl. rewrite <- Hi. apply union_least; [|set_solver]. apply singleton_subseteq_l, elem_of_union_r, elem_of_list_to_set.
    by apply list_elem_of_fmap_2.
  - unfold reconcileReleasedTorrentFiles. pose proof (releasedFiles_spec (d_torrentFiles d) snapshots (d_torrentFinalized d)) as H.
    destruct (releasedFiles _ _ _) as [[files finalized] n] eqn:E. simpl in H. destruct H as (H1 & H2 & H3 & H4 & H5).
    destruct (Z.eqb_spec n 0) as [Hn|Hn]; simpl.
    + specialize (H4 Hn). simplify_eq. split_and!; [|done..]. exact Hd.
    + set (d1 := d <| d_torrentFiles := files |> <| d_torrentFinalized := finalized |>).
      destruct (recountFiles_consistent d1) as [Hc Hk]; [by eapply map_key_length_nonneg|].
      split_and!; [done| |done..]. etransitivity; [exact Hk|exact H1].
  - destruct Hd as (H1 & H2 & H3). unfold updateTorrentProgress. cbv zeta.
    destruct (torrentPieceProgress runs) as [done bitfield].
    destruct (refreshFiles_ok (d_torrentFinalized d) (d_torrentFiles d) snapshots H1) as [Hok Hk].
    split_and!; [split_and!; [exact Hok| |done]|exact Hk|done|set_solver].
    simpl. rewrite H2. by apply sumSelected_key.
Qed.

Lemma map_index_key (l l' : list torrentFileState) :
  map file_key l = map file_key l' -> map tf_Index l = map tf_Index l'.
Proof.
  intros H. assert (forall k, map tf_Index k = map (fun p => p.1.1) (map file_key k)) as E by (intros k; by rewrite map_map).
  by rewrite (E l), (E l'), H.
Qed.

(** ** Properties *)

(** After [resetProgress] of a download split into several chunks, whatever its
    workers report (bytes added, bytes rolled back, pieces marked, in any order and
    any number of times) the completed length stays between zero and the total, and
    the bitfield and the count of done pieces are exactly those of the distinct
    valid pieces that were marked. *)
Theorem segmented_progress_exact (total chunkSize : Z) (d : Download) (ops : list seg_op) :
  0 < total <= max_int64 -> 1 < Z.of_nat (length (makeChunks total chunkSize)) ->
  Forall (seg_op_ok total) ops ->
  let n := Z.of_nat (length (makeChunks total chunkSize)) in
  let d' := foldl run_seg (resetProgress total (makeChunks total chunkSize) d) ops in
  d_totalLength d' = total /\ 0 <= d_completedLen d' <= total /\ d_numPieces d' = n
  /\ d_donePieces d' = Z.of_nat (size (marked n ops))
  /\ forall i, 0 <= i < n -> hex_bit (d_bitfield d') i = bool_decide (i ∈ marked n ops).
Proof.
  intros Ht Hn Hops. cbv zeta. pose proof (resetProgress_state total chunkSize d Ht Hn) as H0.
  destruct (seg_steps total _ ops ∅ _ ltac:(lia) Hn Hops H0) as (H1 & H2 & H3 & H4 & _ & H6).
  rewrite union_empty_l_L in H4, H6. split_and!; [exact H1|apply H2..|exact H3|exact H4|exact H6].
Qed.

Lemma segmented_progress_exact_witness :
  let ops := [SegAdd 30; SegMark 1; SegMark 1; SegMark 9; SegRollback 100; SegAdd 40; SegMark 3] in
  let d := newDownload "0123456789abcdef" ["http://h/f"] noOptions 0 in
  let d' := foldl run_seg (resetProgress 100 (makeChunks 100 30) d) ops in
  d_bitfield d' = "50" /\ marked 4 ops = {[1; 3]} /\ d_donePieces d' = Z.of_nat (size (marked 4 ops)).
Proof.
  cbv zeta. split; [by vm_compute|]. split; [by vm_compute|].
  apply (segmented_progress_exact 100 30); [by vm_compute|by vm_compute|].
  repeat constructor; by vm_compute.
Defined.

(** C12: for any history of finalizations, reconciliations with released files and live
    updates of a torrent, the reported totals are the sums over the selected files,
    every file's completed length lies between zero and its length, a finalized file
    is complete and stays finalized, and only files of the torrent become finalized;
    the files themselves (indexes, lengths, selection) never change. *)
Theorem torrent_progress_consistent (d : Download) (ops : list torrent_op) :
  files_consistent d ->
  let d' := foldl run_torrent_op d ops in
  files_consistent d' /\ map file_key (d_torrentFiles d') = map file_key (d_torrentFiles d)
  /\ d_totalLength d' = d_totalLength d
  /\ d_torrentFinalized d ⊆ d_torrentFinalized d'
  /\ d_torrentFinalized d' ⊆ d_torrentFinalized d ∪ list_to_set (map tf_Index (d_torrentFiles d)).
Proof.
  cbv zeta. revert d. induction ops as [|op ops IH]; intros d Hd; [split_and!; try done; set_solver|]. simpl.
  destruct (torrent_step d op Hd) as (Hd1 & Hk1 & Hs1 & Hf1).
  destruct (IH _ Hd1) as (Hd2 & Hk2 & Ht2 & Hs2 & Hf2). split_and!; [done|by rewrite Hk2| |set_solver|].
  - rewrite Ht2. destruct Hd1 as (_ & -> & _), Hd as (_ & -> & _). by apply sumSelected_key.
  - rewrite (map_index_key _ _ Hk1) in Hf2. set_solver.
Qed.

Lemma torrent_progress_consistent_witness :
  let d := newDownload "0123456789abcdef" [] noOptions 0
             <| d_torrentFiles := [mkFileState 1 "/d/a" 30 10 true; mkFileState 2 "/d/b" 12 0 false] |>
             <| d_totalLength := 30 |> <| d_completedLen := 10 |> in
  let ops := [TorFinalize 1 None; TorUpdate (mkStats 3 1 2 false) [mkSnapshot false 99] []; TorReconcile [mkSnapshot true 0]] in
  d_completedLen (foldl run_torrent_op d ops) = 30 /\ files_consistent (foldl run_torrent_op d ops).
Proof.
  cbv zeta. split; [by vm_compute|]. apply torrent_progress_consistent.
  split_and!; [|by vm_compute..]. repeat constructor; simpl; by vm_compute.
Defined.
