(* ===== verification/Query.v ===== *)
(** * Queries ([query.go], [torrent_download.go])

    What the engine reports: the snapshot of a download, whole or by keys, its files,
    URIs, servers and peers, the listings of active, waiting and stopped downloads
    with their paging, and the global statistics.  Queries change nothing. *)
From stdpp Require Import sorting.
From S2P Require Import Prelude GoStrings GoPath GoURL GoNet Pieces Options Reservations Filename Torrent Queue State Engine.

(** ** Files *)

Record FileInfo := mkFileInfo {
  fi_Index : string; fi_Path : string; fi_Length : string; fi_CompletedLength : string;
  fi_Selected : string; fi_URIs : list URIInfo
}.

Definition torrentFileInfo (uris : list URIInfo) (f : torrentFileState) : FileInfo :=
  mkFileInfo (Itoa (tf_Index f)) (tf_Path f) (FormatInt (tf_Length f)) (FormatInt (tf_Completed f))
    (FormatBool (tf_Selected f)) uris.

(** The path reported for a URI download: the output path, or the one it would get. *)
Definition reportedPath (d : Download) : string :=
  if String.eqb (d_path d) "" then
    let name := d_out d in
    let name := match d_uris d with
                | u :: _ => if String.eqb name "" then filenameFromURI (URI u) else name
                | [] => name
                end in
    let name := if String.eqb name "" then d_gid d else name in
    JoinPath [d_dir d; name]
  else d_path d.

Definition filesLocked (d : Download) : list FileInfo :=
  if bool_decide (d_kind d = downloadKindTorrent) then map (torrentFileInfo (d_uris d)) (d_torrentFiles d)
  else [mkFileInfo "1" (reportedPath d) (FormatInt (d_totalLength d)) (FormatInt (d_completedLen d)) "true" (d_uris d)].

(** ** Snapshots *)

(** The values of a status map. *)
Inductive field := FText (s : string) | FFiles (files : list FileInfo) | FBittorrent (b : BittorrentInfo).

Definition isTorrent (d : Download) : bool := bool_decide (d_kind d = downloadKindTorrent).

(** [snapshot] without keys. *)
Definition snapshotAll (d : Download) : gmap string field :=
  let all : gmap string field :=
    list_to_map [
      ("gid", FText (d_gid d));
      ("status", FText (statusText (d_status d)));
      ("totalLength", FText (FormatInt (d_totalLength d)));
      ("completedLength", FText (FormatInt (d_completedLen d)));
      ("uploadLength", FText "0");
      ("downloadSpeed", FText (FormatInt (d_downloadBPS d)));
      ("uploadSpeed", FText "0");
      ("connections", FText (Itoa (d_connections d)));
      ("numPieces", FText (FormatInt (d_numPieces d)));
      ("pieceLength", FText (FormatInt (d_pieceLength d)));
      ("bitfield", FText (d_bitfield d));
      ("dir", FText (d_dir d));
      ("files", FFiles (filesLocked d))] in
  let all :=
    if isTorrent d then
      let all := <["infoHash" := FText (d_infoHash d)]> all in
      let all := <["numSeeders" := FText (Itoa (d_numSeeders d))]> all in
      let all := <["seeder" := FText (FormatBool (d_seeder d))]> all in
      match d_bittorrent d with Some b => <["bittorrent" := FBittorrent b]> all | None => all end
    else all in
  let all := if String.eqb (d_errorCode d) "" then all else <["errorCode" := FText (d_errorCode d)]> all in
  if String.eqb (d_errorMessage d) "" then all else <["errorMessage" := FText (d_errorMessage d)]> all.

(** The value a key of the list adds, if any. *)
Definition snapshotKey (d : Download) (key : string) : option field :=
  if String.eqb key "gid" then Some (FText (d_gid d))
  else if String.eqb key "status" then Some (FText (statusText (d_status d)))
  else if String.eqb key "totalLength" then Some (FText (FormatInt (d_totalLength d)))
  else if String.eqb key "completedLength" then Some (FText (FormatInt (d_completedLen d)))
  else if String.eqb key "uploadLength" then Some (FText "0")
  else if String.eqb key "downloadSpeed" then Some (FText (FormatInt (d_downloadBPS d)))
  else if String.eqb key "uploadSpeed" then Some (FText "0")
  else if String.eqb key "connections" then Some (FText (Itoa (d_connections d)))
  else if String.eqb key "numPieces" then Some (FText (FormatInt (d_numPieces d)))
  else if String.eqb key "pieceLength" then Some (FText (FormatInt (d_pieceLength d)))
  else if String.eqb key "bitfield" then Some (FText (d_bitfield d))
  else if String.eqb key "dir" then Some (FText (d_dir d))
  else if String.eqb key "files" then Some (FFiles (filesLocked d))
  else if String.eqb key "infoHash" then if isTorrent d then Some (FText (d_infoHash d)) else None
  else if String.eqb key "numSeeders" then if isTorrent d then Some (FText (Itoa (d_numSeeders d))) else None
  else if String.eqb key "seeder" then if isTorrent d then Some (FText (FormatBool (d_seeder d))) else None
  else if String.eqb key "bittorrent" then if isTorrent d then FBittorrent <$> d_bittorrent d else None
  else if String.eqb key "errorCode" then if String.eqb (d_errorCode d) "" then None else Some (FText (d_errorCode d))
  else if String.eqb key "errorMessage" then
    if String.eqb (d_errorMessage d) "" then None else Some (FText (d_errorMessage d))
  else None.

Definition snapshot (keys : list string) (d : Download) : gmap string field :=
  match keys with
  | [] => snapshotAll d
  | _ => foldl (fun filtered key =>
           match snapshotKey d key with Some v => <[key := v]> filtered | None => filtered end) ∅ keys
  end.

(** ** Listings *)

(** The order of the map-based listings: creation time, then gid. *)
Definition created_le (x y : Download) : Prop :=
  d_createdAt x < d_createdAt y \/ (d_createdAt x = d_createdAt y /\ String.le (d_gid x) (d_gid y)).
#[export] Instance created_le_dec : RelDecision created_le.
Proof. intros x y. unfold created_le. apply _. Defined.

(** The downloads of the map, with their keys, in map order. *)
Definition registered (e : Engine) : list (string * Download) :=
  omap (fun kv => (fun d => (kv.1, d)) <$> e_heap e !! kv.2) (map_to_list (e_downloads e)).

Definition downloadsByStatus (status : Status) (e : Engine) : list Download :=
  merge_sort created_le (filter (fun d => d_status d = status) (map snd (registered e))).

Definition lookupAll (gids : list string) (e : Engine) : list (string * Download) :=
  omap (fun gid => (fun r : loc * Download => (gid, r.2)) <$> lookupDownload gid e) gids.

Definition waitingDownloads (e : Engine) : list Download :=
  let items := lookupAll (e_waiting e) e in
  let seen : gset string := list_to_set (map fst items) in
  let paused := filter (fun kv : string * Download => kv.1 ∉ seen /\ d_status kv.2 = StatusPaused) (registered e) in
  map snd items ++ merge_sort created_le (map snd paused).

Definition stoppedDownloads (e : Engine) : list Download := map snd (lookupAll (e_stopped e) e).

(** [sliceDownloads]: a page from the front, or backwards from the end. *)
Definition sliceDownloads {A} (items : list A) (offset num : Z) : list A :=
  let num := if num <? 0 then 0 else num in
  let n := Z.of_nat (length items) in
  if (num =? 0) || (n =? 0) then []
  else if 0 <=? offset then
    if n <=? offset then []
    else
      let remaining := n - offset in
      let num := if remaining <? num then remaining else num in
      take (Z.to_nat num) (drop (Z.to_nat offset) items)
  else
    let start := n + offset in
    let start := if start <? 0 then 0 else start in
    take (Z.to_nat num) (rev (take (Z.to_nat (start + 1)) items)).

Definition TellStatus (gid : string) (keys : list string) (e : Engine) : result (gmap string field) :=
  let! r := findDownloadLocked gid e in Ok (snapshot keys r.2).

Definition TellActive (keys : list string) (e : Engine) : list (gmap string field) :=
  map (snapshot keys) (downloadsByStatus StatusActive e).

Definition TellWaiting (offset num : Z) (keys : list string) (e : Engine) : list (gmap string field) :=
  map (snapshot keys) (sliceDownloads (waitingDownloads e) offset num).

Definition TellStopped (offset num : Z) (keys : list string) (e : Engine) : list (gmap string field) :=
  map (snapshot keys) (sliceDownloads (stoppedDownloads e) offset num).

(** ** Details of a download *)

Definition GetURIs (gid : string) (e : Engine) : result (list URIInfo) :=
  let! r := findDownloadLocked gid e in Ok (d_uris r.2).

Definition GetFiles (gid : string) (e : Engine) : result (list FileInfo) :=
  let! r := findDownloadLocked gid e in Ok (filesLocked r.2).

Definition currentOrOriginal (current original : string) : string :=
  if String.eqb current "" then original else current.

Record ServerInfo := mkServer { sv_URI : string; sv_CurrentURI : string; sv_DownloadSpeed : string }.

(** The servers of the one file, whose index is 1. *)
Definition GetServers (gid : string) (e : Engine) : result (list ServerInfo) :=
  let! r := findDownloadLocked gid e in
  Ok (map (fun u => mkServer (URI u) (currentOrOriginal (d_currentURI r.2) (URI u)) (FormatInt (d_downloadBPS r.2)))
        (d_uris r.2)).

(** *** Peers *)

(** A peer as the torrent library reports it, the rates as integers. *)
Record PeerSnapshot := mkPeer {
  pe_PeerID : string; pe_RemoteAddr : string; pe_RemoteBitfield : list Z; pe_LocalChoking : bool;
  pe_RemoteChoking : bool; pe_DownloadRate : Z; pe_LastWriteUploadRate : Z; pe_Seeder : bool
}.

(** The peers of a live torrent; none when the runtime has no torrent yet. *)
Class PeerLib := PeerSnapshots : torrentRuntime -> list PeerSnapshot.

Definition peerInfo (peer : PeerSnapshot) : list (string * string) :=
  let '(host, port) := default (pe_RemoteAddr peer, "0") (SplitHostPort (pe_RemoteAddr peer)) in
  [("peerId", QueryEscape (pe_PeerID peer));
   ("ip", host);
   ("port", port);
   ("bitfield", hexEncode (pe_RemoteBitfield peer));
   ("amChoking", FormatBool (pe_LocalChoking peer));
   ("peerChoking", FormatBool (pe_RemoteChoking peer));
   ("downloadSpeed", FormatInt (pe_DownloadRate peer));
   ("uploadSpeed", FormatInt (pe_LastWriteUploadRate peer));
   ("seeder", FormatBool (pe_Seeder peer))].

Definition torrentPeersLocked {peers : PeerLib} (d : Download) : list (list (string * string)) :=
  match d_torrent d with Some rt => map peerInfo (PeerSnapshots rt) | None => [] end.

Definition GetPeers {peers : PeerLib} (gid : string) (e : Engine) : result (list (list (string * string))) :=
  let! r := findDownloadLocked gid e in
  Ok (if isTorrent r.2 then torrentPeersLocked r.2 else []).

(** ** Statistics *)

Record GlobalStat := mkStat {
  gs_DownloadSpeed : string; gs_UploadSpeed : string; gs_NumActive : string; gs_NumWaiting : string;
  gs_NumStopped : string; gs_NumStoppedTotal : string
}.

(** The running totals: speed, active, waiting. *)
Definition countDownload (acc : Z * Z * Z) (d : Download) : Z * Z * Z :=
  let '(speed, active, waiting) := acc in
  match d_status d with
  | StatusActive =>
      let speed := if max_int64 - speed <? d_downloadBPS d then max_int64
                   else if 0 <? d_downloadBPS d then speed + d_downloadBPS d else speed in
      (speed, active + 1, waiting)
  | StatusWaiting | StatusPaused => (speed, active, waiting + 1)
  | _ => acc
  end.

Definition globalTotals (e : Engine) : Z * Z * Z := foldl countDownload (0, 0, 0) (map snd (registered e)).

Definition GetGlobalStat (e : Engine) : GlobalStat :=
  let '(speed, active, waiting) := globalTotals e in
  mkStat (FormatInt speed) "0" (Itoa active) (Itoa waiting) (Itoa (Z.of_nat (length (e_stopped e))))
    (Itoa (e_stoppedTotal e)).

Record VersionInfo := mkVersion { vi_Version : string; vi_EnabledFeatures : list string }.

Definition Aria2CompatVersion : string := "1.37.0".

Definition GetVersion : VersionInfo :=
  mkVersion Aria2CompatVersion ["BitTorrent"; "HTTP"; "HTTPS"; "JSON-RPC"; "WebSocket"].
