(* ===== verification/Session.v ===== *)
(** * Session files ([session.go])

    The text format of saved sessions: entries are written as a line of URIs and
    indented option lines, and parsed back line by line; the layers of options and
    the finalized files of torrents travel as private options.  The disk is a record
    of outcomes, the file's content is a text. *)
From stdpp Require Import sorting.
From S2P Require Import Prelude GoStrings GoPath GoURL Text Base64 Json Pieces Options Reservations Torrent Queue State Engine Progress.

Definition sessionTorrentDataURIPrefix : string := "data:application/x-bittorrent;base64,".
Definition maxSessionFileSize : Z := 268435456.
Definition maxSessionDownloads : Z := 10000.
Definition maxSessionURIsPerDownload : Z := 65.
Definition maxSessionOptionKeys : Z := maxDownloadOptionKeys * 2 + 4.
Definition maxSessionEffectiveOptions : Z := maxDownloadOptionKeys * 2 + 2.
Definition maxSessionOptionValues : Z := 64.

Record sessionDownload := mkSessionDownload {
  sd_gid : string;
  sd_uris : list string;
  sd_options : gmap string rpcval;
  sd_createdAt : Z;
  sd_order : Z
}.

Record sessionItem := mkSessionItem { si_line : Z; si_uris : list string; si_options : Options }.

Definition newline : ascii := ascii_of_N 10.
Definition tab : ascii := ascii_of_N 9.

(** ** Parsing *)

(** [bufio.ScanLines]: the lines with their carriage returns. *)
Definition scanLines (s : string) : list string :=
  match rev (Split s newline) with
  | "" :: front => rev front
  | _ => Split s newline
  end.

Definition dropCR (line : string) : string := TrimSuffix line (String (ascii_of_N 13) "").

Definition sessionMaxLineSize : Z := EncodedLen maxSupportedTorrentSize + len sessionTorrentDataURIPrefix + 1048576.

Definition addOption (key : string) (value : oval) (i : sessionItem) : result sessionItem :=
  if badOptionKey key then Err (EText ("invalid option key " +:+ quoted key))
  else
    let valueText := Sprint value in
    if maxDownloadOptionValueSize <? len valueText then
      Err (EText ("value for option " +:+ quoted key +:+ " is too large"))
    else
      let put v := Ok (mkSessionItem (si_line i) (si_uris i) (setOption key v (si_options i))) in
      match own (si_options i) !! key with
      | Some (VStrs p) =>
          if maxSessionOptionValues <=? Z.of_nat (length p) then
            Err (EText ("too many values for option " +:+ quoted key))
          else put (VStrs (p ++ [valueText]))
      | Some p => put (VStrs [Sprint p; valueText])
      | None =>
          if maxSessionOptionKeys <=? Z.of_nat (size (own (si_options i))) then Err (EText "too many options")
          else put value
      end.

Definition isSessionOptionLine (line : string) : bool :=
  match line with
  | "" => false
  | String a _ => Ascii.eqb a " " || Ascii.eqb a tab
  end.

(** The state of the scan. *)
Record scan := mkScan {
  sc_items : list sessionItem;
  sc_current : option sessionItem;
  sc_line : Z;
  sc_total : Z
}.

Definition flush (s : scan) : list sessionItem :=
  match sc_current s with
  | Some i => match si_uris i with [] => sc_items s | _ => sc_items s ++ [i] end
  | None => sc_items s
  end.

Definition atLine {A} (lineNo : Z) (r : result A) : result A :=
  match r with Ok a => Ok a | Err err => Err (EWrap ("line " +:+ FormatInt lineNo) err) end.

(** One line of the loop; [raw] still has its carriage return. *)
Definition sessionLine (raw : string) (s : scan) : result scan :=
  if sessionMaxLineSize <=? len raw then
    atLine (sc_line s + 1) (Err (EText "bufio.Scanner: token too long"))
  else
    let line := dropCR raw in
    let lineNo := sc_line s + 1 in
    let total := sc_total s + len line + 1 in
    if maxSessionFileSize <? total then Err (EText "session exceeds maximum size 268435456")
    else
      let trimmed := TrimSpace line in
      if String.eqb trimmed "" || HasPrefix trimmed "#" then
        Ok (mkScan (sc_items s) (sc_current s) lineNo total)
      else if isSessionOptionLine line then
        atLine lineNo
          match sc_current s with
          | None => Err (EText "option without URI")
          | Some current =>
              match Cut trimmed "=" with
              | None => Err (EText "invalid option")
              | Some (key, value) =>
                  let key := TrimSpace key in
                  if String.eqb key "" then Err (EText "invalid option")
                  else
                    let! current := addOption key (normalizeOptionValue (VStr (TrimSpace value))) current in
                    Ok (mkScan (sc_items s) (Some current) lineNo total)
              end
          end
      else
        let items := flush s in
        let uris := Fields trimmed in
        if maxSessionURIsPerDownload <? Z.of_nat (length uris) then atLine lineNo (Err (EText "too many URIs"))
        else if maxSessionDownloads <=? Z.of_nat (length items) then
          atLine lineNo (Err (EText "too many session downloads"))
        else Ok (mkScan items (Some (mkSessionItem lineNo uris noOptions)) lineNo total).

Fixpoint sessionLines (lines : list string) (s : scan) : result scan :=
  match lines with
  | [] => Ok s
  | raw :: rest => let! s := sessionLine raw s in sessionLines rest s
  end.

Definition parseSession (text : string) : result (list sessionItem) :=
  let! s := sessionLines (scanLines text) (mkScan [] None 0 0) in Ok (flush s).

(** ** Private options *)

Definition encodeSessionTorrentDataURI (data : string) : string :=
  sessionTorrentDataURIPrefix +:+ EncodeToString StdEncoding data.

(** The decoder reads a stream: which of the two errors an input gets that is both
    corrupt and too large is not modelled. *)
Definition decodeSessionTorrentDataURI (raw : string) (maxSize : Z) : result (option string) :=
  match CutPrefix raw sessionTorrentDataURIPrefix with
  | None => Ok None
  | Some encoded =>
      let maxSize := if (maxSize <=? 0) || (maxSupportedTorrentSize <? maxSize) then maxSupportedTorrentSize else maxSize in
      match DecodeString StdEncoding encoded with
      | None => Err (EWrap "invalid session torrent data URI" (EText "illegal base64 data"))
      | Some data => if maxSize <? len data then Err (ETorrentSize maxSize) else Ok (Some data)
      end
  end.

Definition badFinalizedIndex (item : string) : error :=
  EText ("invalid " +:+ sessionTorrentFinalizedOption +:+ " index " +:+ quoted item).

Fixpoint parseIndexes (items : list string) (indexes : gset Z) : result (gset Z) :=
  match items with
  | [] => Ok indexes
  | item :: rest =>
      let item := TrimSpace item in
      match Atoi item with
      | Some index => if index <? 1 then Err (badFinalizedIndex item) else parseIndexes rest ({[index]} ∪ indexes)
      | None => Err (badFinalizedIndex item)
      end
  end.

(** [Ok None] is the absent option. *)
Definition parseSessionTorrentFinalizedIndexes (opts : Options) : result (option (gset Z)) :=
  if negb (optionExplicit opts sessionTorrentFinalizedOption) then Ok None
  else
    let raw := TrimSpace (optionString opts sessionTorrentFinalizedOption) in
    if String.eqb raw "" then Ok (Some ∅)
    else let! indexes := parseIndexes (Split raw ",") ∅ in Ok (Some indexes).

Definition encodeSessionTorrentFinalizedIndexes (indexes : gset Z) : string :=
  Join (map Itoa (merge_sort Z.le (elements indexes))) ",".

Definition sortStrings (l : list string) : list string := merge_sort String.le l.

Definition parseSessionExplicitOptions (opts : Options) : result (option (gset string)) :=
  if negb (optionExplicit opts sessionExplicitOptionsOption) then Ok None
  else
    let raw := optionString opts sessionExplicitOptionsOption in
    let invalid err := Err (EWrap ("invalid " +:+ sessionExplicitOptionsOption) err) in
    match DecodeString RawURLEncoding raw with
    | None => invalid (EText "illegal base64 data")
    | Some decoded =>
        match UnmarshalStrings decoded with
        | None => invalid (EText "invalid JSON")
        | Some keys =>
            if maxDownloadOptionKeys <? Z.of_nat (length keys) then invalid (EText "too many option keys")
            else
              let! _valid := first_error (map (fun key =>
                if invalidOptionKey key then Err (EText ("invalid explicit session option key " +:+ quoted key))
                else Ok tt) keys) in
              Ok (Some (list_to_set keys))
        end
    end.

(** The keys that are written with a download's state instead of its options. *)
Definition state_key (key : string) : bool := in_words key ["gid"; "pause"].

Definition explicitKeys (opts : Options) : list string :=
  filter (fun key => private_key key || state_key key = false) (option_keys opts).

Definition encodeSessionExplicitOptions (opts : Options) : string :=
  EncodeToString RawURLEncoding (MarshalStrings (sortStrings (explicitKeys opts))).

Definition restoreSessionOptionLayers (effective : Options) (explicit : gset string) : Options :=
  let overlays key := state_key key || bool_decide (key ∈ explicit) in
  let base := filter (fun kv => overlays kv.1 = false) (own effective) in
  let overlay := filter (fun kv => overlays kv.1 = true) (own effective) in
  layerOptions (PlainOptions (normalizeOptionValue <$> base)) (PlainOptions (normalizeOptionValue <$> overlay)).

Definition validateRestoredOptionLayers (opts : Options) : result unit :=
  match validateOptionLayerSize opts with
  | Err err => Err (EWrap "too many explicit session options" err)
  | Ok _ =>
      match obase opts with
      | Some base =>
          match validateOptionLayerSize base with
          | Err err => Err (EWrap "too many inherited session options" err)
          | Ok _ => Ok tt
          end
      | None => Ok tt
      end
  end.

(** ** Writing *)

Definition cannotSerialize (gid msg : string) : result unit :=
  Err (EText ("cannot serialize session download " +:+ gid +:+ ": " +:+ msg)).

Definition validateSessionOptionValue (gid key value : string) : result unit :=
  if maxDownloadOptionValueSize <? len value then
    cannotSerialize gid ("option " +:+ quoted key +:+ " value is too large")
  else if ContainsAny value crlf then
    cannotSerialize gid ("option " +:+ quoted key +:+ " value contains a line break")
  else if negb (String.eqb (TrimSpace value) value) then
    cannotSerialize gid ("option " +:+ quoted key +:+ " value has leading or trailing whitespace")
  else Ok tt.

Definition validateSessionURI (gid : string) (i : nat) (raw : string) : result unit :=
  let n := "URI " +:+ FormatInt (Z.of_nat i + 1) in
  if String.eqb raw "" then cannotSerialize gid (n +:+ " is empty")
  else if has_space raw then cannotSerialize gid (n +:+ " contains whitespace")
  else if (i =? 0)%nat && HasPrefix raw "#" then cannotSerialize gid "first URI is parsed as a comment"
  else Ok tt.

Definition validateSessionEntry (gid : string) (kv : string * rpcval) : result unit :=
  let '(key, value) := kv in
  if String.eqb key "" then cannotSerialize gid "option key is empty"
  else if badOptionKey key then
    cannotSerialize gid ("option key " +:+ quoted key +:+ " contains whitespace or '='")
  else
    match value with
    | RStrs l =>
        if maxSessionOptionValues <? Z.of_nat (length l) then
          cannotSerialize gid ("too many values for option " +:+ quoted key)
        else first_error (map (validateSessionOptionValue gid key) l)
    | RStr s => validateSessionOptionValue gid key s
    end.

Definition validateSessionDownload (entry : sessionDownload) : result unit :=
  let gid := sd_gid entry in
  let uriLimit := match sd_uris entry with
                  | raw :: _ => if HasPrefix raw sessionTorrentDataURIPrefix || isMagnetURI raw
                                then maxDownloadURIs + 1 else maxDownloadURIs
                  | [] => maxDownloadURIs
                  end in
  if uriLimit <? Z.of_nat (length (sd_uris entry)) then cannotSerialize gid "too many URIs"
  else
    let! _uris := first_error (imap (validateSessionURI gid) (sd_uris entry)) in
    if maxSessionOptionKeys <? Z.of_nat (size (sd_options entry)) then cannotSerialize gid "too many options"
    else first_error (map (validateSessionEntry gid) (map_to_list (sd_options entry))).

(** The lines of an entry. *)
Definition optionLine (key value : string) : string := "  " +:+ key +:+ "=" +:+ value.

Definition optionLines (options : gmap string rpcval) (key : string) : list string :=
  match options !! key with
  | Some (RStrs l) => map (optionLine key) l
  | Some (RStr s) => [optionLine key s]
  | None => []
  end.

Definition entryLines (entry : sessionDownload) : list string :=
  Join (sd_uris entry) (String tab "")
  :: concat (map (optionLines (sd_options entry)) (sortStrings (map fst (map_to_list (sd_options entry))))).

Definition serializable (entry : sessionDownload) : bool := match sd_uris entry with [] => false | _ => true end.

(** The checks before anything is written. *)
Definition validateSessionDownloads (entries : list sessionDownload) : result unit :=
  let entries := List.filter serializable entries in
  let! _valid := first_error (map validateSessionDownload (take (Z.to_nat maxSessionDownloads + 1) entries)) in
  if maxSessionDownloads <? Z.of_nat (length entries) then
    Err (EText "cannot serialize more than 10000 session downloads")
  else Ok tt.

Definition unlines (lines : list string) : string := foldr (fun line s => line +:+ String newline s) "" lines.

Definition sessionText (entries : list sessionDownload) : string :=
  unlines (concat (map entryLines (List.filter serializable entries))).

(** What the operating system answers during one save. *)
Record sessionIO := mkIO {
  io_MkdirAll : result unit; io_CreateTemp : result unit; io_Write : result unit; io_Sync : result unit;
  io_Close : result unit; io_Rename : result unit; io_syncDir : result unit
}.

(** The session file and the temporary file of a save. *)
Record sessionDisk := mkDisk { dk_file : option string; dk_temp : option string }.

Definition writeSessionFile (entries : list sessionDownload) (io : sessionIO) (disk : sessionDisk)
    : result unit * sessionDisk :=
  match (let! _valid := validateSessionDownloads entries in let! _dir := io_MkdirAll io in io_CreateTemp io) with
  | Err err => (Err err, disk)
  | Ok _ =>
      let text := sessionText entries in
      let written :=
        let! _write := io_Write io in
        if maxSessionFileSize <? len text then Err (EText "session exceeds maximum size 268435456") else Ok tt in
      match (let! _written := written in let! _sync := io_Sync io in let! _close := io_Close io in io_Rename io) with
      | Err err => (Err err, mkDisk (dk_file disk) None)
      | Ok _ => (io_syncDir io, mkDisk (Some text) None)
      end
  end.

(** ** The engine's downloads as entries *)

Definition torrentSessionURIs (d : Download) : list string :=
  let uris := map URI (d_uris d) in
  match d_kind d with
  | downloadKindTorrent =>
      if negb (String.eqb (d_torrentMagnet d) "") then d_torrentMagnet d :: uris
      else if 0 <? len (d_torrentData d) then encodeSessionTorrentDataURI (d_torrentData d) :: uris
      else uris
  | downloadKindURI => uris
  end.

Definition sessionOptions (d : Download) : gmap string rpcval :=
  let opts := delete sessionExplicitOptionsOption (delete sessionTorrentFinalizedOption (optionsForRPC (d_options d))) in
  let opts := <[sessionExplicitOptionsOption := RStr (encodeSessionExplicitOptions (d_options d))]> opts in
  let opts := if bool_decide (d_kind d = downloadKindTorrent) && negb (bool_decide (d_torrentFinalized d = ∅))
              then <[sessionTorrentFinalizedOption := RStr (encodeSessionTorrentFinalizedIndexes (d_torrentFinalized d))]> opts
              else opts in
  let opts := delete "save-session" (<["gid" := RStr (d_gid d)]> opts) in
  <["pause" := RStr (if bool_decide (d_status d = StatusPaused) then "true" else "false")]> opts.

Definition sessionEntry (waiting : list string) (gid : string) (d : Download) : sessionDownload :=
  mkSessionDownload (d_gid d) (torrentSessionURIs d) (sessionOptions d) (d_createdAt d)
    (Z.of_nat (default (length waiting) (index_of gid waiting))).

(** The order of the entries: waiting position, creation time, gid. *)
Definition entry_le (x y : sessionDownload) : Prop :=
  sd_order x < sd_order y
  \/ (sd_order x = sd_order y
      /\ (sd_createdAt x < sd_createdAt y
          \/ (sd_createdAt x = sd_createdAt y /\ String.le (sd_gid x) (sd_gid y)))).
#[export] Instance entry_le_dec : RelDecision entry_le.
Proof. intros x y. unfold entry_le. apply _. Defined.

Definition sessionSnapshot (e : Engine) : list sessionDownload :=
  merge_sort entry_le
    (omap (fun '(gid, l) =>
       match e_heap e !! l with
       | Some d => if bool_decide (d_status d ∈ [StatusComplete; StatusRemoved]) then None
                   else Some (sessionEntry (e_waiting e) gid d)
       | None => None
       end) (map_to_list (e_downloads e))).

Definition SaveSession (e : Engine) (io : sessionIO) (disk : sessionDisk) : result string * sessionDisk :=
  if String.eqb (optionString (e_global e) "save-session") "" then (Ok "OK", disk)
  else match writeSessionFile (sessionSnapshot e) io disk with
       | (Ok _, disk) => (Ok "OK", disk)
       | (Err err, disk) => (Err err, disk)
       end.

(** ** Restoring *)

Section load.
Context {fs : FileSystem} {storage : TorrentStorage} {lib : TorrentLib}.

(** The options of an item and its layers: private options out, layers restored. *)
Definition itemOptions (global : Options) (item : sessionItem) : result (Options * option (gset Z)) :=
  let! finalized := parseSessionTorrentFinalizedIndexes (si_options item) in
  let opts := deleteOption sessionTorrentFinalizedOption (si_options item) in
  let! explicit := parseSessionExplicitOptions opts in
  let opts := deleteOption sessionExplicitOptionsOption opts in
  let optionLimit := match explicit with Some _ => maxSessionEffectiveOptions | None => maxDownloadOptionKeys end in
  let! _valid := validateOptionValuesWithLimit opts optionLimit in
  match explicit with
  | None => Ok (layerOptions global opts, finalized)
  | Some explicit =>
      let merged := restoreSessionOptionLayers opts explicit in
      let! _layers := validateRestoredOptionLayers merged in Ok (merged, finalized)
  end.

(** The download of an item: a torrent, a magnet or URIs. *)
Definition itemDownload (gid : string) (uris : list string) (merged : Options) (now : Z) : result Download :=
  match uris with
  | [] => Err (EText "no URI to download")
  | first :: webseeds =>
      let! data := decodeSessionTorrentDataURI first (torrentSizeLimit merged) in
      match data with
      | Some data =>
          let! _seeds := first_error (map validateHTTPURI webseeds) in
          let! ' (mi, info) := torrentMetaInfo data in
          let! _selection := torrentSelectionAndIndexOut info merged in
          newTorrentDownload gid data "" webseeds merged (Some mi) info now
      | None =>
          if isMagnetURI first then
            if maxDownloadURIs <? Z.of_nat (length webseeds) then Err (EText "too many magnet webseeds")
            else
              let! _seeds := first_error (map validateHTTPURI webseeds) in
              newMagnetDownload gid first webseeds merged now
          else if maxDownloadURIs <? Z.of_nat (length uris) then Err (EText "too many URIs")
          else
            let! _uris := first_error (map (fun raw => if isMagnetURI raw then Err ErrUnsupportedProtocol
                                                       else validateHTTPURI raw) uris) in
            Ok (newDownload gid uris merged now)
      end
  end.

(** One item of [loadSession]; [random] and [now] are the gid and the clock it draws. *)
Definition loadItem (item : sessionItem) (random : string) (now : Z) (e : Engine) : result Engine :=
  match si_uris item with
  | [] => Ok e
  | first :: _ =>
      let! ' (merged, finalized) := itemOptions (e_global e) item in
      let! _ext := if isMagnetURI first then validateTorrentExtensionOptions merged else Ok tt in
      let! gid := chooseGID merged random e in
      let! d := itemDownload gid (si_uris item) merged now in
      let! d := match finalized with
                | None => Ok d
                | Some finalized =>
                    if negb (bool_decide (d_kind d = downloadKindTorrent)) then
                      Err (EText (sessionTorrentFinalizedOption +:+ " is only valid for torrent session entries"))
                    else restoreTorrentFinalized finalized d
                end in
      Ok (enlist d None e)
  end.

(** The items of a session file; [draw k] is what the k-th item draws.  The prefix of
    the errors, the file and the line, is left out. *)
Fixpoint loadItems (items : list sessionItem) (draw : nat -> string * Z) (k : nat) (e : Engine) : result Engine :=
  match items with
  | [] => Ok e
  | item :: items' => let! e := loadItem item (draw k).1 (draw k).2 e in loadItems items' draw (S k) e
  end.

Definition loadSession (text : string) (draw : nat -> string * Z) (e : Engine) : result Engine :=
  let! items := parseSession text in loadItems items draw 0 e.

(** [NewEngine] with an input file. *)
Definition NewEngineWithInput (cwd : string) (cfg : Config) (text : string) (draw : nat -> string * Z) : result Engine :=
  loadSession text draw (NewEngine cwd cfg).
End load.
