(* ===== verification/EngineInv.v ===== *)
(** * The running engine: steps and the invariant

    The engine together with the goroutines that run downloads, as a transition
    system: scheduler steps, API calls, the progress and the reservations of a
    run, the end of a run and shutdown, in any order.  The invariant says how the
    map, the queue, the active set, the stopped list, the run contexts and the
    restart flags fit together. *)
From S2P Require Import Prelude GoStrings GoURL Options Reservations Torrent Queue State Engine Progress Session.

(** ** The system *)

(** A run is a goroutine: the download it holds and its context. *)
Definition run : Type := loc * context.

Record Sys := mkSys { s_engine : Engine; s_runs : list run }.

Definition removeRun (r : run) (runs : list run) : list run := filter (fun x => x <> r) runs.

(** What a run may write to its download: everything but the identity, the
    options, the status and the fields that tie the run to the engine. *)
Definition run_progress (d d' : Download) : Prop :=
  d_kind d' = d_kind d /\ d_gid d' = d_gid d /\ d_options d' = d_options d
  /\ d_status d' = d_status d /\ d_ctx d' = d_ctx d /\ d_cancel d' = d_cancel d
  /\ d_pathResetAfterRun d' = d_pathResetAfterRun d
  /\ d_retainReservationsAfterRun d' = d_retainReservationsAfterRun d
  /\ d_reservationTransitionAfterRun d' = d_reservationTransitionAfterRun d
  /\ d_reservationPathsAfterRun d' = d_reservationPathsAfterRun d
  /\ d_createdAt d' = d_createdAt d.

(** The calls of the API that change the engine. *)
Inductive call :=
| CAddURI (uris : list string) (opts : Options) (position : option Z) (random : string) (now : Z)
| CAddTorrent (merged : Options) (source : result (string * MetaInfo * Info * string)) (uris : list string)
    (position : option Z) (random : string) (now : Z)
| CPause (gid : string)
| CRemove (gid : string) (now : Z)
| CUnpause (gid : string)
| CPauseAll
| CUnpauseAll
| CChangePosition (gid : string) (pos : Z) (how : string)
| CChangeURI (gid : string) (fileIndex : Z) (delURIs addURIs : list string) (position : option Z)
| CChangeOption (gid : string) (opts : Options)
| CChangeGlobalOption (opts : Options)
| CPurge
| CRemoveResult (gid : string)
| CRequestShutdown (force : bool)
| CClose.

Section steps.
Context {fs : FileSystem} {storage : TorrentStorage} {lib : TorrentLib}.

Definition run_call (c : call) (e : Engine) : Engine :=
  match c with
  | CAddURI uris opts position random now => (AddURI uris opts position random now e).2
  | CAddTorrent merged source uris position random now =>
      (addTorrentCommit merged source uris position random now e).2
  | CPause gid => (pause gid e).2
  | CRemove gid now => (remove gid now e).2
  | CUnpause gid => (Unpause gid e).2
  | CPauseAll => (PauseAll e).2
  | CUnpauseAll => (UnpauseAll e).2
  | CChangePosition gid pos how => (ChangePosition gid pos how e).2
  | CChangeURI gid fileIndex delURIs addURIs position => (ChangeURI gid fileIndex delURIs addURIs position e).2
  | CChangeOption gid opts => (ChangeOption gid opts e).2
  | CChangeGlobalOption opts => (ChangeGlobalOption opts e).2
  | CPurge => (PurgeDownloadResult e).2
  | CRemoveResult gid => (RemoveDownloadResult gid e).2
  | CRequestShutdown force => RequestShutdown force e
  | CClose => closeBegin e
  end.

Inductive step : Sys -> Sys -> Prop :=
| step_schedule e runs :
    e_wake e = true ->
    step (mkSys e runs) (mkSys (schedulerStep e).2 (runs ++ (schedulerStep e).1))
| step_call c e runs : step (mkSys e runs) (mkSys (run_call c e) runs)
| step_progress l c d d' e runs :
    (l, c) ∈ runs -> e_heap e !! l = Some d -> run_progress d d' ->
    step (mkSys e runs) (mkSys (store l d' e) runs)
| step_reserve l c d op e runs :
    (l, c) ∈ runs -> e_heap e !! l = Some d -> op_gid op = d_gid d ->
    step (mkSys e runs) (mkSys (e <| e_paths ::= fun p => run_op p op |>) runs)
| step_finish l c err now e runs :
    (l, c) ∈ runs ->
    step (mkSys e runs) (mkSys (finishDownload l c err now e) (removeRun (l, c) runs)).

Definition initial (s : Sys) : Prop :=
  (exists cwd cfg, s = mkSys (NewEngine cwd cfg) [])
  \/ exists cwd cfg text draw e, NewEngineWithInput cwd cfg text draw = Ok e /\ s = mkSys e [].

Inductive reachable : Sys -> Prop :=
| reach_init s : initial s -> reachable s
| reach_step s s' : reachable s -> step s s' -> reachable s'.
End steps.

(** ** The invariant *)

(** [g] is registered as the download [d] at [l]. *)
Definition reg (e : Engine) (g : string) (l : loc) (d : Download) : Prop :=
  e_downloads e !! g = Some l /\ e_heap e !! l = Some d.

(** A restart flag points at the current run, if at anything. *)
Definition flag_ok (d : Download) (flag : option context) : Prop := flag = None \/ flag = d_ctx d.

Record Inv (s : Sys) : Prop := {
  inv_reg : forall g l, e_downloads (s_engine s) !! g = Some l ->
    exists d, e_heap (s_engine s) !! l = Some d /\ d_gid d = g;
  inv_waiting_nodup : NoDup (e_waiting (s_engine s));
  inv_waiting : forall g, g ∈ e_waiting (s_engine s) ->
    exists l d, reg (s_engine s) g l d /\ d_status d = StatusWaiting;
  inv_queued : e_ctxErr (s_engine s) = false -> forall g l d,
    reg (s_engine s) g l d -> d_status d = StatusWaiting -> g ∈ e_waiting (s_engine s);
  inv_runs_nodup : NoDup (s_runs s);
  inv_runs : forall l c, (l, c) ∈ s_runs s <->
    exists d, e_heap (s_engine s) !! l = Some d /\ d_ctx d = Some c;
  inv_active : forall g, g ∈ e_active (s_engine s) <->
    exists l d c, e_heap (s_engine s) !! l = Some d /\ d_ctx d = Some c /\ d_gid d = g;
  inv_one_run : forall l1 d1 c1 l2 d2 c2,
    e_heap (s_engine s) !! l1 = Some d1 -> e_heap (s_engine s) !! l2 = Some d2 ->
    d_ctx d1 = Some c1 -> d_ctx d2 = Some c2 -> d_gid d1 = d_gid d2 -> l1 = l2;
  inv_status_active : forall l d, e_heap (s_engine s) !! l = Some d -> d_status d = StatusActive ->
    exists c, d_ctx d = Some c /\ d_cancel d = Some c;
  inv_cancel : forall l d c, e_heap (s_engine s) !! l = Some d -> d_cancel d = Some c -> d_status d = StatusActive;
  inv_stopped_nodup : NoDup (e_stopped (s_engine s));
  inv_stopped_set : e_stoppedSet (s_engine s) = list_to_set (e_stopped (s_engine s));
  inv_stopped : forall g, g ∈ e_stopped (s_engine s) <->
    exists l d, reg (s_engine s) g l d /\ isTerminal (d_status d) = true;
  inv_orphan : forall l d, e_heap (s_engine s) !! l = Some d ->
    e_downloads (s_engine s) !! d_gid d = Some l \/ isTerminal (d_status d) = true;
  inv_flags : forall l d, e_heap (s_engine s) !! l = Some d ->
    flag_ok d (d_pathResetAfterRun d) /\ flag_ok d (d_retainReservationsAfterRun d)
    /\ flag_ok d (d_reservationTransitionAfterRun d);
  inv_fresh : forall l d c, e_heap (s_engine s) !! l = Some d -> d_ctx d = Some c ->
    (c < e_nextCtx (s_engine s))%positive;
  inv_paths : reservations_ok (e_paths (s_engine s))
}.

(** ** Lemmas: lookups *)

Lemma lookupDownload_reg (e : Engine) (g : string) (l : loc) (d : Download) :
  lookupDownload g e = Some (l, d) <-> reg e g l d.
Proof.
  unfold lookupDownload, reg. split.
  - destruct (e_downloads e !! g) as [l'|]; [|done]. destruct (e_heap e !! l') as [d'|] eqn:H; [|done]. naive_solver.
  - by intros [-> ->].
Qed.

Lemma reg_gid (s : Sys) g l d : Inv s -> reg (s_engine s) g l d -> d_gid d = g.
Proof. intros HI [H1 H2]. destruct (inv_reg s HI g l H1) as (d' & H & <-). congruence. Qed.

Lemma findDownload_cases (gid : string) (e : Engine) (l : loc) (d : Download) :
  findDownloadLocked gid e = Ok (l, d) ->
  exists g, reg e g l d /\ HasPrefix g gid = true.
Proof.
  unfold findDownloadLocked. destruct (String.eqb gid "") eqn:E; [done|].
  destruct (lookupDownload gid e) as [[l' d']|] eqn:Hl.
  - intros [= -> ->]. exists gid. split; [by apply lookupDownload_reg|].
    pose proof (GoPath.HasPrefix_app gid "") as H. by rewrite str_app_nil_r in H.
  - destruct (filter _ _) as [|[id l'] [|]] eqn:Hf; [done| |done].
    destruct (e_heap e !! l') as [d'|] eqn:Hh; [|done]. intros [= -> ->].
    assert ((id, l) ∈ filter (fun kv : string * loc => HasPrefix kv.1 gid = true) (map_to_list (e_downloads e))) as Hin
      by (rewrite Hf; by left).
    apply list_elem_of_filter in Hin as [Hp Hin]. apply elem_of_map_to_list in Hin. by exists id.
Qed.

Lemma findDownload_reg (s : Sys) (gid : string) (l : loc) (d : Download) :
  Inv s -> findDownloadLocked gid (s_engine s) = Ok (l, d) -> reg (s_engine s) (d_gid d) l d.
Proof.
  intros HI H. apply findDownload_cases in H as (g & Hr & _). by rewrite (reg_gid s g l d HI Hr).
Qed.

(** Two registered downloads at one location have one gid, and conversely. *)
Lemma reg_inj (s : Sys) g1 g2 l d1 d2 :
  Inv s -> reg (s_engine s) g1 l d1 -> reg (s_engine s) g2 l d2 -> g1 = g2.
Proof.
  intros HI H1 H2. rewrite <- (reg_gid s g1 l d1 HI H1), <- (reg_gid s g2 l d2 HI H2).
  destruct H1, H2. congruence.
Qed.

(** ** Lemmas: preservation *)

Ltac heap_cases :=
  repeat match goal with
  | H : <[_ := _]> _ !! _ = Some _ |- _ => apply lookup_insert_Some in H as [[<- <-]|[? H]]
  end.

Lemma reg_store (e : Engine) (l0 : loc) (d' : Download) g l d :
  reg (store l0 d' e) g l d <->
  (e_downloads e !! g = Some l /\ (l = l0 /\ d = d' \/ l <> l0 /\ e_heap e !! l = Some d)).
Proof. unfold reg; simpl. rewrite lookup_insert_Some. naive_solver. Qed.

(** The invariant only looks at part of the engine. *)
Lemma Inv_frame (e e' : Engine) (runs : list run) :
  Inv (mkSys e runs) ->
  e_heap e' = e_heap e -> e_downloads e' = e_downloads e -> e_waiting e' = e_waiting e ->
  e_active e' = e_active e -> e_stopped e' = e_stopped e -> e_stoppedSet e' = e_stoppedSet e ->
  e_nextCtx e' = e_nextCtx e -> (e_ctxErr e = true -> e_ctxErr e' = true) -> reservations_ok (e_paths e') ->
  Inv (mkSys e' runs).
Proof.
  intros HI Hh Hd Hw Ha Hs Hss Hn Hc Hp. destruct HI. simpl in *. unfold reg in *.
  constructor; simpl; unfold reg; rewrite ?Hh, ?Hd, ?Hw, ?Ha, ?Hs, ?Hss, ?Hn; try done.
  intros Hf. apply inv_queued0. destruct (e_ctxErr e); [|done]. by rewrite Hc in Hf.
Qed.

(** A download replaced by one with the same ties to the engine. *)
Definition core_eq (d d' : Download) : Prop :=
  d_gid d' = d_gid d /\ d_status d' = d_status d /\ d_ctx d' = d_ctx d /\ d_cancel d' = d_cancel d
  /\ flag_ok d' (d_pathResetAfterRun d') /\ flag_ok d' (d_retainReservationsAfterRun d')
  /\ flag_ok d' (d_reservationTransitionAfterRun d').

Lemma Inv_core (e : Engine) (runs : list run) (l : loc) (d d' : Download) :
  Inv (mkSys e runs) -> e_heap e !! l = Some d -> core_eq d d' -> Inv (mkSys (store l d' e) runs).
Proof.
  intros HI Hl (Hg & Hst & Hctx & Hcan & Hf1 & Hf2 & Hf3). pose proof HI as HI0. destruct HI. simpl in *.
  constructor; simpl; try done.
  - intros g l0 H. destruct (inv_reg0 g l0 H) as (d0 & Hd0 & Hg0).
    destruct (decide (l0 = l)) as [->|]; [exists d'; rewrite lookup_insert_eq; split; [done|congruence]|].
    exists d0. by rewrite lookup_insert_ne.
  - intros g H. destruct (inv_waiting0 g H) as (l0 & d0 & [H1 H2] & H3).
    destruct (decide (l0 = l)) as [->|].
    + exists l, d'. split; [apply reg_store; naive_solver|]. simplify_eq. congruence.
    + exists l0, d0. split; [apply reg_store; naive_solver|done].
  - intros Hc g l0 d0 [H1 [[-> ->]|[Hne H2]]]%reg_store Hs.
    + apply (inv_queued0 Hc g l d); [done|congruence].
    + by apply (inv_queued0 Hc g l0 d0).
  - intros l0 c. rewrite inv_runs0. destruct (decide (l0 = l)) as [->|].
    + rewrite lookup_insert_eq. split; intros (d0 & H1 & H2); simplify_eq; [exists d'|exists d]; split; congruence.
    + by rewrite lookup_insert_ne.
  - intros g. rewrite inv_active0. split; intros (l0 & d0 & c & H1 & H2 & H3).
    + destruct (decide (l0 = l)) as [->|]; [exists l, d', c|exists l0, d0, c].
      * rewrite lookup_insert_eq. simplify_eq. split_and!; congruence.
      * by rewrite lookup_insert_ne.
    + heap_cases; [exists l, d, c; split_and!; congruence|by exists l0, d0, c].
  - intros l1 d1 c1 l2 d2 c2 H1 H2 H3 H4 H5. heap_cases; try done.
    all: first [eapply (inv_one_run0 l1 d1 c1 l d c2); congruence
               |eapply (inv_one_run0 l d c1 l2 d2 c2); congruence|by eapply inv_one_run0].
  - intros l0 d0 H1 H2. heap_cases; [|by eapply inv_status_active0].
    destruct (inv_status_active0 _ _ Hl) as (c & ? & ?); [congruence|]. exists c. split; congruence.
  - intros l0 d0 c H1 H2. heap_cases; [|by eapply inv_cancel0].
    rewrite Hst. by apply (inv_cancel0 l d c); [|congruence].
  - intros g. rewrite inv_stopped0. split.
    + intros (l0 & d0 & [H1 H2] & H3). destruct (decide (l0 = l)) as [->|].
      * exists l, d'. simplify_eq. split; [apply reg_store; naive_solver|congruence].
      * exists l0, d0. split; [apply reg_store; naive_solver|done].
    + intros (l0 & d0 & [H1 [[-> ->]|[Hne H2]]]%reg_store & H3).
      * exists l, d. split; [done|congruence].
      * by exists l0, d0.
  - intros l0 d0 H. heap_cases; [|by apply inv_orphan0]. rewrite Hg, Hst. by apply inv_orphan0.
  - intros l0 d0 H. heap_cases; [done|by eapply inv_flags0].
  - intros l0 d0 c H1 H2. heap_cases; [|by eapply inv_fresh0]. by apply (inv_fresh0 l d c); [|congruence].
Qed.

(** Recording a gid as stopped, before pruning. *)
Definition addStopped (g : string) (e : Engine) : Engine :=
  e <| e_stopped ::= fun l => l ++ [g] |> <| e_stoppedSet ::= fun s => {[g]} ∪ s |>
    <| e_stoppedTotal ::= fun n => n + 1 |>.

(** A registered, unfinished download leaves the active or waiting states, or
    joins the queue; its run, if any, goes on. *)
Lemma Inv_change (e : Engine) (runs : list run) (l : loc) (d d' : Download) (w' : list string) :
  Inv (mkSys e runs) -> reg e (d_gid d) l d -> isTerminal (d_status d) = false ->
  d_gid d' = d_gid d -> d_ctx d' = d_ctx d -> d_cancel d' = None -> d_status d' <> StatusActive ->
  flag_ok d' (d_pathResetAfterRun d') -> flag_ok d' (d_retainReservationsAfterRun d') ->
  flag_ok d' (d_reservationTransitionAfterRun d') ->
  NoDup w' -> (forall h, h <> d_gid d -> (h ∈ w' <-> h ∈ e_waiting e)) ->
  (d_gid d ∈ w' -> d_status d' = StatusWaiting) ->
  (e_ctxErr e = false -> d_status d' = StatusWaiting -> d_gid d ∈ w') ->
  Inv (mkSys ((if isTerminal (d_status d') then addStopped (d_gid d) else fun e => e)
                (store l d' (e <| e_waiting := w' |>))) runs).
Proof.
  intros HI [Hgl Hl] Hnt Hg Hctx Hcan Hna Hf1 Hf2 Hf3 Hnd Hother Hw Hq. pose proof HI as HI0. destruct HI. simpl in *.
  assert (forall g0 l0 d0, reg e g0 l0 d0 -> g0 <> d_gid d -> l0 <> l) as Hdiff.
  { intros g0 l0 d0 H Hne ->. apply Hne. exact (reg_inj (mkSys e runs) g0 (d_gid d) l d0 d HI0 H (conj Hgl Hl)). }
  assert (forall g0 l0 d0, reg e g0 l0 d0 -> l0 <> l -> g0 <> d_gid d) as Hdiff'.
  { intros g0 l0 d0 [H1 H2] Hne ->. congruence. }
  set (e' := (if isTerminal (d_status d') then addStopped (d_gid d) else fun e => e) (store l d' (e <| e_waiting := w' |>))).
  assert (e_heap e' = <[l := d']> (e_heap e)) as Eheap by (unfold e'; by case_if).
  assert (e_downloads e' = e_downloads e) as Edl by (unfold e'; by case_if).
  assert (e_waiting e' = w') as Ew by (unfold e'; by case_if).
  assert (e_active e' = e_active e) as Ea by (unfold e'; by case_if).
  assert (e_nextCtx e' = e_nextCtx e) as En by (unfold e'; by case_if).
  assert (e_paths e' = e_paths e) as Ep by (unfold e'; by case_if).
  assert (e_ctxErr e' = e_ctxErr e) as Ec by (unfold e'; by case_if).
  assert (forall g0 l0 d0, reg e' g0 l0 d0 <->
    (e_downloads e !! g0 = Some l0 /\ (l0 = l /\ d0 = d' \/ l0 <> l /\ e_heap e !! l0 = Some d0))) as Hreg.
  { intros g0 l0 d0. unfold reg. rewrite Eheap, Edl, lookup_insert_Some. naive_solver. }
  assert (d_gid d ∉ e_stopped e) as Hns.
  { rewrite inv_stopped0. intros (l0 & d0 & [H1 H2] & H3). congruence. }
  assert (e_stopped e' = if isTerminal (d_status d') then e_stopped e ++ [d_gid d] else e_stopped e) as Es
    by (unfold e'; by case_if).
  assert (e_stoppedSet e' = if isTerminal (d_status d') then {[d_gid d]} ∪ e_stoppedSet e else e_stoppedSet e) as Ess
    by (unfold e'; by case_if).
  clearbody e'.
  constructor; simpl; rewrite ?Ew, ?Ea, ?En, ?Ep, ?Ec; try done.
  - rewrite Edl, Eheap. intros g l0 H. destruct (inv_reg0 g l0 H) as (d0 & Hd0 & Hg0).
    destruct (decide (l0 = l)) as [->|]; [exists d'; rewrite lookup_insert_eq; split; [done|congruence]|].
    exists d0. by rewrite lookup_insert_ne.
  - intros g H. destruct (decide (g = d_gid d)) as [->|Hne].
    + exists l, d'. split; [apply Hreg; naive_solver|by apply Hw].
    + apply Hother in H; [|done]. destruct (inv_waiting0 g H) as (l0 & d0 & H1 & H3).
      exists l0, d0. split; [|done]. apply Hreg. split; [by destruct H1|]. right.
      split; [by eapply Hdiff|by destruct H1].
  - intros Hc g l0 d0 [H1 [[-> ->]|[Hne H2]]]%Hreg Hs.
    + destruct (inv_reg0 g l H1) as (d1 & Hd1 & <-). rewrite Hl in Hd1. simplify_eq. by apply Hq.
    + apply Hother; [by eapply Hdiff'|]. by apply (inv_queued0 Hc g l0 d0).
  - rewrite Eheap. intros l0 c. rewrite inv_runs0. destruct (decide (l0 = l)) as [->|].
    + rewrite lookup_insert_eq. split; intros (d0 & H1 & H2); simplify_eq; [exists d'|exists d]; split; congruence.
    + by rewrite lookup_insert_ne.
  - rewrite Eheap. intros g. rewrite inv_active0. split; intros (l0 & d0 & c & H1 & H2 & H3).
    + destruct (decide (l0 = l)) as [->|]; [exists l, d', c|exists l0, d0, c].
      * rewrite lookup_insert_eq. simplify_eq. split_and!; congruence.
      * by rewrite lookup_insert_ne.
    + heap_cases; [exists l, d, c; split_and!; congruence|by exists l0, d0, c].
  - rewrite Eheap. intros l1 d1 c1 l2 d2 c2 H1 H2 H3 H4 H5. heap_cases; try done.
    all: first [eapply (inv_one_run0 l1 d1 c1 l d c2); congruence
               |eapply (inv_one_run0 l d c1 l2 d2 c2); congruence|by eapply inv_one_run0].
  - rewrite Eheap. intros l0 d0 H1 H2. heap_cases; [done|by eapply inv_status_active0].
  - rewrite Eheap. intros l0 d0 c H1 H2. heap_cases; [congruence|by eapply inv_cancel0].
  - rewrite Es. case_if; [by apply NoDup_snoc|done].
  - rewrite Es, Ess. case_if; [|done]. rewrite inv_stopped_set0, list_to_set_app_L. simpl. set_solver.
  - intros g. destruct (decide (g = d_gid d)) as [->|Hne].
    + transitivity (isTerminal (d_status d') = true).
      * rewrite Es. case_if; [|by split]. split; [done|]. intros _. apply elem_of_app. right. by left.
      * split; [intros Ht; exists l, d'; split; [apply Hreg; naive_solver|done]|].
        intros (l0 & d0 & [H1 [[-> ->]|[Hne H2]]]%Hreg & H3); [done|congruence].
    + transitivity (g ∈ e_stopped e); [rewrite Es; case_if; [rewrite elem_of_app, list_elem_of_singleton; naive_solver|done]|].
      rewrite inv_stopped0. split; intros (l0 & d0 & H1 & H3).
      * exists l0, d0. split; [|done]. apply Hreg. split; [by destruct H1|]. right.
        split; [by eapply Hdiff|by destruct H1].
      * apply Hreg in H1 as [H1 [[-> ->]|[Hnl H2]]]; [|by exists l0, d0].
        destruct Hne. destruct (inv_reg0 g l H1) as (d1 & Hd1 & <-). congruence.
  - rewrite Edl, Eheap. intros l0 d0 H. heap_cases; [left; congruence|by apply inv_orphan0].
  - rewrite Eheap. intros l0 d0 H. heap_cases; [done|by eapply inv_flags0].
  - rewrite Eheap. intros l0 d0 c H1 H2. heap_cases; [|by eapply inv_fresh0].
    by apply (inv_fresh0 l d c); [|congruence].
Qed.

(** Stopped results are forgotten. *)
Lemma Inv_forget (e e' : Engine) (runs : list run) (G : gset string) :
  Inv (mkSys e runs) ->
  (forall g, g ∈ G -> g ∈ e_stopped e) ->
  e_heap e' = e_heap e -> (forall g, e_downloads e' !! g = if decide (g ∈ G) then None else e_downloads e !! g) ->
  e_waiting e' = e_waiting e -> e_active e' = e_active e ->
  e_stopped e' = filter (fun g => g ∉ G) (e_stopped e) -> e_stoppedSet e' = e_stoppedSet e ∖ G ->
  e_nextCtx e' = e_nextCtx e -> e_ctxErr e' = e_ctxErr e -> e_paths e' = e_paths e ->
  Inv (mkSys e' runs).
Proof.
  intros HI HG Hh Hdl Hw Ha Hs Hss Hn Hc Hp. destruct HI. simpl in *.
  assert (forall g l d, reg e' g l d <-> g ∉ G /\ reg e g l d) as Hreg.
  { intros g l d. unfold reg. rewrite Hh, Hdl. case_decide; naive_solver. }
  assert (forall g l d, reg e g l d -> isTerminal (d_status d) = false -> g ∉ G) as Hkeep.
  { intros g l d [H1 H2] Hnt Hin. apply HG, inv_stopped0 in Hin as (l' & d' & [H3 H4] & H5). congruence. }
  constructor; simpl; rewrite ?Hw, ?Ha, ?Hn, ?Hc, ?Hp, ?Hh; try done.
  - intros g l. rewrite Hdl. case_decide; [done|]. apply inv_reg0.
  - intros g H. destruct (inv_waiting0 g H) as (l & d & H1 & H2). exists l, d. split; [|done].
    apply Hreg. split; [|done]. eapply Hkeep; [exact H1|]. by rewrite H2.
  - intros Hc' g l d [_ H1]%Hreg H2. by eapply inv_queued0.
  - rewrite Hs. by apply NoDup_filter.
  - rewrite Hss, Hs, inv_stopped_set0. apply set_eq. intros g.
    rewrite elem_of_difference, !elem_of_list_to_set, list_elem_of_filter. tauto.
  - intros g. rewrite Hs, list_elem_of_filter, inv_stopped0. split.
    + intros [Hng (l & d & H1 & H2)]. exists l, d. split; [by apply Hreg|done].
    + intros (l & d & [H1 H2]%Hreg & H3). split; [done|by exists l, d].
  - intros l d H. rewrite Hdl. destruct (isTerminal (d_status d)) eqn:Ht; [by right|].
    destruct (inv_orphan0 l d H) as [H'|]; [|congruence]. left.
    rewrite decide_False; [done|]. by apply (Hkeep _ l d).
Qed.

(** A run that is not active any more ends. *)
Lemma Inv_end (e : Engine) (runs : list run) (l : loc) (c : context) (d d' : Download) :
  Inv (mkSys e runs) -> e_heap e !! l = Some d -> d_ctx d = Some c -> d_status d <> StatusActive ->
  d_gid d' = d_gid d -> d_status d' = d_status d -> d_ctx d' = None -> d_cancel d' = d_cancel d ->
  d_pathResetAfterRun d' = None -> d_retainReservationsAfterRun d' = None ->
  d_reservationTransitionAfterRun d' = None ->
  Inv (mkSys (store l d' (e <| e_active ::= fun s => s ∖ {[d_gid d]} |>)) (removeRun (l, c) runs)).
Proof.
  intros HI Hl Hctx Hna Hg Hst Hctx' Hcan Hf1 Hf2 Hf3. destruct HI. simpl in *.
  assert (d_cancel d = None) as Hnc.
  { destruct (d_cancel d) eqn:E; [|done]. by pose proof (inv_cancel0 l d _ Hl E). }
  assert (forall g0 l0 d0, reg (store l d' (e <| e_active ::= fun s => s ∖ {[d_gid d]} |>)) g0 l0 d0 <->
    (e_downloads e !! g0 = Some l0 /\ (l0 = l /\ d0 = d' \/ l0 <> l /\ e_heap e !! l0 = Some d0))) as Hreg.
  { intros g0 l0 d0. unfold reg; simpl. rewrite lookup_insert_Some. naive_solver. }
  assert (forall (P : Status -> Prop) g,
    (exists l0 d0, reg (store l d' (e <| e_active ::= fun s => s ∖ {[d_gid d]} |>)) g l0 d0 /\ P (d_status d0)) <->
    (exists l0 d0, reg e g l0 d0 /\ P (d_status d0))) as Hex.
  { intros P g. split.
    - intros (l0 & d0 & [H1 [[-> ->]|[Hne H2]]]%Hreg & H3); [exists l, d|by exists l0, d0].
      split; [done|]. by rewrite <- Hst.
    - intros (l0 & d0 & [H1 H2] & H3). destruct (decide (l0 = l)) as [->|].
      + exists l, d'. split; [apply Hreg; naive_solver|]. simplify_eq. by rewrite Hst.
      + exists l0, d0. split; [apply Hreg; naive_solver|done]. }
  constructor; simpl; try done.
  - intros g l0 H. destruct (inv_reg0 g l0 H) as (d0 & Hd0 & Hg0).
    destruct (decide (l0 = l)) as [->|]; [exists d'; rewrite lookup_insert_eq; split; [done|congruence]|].
    exists d0. by rewrite lookup_insert_ne.
  - intros g H. apply (Hex (fun s => s = StatusWaiting)). by apply inv_waiting0.
  - intros Hc g l0 d0 H1 H2.
    destruct (proj1 (Hex (fun s => s = StatusWaiting) g)) as (l1 & d1 & ? & ?); [by exists l0, d0|].
    by eapply inv_queued0.
  - unfold removeRun. by apply NoDup_filter.
  - intros l0 c0. unfold removeRun. rewrite list_elem_of_filter, inv_runs0.
    destruct (decide (l0 = l)) as [->|Hne].
    + rewrite lookup_insert_eq. split; [|naive_solver]. intros [Hn (d0 & H1 & H2)]. simplify_eq.
    + rewrite lookup_insert_ne by done. split; [by intros [_ ?]|]. intros H. split; [|done]. congruence.
  - intros g. rewrite elem_of_difference, elem_of_singleton, inv_active0. split.
    + intros [(l0 & d0 & c0 & H1 & H2 & H3) Hne]. exists l0, d0, c0.
      rewrite lookup_insert_ne; [done|]. intros <-. congruence.
    + intros (l0 & d0 & c0 & H1 & H2 & H3). heap_cases; [congruence|]. split; [by exists l0, d0, c0|].
      intros ->. by pose proof (inv_one_run0 l0 d0 c0 l d c H1 Hl H2 Hctx H3).
  - intros l1 d1 c1 l2 d2 c2 H1 H2 H3 H4 H5. heap_cases; [congruence..|]. by eapply inv_one_run0.
  - intros l0 d0 H1 H2. heap_cases; [congruence|by eapply inv_status_active0].
  - intros l0 d0 c0 H1 H2. heap_cases; [congruence|by eapply inv_cancel0].
  - intros g. rewrite inv_stopped0. symmetry. apply (Hex (fun s => isTerminal s = true)).
  - intros l0 d0 H. heap_cases; [rewrite Hg, Hst|]; by apply inv_orphan0.
  - intros l0 d0 H. heap_cases; [|by eapply inv_flags0]. unfold flag_ok. rewrite Hf1, Hf2, Hf3. tauto.
  - intros l0 d0 c0 H1 H2. heap_cases; [congruence|by eapply inv_fresh0].
Qed.

(** The queue is permuted. *)
Lemma Inv_perm (e : Engine) (runs : list run) (w' : list string) :
  Inv (mkSys e runs) -> w' ≡ₚ e_waiting e -> Inv (mkSys (e <| e_waiting := w' |>) runs).
Proof.
  intros HI Hp. destruct HI. simpl in *. constructor; simpl; try done.
  - by rewrite Hp.
  - intros g H. rewrite Hp in H. by apply inv_waiting0.
  - intros Hc g l d H1 H2. rewrite Hp. by eapply inv_queued0.
Qed.

(** The scheduler starts the download at the head of the queue. *)
Lemma Inv_start (e : Engine) (runs : list run) (g : string) (rest : list string) (l : loc) (d : Download) :
  Inv (mkSys e runs) -> e_waiting e = g :: rest -> g ∉ e_active e -> reg e g l d -> d_status d = StatusWaiting ->
  Inv (mkSys (startDownload g l d (e <| e_waiting := rest |>)).2 (runs ++ [(l, e_nextCtx e)])).
Proof.
  intros HI Hw Hna Hr Hst. pose proof (reg_gid _ _ _ _ HI Hr) as Hg. simpl in Hg. subst g.
  destruct Hr as [Hgl Hl]. destruct HI. simpl in *.
  assert (d_ctx d = None) as Hctx.
  { destruct (d_ctx d) as [c|] eqn:E; [|done]. destruct Hna. apply inv_active0. by exists l, d, c. }
  destruct (inv_flags0 l d Hl) as (Hf1 & Hf2 & Hf3). unfold flag_ok in Hf1, Hf2, Hf3. rewrite Hctx in *.
  set (d' := d <| d_ctx := _ |> <| d_cancel := _ |> <| d_status := StatusActive |> <| d_errorCode := "" |>
               <| d_errorMessage := "" |> <| d_downloadBPS := 0 |> <| d_connections := 0 |>).
  rewrite Hw in inv_waiting_nodup0. apply NoDup_cons in inv_waiting_nodup0 as [Hnr Hndr].
  assert (forall l0 c0, (l0, c0) ∈ runs -> l0 <> l) as Hnrun.
  { intros l0 c0 Hin ->. apply inv_runs0 in Hin as (d0 & H1 & H2). congruence. }
  constructor; simpl; try done.
  - intros g l0 H. destruct (inv_reg0 g l0 H) as (d0 & Hd0 & Hg0).
    destruct (decide (l0 = l)) as [->|]; [exists d'; rewrite lookup_insert_eq; split; [done|simpl; congruence]|].
    exists d0. by rewrite lookup_insert_ne.
  - intros g H. destruct (inv_waiting0 g) as (l0 & d0 & [H1 H2] & H3); [rewrite Hw; by right|].
    exists l0, d0. unfold reg; simpl. rewrite lookup_insert_ne; [done|]. intros <-.
    destruct (inv_reg0 _ _ H1) as (d1 & Hd1 & <-). congruence.
  - intros Hc g l0 d0 [H1 H2] H3. unfold reg in *; simpl in *. heap_cases; [done|].
    assert (g ∈ e_waiting e) as Hin by (by eapply inv_queued0).
    rewrite Hw in Hin. apply elem_of_cons in Hin as [->|]; [congruence|done].
  - apply NoDup_snoc; [done|]. intros Hin. by eapply Hnrun.
  - intros l0 c0. rewrite elem_of_app, list_elem_of_singleton, inv_runs0.
    destruct (decide (l0 = l)) as [->|Hne].
    + rewrite lookup_insert_eq. split.
      * intros [(d0 & H1 & H2)|[= ->]]; [congruence|]. by exists d'.
      * intros (d0 & [= <-] & H2). simpl in H2. right. congruence.
    + rewrite lookup_insert_ne by done. naive_solver.
  - intros g. rewrite elem_of_union, elem_of_singleton, inv_active0. split.
    + intros [->|(l0 & d0 & c0 & H1 & H2 & H3)].
      * exists l, d', (e_nextCtx e). by rewrite lookup_insert_eq.
      * exists l0, d0, c0. rewrite lookup_insert_ne; [done|]. congruence.
    + intros (l0 & d0 & c0 & H1 & H2 & H3). heap_cases; [by left|right; by exists l0, d0, c0].
  - intros l1 d1 c1 l2 d2 c2 H1 H2 H3 H4 H5. heap_cases; try done; [..|by eapply inv_one_run0].
    all: destruct Hna; apply inv_active0; simpl in H5;
      first [by exists l2, d2, c2|by exists l1, d1, c1].
  - intros l0 d0 H1 H2. heap_cases; [by exists (e_nextCtx e)|by eapply inv_status_active0].
  - intros l0 d0 c0 H1 H2. heap_cases; [done|by eapply inv_cancel0].
  - intros g. rewrite inv_stopped0. unfold reg; simpl. split; intros (l0 & d0 & [H1 H2] & H3).
    + exists l0, d0. rewrite lookup_insert_ne; [done|]. intros <-. simplify_eq. by rewrite Hst in H3.
    + heap_cases; [done|by exists l0, d0].
  - intros l0 d0 H. heap_cases; [by left|by apply inv_orphan0].
  - intros l0 d0 H. heap_cases; [|by eapply inv_flags0]. unfold flag_ok; simpl. naive_solver.
  - intros l0 d0 c0 H1 H2. heap_cases; [simpl in H2; simplify_eq; lia|].
    pose proof (inv_fresh0 l0 d0 c0 H1 H2). lia.
Qed.

(** A new download is registered. *)
Definition fresh_download (d : Download) : Prop :=
  d_ctx d = None /\ d_cancel d = None /\ d_pathResetAfterRun d = None
  /\ d_retainReservationsAfterRun d = None /\ d_reservationTransitionAfterRun d = None.

Lemma Inv_add (e : Engine) (runs : list run) (l : loc) (d : Download) (w' : list string) :
  Inv (mkSys e runs) -> e_downloads e !! d_gid d = None -> e_heap e !! l = None -> fresh_download d ->
  (d_status d = StatusPaused /\ w' = e_waiting e \/ d_status d = StatusWaiting /\ w' ≡ₚ d_gid d :: e_waiting e) ->
  Inv (mkSys (store l d (e <| e_waiting := w' |>) <| e_downloads ::= <[d_gid d := l]> |>) runs).
Proof.
  intros HI Hng Hnl (Hctx & Hcan & Hf1 & Hf2 & Hf3) Hst. destruct HI. simpl in *.
  set (e' := store l d (e <| e_waiting := w' |>) <| e_downloads ::= <[d_gid d := l]> |>).
  assert (forall g l0 d0, reg e' g l0 d0 <-> (g = d_gid d /\ l0 = l /\ d0 = d) \/ reg e g l0 d0) as Hreg.
  { intros g l0 d0. unfold reg, e'; simpl. rewrite !lookup_insert_Some. split.
    - intros [[[<- <-]|[Hne H1]] [[Ha <-]|[Hnl' H2]]]; [by left|done| |by right].
      rewrite <- Ha in H1. apply inv_reg0 in H1 as (d1 & H1 & _). congruence.
    - intros [(-> & -> & ->)|[H1 H2]]; [naive_solver|]. split; [right|right]; split; try done; congruence. }
  assert (d_gid d ∉ e_waiting e) as Hnw.
  { intros (l0 & d0 & [H1 _] & _)%inv_waiting0. congruence. }
  assert (isTerminal (d_status d) = false) as Hnt by (by destruct Hst as [[-> _]|[-> _]]).
  assert (forall g, g ∈ w' <-> g ∈ e_waiting e \/ g = d_gid d /\ d_status d = StatusWaiting) as Hin.
  { intros g. destruct Hst as [[-> ->]|[-> Hp]]; [naive_solver|]. rewrite Hp, elem_of_cons. naive_solver. }
  constructor; simpl; try done.
  - intros g l0 [[<- <-]|[Hne H]]%lookup_insert_Some; [exists d; by rewrite lookup_insert_eq|].
    destruct (inv_reg0 g l0 H) as (d0 & ? & ?). exists d0. rewrite lookup_insert_ne; [done|congruence].
  - destruct Hst as [[_ ->]|[_ ->]]; [done|by constructor].
  - intros g [H|[-> Hw]]%Hin.
    + destruct (inv_waiting0 g H) as (l0 & d0 & H1 & H2). exists l0, d0. split; [apply Hreg; by right|done].
    + exists l, d. split; [apply Hreg; by left|done].
  - intros Hc g l0 d0 [(-> & -> & ->)|H]%Hreg Hs; apply Hin; [by right|left; by eapply inv_queued0].
  - intros l0 c. rewrite inv_runs0. split; intros (d0 & H1 & H2).
    + exists d0. rewrite lookup_insert_ne; [done|congruence].
    + heap_cases; [congruence|by exists d0].
  - intros g. rewrite inv_active0. split; intros (l0 & d0 & c & H1 & H2 & H3).
    + exists l0, d0, c. rewrite lookup_insert_ne; [done|congruence].
    + heap_cases; [congruence|by exists l0, d0, c].
  - intros l1 d1 c1 l2 d2 c2 H1 H2 H3 H4 H5. heap_cases; [congruence..|]. by eapply inv_one_run0.
  - intros l0 d0 H1 H2. heap_cases; [destruct Hst as [[? _]|[? _]]; congruence|by eapply inv_status_active0].
  - intros l0 d0 c H1 H2. heap_cases; [congruence|by eapply inv_cancel0].
  - intros g. rewrite inv_stopped0. split; intros (l0 & d0 & H1 & H2).
    + exists l0, d0. split; [apply Hreg; by right|done].
    + apply Hreg in H1 as [(-> & -> & ->)|H1]; [congruence|by exists l0, d0].
  - intros l0 d0 H. heap_cases; [left; by rewrite lookup_insert_eq|].
    destruct (inv_orphan0 l0 d0 H) as [H'|]; [left|by right]. rewrite lookup_insert_ne; [done|congruence].
  - intros l0 d0 H. heap_cases; [|by eapply inv_flags0]. unfold flag_ok. rewrite Hf1, Hf2, Hf3. tauto.
  - intros l0 d0 c H1 H2. heap_cases; [congruence|by eapply inv_fresh0].
Qed.

Lemma foldr_delete_lookup (ds : list string) (m : gmap string loc) (g : string) :
  foldr delete m ds !! g = if decide (g ∈ ds) then None else m !! g.
Proof.
  induction ds as [|x ds IH]; cbn [foldr].
  - rewrite decide_False; [done|]. by intros ?%elem_of_nil.
  - destruct (decide (x = g)) as [->|Hne].
    + rewrite lookup_delete_eq, decide_True; [done|by left].
    + rewrite lookup_delete_ne, IH by done. repeat case_decide; set_solver.
Qed.

Lemma Inv_prune (e : Engine) (runs : list run) : Inv (mkSys e runs) -> Inv (mkSys (pruneStoppedLocked e) runs).
Proof.
  intros HI. unfold pruneStoppedLocked. cbv zeta. set (prot := isProtected _ e).
  set (ex := Z.of_nat (length (prunable prot (e_stopped e))) - _). destruct (ex <=? 0); [done|].
  pose proof (pruneList_kept prot (e_stopped e) ex (inv_stopped_nodup _ HI)) as Hk.
  pose proof (pruneList_dropped prot (e_stopped e) ex) as Hd.
  destruct (pruneList prot (e_stopped e) ex) as [kept dropped]. simpl in Hk, Hd.
  eapply (Inv_forget e _ runs (list_to_set dropped) HI); simpl; try done.
  - intros g. rewrite elem_of_list_to_set, Hd. by intros [? _]%prunable_subset.
  - intros g. rewrite foldr_delete_lookup. repeat case_decide; set_solver.
  - rewrite Hk. apply list_filter_iff. intros g. by rewrite elem_of_list_to_set.
Qed.

Lemma Inv_emit (e : Engine) (runs : list run) (ev : event) : Inv (mkSys e runs) -> Inv (mkSys (emit ev e) runs).
Proof. intros HI. by apply (Inv_frame e); try done; apply (inv_paths _ HI). Qed.

Lemma Inv_signal (e : Engine) (runs : list run) : Inv (mkSys e runs) -> Inv (mkSys (signal e) runs).
Proof. intros HI. by apply (Inv_frame e); try done; apply (inv_paths _ HI). Qed.

Lemma Inv_callCancel (e : Engine) (runs : list run) (c : option context) :
  Inv (mkSys e runs) -> Inv (mkSys (callCancel c e) runs).
Proof. intros HI. destruct c; [|done]. by apply (Inv_frame e); try done; apply (inv_paths _ HI). Qed.

Lemma Inv_cancelAndSignal (e : Engine) (runs : list run) (c : option context) :
  Inv (mkSys e runs) -> Inv (mkSys (cancelAndSignal c e) runs).
Proof. intros HI. destruct c; [|done]. by apply Inv_signal, Inv_callCancel. Qed.

Lemma Inv_setPaths (e : Engine) (runs : list run) (p : Paths) :
  reservations_ok p -> Inv (mkSys e runs) -> Inv (mkSys (e <| e_paths := p |>) runs).
Proof. intros Hp HI. by apply (Inv_frame e). Qed.

#[local] Hint Resolve Inv_emit Inv_signal Inv_callCancel Inv_cancelAndSignal Inv_prune : inv.
Ltac inv_auto := unfold saveSessionBestEffort, notify; eauto with inv.

(** ** The operations keep the invariant *)

Section ops.
Context {fs : FileSystem} {storage : TorrentStorage} {lib : TorrentLib}.
Implicit Types (e : Engine) (runs : list run).

(** The flags of a download survive changes of its other fields. *)
Lemma Inv_flags_of e runs l d : Inv (mkSys e runs) -> e_heap e !! l = Some d ->
  flag_ok d (d_pathResetAfterRun d) /\ flag_ok d (d_retainReservationsAfterRun d)
  /\ flag_ok d (d_reservationTransitionAfterRun d).
Proof. intros HI H. by apply (inv_flags _ HI l d). Qed.

Lemma deleteGid_others (g : string) (w : list string) (h : string) : h <> g -> (h ∈ deleteGid g w <-> h ∈ w).
Proof. intros Hne. rewrite elem_of_deleteGid. tauto. Qed.

Lemma Inv_pause gid e runs : Inv (mkSys e runs) -> Inv (mkSys (pause gid e).2 runs).
Proof.
  intros HI. unfold pause. destruct (findDownloadLocked gid e) as [[l d]|err] eqn:Hf; [|done].
  apply (findDownload_reg _ _ _ _ HI) in Hf. simpl in Hf.
  destruct (isTerminal (d_status d)) eqn:Ht; [done|]. cbv zeta. simpl snd.
  destruct (Inv_flags_of e runs l d HI (proj2 Hf)) as (? & ? & ?).
  match goal with |- context [store l ?d' _] =>
    pose proof (Inv_change e runs l d d' (deleteGid (d_gid d) (e_waiting e)) HI Hf Ht) as H' end.
  simpl in H'. apply Inv_emit, Inv_signal, Inv_emit, Inv_callCancel.
  apply H'; try done; eauto with goaria; [apply inv_waiting_nodup in HI; eauto with goaria| |].
  - intros h Hh. by apply deleteGid_others.
  - intros Hin. by apply deleteGid_notin in Hin.
Qed.

Lemma Inv_remove gid now e runs : Inv (mkSys e runs) -> Inv (mkSys (remove gid now e).2 runs).
Proof.
  intros HI. unfold remove. destruct (findDownloadLocked gid e) as [[l d]|err] eqn:Hf; [|done].
  apply (findDownload_reg _ _ _ _ HI) in Hf. simpl in Hf. cbv zeta.
  destruct (isTerminal (d_status d)) eqn:Ht; simpl snd.
  { apply Inv_perm; [done|]. unfold deleteGid. rewrite filter_id; [done|]. apply Forall_forall. intros h Hh ->.
    apply (inv_waiting _ HI) in Hh as (l' & d' & [H1 H2] & H3). destruct Hf. simpl in *.
    simplify_eq. by rewrite H3 in Ht. }
  destruct (Inv_flags_of e runs l d HI (proj2 Hf)) as (? & ? & ?).
  match goal with |- context [store l ?d' _] =>
    pose proof (Inv_change e runs l d d' (deleteGid (d_gid d) (e_waiting e)) HI Hf Ht) as H' end.
  simpl in H'. apply Inv_emit, Inv_signal, Inv_emit, Inv_callCancel.
  unfold appendStoppedLocked. rewrite bool_decide_false.
  - apply Inv_prune, H'; try done; eauto with goaria; [apply inv_waiting_nodup in HI; eauto with goaria| |].
    + intros h Hh. by apply deleteGid_others.
    + intros Hin. by apply deleteGid_notin in Hin.
  - pose proof (inv_stopped_set _ HI) as Hss. pose proof (inv_stopped _ HI) as Hst. simpl in *.
    rewrite Hss, elem_of_list_to_set, Hst. intros (l' & d' & [Hd1 Hd2] & Hd3). destruct Hf. congruence.
Qed.

Lemma not_waiting_notin e runs l d : Inv (mkSys e runs) -> reg e (d_gid d) l d ->
  d_status d <> StatusWaiting -> d_gid d ∉ e_waiting e.
Proof.
  intros HI [H1 H2] Hs Hin. apply (inv_waiting _ HI) in Hin as (l' & d' & [H3 H4] & H5). simpl in *. congruence.
Qed.

(** Appending an absent gid to the queue. *)
Lemma snoc_others (g : string) (w : list string) (h : string) : h <> g -> (h ∈ w ++ [g] <-> h ∈ w).
Proof. intros Hne. rewrite elem_of_app, list_elem_of_singleton. tauto. Qed.

Lemma Inv_Unpause gid e runs : Inv (mkSys e runs) -> Inv (mkSys (Unpause gid e).2 runs).
Proof.
  intros HI. unfold Unpause. destruct (findDownloadLocked gid e) as [[l d]|err] eqn:Hf; [|done].
  apply (findDownload_reg _ _ _ _ HI) in Hf. simpl in Hf. case_bool_decide as Hp; [|done]. simpl snd.
  destruct (Inv_flags_of e runs l d HI (proj2 Hf)) as (? & ? & ?).
  assert (d_cancel d = None) as Hc.
  { destruct (d_cancel d) as [c|] eqn:E; [|done].
    pose proof (inv_cancel _ HI l d c (proj2 Hf) E). congruence. }
  match goal with |- context [store l ?d' _] =>
    pose proof (Inv_change e runs l d d' (e_waiting e ++ [d_gid d]) HI Hf) as H' end.
  simpl in H'. apply Inv_emit, Inv_signal. apply H'; try done; [by rewrite Hp| | |].
  - apply NoDup_snoc; [apply (inv_waiting_nodup _ HI)|]. eapply not_waiting_notin; [done..|congruence].
  - intros h Hh. by apply snoc_others.
  - intros _ _. apply elem_of_app. right. by left.
Qed.

Lemma Inv_fold (f : Engine -> string -> Engine) gids e runs :
  (forall g e, Inv (mkSys e runs) -> Inv (mkSys (f e g) runs)) ->
  Inv (mkSys e runs) -> Inv (mkSys (foldl f e gids) runs).
Proof. intros Hf. revert e. induction gids as [|g gids IH]; intros e HI; simpl; [done|]. apply IH, Hf, HI. Qed.

Lemma Inv_ChangePosition gid pos how e runs :
  Inv (mkSys e runs) -> Inv (mkSys (ChangePosition gid pos how e).2 runs).
Proof.
  intros HI. unfold ChangePosition. destruct (findDownloadLocked gid e) as [[l d]|err]; [|done].
  destruct (index_of (d_gid d) (e_waiting e)) as [idx|] eqn:Hi; [|done].
  destruct (moveTo _ _ _ _ _) as [[w dst]|] eqn:Hm; [|done]. simpl snd.
  apply Inv_emit, Inv_perm; [done|]. apply index_of_Some in Hi.
  apply moveTo_spec in Hm as [_ ->]; [|apply (inv_waiting_nodup _ HI)|done].
  rewrite insertAt_Permutation, <- (remove_at _ _ idx) by (done || apply (inv_waiting_nodup _ HI)).
  rewrite Permutation_middle. by rewrite take_drop_middle.
Qed.

(** A restart of a download whose other fields have just changed. *)
Lemma Inv_restart l d d1 e runs :
  Inv (mkSys e runs) -> reg e (d_gid d) l d -> core_eq d d1 ->
  let '(c, d2, e2) := restartActiveDownloadLocked d1 e in Inv (mkSys (store l d2 e2) runs).
Proof.
  intros HI Hr Hcore. pose proof Hcore as (Hg & Hst & Hctx & Hcan & Hf1 & Hf2 & Hf3).
  unfold restartActiveDownloadLocked. case_bool_decide as Ha; simpl; [|by apply (Inv_core e runs l d); [|apply Hr|]].
  assert (d_gid d ∉ e_waiting e) as Hnw by (eapply not_waiting_notin; [done..|congruence]).
  rewrite Hg. apply index_of_None in Hnw as Hidx. rewrite Hidx.
  match goal with |- context [store l ?d' _] =>
    pose proof (Inv_change e runs l d d' (e_waiting e ++ [d_gid d]) HI Hr) as H' end.
  simpl in H'. apply H'; try done; [rewrite <- Hst; by rewrite Ha| | |].
  - apply NoDup_snoc; [apply (inv_waiting_nodup _ HI)|done].
  - intros h Hh. by apply snoc_others.
  - intros _ _. apply elem_of_app. right. by left.
Qed.

Lemma core_flags e runs l d : Inv (mkSys e runs) -> e_heap e !! l = Some d -> core_eq d d.
Proof. intros HI H. destruct (Inv_flags_of e runs l d HI H) as (? & ? & ?). by split_and!. Qed.

Lemma Inv_ChangeURI gid i dels adds pos e runs :
  Inv (mkSys e runs) -> Inv (mkSys (ChangeURI gid i dels adds pos e).2 runs).
Proof.
  intros HI. unfold ChangeURI. case_if; [done|]. case_if; [done|].
  destruct (first_error _); [|done]. destruct (findDownloadLocked gid e) as [[l d]|err] eqn:Hf; [|done].
  apply (findDownload_reg _ _ _ _ HI) in Hf. simpl in Hf.
  destruct (deleteURIs dels (d_uris d) 0) as [remaining deleted]. cbv zeta.
  destruct (maxDownloadURIs <? Z.of_nat (length (insertURIs adds pos remaining))); [done|].
  destruct (bool_decide (d_kind d = downloadKindURI) && _); [done|].
  destruct (core_flags e runs l d HI (proj2 Hf)) as (_ & _ & _ & _ & Hf1 & Hf2 & Hf3).
  destruct (0 <? deleted + Z.of_nat (length adds)).
  - match goal with |- context [restartActiveDownloadLocked ?d1 e] =>
      pose proof (Inv_restart l d d1 e runs HI Hf) as H';
      destruct (restartActiveDownloadLocked d1 e) as [[c d2] e2] end.
    simpl snd. apply Inv_emit, Inv_cancelAndSignal, H'. case_bool_decide; split_and!; try done; by right.
  - simpl snd. apply Inv_emit. by apply (Inv_core e runs l d); [|apply Hf|].
Qed.

Lemma Inv_applyOptionChange l d opts merged next restart e runs :
  Inv (mkSys e runs) -> (exists d0, reg e (d_gid d0) l d0 /\ core_eq d0 d) ->
  Inv (mkSys (applyOptionChange l d opts merged next restart e) runs).
Proof.
  intros HI (d0 & Hr & Hcore). pose proof Hcore as (Hg & Hst & Hctx & Hcan & Hf1 & Hf2 & Hf3).
  unfold applyOptionChange. cbv zeta.
  match goal with |- context [match next with Some _ => _ | None => ?dd end] => set (d1 := dd) end.
  assert (core_eq d0 d1 /\ d_kind d1 = d_kind d) as [Hc1 _].
  { unfold d1. destruct (bool_decide (d_kind d = downloadKindURI) && _); [|by split_and!]. simpl. unfold core_eq, flag_ok in *.
    destruct (d_ctx d) eqn:Ec; simpl in *; rewrite ?Ec; split_and!; try done; try congruence; tauto. }
  set (d2 := match next with Some _ => _ | None => _ end).
  assert (core_eq d0 d2) as Hc2.
  { unfold d2. destruct next as [[[files total] completed]|]; [|done].
    destruct Hc1 as (? & ? & ? & ? & ? & ? & ?). by split_and!. }
  clearbody d1 d2. destruct restart.
  - match goal with |- context [restartActiveDownloadLocked ?d3 e] =>
      pose proof (Inv_restart l d0 d3 e runs HI Hr) as H';
      destruct (restartActiveDownloadLocked d3 e) as [[c d4] e4] end.
    apply Inv_emit, Inv_cancelAndSignal, H'. case_if; [|done].
    destruct Hc2 as (? & ? & ? & ? & ? & ? & ?). split_and!; simpl; try done. by right.
  - apply Inv_emit. by apply (Inv_core e runs l d0); [|apply Hr|].
Qed.

Lemma Inv_ChangeOption gid opts e runs : Inv (mkSys e runs) -> Inv (mkSys (ChangeOption gid opts e).2 runs).
Proof.
  intros HI. unfold ChangeOption. destruct (List.find _ _); [done|]. destruct (validateOptionValues opts); [|done].
  destruct (findDownloadLocked gid e) as [[l d]|err] eqn:Hf; [|done].
  apply (findDownload_reg _ _ _ _ HI) in Hf. simpl in Hf.
  destruct (prepareOptionChange d opts) as [[merged next]|err]; [|done]. cbv zeta.
  pose proof (core_flags e runs l d HI (proj2 Hf)) as Hcore.
  case_if.
  - destruct (reserveOutputPaths _ _ _) as [paths|err] eqn:Hp; [|done]. simpl snd.
    apply Inv_applyOptionChange.
    + apply Inv_setPaths; [|done]. by apply (update_spec _ _ _ _ _ (inv_paths _ HI)) in Hp as (? & _ & _ & _ & _ & ?).
    + exists d. split; [done|]. destruct Hcore as (? & ? & ? & ? & ? & ? & ?). split_and!; simpl; try done. by right.
  - simpl snd. apply Inv_applyOptionChange; [done|]. by exists d.
Qed.

Lemma Inv_ChangeGlobalOption opts e runs : Inv (mkSys e runs) -> Inv (mkSys (ChangeGlobalOption opts e).2 runs).
Proof.
  intros HI. unfold ChangeGlobalOption. case_if; [done|]. cbv zeta. destruct (result_bind _ _); [|done]. simpl snd.
  apply Inv_emit, Inv_signal, Inv_prune. by apply (Inv_frame e); try done; apply (inv_paths _ HI).
Qed.

Lemma Inv_Purge e runs : Inv (mkSys e runs) -> Inv (mkSys (PurgeDownloadResult e).2 runs).
Proof.
  intros HI. apply Inv_emit. eapply (Inv_forget e _ runs (list_to_set (e_stopped e)) HI); simpl; try done.
  - intros g. by rewrite elem_of_list_to_set.
  - intros g. rewrite foldr_delete_lookup. repeat case_decide; set_solver.
  - rewrite filter_none; [done|]. apply Forall_forall. intros g Hg Hn. apply Hn. by apply elem_of_list_to_set.
Qed.

Lemma Inv_RemoveResult gid e runs : Inv (mkSys e runs) -> Inv (mkSys (RemoveDownloadResult gid e).2 runs).
Proof.
  intros HI. unfold RemoveDownloadResult. destruct (findDownloadLocked gid e) as [[l d]|err] eqn:Hf; [|done].
  apply (findDownload_reg _ _ _ _ HI) in Hf. simpl in Hf.
  destruct (isTerminal (d_status d)) eqn:Ht; [|done]. simpl snd. apply Inv_emit.
  eapply (Inv_forget e _ runs {[d_gid d]} HI); simpl; try done.
  - intros g ->%elem_of_singleton. apply (inv_stopped _ HI). by exists l, d.
  - intros g. case_decide as Hg; [apply elem_of_singleton in Hg as ->; apply lookup_delete_eq|].
    rewrite lookup_delete_ne; [done|]. set_solver.
  - apply list_filter_iff. intros g. by rewrite elem_of_singleton.
Qed.

Lemma Inv_enlist d position e runs :
  Inv (mkSys e runs) -> e_downloads e !! d_gid d = None -> d_status d = StatusWaiting -> fresh_download d ->
  Inv (mkSys (enlist d position e) runs).
Proof.
  intros HI Hn Hs Hf. unfold enlist. cbv zeta. set (l := fresh (dom (e_heap e))).
  assert (e_heap e !! l = None) as Hl by (apply not_elem_of_dom_1, is_fresh).
  case_if.
  - pose proof (Inv_add e runs l (d <| d_status := StatusPaused |>) (e_waiting e) HI) as H'.
    destruct e. apply H'; try done. by left.
  - pose proof (Inv_add e runs l d (insertWaiting (d_gid d) position (e_waiting e)) HI Hn Hl Hf) as H'.
    destruct e. apply H'. right. split; [done|]. apply insertWaiting_Permutation.
Qed.

Lemma Inv_register d position e runs :
  Inv (mkSys e runs) -> e_downloads e !! d_gid d = None -> d_status d = StatusWaiting -> fresh_download d ->
  Inv (mkSys (register d position e) runs).
Proof. intros HI Hn Hs Hf. unfold register. by apply Inv_emit, Inv_signal, Inv_enlist. Qed.

Lemma chooseGID_fresh merged random e gid : chooseGID merged random e = Ok gid -> e_downloads e !! gid = None.
Proof.
  unfold chooseGID. intros (g & _ & H)%result_bind_ok. destruct (e_downloads e !! g) eqn:Hg; [done|]. congruence.
Qed.

Definition new_ok (gid : string) (d : Download) : Prop :=
  d_gid d = gid /\ d_status d = StatusWaiting /\ fresh_download d.

Lemma newTorrentDownload_ok gid data magnet uris opts mi info now d :
  newTorrentDownload gid data magnet uris opts mi info now = Ok d -> new_ok gid d.
Proof.
  unfold newTorrentDownload. destruct (validateTorrentInfo info); [|done].
  destruct (torrentInfoPieceCount info); [|done]. cbv zeta.
  intros (seeds & _ & H)%result_bind_ok. apply result_bind_ok in H as (files & _ & H). by simplify_eq.
Qed.

Lemma newMagnetDownload_ok gid raw uris opts now d : newMagnetDownload gid raw uris opts now = Ok d -> new_ok gid d.
Proof.
  unfold newMagnetDownload. intros (spec & _ & H)%result_bind_ok. apply result_bind_ok in H as (seeds & _ & H).
  apply result_bind_ok in H as (d0 & H & H'). apply newTorrentDownload_ok in H. by simplify_eq.
Qed.

Lemma Inv_add_call gid merged random position e runs (d : Download) :
  Inv (mkSys e runs) -> chooseGID merged random e = Ok gid -> new_ok gid d ->
  Inv (mkSys (register d position e) runs).
Proof.
  intros HI Hg (<- & Hs & Hf). apply Inv_register; try done. by eapply chooseGID_fresh.
Qed.

Lemma Inv_addMagnet raw opts position random now e runs :
  Inv (mkSys e runs) -> Inv (mkSys (addMagnet raw opts position random now e).2 runs).
Proof.
  intros HI. unfold addMagnet. destruct (TorrentSpecFromMagnetUri raw); [|done]. destruct (e_ctxErr e); [done|].
  cbv zeta. destruct (result_bind _ _) as [d|] eqn:Hb; [|done]. simpl snd.
  apply result_bind_ok in Hb as (_ & _ & Hb). apply result_bind_ok in Hb as (gid & Hg & Hb).
  eapply Inv_add_call; [done|exact Hg|]. by eapply newMagnetDownload_ok.
Qed.

Lemma Inv_AddURI uris opts position random now e runs :
  Inv (mkSys e runs) -> Inv (mkSys (AddURI uris opts position random now e).2 runs).
Proof.
  intros HI. unfold AddURI. destruct (validateOptionValues opts); [|done].
  destruct uris as [|raw0 more]; [done|]. destruct (maxDownloadURIs <? _); [done|].
  destruct (_ && isMagnetURI raw0); [by apply Inv_addMagnet|].
  destruct (first_error _); [|done]. destruct (e_ctxErr e); [done|]. cbv zeta.
  destruct (chooseGID _ random e) as [gid|] eqn:Hg; [|done]. simpl snd. by eapply Inv_add_call.
Qed.

Lemma Inv_addTorrent merged source uris position random now e runs :
  Inv (mkSys e runs) -> Inv (mkSys (addTorrentCommit merged source uris position random now e).2 runs).
Proof.
  intros HI. unfold addTorrentCommit. destruct source as [[[[data mi] info] url]|]; [|done]. cbv zeta.
  destruct (result_bind _ _) as [d|] eqn:Hb; [|done]. simpl snd.
  apply result_bind_ok in Hb as (merged' & _ & Hb). apply result_bind_ok in Hb as (sel & _ & Hb).
  destruct (e_ctxErr e); [done|]. apply result_bind_ok in Hb as (gid & Hg & Hb).
  eapply Inv_add_call; [done|exact Hg|]. by eapply newTorrentDownload_ok.
Qed.

Lemma Inv_call c e runs : Inv (mkSys e runs) -> Inv (mkSys (run_call c e) runs).
Proof.
  intros HI. destruct c; simpl.
  - by apply Inv_AddURI.
  - by apply Inv_addTorrent.
  - by apply Inv_pause.
  - by apply Inv_remove.
  - by apply Inv_Unpause.
  - apply Inv_fold; [intros; by apply Inv_pause|done].
  - apply Inv_fold; [intros; by apply Inv_Unpause|done].
  - by apply Inv_ChangePosition.
  - by apply Inv_ChangeURI.
  - by apply Inv_ChangeOption.
  - by apply Inv_ChangeGlobalOption.
  - by apply Inv_Purge.
  - by apply Inv_RemoveResult.
  - unfold RequestShutdown. destruct (e_shutdownReq e); [destruct force|]; try done;
      by apply (Inv_frame e); try done; apply (inv_paths _ HI).
  - apply Inv_signal. by apply (Inv_frame e); try done; apply (inv_paths _ HI).
Qed.

(** *** The scheduler *)

Lemma Inv_scheduleLoop n maxActive e runs :
  Inv (mkSys e runs) ->
  Inv (mkSys (scheduleLoop n maxActive e).2 (runs ++ (scheduleLoop n maxActive e).1)).
Proof.
  revert e runs. induction n as [|n IH]; intros e runs HI; cbn [scheduleLoop]; [simpl; by rewrite app_nil_r|].
  destruct (_ && _); [|simpl; by rewrite app_nil_r].
  destruct (e_waiting e) as [|g rest] eqn:Hw; [simpl; by rewrite app_nil_r|].
  case_bool_decide as Ha.
  { apply IH, Inv_perm; [done|]. by rewrite Hw, Permutation_app_comm. }
  destruct (inv_waiting _ HI g) as (l & d & Hr & Hs); [simpl; rewrite Hw; by left|]. simpl in Hr.
  assert (reg (e <| e_waiting := rest |>) g l d) as Hr' by exact Hr.
  apply lookupDownload_reg in Hr'. cbv zeta. rewrite Hr', bool_decide_true by done. cbn [negb].
  pose proof (Inv_start e runs g rest l d HI Hw Ha Hr Hs) as HI'.
  destruct (startDownload g l d (e <| e_waiting := rest |>)) as [c e1] eqn:Hst.
  assert (c = e_nextCtx e) as -> by (unfold startDownload in Hst; simpl in Hst; congruence).
  simpl in HI'. specialize (IH e1 _ HI').
  destruct (scheduleLoop n maxActive e1) as [starts e2]. simpl in *. by rewrite <- app_assoc in IH.
Qed.

Lemma Inv_notify_starts (starts : list (loc * context)) e runs :
  Inv (mkSys e runs) ->
  Inv (mkSys (foldl (fun e (s : loc * context) =>
     match e_heap e !! s.1 with
     | Some d => notify "aria2.onDownloadStart" (d_gid d) e
     | None => e
     end) e starts) runs).
Proof.
  revert e. induction starts as [|s starts IH]; intros e HI; simpl; [done|].
  apply IH. destruct (e_heap e !! s.1); [by apply Inv_emit|done].
Qed.

Lemma Inv_schedule e runs :
  Inv (mkSys e runs) -> Inv (mkSys (schedule e).2 (runs ++ (schedule e).1)).
Proof.
  intros HI. unfold schedule. cbv zeta.
  pose proof (Inv_scheduleLoop (length (e_waiting e))
    (optionInt (e_global e) "max-concurrent-downloads" (e_cfgMaxConcurrentDownloads e)) e runs HI) as H'.
  destruct (scheduleLoop _ _ _) as [starts e']. simpl in *. by apply Inv_notify_starts.
Qed.

(** *** The end of a run *)

(** What [settleReservations] does to the download and to the reservations. *)
Lemma settle_spec c d paths p' d' retain :
  d_ctx d = Some c -> flag_ok d (d_pathResetAfterRun d) -> flag_ok d (d_retainReservationsAfterRun d) ->
  flag_ok d (d_reservationTransitionAfterRun d) -> reservations_ok paths ->
  settleReservations c d paths = (p', d', retain) ->
  reservations_ok p' /\ d_gid d' = d_gid d /\ d_status d' = d_status d /\ d_ctx d' = d_ctx d
  /\ d_cancel d' = d_cancel d /\ d_pathResetAfterRun d' = None /\ d_retainReservationsAfterRun d' = None
  /\ d_reservationTransitionAfterRun d' = None.
Proof.
  intros Hc Hf1 Hf2 Hf3 Hp. unfold flag_ok in *. rewrite Hc in *. unfold settleReservations. cbv zeta.
  assert (forall flag, flag = None \/ flag = Some c -> sameCtx flag c = isSome flag) as Hsame.
  { intros flag [H | H]; subst flag; unfold sameCtx; simpl; [done|]. by rewrite bool_decide_true. }
  set (d1 := if sameCtx (d_retainReservationsAfterRun d) c then _ else d).
  assert (d1 = d <| d_retainReservationsAfterRun := None |>) as E1.
  { unfold d1. rewrite Hsame by done. destruct (d_retainReservationsAfterRun d) eqn:E; [done|].
    simpl. destruct d; simpl in *. by subst. }
  rewrite E1. clear d1 E1. set (d2 := if sameCtx (d_pathResetAfterRun _) c then _ else _).
  assert (d_gid d2 = d_gid d /\ d_status d2 = d_status d /\ d_ctx d2 = d_ctx d /\ d_cancel d2 = d_cancel d
    /\ d_pathResetAfterRun d2 = None /\ d_retainReservationsAfterRun d2 = None
    /\ d_reservationTransitionAfterRun d2 = d_reservationTransitionAfterRun d
    /\ d_reservationPathsAfterRun d2 = d_reservationPathsAfterRun d) as (H1 & H2 & H3 & H4 & H5 & H6 & H7 & H8).
  { unfold d2. simpl. rewrite Hsame by done. destruct (d_pathResetAfterRun d) eqn:E; simpl; split_and!; done. }
  clearbody d2. rewrite H7. rewrite Hsame by done. destruct (isSome (d_reservationTransitionAfterRun d)) eqn:Et.
  - destruct (replaceOutputPaths _ _ _) as [p2|err] eqn:Hrep; intros [= <- <- <-]; simpl; split_and!; try done; try congruence.
    by apply (update_spec _ _ _ _ _ Hp) in Hrep as (? & _ & _ & _ & _ & ?).
  - intros [= <- <- <-]. split_and!; try done; try congruence. rewrite H7.
    by destruct (d_reservationTransitionAfterRun d).
Qed.

Lemma finishActive_spec err shutdown now d :
  let d' := (finishActive err shutdown now d).1 in
  d_gid d' = d_gid d /\ d_ctx d' = d_ctx d /\ d_cancel d' = None /\ d_status d' <> StatusActive
  /\ d_pathResetAfterRun d' = d_pathResetAfterRun d
  /\ d_retainReservationsAfterRun d' = d_retainReservationsAfterRun d
  /\ d_reservationTransitionAfterRun d' = d_reservationTransitionAfterRun d
  /\ (d_status d' = StatusWaiting -> shutdown = true).
Proof.
  unfold finishActive. destruct err as [err|]; simpl.
  - destruct shutdown; simpl; [by split_and!|]. destruct (errors_is _ err); by split_and!.
  - case_if; [by split_and!|]. case_if; by split_and!.
Qed.

Lemma Inv_release e runs g (b : bool) :
  Inv (mkSys e runs) -> Inv (mkSys (if b then e else e <| e_paths ::= releaseOutputPaths g |>) runs).
Proof.
  intros HI. destruct b; [done|]. apply Inv_setPaths; [|done]. by apply release_spec, (inv_paths _ HI).
Qed.

(** The end of an active run, before reservations are released. *)
Lemma Inv_finish_active e runs l c d d3 paths :
  Inv (mkSys e runs) -> e_heap e !! l = Some d -> d_ctx d = Some c -> d_status d = StatusActive ->
  reservations_ok paths -> d_gid d3 = d_gid d -> d_ctx d3 = None -> d_cancel d3 = None ->
  d_status d3 <> StatusActive -> (d_status d3 = StatusWaiting -> e_ctxErr e = true) ->
  d_pathResetAfterRun d3 = None -> d_retainReservationsAfterRun d3 = None ->
  d_reservationTransitionAfterRun d3 = None ->
  let e3 := store l d3 (e <| e_active ::= fun s => s ∖ {[d_gid d]} |> <| e_paths := paths |>) in
  Inv (mkSys (if isTerminal (d_status d3) then appendStoppedLocked (d_gid d3) e3 else e3) (removeRun (l, c) runs)).
Proof.
  intros HI Hl Hc Ha Hp Hg Hctx Hcan Hna Hsh Hf1 Hf2 Hf3 e3.
  assert (reg e (d_gid d) l d) as Hr.
  { split; [|done]. destruct (inv_orphan _ HI l d Hl) as [?|Ht]; [done|]. by rewrite Ha in Ht. }
  assert (d_gid d ∉ e_waiting e) as Hnw by (eapply not_waiting_notin; [done..|congruence]).
  assert (isTerminal (d_status d) = false) as Hnt by (by rewrite Ha).
  pose (dA := d3 <| d_ctx := Some c |>).
  pose proof (Inv_change e runs l d dA (e_waiting e) HI Hr Hnt) as H1.
  set (eA := (if isTerminal (d_status dA) then addStopped (d_gid d) else fun e => e)
               (store l dA (e <| e_waiting := e_waiting e |>))) in H1.
  assert (Inv (mkSys eA runs)) as HA.
  { apply H1; try done; unfold flag_ok, dA; simpl; try (by left); [apply (inv_waiting_nodup _ HI)|].
    intros Hnc Hw. apply Hsh in Hw. congruence. }
  assert (e_heap eA !! l = Some dA) as HlA by (unfold eA; case_if; simpl; by rewrite lookup_insert_eq).
  pose proof (Inv_end eA runs l c dA d3 HA HlA eq_refl Hna eq_refl eq_refl Hctx eq_refl Hf1 Hf2 Hf3) as HB.
  pose (e4 := if isTerminal (d_status d3) then addStopped (d_gid d) e3 else e3).
  assert (Inv (mkSys e4 (removeRun (l, c) runs))) as H4.
  { apply (Inv_frame _ e4) in HB; [done|unfold e4, e3, eA, dA; simpl; rewrite ?Hg; case_if; simpl; try done..].
    all: by rewrite insert_insert_eq. }
  unfold e4 in H4. case_if; [|done]. unfold appendStoppedLocked. rewrite Hg.
  rewrite bool_decide_false; [by apply Inv_prune|]. simpl.
  pose proof (inv_stopped_set _ HI) as Hss. pose proof (inv_stopped _ HI) as Hst. simpl in *.
  rewrite Hss, elem_of_list_to_set, Hst. intros (l' & d' & [Hd1 Hd2] & Hd3). destruct Hr. congruence.
Qed.

Lemma Inv_finish l c err now e runs :
  Inv (mkSys e runs) -> (l, c) ∈ runs ->
  Inv (mkSys (finishDownload l c err now e) (removeRun (l, c) runs)).
Proof.
  intros HI Hin. apply (inv_runs _ HI) in Hin as (d & Hl & Hc). simpl in Hl.
  destruct (Inv_flags_of e runs l d HI Hl) as (Hf1 & Hf2 & Hf3).
  unfold finishDownload. rewrite Hl. unfold sameCtx at 1. rewrite Hc, bool_decide_true by done. cbn [negb]. cbv zeta.
  destruct (settleReservations c d _) as [[paths d1] retain] eqn:Hs.
  apply settle_spec in Hs as (Hp & Hg & Hst & Hctx & Hcan & Hn1 & Hn2 & Hn3); try done; [|apply (inv_paths _ HI)].
  set (d2 := d1 <| d_ctx := None |> <| d_torrent := None |>).
  change (d_status d2) with (d_status d1). rewrite Hst.
  case_bool_decide as Ha.
  - destruct (finishActive err _ now d2) as [d3 note] eqn:Hfa.
    pose proof (finishActive_spec err (e_ctxErr e) now d2) as Hsp. cbv zeta in Hsp.
    assert (finishActive err (e_ctxErr e) now d2 = (d3, note)) as Hfa' by exact Hfa. rewrite Hfa' in Hsp.
    destruct Hsp as (G1 & G2 & G3 & G4 & G5 & G6 & G7 & G8). simpl in G1, G2, G3, G4, G5, G6, G7, G8.
    pose proof (Inv_finish_active e runs l c d d3 paths HI Hl Hc Ha Hp) as H'. cbv zeta in H'. cbn [andb].
    apply Inv_emit, Inv_signal. case_if; [|apply Inv_emit]; apply Inv_callCancel, Inv_release, H';
      try done; try congruence.
  - cbn [andb]. rewrite String.eqb_refl. apply Inv_emit, Inv_signal, Inv_callCancel, Inv_release.
    pose proof (Inv_end e runs l c d d2 HI Hl Hc Ha) as H'.
    apply (Inv_frame (store l d2 (e <| e_active ::= fun s => s ∖ {[d_gid d]} |>))); try done.
    by apply H'.
Qed.

Lemma Inv_step s s' : Inv s -> step s s' -> Inv s'.
Proof.
  intros HI H. destruct H as [e runs Hw|c e runs|l c d d' e runs Hin Hl Hp|l c d op e runs Hin Hl Hop|l c err now e runs Hin].
  - unfold schedulerStep. apply Inv_schedule. by apply (Inv_frame e); try done; apply (inv_paths _ HI).
  - by apply Inv_call.
  - apply (Inv_core e runs l d d' HI Hl). destruct (Inv_flags_of e runs l d HI Hl) as (Hf1 & Hf2 & Hf3).
    destruct Hp as (_ & Hg & _ & Hs & Hc & Hcan & H1 & H2 & H3 & _). unfold core_eq, flag_ok in *.
    rewrite H1, H2, H3, Hc. by split_and!.
  - apply Inv_setPaths; [|done]. by apply run_op_spec, (inv_paths _ HI).
  - by apply Inv_finish.
Qed.

Lemma Inv_NewEngine cwd cfg : Inv (mkSys (NewEngine cwd cfg) []).
Proof.
  unfold NewEngine. cbv zeta.
  match goal with |- Inv (mkSys (signal (mkEngine ?a ?b _ _ _ _ _ _ _ _ ?g _ _ _ _ _ _)) _) =>
    generalize a b g end; clear; intros a b gl.
  constructor; simpl; unfold reg; simpl;
    try solve [intros; match goal with H : (∅ : gmap _ _) !! _ = Some _ |- _ => by rewrite lookup_empty in H end];
    try (by constructor); try apply noPaths_ok.
  - by intros h ?%elem_of_nil.
  - intros Hc h l d [H _]. by rewrite lookup_empty in H.
  - intros l c. rewrite elem_of_nil. split; [done|]. intros (d & H & _). by rewrite lookup_empty in H.
  - intros h. rewrite elem_of_empty. split; [done|]. intros (l & d & c & H & _). by rewrite lookup_empty in H.
  - intros h. rewrite elem_of_nil. split; [done|]. intros (l & d & [H _] & _). by rewrite lookup_empty in H.
Qed.

(** *** Restoring a session *)

Lemma restoreTorrentFinalized_ok indexes gid d d' :
  restoreTorrentFinalized indexes d = Ok d' -> new_ok gid d -> new_ok gid d'.
Proof. unfold restoreTorrentFinalized. intros (u & _ & H)%result_bind_ok Hd. injection H as <-. exact Hd. Qed.

Lemma itemDownload_ok gid uris merged now d : itemDownload gid uris merged now = Ok d -> new_ok gid d.
Proof.
  unfold itemDownload. destruct uris as [|first webseeds]; [done|].
  intros ([data|] & _ & H)%result_bind_ok.
  - apply result_bind_ok in H as (_ & _ & H). apply result_bind_ok in H as ([mi info] & _ & H).
    apply result_bind_ok in H as (_ & _ & H). by eapply newTorrentDownload_ok.
  - destruct (isMagnetURI first).
    + destruct (maxDownloadURIs <? _); [done|]. apply result_bind_ok in H as (_ & _ & H). by eapply newMagnetDownload_ok.
    + destruct (maxDownloadURIs <? _); [done|]. apply result_bind_ok in H as (_ & _ & H). by simplify_eq.
Qed.

Lemma Inv_loadItem item random now e e' :
  Inv (mkSys e []) -> loadItem item random now e = Ok e' -> Inv (mkSys e' []).
Proof.
  intros HI. unfold loadItem. destruct (si_uris item) as [|first rest]; [by intros [= ->]|].
  intros ([merged finalized] & _ & H)%result_bind_ok. apply result_bind_ok in H as (_ & _ & H).
  apply result_bind_ok in H as (gid & Hg & H). apply result_bind_ok in H as (d & Hd & H).
  apply itemDownload_ok in Hd. apply result_bind_ok in H as (d' & Hd' & H). injection H as <-.
  assert (new_ok gid d') as (<- & Hs & Hf).
  { destruct finalized as [finalized|]; [|by simplify_eq]. destruct (negb _); [done|]. by eapply restoreTorrentFinalized_ok. }
  apply Inv_enlist; try done. by eapply chooseGID_fresh.
Qed.

Lemma Inv_loadItems items draw k e e' :
  Inv (mkSys e []) -> loadItems items draw k e = Ok e' -> Inv (mkSys e' []).
Proof.
  revert k e. induction items as [|item items IH]; intros k e HI H; [by simplify_eq/=|].
  apply result_bind_ok in H as (e1 & H1 & H). apply (IH (S k) e1); [|done]. by eapply Inv_loadItem.
Qed.

Lemma Inv_initial s : initial s -> Inv s.
Proof.
  intros [(cwd & cfg & ->)|(cwd & cfg & text & draw & e & H & ->)]; [apply Inv_NewEngine|].
  unfold NewEngineWithInput, loadSession in H. apply result_bind_ok in H as (items & _ & H).
  eapply Inv_loadItems; [apply Inv_NewEngine|done].
Qed.

Lemma Inv_reachable s : reachable s -> Inv s.
Proof. induction 1 as [s H|s s' _ IH H]; [by apply Inv_initial|by eapply Inv_step]. Qed.
End ops.
