(* ===== verification/EngineProps.v ===== *)
(** * The engine: what its operations guarantee

    Theorems about reachable states and about each operation, proved from the
    invariant of [EngineInv]: the invariant itself, the life cycle of a download,
    scheduling, the outcome of a run, pausing, removing, reordering, result pruning
    and gid lookup.  Concrete histories are run by [run_actions]. *)
From S2P Require Import Prelude GoStrings GoURL Options Reservations Torrent Queue State Engine EngineInv.

(** ** Vocabulary *)

(** The started runs, by gid: at each location an active download with its context. *)
Definition started_as (e : Engine) (s : loc * context) (g : string) : Prop :=
  exists d, e_heap e !! s.1 = Some d /\ d_gid d = g /\ d_status d = StatusActive /\ d_ctx d = Some s.2.

(** The status changes a single step can make. *)
Inductive transition : Status -> Status -> Prop :=
| trans_refl st : transition st st
| trans_start : transition StatusWaiting StatusActive
| trans_requeue : transition StatusActive StatusWaiting
| trans_pause st : isTerminal st = false -> transition st StatusPaused
| trans_unpause : transition StatusPaused StatusWaiting
| trans_remove st : isTerminal st = false -> transition st StatusRemoved
| trans_complete : transition StatusActive StatusComplete
| trans_fail : transition StatusActive StatusError.

(** Every download of [e] is still in [e'], with the same identity and a status
    related by [P] to the one it had. *)
Definition status_rel (P : Status -> Status -> Prop) (e e' : Engine) : Prop :=
  forall l d, e_heap e !! l = Some d ->
    exists d', e_heap e' !! l = Some d' /\ d_gid d' = d_gid d /\ d_kind d' = d_kind d
      /\ d_createdAt d' = d_createdAt d /\ P (d_status d) (d_status d').

(** [e'] differs from [e] at most in the download at [l], among the downloads. *)
Definition only_at (l : loc) (e e' : Engine) : Prop :=
  e_downloads e' = e_downloads e /\ forall l', l' <> l -> e_heap e' !! l' = e_heap e !! l'.

(** The status after a run that ends with [err]: only an active download is moved. *)
Definition outcome_status (err : option error) (shutdown : bool) (st : Status) : Status :=
  if bool_decide (st = StatusActive) then
    match err with
    | None => StatusComplete
    | Some err => if shutdown then StatusWaiting
                  else if errors_is (fun e => match e with ECanceled => true | _ => false end) err then StatusPaused
                  else StatusError
    end
  else st.

(** The subscribers' notification of that outcome. *)
Definition outcome_events (gid : string) (before after : Status) : list event :=
  if bool_decide (before = StatusActive) then
    match after with
    | StatusComplete => [Notify "aria2.onDownloadComplete" gid]
    | StatusError => [Notify "aria2.onDownloadError" gid]
    | _ => []
    end
  else [].

(** The run's reservations survive it: it was superseded by a restart that keeps them. *)
Definition keeps_reservations (c : context) (d : Download) : bool :=
  bool_decide (d_status d = StatusWaiting) && bool_decide (d_retainReservationsAfterRun d = Some c).

(** ** Executable histories *)

Inductive action :=
| ASchedule
| ACall (c : call)
| AProgress (l : loc) (c : context) (total completed : Z)
| AReserve (l : loc) (c : context) (path : string) (autoRename : bool)
| AFinish (l : loc) (c : context) (err : option error) (now : Z).

Section exec.
Context {fs : FileSystem} {storage : TorrentStorage} {lib : TorrentLib}.

Definition run_action (s : Sys) (a : action) : option Sys :=
  let e := s_engine s in
  match a with
  | ASchedule => if e_wake e then Some (mkSys (schedulerStep e).2 (s_runs s ++ (schedulerStep e).1)) else None
  | ACall c => Some (mkSys (run_call c e) (s_runs s))
  | AProgress l c total completed =>
      match e_heap e !! l with
      | Some d => if bool_decide ((l, c) ∈ s_runs s)
                  then Some (mkSys (store l (d <| d_totalLength := total |> <| d_completedLen := completed |>) e) (s_runs s))
                  else None
      | None => None
      end
  | AReserve l c path autoRename =>
      match e_heap e !! l with
      | Some d => if bool_decide ((l, c) ∈ s_runs s)
                  then Some (mkSys (e <| e_paths ::= fun p => run_op p (OpReserve path (d_gid d) autoRename) |>) (s_runs s))
                  else None
      | None => None
      end
  | AFinish l c err now =>
      if bool_decide ((l, c) ∈ s_runs s)
      then Some (mkSys (finishDownload l c err now e) (removeRun (l, c) (s_runs s))) else None
  end.

Fixpoint run_actions (actions : list action) (s : Sys) : option Sys :=
  match actions with
  | [] => Some s
  | a :: rest => match run_action s a with Some s' => run_actions rest s' | None => None end
  end.

Definition boot (cwd : string) (cfg : Config) : Sys := mkSys (NewEngine cwd cfg) [].
End exec.

(** ** Lemmas: histories *)

#[local] Arguments run_op : simpl never.

Section lemmas.
Context {fs : FileSystem} {storage : TorrentStorage} {lib : TorrentLib}.

Lemma run_action_step s a s' : run_action s a = Some s' -> step s s'.
Proof.
  destruct s as [e runs], a as [|c|l c t n|l c path ar|l c err now]; cbn [run_action s_engine s_runs]; cbv zeta; intros H.
  - destruct (e_wake e) eqn:Hw; [|done]. simplify_eq. by constructor.
  - simplify_eq. constructor.
  - destruct (e_heap e !! l) as [d|] eqn:Hl; [|done]. case_bool_decide; [|done]. simplify_eq. by eapply step_progress.
  - destruct (e_heap e !! l) as [d|] eqn:Hl; [|done]. case_bool_decide; [|done]. injection H as <-. by eapply step_reserve.
  - case_bool_decide; [|done]. simplify_eq. by constructor.
Qed.

Lemma run_actions_reachable actions cwd cfg s : run_actions actions (boot cwd cfg) = Some s -> reachable s.
Proof.
  assert (forall s0, reachable s0 -> run_actions actions s0 = Some s -> reachable s) as Hgo.
  { induction actions as [|a rest IH]; simpl; intros s0 H0 H; [by simplify_eq|].
    destruct (run_action s0 a) as [s1|] eqn:Ha; [|done]. apply (IH s1); [|done].
    eapply reach_step; [done|by eapply run_action_step]. }
  apply Hgo. apply reach_init. left. by exists cwd, cfg.
Qed.

(** *** Status changes *)

Lemma status_rel_refl (P : Status -> Status -> Prop) e e' :
  (forall st, P st st) -> e_heap e' = e_heap e -> status_rel P e e'.
Proof. intros HP Hh l d Hl. exists d. rewrite Hh. by split_and!. Qed.

Lemma status_rel_store (P : Status -> Status -> Prop) e e' l d d' :
  (forall st, P st st) -> e_heap e !! l = Some d -> e_heap e' = <[l := d']> (e_heap e) ->
  d_gid d' = d_gid d -> d_kind d' = d_kind d -> d_createdAt d' = d_createdAt d ->
  P (d_status d) (d_status d') -> status_rel P e e'.
Proof.
  intros HP Hl Hh Hg Hk Hc Hs l0 d0 H0. rewrite Hh.
  destruct (decide (l0 = l)) as [->|Hne]; [rewrite lookup_insert_eq|rewrite lookup_insert_ne by done].
  - exists d'. simplify_eq. by split_and!.
  - exists d0. by split_and!.
Qed.

Lemma status_rel_src (P : Status -> Status -> Prop) e1 e2 e' :
  e_heap e1 = e_heap e2 -> status_rel P e1 e' -> status_rel P e2 e'.
Proof. intros He H l d Hl. apply H. by rewrite He. Qed.

Lemma status_rel_trans (P : Status -> Status -> Prop) e1 e2 e3 :
  (forall a b c, P a b -> P b c -> P a c) -> status_rel P e1 e2 -> status_rel P e2 e3 -> status_rel P e1 e3.
Proof.
  intros HP H1 H2 l d Hl. destruct (H1 l d Hl) as (d2 & Hl2 & ? & ? & ? & Hs).
  destruct (H2 l d2 Hl2) as (d3 & ? & ? & ? & ? & ?). exists d3. split_and!; try congruence. by eapply HP.
Qed.

Lemma status_rel_impl (P Q : Status -> Status -> Prop) e e' :
  (forall a b, P a b -> Q a b) -> status_rel P e e' -> status_rel Q e e'.
Proof. intros HPQ H l d Hl. destruct (H l d Hl) as (d' & ? & ? & ? & ? & ?). exists d'. split_and!; eauto. Qed.

(** *** Scheduling *)

Lemma scheduleLoop_heap n maxActive e l d :
  e_heap e !! l = Some d -> d_status d <> StatusWaiting ->
  e_heap (scheduleLoop n maxActive e).2 !! l = Some d.
Proof.
  revert e. induction n as [|n IH]; intros e Hl Hs; cbn [scheduleLoop]; [done|].
  destruct (_ && _); [|done]. destruct (e_waiting e) as [|g rest]; [done|].
  case_bool_decide; [by apply IH|]. cbv zeta.
  destruct (lookupDownload g _) as [[l' d']|] eqn:Hd; [|by apply IH].
  case_bool_decide as Hw; cbn [negb]; [|by apply IH].
  destruct (startDownload g l' d' _) as [c e1] eqn:Hst.
  specialize (IH e1). destruct (scheduleLoop n maxActive e1) as [starts e2]. simpl in *. apply IH; [|done].
  apply lookupDownload_reg in Hd as [_ Hd]. simpl in Hd. unfold startDownload in Hst. simplify_eq. simpl.
  rewrite lookup_insert_ne; [done|]. intros ->. congruence.
Qed.

Lemma scheduleLoop_spec n maxActive e runs :
  Inv (mkSys e runs) -> (n <= length (e_waiting e))%nat ->
  let '(starts, e') := scheduleLoop n maxActive e in
  exists S, Forall2 (started_as e') starts S
    /\ e_active e' = e_active e ∪ list_to_set S
    /\ e_waiting e ≡ₚ S ++ e_waiting e'
    /\ S `prefix_of` filter (fun g => g ∉ e_active e) (take n (e_waiting e))
    /\ (e_ctxErr e = false -> Z.of_nat (size (e_active e')) < maxActive ->
        forall g, g ∈ take n (e_waiting e) -> g ∈ e_active e')
    /\ (S <> [] -> Z.of_nat (size (e_active e')) <= maxActive)
    /\ e_global e' = e_global e /\ e_ctxErr e' = e_ctxErr e.
Proof.
  revert e runs. induction n as [|n IH]; intros e runs HI Hn; cbn [scheduleLoop].
  { exists []. split_and!; try done; [simpl; set_solver|]. intros _ _ g Hg. by apply elem_of_nil in Hg. }
  destruct (negb (e_ctxErr e) && (Z.of_nat (size (e_active e)) <? maxActive)) eqn:Hgo.
  2:{ exists []. split_and!; try done; [simpl; set_solver|apply prefix_nil|]. intros Hc Hlt. rewrite Hc in Hgo.
      simpl in Hgo. apply Z.ltb_ge in Hgo. lia. }
  apply andb_true_iff in Hgo as [_ Hlt]. apply Z.ltb_lt in Hlt.
  destruct (e_waiting e) as [|g rest] eqn:Hw; [simpl in Hn; lia|]. simpl in Hn.
  pose proof (inv_waiting_nodup _ HI) as Hnd. simpl in Hnd. rewrite Hw in Hnd.
  apply NoDup_cons in Hnd as [Hgr Hnd].
  case_bool_decide as Ha.
  - (* running: rotated to the end *)
    specialize (IH (e <| e_waiting := rest ++ [g] |>) runs).
    destruct (scheduleLoop n maxActive (e <| e_waiting := rest ++ [g] |>)) as [starts e'].
    destruct IH as (S & H1 & H2 & H3 & H4 & H5 & H6 & H7 & H8).
    { apply Inv_perm; [done|]. by rewrite Hw, Permutation_app_comm. }
    { simpl. rewrite length_app. lia. }
    simpl in *. rewrite take_app_le in H4, H5 by lia. exists S. split_and!; try done.
    + rewrite <- H3. by rewrite Permutation_app_comm.
    + by rewrite filter_cons_False by (intros Hx; by apply Hx).
    + intros Hc Hsz h [->|Hh]%elem_of_cons; [rewrite H2; set_solver|by apply H5].
  - (* started *)
    destruct (inv_waiting _ HI g) as (l & d & Hr & Hs); [simpl; rewrite Hw; by left|]. simpl in Hr.
    assert (reg (e <| e_waiting := rest |>) g l d) as Hr' by exact Hr.
    apply lookupDownload_reg in Hr'. cbv zeta. rewrite Hr', bool_decide_true by done. cbn [negb].
    pose proof (Inv_start e runs g rest l d HI Hw Ha Hr Hs) as HI'.
    destruct (startDownload g l d (e <| e_waiting := rest |>)) as [c e1] eqn:Hst. simpl in HI'.
    specialize (IH e1 _ HI'). unfold startDownload in Hst. simplify_eq. simpl in IH |- *.
    match type of IH with _ -> let '(_, _) := scheduleLoop n maxActive ?e1 in _ => set (e1' := e1) in * end.
    pose proof (scheduleLoop_heap n maxActive e1' l
      (d <| d_ctx := Some (e_nextCtx e) |> <| d_cancel := Some (e_nextCtx e) |> <| d_status := StatusActive |>
         <| d_errorCode := "" |> <| d_errorMessage := "" |> <| d_downloadBPS := 0 |> <| d_connections := 0 |>)) as Hkeep.
    simpl in Hkeep. rewrite lookup_insert_eq in Hkeep. specialize (Hkeep eq_refl ltac:(done)).
    destruct (scheduleLoop n maxActive e1') as [starts e']. simpl in Hkeep.
    destruct IH as (S & H1 & H2 & H3 & H4 & H5 & H6 & H7 & H8); [lia|].
    pose proof (reg_gid _ _ _ _ HI Hr) as Hg. simpl in Hg. subst g. simpl in H2, H3, H4, H5, H7, H8.
    exists (d_gid d :: S). split_and!; try done.
    + constructor; [|done]. eexists. split; [exact Hkeep|]. done.
    + rewrite H2. simpl. set_solver.
    + simpl. by rewrite <- H3.
    + simpl. rewrite filter_cons_True by done. apply prefix_cons.
      replace (filter (fun g => g ∉ e_active e) (take n rest))
        with (filter (fun g => g ∉ {[d_gid d]} ∪ e_active e) (take n rest)); [done|].
      apply list_filter_iff'. intros x Hx.
      assert (x <> d_gid d). { intros ->. apply Hgr. rewrite <- (take_drop n rest). apply elem_of_app. by left. }
      set_solver.
    + intros Hc Hsz h [->|Hh]%elem_of_cons; [rewrite H2; set_solver|by apply H5].
    + intros _. destruct S as [|h S]; [|by apply H6].
      rewrite H2. simpl. rewrite union_empty_r_L, size_union by set_solver. rewrite size_singleton. lia.
Qed.

(** *** Status changes of each operation *)

Definition pauses (a b : Status) : Prop := a = b \/ isTerminal a = false /\ b = StatusPaused.
Definition unpauses (a b : Status) : Prop := a = b \/ a = StatusPaused /\ b = StatusWaiting.
Definition starts_waiting (a b : Status) : Prop := a = b \/ a = StatusWaiting /\ b = StatusActive.

Lemma findDownload_heap gid e l d : findDownloadLocked gid e = Ok (l, d) -> e_heap e !! l = Some d.
Proof. by intros (g & [_ H] & _)%findDownload_cases. Qed.

Lemma prune_heap e : e_heap (pruneStoppedLocked e) = e_heap e.
Proof. unfold pruneStoppedLocked. cbv zeta. destruct (_ <=? 0); [done|]. by destruct (pruneList _ _ _). Qed.

Lemma appendStopped_heap g e : e_heap (appendStoppedLocked g e) = e_heap e.
Proof. unfold appendStoppedLocked. rewrite prune_heap. by case_if. Qed.

Lemma callCancel_heap c e : e_heap (callCancel c e) = e_heap e.
Proof. by destruct c. Qed.

Lemma cancelAndSignal_heap c e : e_heap (cancelAndSignal c e) = e_heap e.
Proof. by destruct c. Qed.

Lemma pause_status gid e : status_rel pauses e (pause gid e).2.
Proof.
  unfold pause. destruct (findDownloadLocked gid e) as [[l d]|] eqn:Hf; [|apply status_rel_refl; [by left|done]].
  apply findDownload_heap in Hf. destruct (isTerminal (d_status d)) eqn:Ht; [apply status_rel_refl; [by left|done]|].
  cbv zeta. simpl snd. eapply (status_rel_store _ _ _ l d); [by left|done|by simpl; rewrite callCancel_heap|done..|by right].
Qed.

Lemma remove_status gid now e : status_rel transition e (remove gid now e).2.
Proof.
  unfold remove. destruct (findDownloadLocked gid e) as [[l d]|] eqn:Hf; [|apply status_rel_refl; [constructor|done]].
  apply findDownload_heap in Hf. cbv zeta.
  destruct (isTerminal (d_status d)) eqn:Ht; [apply status_rel_refl; [constructor|done]|]. simpl snd.
  eapply (status_rel_store _ _ _ l d); [constructor|done|simpl; by rewrite callCancel_heap, appendStopped_heap|done..|].
  by constructor.
Qed.

Lemma Unpause_status gid e : status_rel unpauses e (Unpause gid e).2.
Proof.
  unfold Unpause. destruct (findDownloadLocked gid e) as [[l d]|] eqn:Hf; [|apply status_rel_refl; [by left|done]].
  apply findDownload_heap in Hf. case_bool_decide as Hp; [|apply status_rel_refl; [by left|done]].
  simpl snd. eapply (status_rel_store _ _ _ l d); [by left|done|done|done..|by right].
Qed.

Lemma fold_status (P : Status -> Status -> Prop) (f : Engine -> string -> Engine) gids e :
  (forall st, P st st) -> (forall a b c, P a b -> P b c -> P a c) ->
  (forall e g, status_rel P e (f e g)) -> status_rel P e (foldl f e gids).
Proof.
  intros Hr Ht Hf. revert e. induction gids as [|g gids IH]; intros e; simpl; [by apply status_rel_refl|].
  by eapply status_rel_trans; [|apply Hf|apply IH].
Qed.

Lemma register_status d position e : status_rel transition e (register d position e).
Proof.
  intros l d0 Hl. exists d0. unfold register, enlist. cbv zeta.
  assert (fresh (dom (e_heap e)) <> l) as Hne.
  { intros <-. apply (is_fresh (dom (e_heap e))). apply elem_of_dom. by eexists. }
  case_if; simpl; rewrite lookup_insert_ne by done; split_and!; try done; constructor.
Qed.

(** The fields that say which download it is, and its status. *)
Definition same_identity (d d' : Download) : Prop :=
  d_gid d' = d_gid d /\ d_kind d' = d_kind d /\ d_createdAt d' = d_createdAt d /\ d_status d' = d_status d.

Lemma restart_status l d d1 e :
  e_heap e !! l = Some d -> same_identity d d1 ->
  let '(c, d2, e2) := restartActiveDownloadLocked d1 e in
  forall e', e_heap e' = <[l := d2]> (e_heap e2) -> status_rel transition e e'.
Proof.
  intros Hl (Hg & Hk & Hc & Hs). unfold restartActiveDownloadLocked.
  case_bool_decide as Ha; simpl; intros e' He'.
  - eapply (status_rel_store _ e e' l d); [constructor|done|rewrite He'; by destruct (index_of _ _)|done..|].
    simpl. rewrite <- Hs, Ha. constructor.
  - eapply (status_rel_store _ e e' l d); [constructor|done..|]. rewrite Hs. constructor.
Qed.

Lemma ChangeURI_status gid i dels adds pos e : status_rel transition e (ChangeURI gid i dels adds pos e).2.
Proof.
  assert (status_rel transition e e) as Hrefl by (apply status_rel_refl; [constructor|done]).
  unfold ChangeURI. case_if; [done|]. case_if; [done|].
  destruct (first_error _); [|done]. destruct (findDownloadLocked gid e) as [[l d]|err] eqn:Hf; [|done].
  apply findDownload_heap in Hf. destruct (deleteURIs dels (d_uris d) 0) as [remaining deleted]. cbv zeta.
  destruct (maxDownloadURIs <? Z.of_nat (length (insertURIs adds pos remaining))); [done|].
  destruct (bool_decide (d_kind d = downloadKindURI) && _); [done|].
  destruct (0 <? deleted + Z.of_nat (length adds)).
  - match goal with |- context [restartActiveDownloadLocked ?d1 e] =>
      pose proof (restart_status l d d1 e Hf) as Hr;
      destruct (restartActiveDownloadLocked d1 e) as [[c d2] e2] end.
    apply Hr; [by case_bool_decide|]. simpl. by rewrite cancelAndSignal_heap.
  - eapply (status_rel_store _ _ _ l d); [constructor|done|done..|constructor].
Qed.

Lemma applyOptionChange_status l d0 d opts merged next restart e e0 :
  e_heap e0 !! l = Some d0 -> e_heap e = e_heap e0 -> same_identity d0 d ->
  status_rel transition e0 (applyOptionChange l d opts merged next restart e).
Proof.
  intros Hl He Hid. unfold applyOptionChange. cbv zeta.
  match goal with |- context [match next with Some _ => _ | None => ?dd end] => set (d1 := dd) end.
  assert (same_identity d0 d1) as H1.
  { unfold d1. destruct (bool_decide (d_kind d = downloadKindURI) && _); [|done]. simpl. by destruct (d_ctx d). }
  set (d2 := match next with Some _ => _ | None => _ end).
  assert (same_identity d0 d2) as H2 by (unfold d2; by destruct next as [[[files total] completed]|]).
  clearbody d1 d2. apply (status_rel_src _ e); [done|]. rewrite <- He in Hl. destruct restart.
  - match goal with |- context [restartActiveDownloadLocked ?d3 e] =>
      pose proof (restart_status l d0 d3 e Hl) as Hr;
      destruct (restartActiveDownloadLocked d3 e) as [[c d4] e4] end.
    apply Hr; [by case_if|]. simpl. by rewrite cancelAndSignal_heap.
  - destruct H2 as (? & ? & ? & Hs). eapply (status_rel_store _ _ _ l d0); [constructor|done|done..|].
    rewrite Hs. constructor.
Qed.

Lemma ChangeOption_status gid opts e : status_rel transition e (ChangeOption gid opts e).2.
Proof.
  assert (status_rel transition e e) as Hrefl by (apply status_rel_refl; [constructor|done]).
  unfold ChangeOption. destruct (List.find _ _); [done|]. destruct (validateOptionValues opts); [|done].
  destruct (findDownloadLocked gid e) as [[l d]|err] eqn:Hf; [|done]. apply findDownload_heap in Hf.
  destruct (prepareOptionChange d opts) as [[merged next]|err]; [|done]. cbv zeta. case_if.
  - destruct (reserveOutputPaths _ _ _) as [paths|err]; [|done]. by apply (applyOptionChange_status l d).
  - by apply (applyOptionChange_status l d).
Qed.

Lemma pauses_trans a b c : pauses a b -> pauses b c -> pauses a c.
Proof. unfold pauses. intros [<-|[? ?]] [<-|[? ?]]; auto. Qed.
Lemma unpauses_trans a b c : unpauses a b -> unpauses b c -> unpauses a c.
Proof. unfold unpauses. intros [<-|[? ?]] [<-|[? ?]]; auto. Qed.
Lemma pauses_transition a b : pauses a b -> transition a b.
Proof. intros [->|[? ->]]; by constructor. Qed.
Lemma unpauses_transition a b : unpauses a b -> transition a b.
Proof. intros [->|[-> ->]]; constructor. Qed.

Lemma addMagnet_status raw opts position random now e :
  status_rel transition e (addMagnet raw opts position random now e).2.
Proof.
  assert (status_rel transition e e) as Hrefl by (apply status_rel_refl; [constructor|done]).
  unfold addMagnet. destruct (TorrentSpecFromMagnetUri raw); [|done]. destruct (e_ctxErr e); [done|].
  cbv zeta. destruct (result_bind _ _); [|done]. apply register_status.
Qed.

Lemma AddURI_status uris opts position random now e :
  status_rel transition e (AddURI uris opts position random now e).2.
Proof.
  assert (status_rel transition e e) as Hrefl by (apply status_rel_refl; [constructor|done]).
  unfold AddURI. destruct (validateOptionValues opts); [|done].
  destruct uris as [|raw0 more]; [done|]. destruct (maxDownloadURIs <? _); [done|].
  destruct (_ && isMagnetURI raw0); [apply addMagnet_status|].
  destruct (first_error _); [|done]. destruct (e_ctxErr e); [done|]. cbv zeta.
  destruct (chooseGID _ random e); [|done]. apply register_status.
Qed.

Lemma addTorrent_status merged source uris position random now e :
  status_rel transition e (addTorrentCommit merged source uris position random now e).2.
Proof.
  assert (status_rel transition e e) as Hrefl by (apply status_rel_refl; [constructor|done]).
  unfold addTorrentCommit. destruct source as [[[[data mi] info] url]|]; [|done]. cbv zeta.
  destruct (result_bind _ _); [|done]. apply register_status.
Qed.

Lemma call_status c e : status_rel transition e (run_call c e).
Proof.
  assert (forall e', e_heap e' = e_heap e -> status_rel transition e e') as Hsame
    by (intros e' He'; apply status_rel_refl; [constructor|done]).
  destruct c; cbn [run_call].
  - apply AddURI_status.
  - apply addTorrent_status.
  - eapply status_rel_impl; [apply pauses_transition|apply pause_status].
  - apply remove_status.
  - eapply status_rel_impl; [apply unpauses_transition|apply Unpause_status].
  - eapply status_rel_impl; [apply pauses_transition|].
    apply (fold_status pauses (fun e gid => (pause gid e).2)); [by left|apply pauses_trans|intros; apply pause_status].
  - eapply status_rel_impl; [apply unpauses_transition|].
    apply (fold_status unpauses (fun e gid => (Unpause gid e).2)); [by left|apply unpauses_trans|intros; apply Unpause_status].
  - apply Hsame. unfold ChangePosition. destruct (findDownloadLocked gid e) as [[l d]|]; [|done].
    destruct (index_of _ _); [|done]. by destruct (moveTo _ _ _ _ _) as [[w dst]|].
  - apply ChangeURI_status.
  - apply ChangeOption_status.
  - apply Hsame. unfold ChangeGlobalOption. case_if; [done|]. cbv zeta. destruct (result_bind _ _); [|done].
    simpl. by rewrite prune_heap.
  - by apply Hsame.
  - apply Hsame. unfold RemoveDownloadResult. destruct (findDownloadLocked gid e) as [[l d]|]; [|done]. by case_if.
  - apply Hsame. unfold RequestShutdown. destruct (e_shutdownReq e); [by destruct force|done].
  - by apply Hsame.
Qed.

Lemma scheduleLoop_status n maxActive e : status_rel starts_waiting e (scheduleLoop n maxActive e).2.
Proof.
  revert e. induction n as [|n IH]; intros e; cbn [scheduleLoop]; [apply status_rel_refl; [by left|done]|].
  destruct (_ && _); [|apply status_rel_refl; [by left|done]].
  destruct (e_waiting e) as [|g rest]; [apply status_rel_refl; [by left|done]|].
  case_bool_decide; [by eapply status_rel_src; [|apply IH]|]. cbv zeta.
  destruct (lookupDownload g _) as [[l d]|] eqn:Hd; [|by eapply status_rel_src; [|apply IH]].
  case_bool_decide as Hw; cbn [negb]; [|by eapply status_rel_src; [|apply IH]].
  apply lookupDownload_reg in Hd as [_ Hl]. simpl in Hl.
  destruct (startDownload g l d _) as [c e1] eqn:Hst. specialize (IH e1).
  destruct (scheduleLoop n maxActive e1) as [starts e2]. simpl in *.
  eapply status_rel_trans; [|eapply (status_rel_store _ e e1 l d)|exact IH].
  - unfold starts_waiting. intros a b c' [<-|[? ?]] [<-|[? ?]]; subst; auto; try done.
  - by left.
  - done.
  - unfold startDownload in Hst. by simplify_eq.
  - done.
  - done.
  - done.
  - right. done.
Qed.

Lemma notify_starts_frame (starts : list (loc * context)) e :
  let e' := foldl (fun e (s : loc * context) =>
     match e_heap e !! s.1 with
     | Some d => notify "aria2.onDownloadStart" (d_gid d) e
     | None => e
     end) e starts in
  e_heap e' = e_heap e /\ e_waiting e' = e_waiting e /\ e_active e' = e_active e /\ e_global e' = e_global e
  /\ e_cfgMaxConcurrentDownloads e' = e_cfgMaxConcurrentDownloads e /\ e_ctxErr e' = e_ctxErr e.
Proof.
  cbv zeta. revert e. induction starts as [|s starts IH]; intros e; simpl; [by split_and!|].
  destruct (e_heap e !! s.1) as [d|]; [|apply IH]. destruct (IH (notify "aria2.onDownloadStart" (d_gid d) e))
    as (-> & -> & -> & -> & -> & ->). by split_and!.
Qed.

Lemma schedule_status e : status_rel starts_waiting e (schedulerStep e).2.
Proof.
  unfold schedulerStep, schedule. cbv zeta.
  pose proof (scheduleLoop_status (length (e_waiting e))
    (optionInt (e_global e) "max-concurrent-downloads" (e_cfgMaxConcurrentDownloads e)) (e <| e_wake := false |>)) as H.
  change (e_waiting (e <| e_wake := false |>)) with (e_waiting e).
  change (e_global (e <| e_wake := false |>)) with (e_global e).
  change (e_cfgMaxConcurrentDownloads (e <| e_wake := false |>)) with (e_cfgMaxConcurrentDownloads e).
  destruct (scheduleLoop _ _ _) as [starts e']. simpl snd in *. apply (status_rel_src _ (e <| e_wake := false |>)); [done|].
  intros l d Hl. destruct (notify_starts_frame starts e') as (-> & _). by apply H.
Qed.

(** *** The end of a run *)

Lemma prune_frame e :
  let e' := pruneStoppedLocked e in
  e_active e' = e_active e /\ e_paths e' = e_paths e /\ e_events e' = e_events e
  /\ e_waiting e' = e_waiting e /\ e_cancelled e' = e_cancelled e.
Proof. unfold pruneStoppedLocked. cbv zeta. destruct (_ <=? 0); [done|]. by destruct (pruneList _ _ _). Qed.

Lemma appendStopped_frame g e :
  let e' := appendStoppedLocked g e in
  e_active e' = e_active e /\ e_paths e' = e_paths e /\ e_events e' = e_events e
  /\ e_waiting e' = e_waiting e /\ e_cancelled e' = e_cancelled e.
Proof.
  unfold appendStoppedLocked. cbv zeta. destruct (prune_frame (if bool_decide (g ∈ e_stoppedSet e) then e
    else e <| e_stopped ::= fun l => l ++ [g] |> <| e_stoppedSet ::= fun s => {[g]} ∪ s |>
           <| e_stoppedTotal ::= fun n => n + 1 |>)) as (-> & -> & -> & -> & ->). by case_if.
Qed.

Lemma finishActive_outcome err shutdown now d :
  d_status d = StatusActive ->
  let '(d', note) := finishActive err shutdown now d in
  d_status d' = outcome_status err shutdown StatusActive
  /\ d_gid d' = d_gid d /\ d_kind d' = d_kind d /\ d_createdAt d' = d_createdAt d
  /\ d_ctx d' = d_ctx d /\ d_torrent d' = d_torrent d
  /\ (if String.eqb note "" then [] else [Notify note (d_gid d)])
     = outcome_events (d_gid d) StatusActive (d_status d')
  /\ (forall e, d_status d' = StatusError -> err = Some e -> d_errorCode d' = "1" /\ d_errorMessage d' = errorText e)
  /\ (d_status d' = StatusComplete -> 0 < d_totalLength d -> metadataOnly d = false ->
      d_completedLen d' = d_totalLength d' /\ d_totalLength d' = d_totalLength d).
Proof.
  intros Ha. unfold finishActive, outcome_status, outcome_events. rewrite bool_decide_true by done.
  destruct err as [err|].
  - destruct shutdown; [by split_and!|]. destruct (errors_is _ err); [by split_and!|].
    split_and!; try done. by intros e0 _ [= ->].
  - simpl. set (d1 := d <| d_cancel := None |> <| d_connections := 0 |> <| d_downloadBPS := 0 |>
                        <| d_stoppedAt := Some now |> <| d_status := StatusComplete |>).
    change (metadataOnly d1) with (metadataOnly d).
    destruct (Z.ltb_spec 0 (d_totalLength d)); destruct (metadataOnly d) eqn:Hm; simpl;
      try (case_if); split_and!; simpl; try done; lia.
Qed.

Lemma settle_paths c d paths p' d' retain :
  d_ctx d = Some c -> flag_ok d (d_reservationTransitionAfterRun d) -> reservations_ok paths ->
  settleReservations c d paths = (p', d', retain) ->
  reservations_ok p'
  /\ (retain = true -> keeps_reservations c d = true)
  /\ (keeps_reservations c d = true -> d_reservationTransitionAfterRun d = None -> retain = true /\ p' = paths)
  /\ (forall g k, g <> d_gid d -> pathReservations p' !! k = Some g <-> pathReservations paths !! k = Some g)
  /\ d_kind d' = d_kind d /\ d_createdAt d' = d_createdAt d
  /\ d_options d' = d_options d /\ d_totalLength d' = d_totalLength d.
Proof.
  intros Hc Hf Hp. unfold settleReservations. cbv zeta.
  change (bool_decide (d_status d = StatusWaiting) && sameCtx (d_retainReservationsAfterRun d) c)
    with (keeps_reservations c d).
  set (d1 := if sameCtx (d_retainReservationsAfterRun d) c then _ else d).
  set (d2 := if sameCtx (d_pathResetAfterRun d1) c then _ else d1).
  assert (d_gid d2 = d_gid d /\ d_kind d2 = d_kind d /\ d_createdAt d2 = d_createdAt d
    /\ d_reservationTransitionAfterRun d2 = d_reservationTransitionAfterRun d
    /\ d_options d2 = d_options d /\ d_totalLength d2 = d_totalLength d) as (H1 & H2 & H3 & H4 & H5 & H6).
  { unfold d2, d1. destruct (sameCtx (d_retainReservationsAfterRun d) c); case_if; by split_and!. }
  clearbody d1 d2. destruct (sameCtx (d_reservationTransitionAfterRun d2) c) eqn:Ht.
  - destruct (replaceOutputPaths _ _ _) as [p2|err] eqn:Hrep; intros [= <- <- <-]; simpl.
    + apply (update_spec _ _ _ _ _ Hp) in Hrep as (rs & _ & _ & _ & Hown & Hok).
      rewrite H1 in Hown. split_and!; try done.
      * intros _ Hn. rewrite H4, Hn in Ht. done.
      * intros g k Hg. rewrite (Hown k g). naive_solver.
    + split_and!; try done. intros _ Hn. rewrite H4, Hn in Ht. done.
  - intros [= <- <- <-]. by split_and!.
Qed.

(** The last lines of [finishDownload]. *)
Definition finish_tail (retain : bool) (cancel : option context) (note : string) (d : Download) (e : Engine) : Engine :=
  let e := if retain then e else e <| e_paths ::= releaseOutputPaths (d_gid d) |> in
  let e := callCancel cancel e in
  let e := if String.eqb note "" then e else notify note (d_gid d) e in
  saveSessionBestEffort (signal e).

Lemma finish_tail_frame retain cancel note d e :
  let e' := finish_tail retain cancel note d e in
  e_heap e' = e_heap e /\ e_active e' = e_active e
  /\ e_events e' = e_events e ++ (if String.eqb note "" then [] else [Notify note (d_gid d)]) ++ [SaveSession]
  /\ e_paths e' = (if retain then e_paths e else releaseOutputPaths (d_gid d) (e_paths e)).
Proof.
  unfold finish_tail. cbv zeta. destruct (String.eqb note ""), retain, cancel; simpl; split_and!; try done;
    by rewrite <- app_assoc.
Qed.

Lemma finishDownload_eq l c err now e d :
  e_heap e !! l = Some d -> d_ctx d = Some c ->
  exists paths d1 retain, settleReservations c d (e_paths e) = (paths, d1, retain)
    /\ let d2 := d1 <| d_ctx := None |> <| d_torrent := None |> in
       let wasActive := bool_decide (d_status d2 = StatusActive) in
       exists d3 note, (d3, note) = (if wasActive then finishActive err (e_ctxErr e) now d2 else (d2, ""))
       /\ finishDownload l c err now e
          = finish_tail retain (if wasActive then d_cancel d2 else None) note d3
              ((if wasActive && isTerminal (d_status d3) then appendStoppedLocked (d_gid d3) else fun e => e)
                 (store l d3 (e <| e_active ::= fun s => s ∖ {[d_gid d]} |> <| e_paths := paths |>))).
Proof.
  intros Hl Hc. unfold finishDownload. rewrite Hl. unfold sameCtx at 1. rewrite Hc, bool_decide_true by done.
  cbn [negb]. cbv zeta. change (e_paths (e <| e_active ::= fun s => s ∖ {[d_gid d]} |>)) with (e_paths e).
  destruct (settleReservations c d _) as [[paths d1] retain]. exists paths, d1, retain. split; [done|].
  change (e_ctxErr (e <| e_active ::= fun s => s ∖ {[d_gid d]} |>)) with (e_ctxErr e).
  destruct (if bool_decide _ then finishActive err _ now _ else _) as [d3 note]. exists d3, note. split; [done|].
  unfold finish_tail. by destruct (_ && isTerminal (d_status d3)).
Qed.

(** Everything a finished run changes. *)
Lemma finish_effect l c err now e runs :
  Inv (mkSys e runs) -> (l, c) ∈ runs ->
  exists d d', e_heap e !! l = Some d /\ d_ctx d = Some c
    /\ let e' := finishDownload l c err now e in
       e_heap e' = <[l := d']> (e_heap e)
    /\ d_gid d' = d_gid d /\ d_kind d' = d_kind d /\ d_createdAt d' = d_createdAt d
    /\ d_ctx d' = None /\ d_torrent d' = None
    /\ d_status d' = outcome_status err (e_ctxErr e) (d_status d)
    /\ (d_status d = StatusActive -> d_status d' = StatusError ->
        exists er, err = Some er /\ d_errorCode d' = "1" /\ d_errorMessage d' = errorText er)
    /\ (d_status d = StatusActive -> d_status d' = StatusComplete -> metadataOnly d = false -> 0 < d_totalLength d ->
        d_completedLen d' = d_totalLength d' /\ d_totalLength d' = d_totalLength d)
    /\ e_active e' = e_active e ∖ {[d_gid d]}
    /\ e_events e' = e_events e ++ outcome_events (d_gid d) (d_status d) (d_status d') ++ [SaveSession]
    /\ (keeps_reservations c d = false -> pathsOf (d_gid d) (e_paths e') = ∅)
    /\ (keeps_reservations c d = true -> d_reservationTransitionAfterRun d = None -> e_paths e' = e_paths e)
    /\ (forall g k, g <> d_gid d -> pathReservations (e_paths e') !! k = Some g <-> pathReservations (e_paths e) !! k = Some g).
Proof.
  intros HI Hin. apply (inv_runs _ HI) in Hin as (d & Hl & Hc). simpl in Hl.
  destruct (Inv_flags_of e runs l d HI Hl) as (Hf1 & Hf2 & Hf3).
  exists d. destruct (finishDownload_eq l c err now e d Hl Hc) as (paths & d1 & retain & Hs & He').
  pose proof Hs as Hs2. apply settle_paths in Hs2 as (Hok & Hk1 & Hk2 & Hother & Hkind & Hcreated & Hopts & Htot); [|done|done|apply (inv_paths _ HI)].
  apply settle_spec in Hs as (_ & Hg & Hst & Hctx & _); try done; [|apply (inv_paths _ HI)].
  assert (metadataOnly d1 = metadataOnly d) as Hmeta by (unfold metadataOnly; by rewrite Hkind, Hopts).
  cbv zeta in He'. set (d2 := d1 <| d_ctx := None |> <| d_torrent := None |>) in *.
  change (d_status d2) with (d_status d1) in He'. rewrite Hst in He'.
  destruct He' as (d3 & note & Hd3 & He'). exists d3. split; [done|]. split; [done|].
  assert (d_status d3 = outcome_status err (e_ctxErr e) (d_status d)
    /\ d_gid d3 = d_gid d /\ d_kind d3 = d_kind d /\ d_createdAt d3 = d_createdAt d
    /\ d_ctx d3 = None /\ d_torrent d3 = None
    /\ (if String.eqb note "" then [] else [Notify note (d_gid d)]) = outcome_events (d_gid d) (d_status d) (d_status d3)
    /\ (d_status d = StatusActive -> d_status d3 = StatusError ->
        exists er, err = Some er /\ d_errorCode d3 = "1" /\ d_errorMessage d3 = errorText er)
    /\ (d_status d = StatusActive -> d_status d3 = StatusComplete -> metadataOnly d = false -> 0 < d_totalLength d ->
        d_completedLen d3 = d_totalLength d3 /\ d_totalLength d3 = d_totalLength d))
    as (F1 & F2 & F3 & F4 & F5 & F6 & F7 & F8 & F9).
  { case_bool_decide as Ha.
    - pose proof (finishActive_outcome err (e_ctxErr e) now d2) as Hfa. rewrite <- Hd3 in Hfa.
      destruct Hfa as (G1 & G2 & G3 & G4 & G5 & G6 & G7 & G8 & G9); [simpl; congruence|].
      simpl in G2, G3, G4, G5, G6, G7, G9. rewrite Ha. split_and!; try done; try congruence.
      + by rewrite <- Hg.
      + intros _ He. destruct err as [er|]; [|by rewrite He in G1]. exists er. split; [done|]. by apply G8.
      + intros _ Hco Hm Hpos. rewrite <- Htot. apply G9; [done|by rewrite Htot|]. by rewrite <- Hm, <- Hmeta.
    - simplify_eq. unfold outcome_status, outcome_events. rewrite !bool_decide_false by done. by split_and!. }
  set (e0 := store l d3 _) in He'.
  match type of He' with _ = finish_tail _ _ _ _ ?x => set (e1 := x) in He' end.
  assert (e_heap e1 = <[l := d3]> (e_heap e) /\ e_active e1 = e_active e ∖ {[d_gid d]} /\ e_events e1 = e_events e
    /\ e_paths e1 = paths) as (E1 & E2 & E3 & E4).
  { unfold e1. destruct (_ && _); [|done].
    destruct (appendStopped_frame (d_gid d3) e0) as (-> & -> & -> & _). by rewrite appendStopped_heap. }
  rewrite He'. clearbody e1. cbv zeta.
  match goal with |- context [finish_tail retain ?cc note d3 e1] =>
    destruct (finish_tail_frame retain cc note d3 e1) as (-> & -> & -> & ->) end.
  rewrite E1, E2, E3, E4, F2. split_and!; try done.
  - by rewrite F7.
  - intros Hno. destruct retain; [by rewrite Hk1 in Hno|]. unfold pathsOf, releaseOutputPaths. simpl. by rewrite lookup_delete_eq.
  - intros Hk Hn. by destruct (Hk2 Hk Hn) as [-> ->].
  - intros g k Hne. rewrite <- (Hother g k Hne). destruct retain; [done|].
    destruct (release_spec (d_gid d) paths Hok) as [Hown _]. rewrite (Hown k g). naive_solver.
Qed.

Lemma finish_status l c err now e runs :
  Inv (mkSys e runs) -> (l, c) ∈ runs -> status_rel transition e (finishDownload l c err now e).
Proof.
  intros HI Hin. destruct (finish_effect l c err now e runs HI Hin)
    as (d & d' & Hl & Hc & Hh & Hg & Hk & Hcr & _ & _ & Hs & _).
  eapply (status_rel_store _ _ _ l d d'); [constructor|done..|]. rewrite Hs. unfold outcome_status.
  case_bool_decide as Ha; [|constructor]. rewrite Ha.
  destruct err as [er|]; [|constructor]. destruct (e_ctxErr e); [constructor|].
  destruct (errors_is _ er); by constructor.
Qed.

Lemma step_status s s' : Inv s -> step s s' -> status_rel transition (s_engine s) (s_engine s').
Proof.
  intros HI H. destruct H as [e runs Hw|c e runs|l c d d' e runs Hin Hl Hp|l c d op e runs Hin Hl Hop|l c err now e runs Hin];
    cbn [s_engine].
  - eapply status_rel_impl; [|apply schedule_status]. intros a b [->|[-> ->]]; constructor.
  - apply call_status.
  - destruct Hp as (? & ? & _ & Hs & _ & _ & _ & _ & _ & _ & ?).
    eapply (status_rel_store _ _ _ l d d'); [constructor|done..|]. rewrite Hs. constructor.
  - apply status_rel_refl; [constructor|done].
  - by apply (finish_status l c err now e runs).
Qed.

End lemmas.
