(* ===== verification/EngineSpec.v ===== *)
(** * The engine: its properties

    The theorems about the engine's operations and its reachable states, each with
    a concrete history on which its hypotheses hold. *)
From S2P Require Import Prelude GoStrings GoURL Options Reservations Torrent Queue State Engine EngineInv EngineProps.

(** ** A concrete engine for the examples *)

Definition demoLib : TorrentLib := {|
  ParseMetaInfoBytes := fun _ => Err (EText "no metainfo");
  TorrentSpecFromMagnetUri := fun _ => Err (EText "no magnet");
  NamedInfo := fun name => mkInfo 0 0 0 [] false false [] None [] [] name None false;
  CompactLayerToSliceHashes := fun _ => Ok [];
  RootWithPadHash := fun _ _ => "";
  Sum256 := fun s => s
|}.

Definition demo (actions : list action) : option Sys :=
  @run_actions exampleFS sampleStorage demoLib actions (boot "/d" (mkConfig "/d" 1 10 "" "")).

Definition demoAdd (gid : string) : action := ACall (CAddURI ["http://h/x"] noOptions None gid 0).

(** Two downloads, of which the first runs. *)
Definition demoTwo : list action := [demoAdd "a"; demoAdd "b"; ASchedule].

(** [a] runs and reserves a path; a change of its URIs requeues it behind [b],
    which takes the slot; [a] is then removed and its result purged, and [b] ends. *)
Definition leakTrace : list action :=
  [demoAdd "a"; demoAdd "b"; ASchedule; AReserve 1 1 "/d/x" false;
   ACall (CChangeURI "a" 1 [] ["http://h/y"] None); AFinish 1 1 (Some ECanceled) 1; ASchedule;
   ACall (CRemove "a" 2); AFinish 2 2 None 3; ACall CPurge].

(** ** Vocabulary of the properties *)

Definition run_gid (e : Engine) (r : run) : option string := d_gid <$> (e_heap e !! r.1).

(** The concurrency limit in force. *)
Definition maxActive (e : Engine) : Z :=
  optionInt (e_global e) "max-concurrent-downloads" (e_cfgMaxConcurrentDownloads e).

(** ** Lemmas *)

(** A fact about the state a demo history reaches, by computation. *)
Lemma demo_check (actions : list action) (f : Sys -> bool) :
  match demo actions with Some s => f s | None => false end = true ->
  exists s, demo actions = Some s /\ f s = true.
Proof. destruct (demo actions) as [s|]; [|done]. intros H. by exists s. Qed.

Lemma demo_reachable actions s :
  demo actions = Some s -> @reachable exampleFS sampleStorage demoLib s.
Proof. apply run_actions_reachable. Qed.

Section props.
Context {fs : FileSystem} {storage : TorrentStorage} {lib : TorrentLib}.

Lemma runs_gids s : Inv s ->
  NoDup (omap (run_gid (s_engine s)) (s_runs s))
  /\ (forall g, g ∈ omap (run_gid (s_engine s)) (s_runs s) <-> g ∈ e_active (s_engine s))
  /\ length (omap (run_gid (s_engine s)) (s_runs s)) = length (s_runs s).
Proof.
  intros HI. destruct s as [e runs]. simpl.
  assert (forall r, r ∈ runs -> exists d, e_heap e !! r.1 = Some d /\ d_ctx d = Some r.2) as Hcur.
  { intros [l c] Hr. by apply (inv_runs _ HI) in Hr. }
  assert (NoDup (map fst runs)) as Hnd.
  { pose proof (inv_runs_nodup _ HI) as Hnd. simpl in Hnd. clear HI. induction Hnd as [|[l c] rs Hr Hrs IH]; simpl; constructor.
    - intros ([l' c'] & E & Hin)%list_elem_of_fmap. simpl in E. subst l'. 
      destruct (Hcur (l, c)) as (d & H1 & H2); [by left|]. destruct (Hcur (l, c')) as (d' & H3 & H4); [by right|].
      simpl in *. simplify_eq. done.
    - apply IH. intros r H. apply Hcur. by right. }
  split_and!.
  - clear Hnd. pose proof (inv_runs_nodup _ HI) as Hnd. pose proof (inv_one_run _ HI) as Hone. simpl in Hnd, Hone.
    clear HI. revert Hcur.
    induction Hnd as [|[l c] rs Hr Hrs IH]; intros Hcur; simpl; [constructor|].
    destruct (Hcur (l, c)) as (d & H1 & H2); [by left|]. simpl in *. unfold run_gid at 1. simpl. rewrite H1. simpl.
    constructor; [|apply IH; intros r H; apply Hcur; by right].
    intros ([l' c'] & Hin & E)%list_elem_of_omap. unfold run_gid in E. simpl in E.
    destruct (Hcur (l', c')) as (d' & H3 & H4); [by right|]. simpl in *. rewrite H3 in E. simpl in E. injection E as E.
    assert (l' = l) as -> by (eapply (Hone l' d' c' l d c); congruence).
    simplify_eq. done.
  - intros g. rewrite (inv_active _ HI g). simpl. rewrite list_elem_of_omap. split.
    + intros ([l c] & Hin & E). unfold run_gid in E. simpl in E. destruct (Hcur _ Hin) as (d & H1 & H2). simpl in *.
      rewrite H1 in E. simpl in E. exists l, d, c. split_and!; congruence.
    + intros (l & d & c & H1 & H2 & <-). exists (l, c). split; [apply (inv_runs _ HI); by exists d|].
      unfold run_gid. simpl. by rewrite H1.
  - clear HI Hnd. induction runs as [|r rs IH]; [done|]. simpl.
    destruct (Hcur r) as (d & H1 & _); [by left|]. unfold run_gid at 1. rewrite H1. simpl. f_equal.
    apply IH. intros x Hx. apply Hcur. by right.
Qed.

Lemma transition_terminal a b : transition a b -> isTerminal a = true -> b = a.
Proof. destruct 1; simpl; congruence. Qed.

Lemma step_preserves s s' : reachable s -> step s s' -> status_rel transition (s_engine s) (s_engine s').
Proof. intros H. by apply step_status, Inv_reachable. Qed.

(** Appending the runs of one scheduling step. *)
Lemma schedule_spec e runs :
  Inv (mkSys e runs) ->
  let '(starts, e') := schedule e in
  exists S, Forall2 (started_as e') starts S
    /\ e_active e' = e_active e ∪ list_to_set S
    /\ e_waiting e ≡ₚ S ++ e_waiting e'
    /\ S `prefix_of` filter (fun g => g ∉ e_active e) (e_waiting e)
    /\ (e_ctxErr e = false -> Z.of_nat (size (e_active e')) < maxActive e ->
        forall g, g ∈ e_waiting e -> g ∈ e_active e')
    /\ (S <> [] -> Z.of_nat (size (e_active e')) <= maxActive e).
Proof.
  intros HI. unfold schedule. cbv zeta. fold (maxActive e).
  pose proof (scheduleLoop_spec (length (e_waiting e)) (maxActive e) e runs HI ltac:(lia)) as H.
  destruct (scheduleLoop _ _ _) as [starts e']. destruct H as (S & H1 & H2 & H3 & H4 & H5 & H6 & _).
  rewrite take_ge in H4, H5 by lia. exists S.
  destruct (notify_starts_frame starts e') as (Hh & -> & -> & _).
  split_and!; try done. eapply Forall2_impl; [exact H1|]. intros r g (d & ? & ?). exists d. by rewrite Hh.
Qed.

(** A paused or removed download: out of the queue, its run cancelled. *)
Definition taken_out (st : Status) (l : loc) (d : Download) (e e' : Engine) : Prop :=
  exists d', e_heap e' = <[l := d']> (e_heap e) /\ d_gid d' = d_gid d /\ d_status d' = st
    /\ d_ctx d' = d_ctx d /\ d_connections d' = 0 /\ d_downloadBPS d' = 0
    /\ e_waiting e' = deleteGid (d_gid d) (e_waiting e) /\ e_active e' = e_active e /\ e_paths e' = e_paths e
    /\ e_wake e' = true
    /\ (forall c, c ∈ e_cancelled e' <-> c ∈ e_cancelled e \/ d_status d = StatusActive /\ d_ctx d = Some c).

Lemma cancel_of_active e runs l d c : Inv (mkSys e runs) -> e_heap e !! l = Some d ->
  (d_cancel d = Some c <-> d_status d = StatusActive /\ d_ctx d = Some c).
Proof.
  intros HI Hl. split.
  - intros Hc. pose proof (inv_cancel _ HI l d c Hl Hc) as Ha. split; [done|].
    destruct (inv_status_active _ HI l d Hl Ha) as (c' & ? & ?). congruence.
  - intros [Ha Hc]. destruct (inv_status_active _ HI l d Hl Ha) as (c' & ? & ?). congruence.
Qed.

Lemma callCancel_elem cancel e c : c ∈ e_cancelled (callCancel cancel e) <-> c ∈ e_cancelled e \/ cancel = Some c.
Proof.
  destruct cancel as [c'|]; simpl; [|naive_solver]. rewrite elem_of_union, elem_of_singleton. naive_solver.
Qed.

Lemma pause_spec gid e runs g e' :
  Inv (mkSys e runs) -> pause gid e = (Ok g, e') ->
  exists l d, findDownloadLocked gid e = Ok (l, d) /\ g = d_gid d /\ isTerminal (d_status d) = false
    /\ e_downloads e' = e_downloads e /\ taken_out StatusPaused l d e e'.
Proof.
  intros HI. unfold pause. destruct (findDownloadLocked gid e) as [[l d]|] eqn:Hf; [|done].
  destruct (isTerminal (d_status d)) eqn:Ht; [done|]. intros [= <- <-]. exists l, d.
  apply findDownload_heap in Hf. split_and!; try done; [by destruct (d_cancel d)|].
  eexists. split; [simpl; by rewrite callCancel_heap|]. split_and!; try done; try by destruct (d_cancel d).
  intros c. simpl. rewrite callCancel_elem, <- (cancel_of_active e runs l d c) by done. done.
Qed.

Lemma remove_spec gid now e runs g e' :
  Inv (mkSys e runs) -> remove gid now e = (Ok g, e') ->
  exists l d, findDownloadLocked gid e = Ok (l, d) /\ g = d_gid d /\ isTerminal (d_status d) = false
    /\ taken_out StatusRemoved l d e e'.
Proof.
  intros HI. unfold remove. destruct (findDownloadLocked gid e) as [[l d]|] eqn:Hf; [|done]. cbv zeta.
  destruct (isTerminal (d_status d)) eqn:Ht; [done|]. intros [= <- <-]. exists l, d.
  apply findDownload_heap in Hf. split_and!; try done.
  match goal with |- context [appendStoppedLocked ?g ?e0] =>
    destruct (appendStopped_frame g e0) as (H1 & H2 & H3 & H4 & H5);
    pose proof (appendStopped_heap g e0) as H6; set (e1 := appendStoppedLocked g e0) in * end.
  simpl in H1, H2, H3, H4, H5, H6. clearbody e1.
  eexists. split; [simpl; by rewrite callCancel_heap|]. split_and!; try done; try by destruct (d_cancel d).
  intros c. simpl. rewrite callCancel_elem, H5, <- (cancel_of_active e runs l d c) by done. done.
Qed.

(** A download that is not waiting is not started, and the end of its run leaves
    its status alone and releases its paths. *)
Lemma not_restarted e runs l d :
  Inv (mkSys e runs) -> e_heap e !! l = Some d -> d_status d <> StatusWaiting -> d_status d <> StatusActive ->
  (forall r, r ∈ (schedule e).1 -> r.1 <> l)
  /\ forall c err now, (l, c) ∈ runs ->
      let e' := finishDownload l c err now e in
      (d_status <$> (e_heap e' !! l)) = Some (d_status d) /\ d_gid d ∉ e_active e' /\ pathsOf (d_gid d) (e_paths e') = ∅.
Proof.
  intros HI Hl Hw Ha. split.
  - intros r Hr <-. pose proof (scheduleLoop_heap (length (e_waiting e)) (maxActive e) e r.1 d Hl Hw) as Hk.
    pose proof (schedule_spec e runs HI) as Hs. unfold schedule in Hr, Hs. cbv zeta in Hr, Hs. fold (maxActive e) in Hr, Hs.
    destruct (scheduleLoop _ _ _) as [starts e']. simpl in Hk, Hr. destruct Hs as (S & HF & _).
    destruct (notify_starts_frame starts e') as (Hh & _).
    apply list_elem_of_lookup_1 in Hr as [i Hr].
    eapply Forall2_lookup_l in HF as (g & _ & d' & H1 & _ & H2 & _); [|exact Hr].
    rewrite Hh in H1. congruence.
  - intros c err now Hin. destruct (finish_effect l c err now e runs HI Hin)
      as (d0 & d' & Hl0 & Hc & Hh & Hg & _ & _ & _ & _ & Hs & _ & _ & Hact & _ & Hpaths & _).
    simplify_eq. cbv zeta. rewrite Hh, lookup_insert_eq, Hact. simpl. split_and!.
    + rewrite Hs. unfold outcome_status. by rewrite bool_decide_false.
    + set_solver.
    + apply Hpaths. unfold keeps_reservations. by rewrite bool_decide_false.
Qed.

(** A status in which a download neither runs nor waits to. *)
Definition parked (st : Status) : Prop := st <> StatusActive /\ st <> StatusWaiting.

Lemma find_exact g e l d : g <> "" -> reg e g l d -> findDownloadLocked g e = Ok (l, d).
Proof.
  intros Hg Hr%lookupDownload_reg. unfold findDownloadLocked.
  apply String.eqb_neq in Hg. by rewrite Hg, Hr.
Qed.

Lemma pause_downloads gid e : e_downloads (pause gid e).2 = e_downloads e.
Proof.
  unfold pause. destruct (findDownloadLocked gid e) as [[l d]|]; [|done].
  destruct (isTerminal (d_status d)); [done|]. simpl. by destruct (d_cancel d).
Qed.

Lemma pause_parks g e runs l d :
  Inv (mkSys e runs) -> g <> "" -> reg (pause g e).2 g l d -> parked (d_status d).
Proof.
  intros HI Hg [H1 H2]. rewrite pause_downloads in H1.
  destruct (inv_reg _ HI g l H1) as (d0 & H0 & _). simpl in H0.
  assert (findDownloadLocked g e = Ok (l, d0)) as Hf by (apply find_exact; done).
  destruct (pause g e) as [[g'|er] e'] eqn:Hp.
  - destruct (pause_spec g e runs g' e' HI Hp) as (l' & d' & Hf' & _ & _ & _ & d2 & Hh & _ & Hs & _).
    rewrite Hf in Hf'. simplify_eq. simpl in H2. rewrite Hh, lookup_insert_eq in H2. simplify_eq.
    by unfold parked; rewrite Hs.
  - unfold pause in Hp. rewrite Hf in Hp. destruct (isTerminal (d_status d0)) eqn:Ht; [|done]. simplify_eq. simpl in H2.
    simplify_eq. by split; intros Hs; rewrite Hs in Ht.
Qed.

Lemma pauses_parked a b : pauses a b -> parked a -> parked b.
Proof. intros [<-|[_ ->]]; [done|by split]. Qed.

Lemma fold_pause gids e runs :
  Inv (mkSys e runs) ->
  let e' := foldl (fun e gid => (pause gid e).2) e gids in
  Inv (mkSys e' runs) /\ e_downloads e' = e_downloads e /\ status_rel pauses e e'
  /\ forall g, g ∈ gids -> g <> "" -> forall l d, reg e' g l d -> parked (d_status d).
Proof.
  cbv zeta. revert e. induction gids as [|h gids IH]; intros e HI; simpl.
  { split_and!; try done; [apply status_rel_refl; [by left|done]|]. by intros g ?%elem_of_nil. }
  pose proof (Inv_pause h e runs HI) as HI1. destruct (IH _ HI1) as (HI2 & Hd & Hs & Hp).
  assert (status_rel pauses e (foldl (fun e gid => (pause gid e).2) (pause h e).2 gids)) as Hall
    by (eapply status_rel_trans; [apply pauses_trans|apply pause_status|done]).
  split_and!; [done|by rewrite Hd, pause_downloads|done|].
  intros g [->|Hg]%elem_of_cons Hne l d Hr; [|by eapply Hp].
  destruct Hr as [H1 H2]. rewrite Hd in H1. destruct (inv_reg _ HI1 h l H1) as (d1 & Hl & _). simpl in Hl.
  destruct (Hs l d1 Hl) as (d' & H2' & _ & _ & _ & Hpp). simplify_eq. eapply pauses_parked; [done|].
  by eapply (pause_parks h e runs l d1).
Qed.

Lemma gidsByStatus_elem statuses e g :
  g ∈ gidsByStatus statuses e <-> exists l d, reg e g l d /\ d_status d ∈ statuses.
Proof.
  unfold gidsByStatus. rewrite list_elem_of_fmap. split.
  - intros ([g' l] & -> & Hin). apply list_elem_of_filter in Hin as [Hs Hin]. apply elem_of_map_to_list in Hin.
    unfold statusIn in Hs. simpl in *. destruct (e_heap e !! l) as [d|] eqn:Hl; [|done].
    apply bool_decide_eq_true_1 in Hs. by exists l, d.
  - intros (l & d & [H1 H2] & Hs). exists (g, l). split; [done|]. apply list_elem_of_filter.
    split; [|by apply elem_of_map_to_list]. unfold statusIn. simpl. rewrite H2. by apply bool_decide_eq_true_2.
Qed.

(** The gids that match a prefix, with their locations. *)
Lemma prefix_matches e gid g l :
  (g, l) ∈ filter (fun kv : string * loc => HasPrefix kv.1 gid = true) (map_to_list (e_downloads e))
  <-> e_downloads e !! g = Some l /\ HasPrefix g gid = true.
Proof. rewrite list_elem_of_filter, elem_of_map_to_list. simpl. tauto. Qed.

Definition maxResult (e : Engine) : Z := Z.max 0 (optionInt (e_global e) "max-download-result" (e_cfgMaxDownloadResult e)).

Definition protected (e : Engine) : string -> bool :=
  isProtected (optionBoolDefault (e_global e) "keep-unfinished-download-result" true) e.

(** The results a pruning drops: the oldest unprotected ones over the limit. *)
Definition pruned (e : Engine) : list string :=
  take (length (prunable (protected e) (e_stopped e)) - Z.to_nat (maxResult e)) (prunable (protected e) (e_stopped e)).

Lemma prune_eq e : NoDup (e_stopped e) ->
  let e' := pruneStoppedLocked e in
  e_stopped e' = filter (fun g => g ∉ pruned e) (e_stopped e)
  /\ e_downloads e' = foldr delete (e_downloads e) (pruned e).
Proof.
  intros Hnd. cbv zeta. unfold pruneStoppedLocked. cbv zeta. fold (protected e).
  set (m := if optionInt _ _ _ <? 0 then 0 else _).
  assert (m = maxResult e) as -> by (unfold m, maxResult; destruct (Z.ltb_spec (optionInt (e_global e) "max-download-result" (e_cfgMaxDownloadResult e)) 0); lia).
  assert (0 <= maxResult e) by (unfold maxResult; lia).
  set (ex := Z.of_nat (length (prunable (protected e) (e_stopped e))) - maxResult e).
  assert (pruned e = take (Z.to_nat ex) (prunable (protected e) (e_stopped e))) as Hp
    by (unfold pruned, ex; f_equal; lia).
  destruct (Z.leb_spec ex 0) as [Hle|Hgt].
  - assert (pruned e = []) as -> by (rewrite Hp; replace (Z.to_nat ex) with 0%nat by lia; apply take_0).
    split; [|done]. symmetry. apply filter_id, Forall_forall. intros g _. apply not_elem_of_nil.
  - pose proof (pruneList_kept (protected e) (e_stopped e) ex Hnd) as Hk.
    pose proof (pruneList_dropped (protected e) (e_stopped e) ex) as Hd.
    destruct (pruneList (protected e) (e_stopped e) ex) as [kept dropped]. simpl in *.
    rewrite Hp, <- Hd. by split.
Qed.

(** *** Changing URIs and options *)

Lemma removeFirstURI_spec raw uris uris' :
  removeFirstURI raw uris = Some uris' ->
  exists l1 u l2, uris = l1 ++ u :: l2 /\ uris' = l1 ++ l2 /\ URI u = raw /\ Forall (fun v => URI v <> raw) l1.
Proof.
  revert uris'. induction uris as [|u uris IH]; intros uris' H; simpl in H; [done|].
  destruct (String.eqb_spec (URI u) raw) as [He|He].
  - injection H as <-. exists [], u, uris. by split_and!.
  - destruct (removeFirstURI raw uris) as [r|]; [|done]. injection H as <-.
    destruct (IH r eq_refl) as (l1 & v & l2 & -> & -> & Hv & Hf). exists (u :: l1), v, l2. split_and!; try done. by constructor.
Qed.

Lemma removeFirstURI_None raw uris : removeFirstURI raw uris = None <-> raw ∉ map URI uris.
Proof.
  induction uris as [|u uris IH]; simpl; [split; [intros _; apply not_elem_of_nil|done]|].
  destruct (String.eqb_spec (URI u) raw) as [<-|He].
  - split; [done|]. intros H. destruct H. by left.
  - destruct (removeFirstURI raw uris); split; try done.
    + intros H. assert (raw ∉ map URI uris) as Hn%IH; [|done]. intros Hin. apply H. by right.
    + intros _ [->|Hin]%elem_of_cons; [done|]. by apply IH.
Qed.

(** The deleted URIs: a sublist of the requested ones, taken out of the list once each. *)
Lemma deleteURIs_spec dels uris n remaining n' :
  deleteURIs dels uris n = (remaining, n') ->
  exists gone, gone `sublist_of` dels /\ map URI uris ≡ₚ gone ++ map URI remaining
    /\ n' = n + Z.of_nat (length gone) /\ remaining `sublist_of` uris
    /\ forall raw, raw ∈ dels -> raw ∈ map URI uris -> raw ∈ gone.
Proof.
  revert uris n. induction dels as [|raw dels IH]; intros uris n H; simpl in H.
  { simplify_eq. exists []. split_and!; try done; try (simpl; lia); by intros raw ?%elem_of_nil. }
  destruct (removeFirstURI raw uris) as [uris'|] eqn:Hr.
  - destruct (IH _ _ H) as (gone & H1 & H2 & H3 & H4 & H5).
    apply removeFirstURI_spec in Hr as (l1 & u & l2 & -> & -> & <- & _). exists (URI u :: gone).
    rewrite map_app in *. simpl. split_and!.
    + by constructor.
    + rewrite <- Permutation_middle. by rewrite H2.
    + simpl. lia.
    + etransitivity; [done|]. apply sublist_app; [done|]. by constructor.
    + intros r [->|Hin]%elem_of_cons Hu; [by left|]. destruct (decide (r = URI u)) as [->|Hne]; [by left|]. right.
      apply H5; [done|]. apply elem_of_app in Hu as [?|[?|?]%elem_of_cons]; [apply elem_of_app; by left|done|apply elem_of_app; by right].
  - destruct (IH _ _ H) as (gone & H1 & H2 & H3 & H4 & H5). apply removeFirstURI_None in Hr.
    exists gone. split_and!; try done; [by apply sublist_cons|]. intros r [->|Hin]%elem_of_cons Hu; [done|by apply H5].
Qed.

(** The state after an accepted change of a download, restarted or not. *)
Definition changed_to (restarts : bool) (l : loc) (d d' : Download) (e e' : Engine) : Prop :=
  let cut := restarts && bool_decide (d_status d = StatusActive) in
  e_heap e' = <[l := d']> (e_heap e) /\ e_downloads e' = e_downloads e
  /\ d_gid d' = d_gid d /\ d_ctx d' = d_ctx d /\ e_active e' = e_active e
  /\ d_status d' = (if cut then StatusWaiting else d_status d)
  /\ e_waiting e' = (if cut then e_waiting e ++ [d_gid d] else e_waiting e)
  /\ (forall c, c ∈ e_cancelled e' <-> c ∈ e_cancelled e \/ cut = true /\ d_ctx d = Some c)
  /\ (cut = true -> e_wake e' = true).

(** The last lines of both changes. *)
Definition restart_tail (restarts : bool) (l : loc) (d1 : Download) (e : Engine) : Engine :=
  let '(cancel, d2, e2) := if restarts then restartActiveDownloadLocked d1 e else (None, d1, e) in
  saveSessionBestEffort (cancelAndSignal cancel (store l d2 e2)).

Lemma restart_tail_spec restarts l d d1 e runs :
  Inv (mkSys e runs) -> reg e (d_gid d) l d ->
  d_gid d1 = d_gid d -> d_status d1 = d_status d -> d_ctx d1 = d_ctx d -> d_cancel d1 = d_cancel d ->
  exists d2, changed_to restarts l d d2 e (restart_tail restarts l d1 e)
    /\ d_uris d2 = d_uris d1 /\ d_options d2 = d_options d1 /\ d_dir d2 = d_dir d1 /\ d_out d2 = d_out d1
    /\ d_path d2 = d_path d1 /\ d_retainReservationsAfterRun d2 = d_retainReservationsAfterRun d1
    /\ e_paths (restart_tail restarts l d1 e) = e_paths e.
Proof.
  intros HI Hr Hg Hs Hc Hcan. unfold restart_tail. destruct restarts.
  - unfold restartActiveDownloadLocked. rewrite Hs. destruct (decide (d_status d = StatusActive)) as [Ha|Ha].
    + rewrite (bool_decide_true (d_status d = StatusActive)) by done. cbn [negb].
      destruct (inv_status_active _ HI l d (proj2 Hr) Ha) as (c & Hdc & Hdk).
      assert (index_of (d_gid d1) (e_waiting e) = None) as ->.
      { apply index_of_None. rewrite Hg. eapply not_waiting_notin; [done..|congruence]. }
      rewrite Hcan, Hdk. match goal with |- context [store l ?d2 _] => exists d2 end. split; [|by split_and!]. unfold changed_to. cbv zeta.
      rewrite (bool_decide_true (d_status d = StatusActive)) by done. simpl. rewrite Hg. split_and!; try done.
      intros c'. rewrite elem_of_union, elem_of_singleton, Hdc. naive_solver.
    + rewrite (bool_decide_false (d_status d = StatusActive)) by done. cbn [negb].
      exists d1. split; [|by split_and!]. unfold changed_to. cbv zeta.
      rewrite (bool_decide_false (d_status d = StatusActive)) by done. simpl. split_and!; try done. naive_solver.
  - exists d1. split; [|by split_and!]. unfold changed_to. simpl. split_and!; try done. naive_solver.
Qed.

(** [applyOptionChange] is a restart of the download with the new options. *)
Lemma applyOptionChange_tail l d opts merged next restart e :
  exists d1, applyOptionChange l d opts merged next restart e = restart_tail restart l d1 e
    /\ d_gid d1 = d_gid d /\ d_status d1 = d_status d /\ d_ctx d1 = d_ctx d /\ d_cancel d1 = d_cancel d
    /\ d_uris d1 = d_uris d /\ d_options d1 = merged
    /\ d_dir d1 = optionString merged "dir" /\ d_out d1 = optionString merged "out".
Proof.
  unfold applyOptionChange, restart_tail. cbv zeta.
  match goal with |- context [match next with Some _ => _ | None => ?dd end] => set (d1 := dd) end.
  assert (d_gid d1 = d_gid d /\ d_status d1 = d_status d /\ d_ctx d1 = d_ctx d /\ d_cancel d1 = d_cancel d
    /\ d_uris d1 = d_uris d /\ d_options d1 = merged /\ d_dir d1 = optionString merged "dir"
    /\ d_out d1 = optionString merged "out") as H1.
  { unfold d1. destruct (bool_decide (d_kind d = downloadKindURI) && _); [|done]. simpl. destruct (d_ctx d) eqn:Ec; simpl; by rewrite ?Ec. }
  set (d2 := match next with Some _ => _ | None => _ end).
  assert (d_gid d2 = d_gid d /\ d_status d2 = d_status d /\ d_ctx d2 = d_ctx d /\ d_cancel d2 = d_cancel d
    /\ d_uris d2 = d_uris d /\ d_options d2 = merged /\ d_dir d2 = optionString merged "dir"
    /\ d_out d2 = optionString merged "out") as H2 by (unfold d2; destruct next as [[[files total] completed]|]; exact H1).
  clearbody d1 d2. destruct restart; [|by exists d2].
  match goal with |- context [restartActiveDownloadLocked ?d3 e] => exists d3 end.
  split; [done|]. by case_if.
Qed.

Lemma not_registered_fresh e runs g : Inv (mkSys e runs) -> e_downloads e !! g = None -> g ∉ e_waiting e.
Proof. intros HI Hn Hin. apply (inv_waiting _ HI) in Hin as (l & d & [H _] & _). simpl in H. congruence. Qed.

Lemma chooseGID_source merged random e g :
  chooseGID merged random e = Ok g -> g = random \/ validGID g = true /\ g = optionString merged "gid".
Proof.
  unfold chooseGID. intros (g' & H1 & H2)%result_bind_ok. destruct (e_downloads e !! g'); [done|]. simplify_eq.
  destruct (String.eqb _ ""); [left; by simplify_eq|]. destruct (validGID (optionString merged "gid")) eqn:Hv; [|done].
  simpl in H1. simplify_eq. by right.
Qed.

Lemma first_error_all {A} (f : A -> result unit) (l : list A) (x : A) :
  first_error (map f l) = Ok tt -> x ∈ l -> f x = Ok tt.
Proof.
  induction l as [|y l IH]; simpl; [by intros _ ?%elem_of_nil|].
  destruct (f y) as [[]|] eqn:Hy; [|done]. intros H [->|Hin]%elem_of_cons; [done|by apply IH].
Qed.

Lemma uriInfos_URI uris : map URI (uriInfos uris) = uris.
Proof.
  unfold uriInfos. change (map URI) with (fmap (M := list) URI). rewrite fmap_imap.
  transitivity (imap (const id) uris); [by apply imap_ext|]. by rewrite imap_const, list_fmap_id.
Qed.

(** What registering a download does. *)
Definition registered (merged : Options) (position : option Z) (g : string) (l : loc) (d : Download) (e e' : Engine) : Prop :=
  e_downloads e !! g = None /\ e_heap e !! l = None
  /\ e_downloads e' = <[g := l]> (e_downloads e) /\ e_heap e' = <[l := d]> (e_heap e)
  /\ d_gid d = g /\ d_options d = merged
  /\ d_status d = (if optionBool merged "pause" then StatusPaused else StatusWaiting)
  /\ e_waiting e' = (if optionBool merged "pause" then e_waiting e else insertWaiting g position (e_waiting e))
  /\ e_active e' = e_active e /\ e_wake e' = true.

Lemma register_spec d position e g merged random :
  chooseGID merged random e = Ok g -> d_gid d = g -> d_options d = merged -> d_status d = StatusWaiting ->
  exists l d', registered merged position g l d' e (register d position e)
    /\ d_kind d' = d_kind d /\ d_uris d' = d_uris d.
Proof.
  intros Hg <- Ho Hs. apply chooseGID_fresh in Hg. exists (fresh (dom (e_heap e))).
  assert (e_heap e !! fresh (dom (e_heap e)) = None) as Hl by (apply not_elem_of_dom_1, is_fresh).
  exists (if optionBool (d_options d) "pause" then d <| d_status := StatusPaused |> else d).
  unfold registered, register, enlist. cbv zeta. rewrite <- Ho. by destruct (optionBool (d_options d) "pause").
Qed.

Lemma newTorrentDownload_fields gid data magnet uris opts mi info now d :
  newTorrentDownload gid data magnet uris opts mi info now = Ok d ->
  d_options d = opts /\ d_kind d = downloadKindTorrent.
Proof.
  unfold newTorrentDownload. destruct (validateTorrentInfo info); [|done].
  destruct (torrentInfoPieceCount info); [|done]. cbv zeta.
  intros (seeds & _ & H)%result_bind_ok. apply result_bind_ok in H as (files & _ & H). by simplify_eq.
Qed.

(** ** Properties *)

(** C1: in every state the engine can reach, whatever the interleaving of API
    calls, scheduler steps, progress and ends of runs, the map, the queue, the
    active set, the stopped list, the run contexts, the restart flags and the path
    reservations agree ([Inv]); the active set has exactly one element per running
    goroutine, and no download has two. *)
Theorem engine_invariant (s : Sys) :
  reachable s ->
  Inv s
  /\ size (e_active (s_engine s)) = length (s_runs s)
  /\ NoDup (omap (run_gid (s_engine s)) (s_runs s)).
Proof.
  intros H. apply Inv_reachable in H as HI. destruct (runs_gids s HI) as (Hnd & Hin & Hlen).
  split_and!; [done| |done]. rewrite <- Hlen.
  replace (e_active (s_engine s)) with (list_to_set (C := gset string) (omap (run_gid (s_engine s)) (s_runs s))).
  - by apply size_list_to_set.
  - apply set_eq. intros g. by rewrite elem_of_list_to_set, Hin.
Qed.

(** C2: a single step changes the status of a download only along the edges of the
    life cycle: waiting downloads start, active ones end, are requeued, paused or
    removed, paused ones are requeued; it never loses a download or changes its
    identity, and a stopped (complete, failed or removed) download keeps its
    status for ever. *)
Theorem status_machine (s s' : Sys) :
  reachable s -> step s s' ->
  status_rel transition (s_engine s) (s_engine s')
  /\ forall l d, e_heap (s_engine s) !! l = Some d -> isTerminal (d_status d) = true ->
       exists d', e_heap (s_engine s') !! l = Some d' /\ d_status d' = d_status d.
Proof.
  intros Hr Hs. pose proof (step_preserves s s' Hr Hs) as H. split; [done|].
  intros l d Hl Ht. destruct (H l d Hl) as (d' & Hl' & _ & _ & _ & Htr). exists d'. split; [done|].
  by apply transition_terminal in Htr.
Qed.

(** C3: one scheduling pass starts the first waiting downloads that do not run yet,
    in queue order, as many as the limit allows: every start is the download
    registered under its gid with a fresh context, what is started leaves the
    queue and nothing else does, the limit is not exceeded by starting, and if
    slots remain then every download that was waiting now runs. *)
Theorem schedule_fifo_work_conserving (e : Engine) (runs : list run) :
  reachable (mkSys e runs) ->
  let '(starts, e') := schedule e in
  exists S, Forall2 (started_as e') starts S
    /\ e_active e' = e_active e ∪ list_to_set S
    /\ e_waiting e ≡ₚ S ++ e_waiting e'
    /\ S `prefix_of` filter (fun g => g ∉ e_active e) (e_waiting e)
    /\ (e_ctxErr e = false -> Z.of_nat (size (e_active e')) < maxActive e ->
        forall g, g ∈ e_waiting e -> g ∈ e_active e')
    /\ (S <> [] -> Z.of_nat (size (e_active e')) <= maxActive e).
Proof. intros H. by apply Inv_reachable, schedule_spec in H. Qed.

(** C4: when a run ends, its download leaves the active set, its goroutine's
    context and torrent are cleared, and its status follows the outcome: an active
    download completes, fails with code 1 and the error's text, is paused when the
    error is a cancellation, or waits when the engine is shutting down; a download
    that was paused, removed or requeued meanwhile keeps that status.  Its path
    reservations are all released, unless it was requeued by a restart that keeps
    them, and no other download's reservations change; the notification of the
    outcome and a session save are emitted. *)
Theorem finish_outcome (s : Sys) (l : loc) (c : context) (err : option error) (now : Z) :
  reachable s -> (l, c) ∈ s_runs s ->
  let e := s_engine s in
  let e' := finishDownload l c err now e in
  exists d d', e_heap e !! l = Some d /\ d_ctx d = Some c /\ e_heap e' = <[l := d']> (e_heap e)
    /\ d_gid d' = d_gid d /\ d_ctx d' = None /\ d_torrent d' = None
    /\ d_status d' = outcome_status err (e_ctxErr e) (d_status d)
    /\ (d_status d = StatusActive -> d_status d' = StatusError ->
        exists er, err = Some er /\ d_errorCode d' = "1" /\ d_errorMessage d' = errorText er)
    /\ (d_status d = StatusActive -> d_status d' = StatusComplete -> metadataOnly d = false -> 0 < d_totalLength d ->
        d_completedLen d' = d_totalLength d' /\ d_totalLength d' = d_totalLength d)
    /\ e_active e' = e_active e ∖ {[d_gid d]}
    /\ e_events e' = e_events e ++ outcome_events (d_gid d) (d_status d) (d_status d') ++ [SaveSession]
    /\ (keeps_reservations c d = false -> pathsOf (d_gid d) (e_paths e') = ∅)
    /\ (keeps_reservations c d = true -> d_reservationTransitionAfterRun d = None -> e_paths e' = e_paths e)
    /\ (forall g k, g <> d_gid d -> pathReservations (e_paths e') !! k = Some g <-> pathReservations (e_paths e) !! k = Some g).
Proof.
  intros Hr Hin. destruct s as [e runs]. apply Inv_reachable in Hr.
  destruct (finish_effect l c err now e runs Hr Hin) as (d & d' & Hl & Hc & H). exists d, d'. naive_solver.
Qed.

(** C5: pausing an unfinished download takes it out of the queue, cancels the
    context of its run if it is active (and no other context), and leaves every
    other download, the active set and the reservations alone; from then on the
    scheduler does not start it, and when the cancelled run ends, with whatever
    error, it is still paused, frees its slot and owns no path.  A failing pause
    (an unknown gid or a stopped download) changes nothing. *)
Theorem pause_takes_effect (s : Sys) (gid : string) :
  reachable s ->
  let '(r, e') := pause gid (s_engine s) in
  match r with
  | Err _ => e' = s_engine s
  | Ok g => exists l d, findDownloadLocked gid (s_engine s) = Ok (l, d) /\ g = d_gid d
      /\ isTerminal (d_status d) = false /\ taken_out StatusPaused l d (s_engine s) e'
      /\ (forall r, r ∈ (schedule e').1 -> r.1 <> l)
      /\ forall c err now, (l, c) ∈ s_runs s ->
          let e2 := finishDownload l c err now e' in
          (d_status <$> (e_heap e2 !! l)) = Some StatusPaused /\ g ∉ e_active e2 /\ pathsOf g (e_paths e2) = ∅
  end.
Proof.
  intros HI%Inv_reachable. destruct s as [e runs]. pose proof (Inv_pause gid e runs HI) as HI'.
  cbn [s_engine s_runs]. destruct (pause gid e) as [[g|er] e'] eqn:Hp; simpl in HI'.
  - destruct (pause_spec gid e runs g e' HI Hp) as (l & d & Hf & -> & Ht & _ & Hout). exists l, d.
    split_and!; try done; destruct Hout as (d' & Hh & Hg & Hs & _);
      (destruct (not_restarted e' runs l d' HI') as [H1 H2];
        [by rewrite Hh, lookup_insert_eq|by rewrite Hs|by rewrite Hs|]); [done|].
    rewrite <- Hg, <- Hs. exact H2.
  - unfold pause in Hp. destruct (findDownloadLocked gid e) as [[l d]|]; [|by simplify_eq]. destruct (isTerminal (d_status d)); by simplify_eq.
Qed.

(** Removing an unfinished download takes it out of the queue, cancels its run
    if it is active (and no other), and records it as stopped: it is on the stopped
    list or already pruned from the map.  The scheduler never starts it again, and
    the end of its run neither changes its status nor leaves it a slot or a path.
    A failing removal changes nothing. *)
Theorem remove_takes_effect (s : Sys) (gid : string) (now : Z) :
  reachable s ->
  let '(r, e') := remove gid now (s_engine s) in
  match r with
  | Err _ => e' = s_engine s
  | Ok g => exists l d, findDownloadLocked gid (s_engine s) = Ok (l, d) /\ g = d_gid d
      /\ isTerminal (d_status d) = false /\ taken_out StatusRemoved l d (s_engine s) e'
      /\ (e_downloads e' !! g = Some l -> g ∈ e_stopped e')
      /\ (forall r, r ∈ (schedule e').1 -> r.1 <> l)
      /\ forall c err later, (l, c) ∈ s_runs s ->
          let e2 := finishDownload l c err later e' in
          (d_status <$> (e_heap e2 !! l)) = Some StatusRemoved /\ g ∉ e_active e2 /\ pathsOf g (e_paths e2) = ∅
  end.
Proof.
  intros HI%Inv_reachable. destruct s as [e runs]. pose proof (Inv_remove gid now e runs HI) as HI'.
  cbn [s_engine s_runs]. destruct (remove gid now e) as [[g|er] e'] eqn:Hp; simpl in HI'.
  - destruct (remove_spec gid now e runs g e' HI Hp) as (l & d & Hf & -> & Ht & Hout). exists l, d.
    split_and!; try done; destruct Hout as (d' & Hh & Hg & Hs & _);
      (destruct (not_restarted e' runs l d' HI') as [H1 H2];
        [by rewrite Hh, lookup_insert_eq|by rewrite Hs|by rewrite Hs|]); [| |].
    + intros Hreg. apply (inv_stopped _ HI'). exists l, d'. split; [|by rewrite Hs].
      split; [done|]. simpl. by rewrite Hh, lookup_insert_eq.
    + done.
    + rewrite <- Hg, <- Hs. exact H2.
  - unfold remove in Hp. destruct (findDownloadLocked gid e) as [[l d]|] eqn:Hf; [|by simplify_eq]. cbv zeta in Hp.
    destruct (isTerminal (d_status d)) eqn:Ht; [|done]. injection Hp as _ <-.
    apply (findDownload_reg _ _ _ _ HI) in Hf. simpl in Hf. change (e <| e_waiting := deleteGid (d_gid d) (e_waiting e) |> = e).
    rewrite deleteGid_absent; [by destruct e|]. eapply not_waiting_notin; [done..|]. intros Hw. by rewrite Hw in Ht.
Qed.

(** After [PauseAll] every registered download is parked: the unfinished ones
    are paused, the stopped ones keep their status, the waiting queue is empty, no
    download was lost, and a scheduling pass starts nothing. *)
Theorem pause_all_parks_everything (s : Sys) :
  reachable s -> e_downloads (s_engine s) !! "" = None ->
  let e' := (PauseAll (s_engine s)).2 in
  e_downloads e' = e_downloads (s_engine s)
  /\ (forall g l d, reg (s_engine s) g l d ->
        exists d', reg e' g l d' /\ d_status d' = if isTerminal (d_status d) then d_status d else StatusPaused)
  /\ e_waiting e' = [] /\ (schedule e').1 = [].
Proof.
  intros HI%Inv_reachable Hempty. destruct s as [e runs]. cbn [s_engine] in *. unfold PauseAll. cbn [snd]. cbv zeta.
  set (gids := gidsByStatus [StatusActive; StatusWaiting] e).
  destruct (fold_pause gids e runs HI) as (HI' & Hd & Hs & Hp).
  set (e' := foldl (fun e gid => (pause gid e).2) e gids) in *. clearbody e'.
  assert (forall g l d', reg e' g l d' -> parked (d_status d')) as Hparked.
  { intros g l d' Hr. pose proof Hr as [H1 H2]. rewrite Hd in H1.
    destruct (inv_reg _ HI g l H1) as (d & Hl & _). simpl in Hl.
    destruct (Hs l d Hl) as (d2 & H3 & _ & _ & _ & Hpp). simplify_eq.
    destruct (decide (d_status d ∈ [StatusActive; StatusWaiting])) as [Hin|Hout].
    - apply (Hp g) with l; [|by intros ->; congruence|done]. apply gidsByStatus_elem. by exists l, d.
    - eapply pauses_parked; [done|]. split; intros E; apply Hout; rewrite E; set_solver. }
  assert (e_waiting e' = []) as Hw.
  { destruct (e_waiting e') as [|g w] eqn:E; [done|].
    destruct (inv_waiting _ HI' g) as (l & d & Hr & Hst); [simpl; rewrite E; by left|].
    by destruct (Hparked g l d Hr). }
  split_and!; [done| |done|].
  - intros g l d [H1 H2]. destruct (Hs l d H2) as (d' & H3 & _ & _ & _ & Hpp). exists d'.
    assert (reg e' g l d') as Hr by (split; [by rewrite Hd|done]). split; [done|].
    destruct (Hparked g l d' Hr) as [Hna Hnw]. destruct Hpp as [E|[Ht E]]; [|by rewrite Ht].
    rewrite <- E in *. by destruct (d_status d).
  - unfold schedule. by rewrite Hw.
Qed.

(** [ChangePosition] moves one waiting download and keeps the order of the
    others: the new queue is the other downloads, in order, with the moved one at
    the returned index, which is the requested absolute, relative or from-the-end
    position clamped to the queue (no arithmetic overflow included).  It fails,
    changing nothing, for an unknown mode or a download that is not queued. *)
Theorem change_position_exact (s : Sys) (gid how : string) (pos : Z) :
  reachable s ->
  let e := s_engine s in
  let '(r, e') := ChangePosition gid pos how e in
  match r with
  | Err _ => e' = e
  | Ok dst => exists l d idx, findDownloadLocked gid e = Ok (l, d) /\ e_waiting e !! idx = Some (d_gid d)
      /\ let others := deleteGid (d_gid d) (e_waiting e) in
         let n := Z.of_nat (length others) in
         let target := if String.eqb how "POS_SET" then pos
                       else if String.eqb how "POS_CUR" then Z.of_nat idx + pos else n + 1 + pos in
         dst = Z.max 0 (Z.min n (if String.eqb how "POS_END" && (pos <? 0) then Z.max 0 target else target))
         /\ e_waiting e' !! Z.to_nat dst = Some (d_gid d)
         /\ deleteGid (d_gid d) (e_waiting e') = others
         /\ e_waiting e' ≡ₚ e_waiting e
         /\ e_heap e' = e_heap e /\ e_downloads e' = e_downloads e /\ e_active e' = e_active e
  end.
Proof.
  intros HI%Inv_reachable. destruct s as [e runs]. cbn [s_engine]. cbv zeta. unfold ChangePosition.
  destruct (findDownloadLocked gid e) as [[l d]|]; [|done].
  destruct (index_of (d_gid d) (e_waiting e)) as [idx|] eqn:Hi; [|done].
  destruct (moveTo _ _ _ _ _) as [[w dst]|] eqn:Hm; [|done]. apply index_of_Some in Hi.
  pose proof (inv_waiting_nodup _ HI) as Hnd. simpl in Hnd.
  apply moveTo_spec in Hm as [Hdst ->]; [|done..]. cbv zeta in Hdst.
  exists l, d, idx. split; [done|]. split; [done|]. split; [done|]. simpl.
  split_and!; try done.
  - apply insertAt_lookup. lia.
  - apply insertAt_remove, deleteGid_notin.
  - rewrite insertAt_Permutation, <- (remove_at _ _ idx) by done.
    rewrite Permutation_middle. by rewrite take_drop_middle.
Qed.

(** A gid names a download if it is its exact gid, or else if it is a prefix of
    exactly one registered gid; an empty or unknown one is not found and an
    ambiguous one is refused, whatever the order in which the map is walked. *)
Theorem find_download_exact_or_unique_prefix (s : Sys) (gid : string) :
  reachable s ->
  let e := s_engine s in
  match findDownloadLocked gid e with
  | Ok (l, d) => gid <> "" /\ reg e (d_gid d) l d
      /\ (d_gid d = gid
          \/ e_downloads e !! gid = None /\ HasPrefix (d_gid d) gid = true
             /\ forall g l', e_downloads e !! g = Some l' -> HasPrefix g gid = true -> g = d_gid d)
  | Err err =>
      (err = ErrNotFound /\ (gid = "" \/ forall g l, e_downloads e !! g = Some l -> HasPrefix g gid = false))
      \/ (err = EText "gid prefix is not unique" /\ e_downloads e !! gid = None
          /\ exists g1 l1 g2 l2, g1 <> g2 /\ e_downloads e !! g1 = Some l1 /\ e_downloads e !! g2 = Some l2
             /\ HasPrefix g1 gid = true /\ HasPrefix g2 gid = true)
  end.
Proof.
  intros HI%Inv_reachable. destruct s as [e runs]. cbn [s_engine]. cbv zeta. unfold findDownloadLocked.
  destruct (String.eqb_spec gid "") as [->|Hne]; [left; split; [done|by left]|].
  destruct (lookupDownload gid e) as [[l d]|] eqn:Hl.
  { apply lookupDownload_reg in Hl. pose proof (reg_gid _ _ _ _ HI Hl) as Hg. split; [done|]. rewrite Hg.
    split; [done|by left]. }
  assert (e_downloads e !! gid = None) as Hnone.
  { destruct (e_downloads e !! gid) as [l|] eqn:Hd; [|done].
    destruct (inv_reg _ HI gid l Hd) as (d & Hh & _). unfold lookupDownload in Hl. simpl in Hh. by rewrite Hd, Hh in Hl. }
  pose proof (prefix_matches e gid) as Hm.
  assert (NoDup (filter (fun kv : string * loc => HasPrefix kv.1 gid = true) (map_to_list (e_downloads e))).*1) as Hnd.
  { eapply sublist_NoDup; [apply (NoDup_fst_map_to_list (e_downloads e))|apply fmap_sublist, sublist_filter]. }
  destruct (filter _ _) as [|[g l] [|[g2 l2] rest]].
  - left. split; [done|]. right. intros g l Hd. apply not_true_is_false. intros Hp.
    assert ((g, l) ∈ ([] : list (string * loc))) as H by (by apply Hm). by apply elem_of_nil in H.
  - destruct (proj1 (Hm g l) ltac:(by left)) as [Hd Hp]. destruct (inv_reg _ HI g l Hd) as (d & Hh & Hg).
    simpl in Hh. rewrite Hh. split; [done|]. rewrite Hg. split; [done|]. right. split_and!; try done.
    intros g' l' Hd' Hp'. assert ((g', l') ∈ [(g, l)]) as H by (by apply Hm).
    apply list_elem_of_singleton in H. by simplify_eq.
  - right. split; [done|]. split; [done|]. simpl in Hnd. apply NoDup_cons in Hnd as [Hnd _].
    destruct (proj1 (Hm g l) ltac:(by left)). destruct (proj1 (Hm g2 l2) ltac:(right; by left)).
    exists g, l, g2, l2. split_and!; try done. intros ->. apply Hnd. by left.
Qed.

(** Pruning keeps at most the configured number of unprotected results, drops
    the oldest of them first and never a protected one (a failed download, when
    unfinished results are kept), keeps the order of the rest, and forgets exactly
    the downloads it drops. *)
Theorem pruning_bounded_and_fair (s : Sys) :
  reachable s ->
  let e := s_engine s in
  let e' := pruneStoppedLocked e in
  e_stopped e' = filter (fun g => g ∉ pruned e) (e_stopped e)
  /\ (forall g, g ∈ pruned e -> g ∈ e_stopped e /\ protected e g = false)
  /\ Z.of_nat (length (prunable (protected e) (e_stopped e'))) <= maxResult e
  /\ (forall g, e_downloads e' !! g = if decide (g ∈ pruned e) then None else e_downloads e !! g)
  /\ (forall g, g ∈ e_stopped e' <-> exists l d, reg e' g l d /\ isTerminal (d_status d) = true).
Proof.
  intros HI%Inv_reachable. destruct s as [e runs]. cbn [s_engine]. cbv zeta.
  pose proof (inv_stopped_nodup _ HI) as Hnd. simpl in Hnd. destruct (prune_eq e Hnd) as [Hs Hd].
  split_and!; [done| | | |apply (inv_stopped _ (Inv_prune e runs HI))].
  - intros g Hg. by apply prunable_subset in Hg.
  - rewrite Hs. unfold prunable at 1. rewrite list_filter_filter.
    assert (NoDup (prunable (protected e) (e_stopped e))) as Hndp by by apply NoDup_filter.
    set (k := (length (prunable (protected e) (e_stopped e)) - Z.to_nat (maxResult e))%nat).
    rewrite (list_filter_iff _ (fun g => g ∉ pruned e /\ protected e g = false)) by tauto.
    rewrite <- list_filter_filter. fold (prunable (protected e) (e_stopped e)).
    unfold pruned. fold k. rewrite filter_notin_take by done. rewrite length_drop. unfold k, maxResult. lia.
  - intros g. rewrite Hd, foldr_delete_lookup. by repeat case_decide.
Qed.

(** [ChangeURI] deletes the first occurrence of each requested URI that is
    present, and no other, inserts the new ones, in order, at the requested clamped
    position, and reports both counts.  When something changed and the download is
    active, its run is cancelled and the download is queued behind it, its
    reservations marked to survive; otherwise its status and its run are left
    alone.  The list stays within 64 URIs and non-empty for a URI download.  A
    refused change changes nothing. *)
Theorem change_uri_exact (s : Sys) (gid : string) (fileIndex : Z) (dels adds : list string) (position : option Z) :
  reachable s ->
  let e := s_engine s in
  let '(r, e') := ChangeURI gid fileIndex dels adds position e in
  match r with
  | Err _ => e' = e
  | Ok (deleted, added) => exists l d d' gone remaining,
      findDownloadLocked gid e = Ok (l, d) /\ fileIndex = 1
      /\ changed_to (0 <? deleted + added) l d d' e e'
      /\ gone `sublist_of` dels /\ map URI (d_uris d) ≡ₚ gone ++ map URI remaining
      /\ remaining `sublist_of` d_uris d
      /\ (forall raw, raw ∈ dels -> raw ∈ map URI (d_uris d) -> raw ∈ gone)
      /\ d_uris d' = insertURIs adds position remaining
      /\ deleted = Z.of_nat (length gone) /\ added = Z.of_nat (length adds)
      /\ Z.of_nat (length (d_uris d')) <= maxDownloadURIs
      /\ (d_kind d = downloadKindURI -> d_uris d' <> [])
      /\ e_paths e' = e_paths e
      /\ (0 < deleted + added -> d_status d = StatusActive -> d_retainReservationsAfterRun d' = d_ctx d)
  end.
Proof.
  intros HI%Inv_reachable. destruct s as [e runs]. cbn [s_engine]. cbv zeta. unfold ChangeURI.
  destruct (negb (fileIndex =? 1)) eqn:Hidx; [done|]. destruct ((_ <? _) || _); [done|].
  destruct (first_error _); [|done]. destruct (findDownloadLocked gid e) as [[l d]|err] eqn:Hf; [|done].
  pose proof (findDownload_reg _ _ _ _ HI Hf) as Hr. simpl in Hr.
  destruct (deleteURIs dels (d_uris d) 0) as [remaining deleted] eqn:Hdel.
  apply deleteURIs_spec in Hdel as (gone & H1 & H2 & H3 & H4 & H5). cbv zeta.
  destruct (Z.ltb_spec maxDownloadURIs (Z.of_nat (length (insertURIs adds position remaining)))) as [|Hmax]; [done|].
  destruct (bool_decide (d_kind d = downloadKindURI) && _) eqn:Hkeep; [done|].
  set (next := insertURIs adds position remaining) in *.
  set (added := Z.of_nat (length adds)).
  set (d1 := if (0 <? deleted + added) && bool_decide (d_status d = StatusActive)
             then d <| d_uris := next |> <| d_retainReservationsAfterRun := d_ctx d |> else d <| d_uris := next |>).
  destruct (restart_tail_spec (0 <? deleted + added) l d d1 e runs HI Hr) as (d2 & Hch & Hu & _ & _ & _ & _ & Hret & Hpaths);
    [unfold d1; clear; by destruct (_ && _)..|].
  assert ((let '(cancel, d0, e0) :=
     if 0 <? deleted + added
     then restartActiveDownloadLocked (if bool_decide (d_status (d <| d_uris := next |>) = StatusActive)
       then d <| d_uris := next |> <| d_retainReservationsAfterRun := d_ctx (d <| d_uris := next |>) |>
       else d <| d_uris := next |>) e
     else (None, d <| d_uris := next |>, e) in
     (Ok (deleted, added), saveSessionBestEffort (cancelAndSignal cancel (store l d0 e0))))
     = (Ok (deleted, added), restart_tail (0 <? deleted + added) l d1 e)) as ->.
  { unfold restart_tail, d1. destruct (0 <? deleted + added); [|done]. cbn [andb].
    change (d_status (d <| d_uris := next |>)) with (d_status d). change (d_ctx (d <| d_uris := next |>)) with (d_ctx d).
    by destruct (restartActiveDownloadLocked _ e) as [[c d0] e0]. }
  assert (d_uris d1 = next) as Hd1 by (unfold d1; clear; by destruct (_ && _)).
  exists l, d, d2, gone, remaining. rewrite Hu, Hd1. split_and!; try done.
  - apply negb_false_iff, Z.eqb_eq in Hidx. done.
  - intros Hk Hn. rewrite bool_decide_true in Hkeep by done. by rewrite Hn in Hkeep.
  - intros Hpos Ha. rewrite Hret. unfold d1. rewrite (bool_decide_true (d_status d = StatusActive)) by done.
    by destruct (Z.ltb_spec 0 (deleted + added)); [|lia].
Qed.

(** An accepted [ChangeOption] merges the new options over the old ones and
    restarts the download exactly when an active run cannot take the change: then
    its run is cancelled and the download queued behind it.  A change of only the
    rate limit of a URI download never interrupts its run.  No other download is
    touched, and a refused change changes nothing. *)
Theorem change_option_restarts (s : Sys) (gid : string) (opts : Options) :
  reachable s ->
  let e := s_engine s in
  let '(r, e') := ChangeOption gid opts e in
  match r with
  | Err _ => e' = e
  | Ok _ => exists l d d' hasInfo,
      findDownloadLocked gid e = Ok (l, d)
      /\ changed_to (optionChangeRestarts d opts hasInfo) l d d' e e'
      /\ d_options d' = mergeOptions (d_options d) opts
      /\ d_dir d' = optionString (d_options d') "dir" /\ d_out d' = optionString (d_options d') "out"
      /\ d_uris d' = d_uris d
      /\ (d_kind d = downloadKindURI -> changedKeys opts = ["max-download-limit"] -> d_status d' = d_status d)
  end.
Proof.
  intros HI%Inv_reachable. destruct s as [e runs]. cbn [s_engine]. cbv zeta. unfold ChangeOption.
  destruct (List.find _ _); [done|]. destruct (validateOptionValues opts); [|done].
  destruct (findDownloadLocked gid e) as [[l d]|err] eqn:Hf; [|done].
  pose proof (findDownload_reg _ _ _ _ HI Hf) as Hr. simpl in Hr.
  destruct (prepareOptionChange d opts) as [[merged next]|err] eqn:Hprep; [|done].
  assert (merged = mergeOptions (d_options d) opts) as Hm.
  { unfold prepareOptionChange in Hprep. apply result_bind_ok in Hprep as (? & _ & Hprep).
    apply result_bind_ok in Hprep as ([info|] & _ & Hprep); [|by simplify_eq].
    apply result_bind_ok in Hprep as (? & _ & Hprep). by simplify_eq. }
  cbv zeta. set (restart := optionChangeRestarts d opts (isSome next)).
  assert (d_kind d = downloadKindURI -> changedKeys opts = ["max-download-limit"] -> restart = false) as Hlimit.
  { intros Hk Hc. unfold restart, optionChangeRestarts, activeOptionChangeRequiresRestart. rewrite Hc, Hk. simpl.
    destruct (bool_decide (d_status d = StatusActive) && _ && _); done. }
  assert (forall d0 e0, Inv (mkSys e0 runs) -> reg e0 (d_gid d) l d -> e_heap e0 = e_heap e -> e_downloads e0 = e_downloads e ->
    e_waiting e0 = e_waiting e -> e_active e0 = e_active e -> e_cancelled e0 = e_cancelled e ->
    d_gid d0 = d_gid d -> d_status d0 = d_status d -> d_ctx d0 = d_ctx d -> d_cancel d0 = d_cancel d -> d_uris d0 = d_uris d ->
    exists d', changed_to restart l d d' e (applyOptionChange l d0 opts merged next restart e0)
      /\ d_options d' = merged /\ d_dir d' = optionString merged "dir" /\ d_out d' = optionString merged "out"
      /\ d_uris d' = d_uris d) as Happly.
  { intros d0 e0 HI0 Hr0 E1 E2 E3 E4 E5 G1 G2 G3 G4 G5.
    destruct (applyOptionChange_tail l d0 opts merged next restart e0) as (d1 & -> & ? & ? & ? & ? & Hu & Ho & Hdir & Hout).
    destruct (restart_tail_spec restart l d d1 e0 runs HI0 Hr0) as (d2 & Hch & Hu2 & Ho2 & Hd2 & Hout2 & _); try congruence.
    exists d2. rewrite Ho2, Hd2, Hout2, Hu2, Hu. split_and!; try done.
    unfold changed_to in *. cbv zeta in *. by rewrite <- E1, <- E2, <- E3, <- E4, <- E5. }
  destruct (transitioningTorrentRun d (isSome next) restart).
  - destruct (reserveOutputPaths _ _ _) as [paths|err] eqn:Hp; [|done].
    match goal with |- context [applyOptionChange l ?d0 opts merged next restart ?e0] =>
      destruct (Happly d0 e0) as (d' & Hch & Ho & Hdir & Hout & Hu) end; try done.
    { apply Inv_setPaths; [|done]. by apply (update_spec _ _ _ _ _ (inv_paths _ HI)) in Hp as (? & _ & _ & _ & _ & ?). }
    exists l, d, d', (isSome next). rewrite Ho. split_and!; try done.
    intros Hk Hc. destruct Hch as (_ & _ & _ & _ & _ & -> & _). fold restart. by rewrite (Hlimit Hk Hc).
  - destruct (Happly d e) as (d' & Hch & Ho & Hdir & Hout & Hu); try done.
    exists l, d, d', (isSome next). rewrite Ho. split_and!; try done.
    intros Hk Hc. destruct Hch as (_ & _ & _ & _ & _ & -> & _). fold restart. by rewrite (Hlimit Hk Hc).
Qed.

(** [AddURI] accepts at most 64 URIs that are all HTTP or HTTPS (or one magnet
    link), gives the download a gid no registered download has, the requested one
    if it is valid, records the global options layered under the request's, and
    queues it at the clamped position, or registers it paused when asked to; no
    other download changes.  A refused request changes nothing. *)
Theorem add_uri_registers (s : Sys) (uris : list string) (opts : Options) (position : option Z) (random : string) (now : Z) :
  reachable s ->
  let e := s_engine s in
  let '(r, e') := AddURI uris opts position random now e in
  match r with
  | Err _ => e' = e
  | Ok g => e_ctxErr e = false /\ exists l d,
      registered (layerOptions (e_global e) opts) position g l d e e'
      /\ (g = random \/ validGID g = true /\ g = optionString (layerOptions (e_global e) opts) "gid")
      /\ uris <> [] /\ Z.of_nat (length uris) <= maxDownloadURIs
      /\ (d_kind d = downloadKindURI ->
           map URI (d_uris d) = uris /\ Forall (fun raw => validateHTTPURI raw = Ok tt) uris)
      /\ (d_kind d = downloadKindTorrent -> exists raw, uris = [raw] /\ isMagnetURI raw = true)
  end.
Proof.
  intros HI%Inv_reachable. destruct s as [e runs]. cbn [s_engine]. cbv zeta. unfold AddURI.
  destruct (validateOptionValues opts); [|done]. destruct uris as [|raw0 more]; [done|].
  destruct (Z.ltb_spec maxDownloadURIs (Z.of_nat (length (raw0 :: more)))) as [|Hmax]; [done|].
  destruct (_ && isMagnetURI raw0) eqn:Hmag.
  - apply andb_true_iff in Hmag as [Hone Hmag]. destruct more; [|done]. unfold addMagnet.
    destruct (TorrentSpecFromMagnetUri raw0); [|done]. destruct (e_ctxErr e) eqn:Hctx; [done|]. cbv zeta.
    destruct (result_bind _ _) as [d|] eqn:Hb; [|done]. split; [done|].
    apply result_bind_ok in Hb as (_ & _ & Hb). apply result_bind_ok in Hb as (gid & Hg & Hb).
    pose proof (newMagnetDownload_ok _ _ _ _ _ _ Hb) as (Hgid & Hst & _).
    assert (d_options d = layerOptions (e_global e) opts /\ d_kind d = downloadKindTorrent) as [Ho Hk].
    { unfold newMagnetDownload in Hb. apply result_bind_ok in Hb as (? & _ & Hb). apply result_bind_ok in Hb as (? & _ & Hb).
      apply result_bind_ok in Hb as (d0 & H0 & Hb). apply newTorrentDownload_fields in H0. by simplify_eq. }
    rewrite Hgid. destruct (register_spec d position e gid _ random Hg Hgid Ho Hst) as (l & d' & Hreg & Hk' & _).
    exists l, d'. split_and!; try done; [by eapply chooseGID_source|rewrite Hk', Hk; done|].
    intros _. by exists raw0.
  - destruct (first_error _) as [[]|] eqn:Hfe; [|done]. destruct (e_ctxErr e) eqn:Hctx; [done|]. cbv zeta.
    destruct (chooseGID _ random e) as [gid|] eqn:Hg; [|done]. split; [done|].
    destruct (register_spec (newDownload gid (raw0 :: more) (layerOptions (e_global e) opts) now) position e gid _ random Hg)
      as (l & d' & Hreg & Hk' & Hu'); try done.
    exists l, d'. split_and!; try done; [by eapply chooseGID_source| |by rewrite Hk'].
    intros _. rewrite Hu'. split; [apply uriInfos_URI|].
    apply Forall_forall. intros raw Hin. eapply first_error_all in Hfe; [|exact Hin]. by destruct (isMagnetURI raw).
Qed.
End props.


Lemma engine_invariant_witness :
  exists s, demo demoTwo = Some s /\ size (e_active (s_engine s)) = 1%nat /\ length (s_runs s) = 1%nat.
Proof.
  destruct (demo_check demoTwo (fun s => bool_decide (length (s_runs s) = 1%nat))) as (s & E & Hs); [by vm_compute|].
  apply bool_decide_eq_true_1 in Hs. exists s. split; [done|].
  destruct (@engine_invariant exampleFS sampleStorage demoLib s) as (_ & -> & _); [by eapply demo_reachable|done].
Defined.

Lemma status_machine_witness :
  exists s s', demo demoTwo = Some s
    /\ @run_action exampleFS sampleStorage demoLib s (AFinish 1 1 None 9) = Some s'
    /\ status_rel transition (s_engine s) (s_engine s').
Proof.
  destruct (demo_check demoTwo (fun s => isSome (@run_action exampleFS sampleStorage demoLib s (AFinish 1 1 None 9))))
    as (s & E & Hs); [by vm_compute|].
  destruct (@run_action exampleFS sampleStorage demoLib s (AFinish 1 1 None 9)) as [s'|] eqn:E'; [|done].
  exists s, s'. split; [done|]. split; [done|].
  apply (@status_machine exampleFS sampleStorage demoLib s s'); [by eapply demo_reachable|by eapply run_action_step].
Defined.

Lemma schedule_fifo_work_conserving_witness :
  exists s, demo [demoAdd "a"; demoAdd "b"] = Some s
    /\ (schedule (s_engine s)).1 = [(1%positive, 1%positive)]
    /\ let '(starts, e') := schedule (s_engine s) in
       exists S, Forall2 (started_as e') starts S /\ e_active e' = e_active (s_engine s) ∪ list_to_set S.
Proof.
  destruct (demo_check [demoAdd "a"; demoAdd "b"]
    (fun s => bool_decide ((schedule (s_engine s)).1 = [(1%positive, 1%positive)]))) as ([e runs] & E & Hs); [by vm_compute|].
  apply bool_decide_eq_true_1 in Hs. exists (mkSys e runs). split; [done|]. split; [done|].
  pose proof (@schedule_fifo_work_conserving exampleFS sampleStorage demoLib e runs) as H.
  cbn [s_engine] in *. destruct (schedule e) as [starts e']. destruct H as (S & H1 & H2 & _); [by eapply demo_reachable|].
  by exists S.
Defined.

Lemma finish_outcome_witness :
  exists s d d', demo demoTwo = Some s
    /\ e_heap (@finishDownload exampleFS 1 1 (Some ECanceled) 9 (s_engine s)) = <[1%positive := d']> (e_heap (s_engine s))
    /\ d_status d = StatusActive /\ d_status d' = StatusPaused.
Proof.
  destruct (demo_check demoTwo (fun s => bool_decide ((1%positive, 1%positive) ∈ s_runs s)
    && bool_decide (d_status <$> (e_heap (s_engine s) !! 1%positive) = Some StatusActive)
    && negb (e_ctxErr (s_engine s)))) as (s & E & Hs); [by vm_compute|].
  apply andb_true_iff in Hs as [[H1%bool_decide_eq_true_1 H2%bool_decide_eq_true_1]%andb_true_iff H3%negb_true_iff].
  destruct (@finish_outcome exampleFS sampleStorage demoLib s 1 1 (Some ECanceled) 9)
    as (d & d' & Hl & _ & Hh & _ & _ & _ & Hs & _); [by eapply demo_reachable|done|].
  rewrite Hl in H2. injection H2 as H2. exists s, d, d'. split; [done|]. split; [done|]. split; [done|].
  by rewrite Hs, H2, H3.
Defined.

Lemma pause_takes_effect_witness :
  exists s, demo demoTwo = Some s /\ (pause "a" (s_engine s)).1 = Ok "a"
    /\ let e' := (pause "a" (s_engine s)).2 in
       exists l, forall r, r ∈ (schedule e').1 -> r.1 <> l.
Proof.
  destruct (demo_check demoTwo (fun s => match (pause "a" (s_engine s)).1 with Ok g => String.eqb g "a" | _ => false end))
    as (s & E & Hs); [by vm_compute|]. exists s. split; [done|].
  pose proof (@pause_takes_effect exampleFS sampleStorage demoLib s "a" ltac:(by eapply demo_reachable)) as H.
  destruct (pause "a" (s_engine s)) as [[g|] e']; [|done]. apply String.eqb_eq in Hs. simpl in Hs. subst g.
  split; [done|]. destruct H as (l & d & _ & _ & _ & _ & H & _). by exists l.
Defined.

Lemma remove_takes_effect_witness :
  exists s, demo demoTwo = Some s /\ (remove "a" 7 (s_engine s)).1 = Ok "a"
    /\ let e' := (remove "a" 7 (s_engine s)).2 in
       exists l d, findDownloadLocked "a" (s_engine s) = Ok (l, d) /\ taken_out StatusRemoved l d (s_engine s) e'.
Proof.
  destruct (demo_check demoTwo (fun s => match (remove "a" 7 (s_engine s)).1 with Ok g => String.eqb g "a" | _ => false end))
    as (s & E & Hs); [by vm_compute|]. exists s. split; [done|].
  pose proof (@remove_takes_effect exampleFS sampleStorage demoLib s "a" 7 ltac:(by eapply demo_reachable)) as H.
  destruct (remove "a" 7 (s_engine s)) as [[g|] e']; [|done]. apply String.eqb_eq in Hs. simpl in Hs. subst g.
  split; [done|]. destruct H as (l & d & Hf & _ & _ & H & _). by exists l, d.
Defined.

Lemma pause_all_parks_everything_witness :
  exists s, demo demoTwo = Some s /\ e_waiting (s_engine s) = ["b"] /\ e_waiting (PauseAll (s_engine s)).2 = [].
Proof.
  destruct (demo_check demoTwo (fun s => bool_decide (e_waiting (s_engine s) = ["b"] /\ e_downloads (s_engine s) !! "" = None)))
    as (s & E & Hs); [by vm_compute|]. apply bool_decide_eq_true_1 in Hs as [Hw Hn]. exists s. split; [done|]. split; [done|].
  pose proof (@pause_all_parks_everything exampleFS sampleStorage demoLib s ltac:(by eapply demo_reachable) Hn) as H.
  cbv zeta in H. by destruct H as (_ & _ & -> & _).
Defined.

(** Three waiting downloads. *)
Definition demoQueue : list action := [demoAdd "a"; demoAdd "b"; demoAdd "c"].

Lemma change_position_exact_witness :
  exists s, demo demoQueue = Some s
    /\ e_waiting (ChangePosition "a" 1 "POS_CUR" (s_engine s)).2 ≡ₚ e_waiting (s_engine s)
    /\ e_waiting (ChangePosition "a" 1 "POS_CUR" (s_engine s)).2 = ["b"; "a"; "c"].
Proof.
  destruct (demo_check demoQueue (fun s => match ChangePosition "a" 1 "POS_CUR" (s_engine s) with
     | (Ok _, e') => bool_decide (e_waiting e' = ["b"; "a"; "c"]) | _ => false end)) as (s & E & Hs); [by vm_compute|].
  exists s. split; [done|].
  pose proof (@change_position_exact exampleFS sampleStorage demoLib s "a" "POS_CUR" 1 ltac:(by eapply demo_reachable)) as H.
  cbv zeta in H. destruct (ChangePosition "a" 1 "POS_CUR" (s_engine s)) as [[dst|] e']; [|done].
  apply bool_decide_eq_true_1 in Hs. split; [|done]. destruct H as (l & d & idx & _ & _ & _ & _ & _ & H & _). exact H.
Defined.

Lemma find_download_exact_or_unique_prefix_witness :
  exists s l d, demo [demoAdd "aa"; demoAdd "ab"] = Some s /\ findDownloadLocked "ab" (s_engine s) = Ok (l, d)
    /\ reg (s_engine s) (d_gid d) l d
    /\ findDownloadLocked "a" (s_engine s) = Err (EText "gid prefix is not unique").
Proof.
  destruct (demo_check [demoAdd "aa"; demoAdd "ab"] (fun s => is_ok (findDownloadLocked "ab" (s_engine s))
    && match findDownloadLocked "a" (s_engine s) with Err (EText m) => String.eqb m "gid prefix is not unique" | _ => false end))
    as (s & E & Hs); [by vm_compute|]. apply andb_true_iff in Hs as [H1 H2].
  pose proof (@find_download_exact_or_unique_prefix exampleFS sampleStorage demoLib s "ab" ltac:(by eapply demo_reachable)) as H.
  cbv zeta in H. destruct (findDownloadLocked "ab" (s_engine s)) as [[l d]|] eqn:Hf; [|done]. exists s, l, d. split; [done|]. split; [done|].
  split; [apply H|]. destruct (findDownloadLocked "a" (s_engine s)) as [|e]; [done|]. destruct e; try done.
  apply String.eqb_eq in H2. by subst.
Defined.

(** Three completed runs with room for one result. *)
Definition demoFull : list action :=
  demoQueue ++ [ACall (CChangeGlobalOption (setOption "max-concurrent-downloads" (VStr "3") noOptions)); ASchedule;
    AFinish 1 1 None 1; AFinish 2 2 None 2; AFinish 3 3 None 3].

Lemma pruning_bounded_and_fair_witness :
  exists s, demo demoFull = Some s /\ e_stopped (s_engine s) = ["a"; "b"; "c"]
    /\ let e := s_engine s <| e_global ::= setOption "max-download-result" (VStr "1") |> in
       pruned e = ["a"; "b"]
       /\ e_stopped (s_engine s) = filter (fun g => g ∉ pruned (s_engine s)) (e_stopped (s_engine s)).
Proof.
  destruct (demo_check demoFull (fun s => bool_decide (e_stopped (s_engine s) = ["a"; "b"; "c"]
    /\ e_stopped (pruneStoppedLocked (s_engine s)) = ["a"; "b"; "c"]
    /\ pruned (s_engine s <| e_global ::= setOption "max-download-result" (VStr "1") |>) = ["a"; "b"])))
    as (s & E & Hs); [by vm_compute|]. apply bool_decide_eq_true_1 in Hs as (H1 & H2 & H3).
  exists s. split; [done|]. split; [done|]. cbv zeta. split; [done|].
  destruct (@pruning_bounded_and_fair exampleFS sampleStorage demoLib s ltac:(by eapply demo_reachable)) as (H & _).
  rewrite <- H, H2. done.
Defined.

Lemma change_uri_exact_witness :
  exists s l d d', demo demoTwo = Some s
    /\ (ChangeURI "a" 1 ["http://h/x"] ["http://h/y"; "http://h/z"] None (s_engine s)).1 = Ok (1, 2)
    /\ changed_to true l d d' (s_engine s) (ChangeURI "a" 1 ["http://h/x"] ["http://h/y"; "http://h/z"] None (s_engine s)).2.
Proof.
  destruct (demo_check demoTwo (fun s => match ChangeURI "a" 1 ["http://h/x"] ["http://h/y"; "http://h/z"] None (s_engine s) with
     | (Ok (x, y), _) => (x =? 1) && (y =? 2) | _ => false end)) as (s & E & Hs); [by vm_compute|].
  pose proof (@change_uri_exact exampleFS sampleStorage demoLib s "a" 1 ["http://h/x"] ["http://h/y"; "http://h/z"] None
    ltac:(by eapply demo_reachable)) as H. cbv zeta in H.
  destruct (ChangeURI "a" 1 _ _ None (s_engine s)) as [[[x y]|] e'] eqn:Hc; [|done].
  apply andb_true_iff in Hs as [->%Z.eqb_eq ->%Z.eqb_eq]. destruct H as (l & d & d' & gone & remaining & _ & _ & H & _).
  exists s, l, d, d'. rewrite Hc. split_and!; [exact E|done|exact H].
Defined.

Lemma change_option_restarts_witness :
  exists s l d d', demo demoTwo = Some s
    /\ (ChangeOption (fs := exampleFS) (storage := sampleStorage) (lib := demoLib) "a"
          (setOption "max-download-limit" (VStr "1K") noOptions) (s_engine s)).1 = Ok "OK"
    /\ findDownloadLocked "a" (s_engine s) = Ok (l, d)
    /\ d_options d' = mergeOptions (d_options d) (setOption "max-download-limit" (VStr "1K") noOptions)
    /\ d_status d' = d_status d.
Proof.
  set (opts := setOption "max-download-limit" (VStr "1K") noOptions).
  destruct (demo_check demoTwo (fun s => match (@ChangeOption exampleFS sampleStorage demoLib "a" opts (s_engine s)).1 with
     | Ok m => String.eqb m "OK" | _ => false end
     && match findDownloadLocked "a" (s_engine s) with Ok (_, d) => bool_decide (d_kind d = downloadKindURI) | _ => false end))
    as (s & E & Hs); [by vm_compute|]. apply andb_true_iff in Hs as [H1 H2].
  pose proof (@change_option_restarts exampleFS sampleStorage demoLib s "a" opts ltac:(by eapply demo_reachable)) as H.
  cbv zeta in H. destruct (ChangeOption "a" opts (s_engine s)) as [[m|] e'] eqn:Hc; [|done].
  apply String.eqb_eq in H1. simpl in H1. subst m.
  destruct H as (l & d & d' & hasInfo & Hf & _ & Ho & _ & _ & _ & Hs). rewrite Hf in H2. apply bool_decide_eq_true_1 in H2.
  exists s, l, d, d'. rewrite Hc. split_and!; [exact E|done|exact Hf|exact Ho|]. apply Hs; [done|]. by vm_compute.
Defined.

Lemma add_uri_registers_witness :
  exists s, demo demoTwo = Some s
    /\ (AddURI (fs := exampleFS) (storage := sampleStorage) (lib := demoLib)
          ["http://h/1"; "https://h/2"] noOptions (Some 0) "n" 5 (s_engine s)).1 = Ok "n"
    /\ e_downloads (s_engine s) !! "n" = None.
Proof.
  destruct (demo_check demoTwo (fun s => match (@AddURI exampleFS sampleStorage demoLib ["http://h/1"; "https://h/2"]
      noOptions (Some 0) "n" 5 (s_engine s)).1 with Ok g => String.eqb g "n" | _ => false end)) as (s & E & Hs); [by vm_compute|].
  exists s. split; [done|].
  pose proof (@add_uri_registers exampleFS sampleStorage demoLib s ["http://h/1"; "https://h/2"] noOptions (Some 0) "n" 5
    ltac:(by eapply demo_reachable)) as H. cbv zeta in H.
  destruct (AddURI _ noOptions (Some 0) "n" 5 (s_engine s)) as [[g|] e']; [|done]. apply String.eqb_eq in Hs. simpl in Hs.
  subst g. split; [done|]. by destruct H as (_ & l & d & (H & _) & _).
Defined.
