(* ===== verification/QuerySpec.v ===== *)
(** * What the queries promise

    A snapshot by keys is the whole snapshot restricted to them; paging through the
    waiting downloads meets every waiting or paused download once, the queue first;
    the global statistics count every download once and add up the speeds without
    overflow. *)
From stdpp Require Import sorting.
From S2P Require Import Prelude GoStrings Options Reservations Torrent Queue State Engine EngineInv EngineProps EngineSpec Query.

Definition isActive (d : Download) : bool := match d_status d with StatusActive => true | _ => false end.
Definition isQueued (d : Download) : bool :=
  match d_status d with StatusWaiting | StatusPaused => true | _ => false end.
Definition countOf (f : Download -> bool) (l : list Download) : Z := Z.of_nat (length (List.filter f l)).

(** The speeds the global statistics add up. *)
Definition activeSpeeds (l : list Download) : list Z :=
  map (fun d => Z.max 0 (d_downloadBPS d)) (List.filter isActive l).

Definition sumOf (l : list Z) : Z := fold_right Z.add 0 l.

(** ** Snapshots *)

Lemma lookup_insert_eqb {A} (m : gmap string A) (k k' : string) (v : A) :
  <[k := v]> m !! k' = if String.eqb k' k then Some v else m !! k'.
Proof.
  destruct (String.eqb_spec k' k) as [->|Hne]; [by rewrite lookup_insert_eq|by rewrite lookup_insert_ne].
Qed.

Lemma lookup_list_to_map_cons {A} (k k' : string) (v : A) (l : list (string * A)) :
  (list_to_map ((k, v) :: l) : gmap string A) !! k' = if String.eqb k' k then Some v else (list_to_map l : gmap string A) !! k'.
Proof. cbn [list_to_map]. apply lookup_insert_eqb. Qed.

(** Every key of the whole snapshot has the value it has on its own. *)
Lemma snapshotAll_key (d : Download) (key : string) : snapshotAll d !! key = snapshotKey d key.
Proof.
  unfold snapshotAll, snapshotKey. cbv zeta.
  destruct (isTorrent d), (d_bittorrent d), (String.eqb (d_errorCode d) ""), (String.eqb (d_errorMessage d) "");
    rewrite ?lookup_insert_eqb, ?lookup_list_to_map_cons;
    repeat (match goal with |- context [String.eqb key ?k] => destruct (String.eqb_spec key k); [subst; reflexivity|] end);
    reflexivity.
Qed.

Lemma snapshot_fold (d : Download) (keys : list string) (key : string) (m : gmap string field) :
  foldl (fun filtered key => match snapshotKey d key with Some v => <[key := v]> filtered | None => filtered end) m keys
    !! key
  = if bool_decide (key ∈ keys) then match snapshotKey d key with Some v => Some v | None => m !! key end else m !! key.
Proof.
  revert m. induction keys as [|k keys IH]; intros m; cbn [foldl]; [done|]. rewrite IH.
  destruct (decide (key = k)) as [->|Hne].
  - rewrite (bool_decide_eq_true_2 (k ∈ k :: keys)) by (by left).
    destruct (snapshotKey d k) as [v|]; [rewrite lookup_insert_eq|]; by case_bool_decide.
  - assert ((match snapshotKey d k with Some v => <[k:=v]> m | None => m end) !! key = m !! key) as ->.
    { destruct (snapshotKey d k); [by rewrite lookup_insert_ne|done]. }
    rewrite (bool_decide_ext (key ∈ k :: keys) (key ∈ keys)); [done|]. set_solver.
Qed.

(** ** Pages *)

Lemma slice_forward {A} (items : list A) (i n : Z) :
  0 < n -> 0 <= i -> sliceDownloads items i n = take (Z.to_nat n) (drop (Z.to_nat i) items).
Proof.
  intros Hn Hi. unfold sliceDownloads. destruct (Z.ltb_spec n 0); [lia|]. destruct (Z.eqb_spec n 0); [lia|].
  destruct (Z.eqb_spec (Z.of_nat (length items)) 0) as [E|E].
  { destruct items as [|x items]; [|cbn [length] in E; lia]. cbn. by rewrite drop_nil, take_nil. }
  cbn [orb]. destruct (Z.leb_spec 0 i); [|lia]. destruct (Z.leb_spec (Z.of_nat (length items)) i).
  - by rewrite drop_ge, take_nil by lia.
  - destruct (Z.ltb_spec (Z.of_nat (length items) - i) n); [|done].
    rewrite !take_ge; [done|rewrite length_drop; lia..].
Qed.

Lemma slice_backward {A} (items : list A) (i n : Z) :
  0 < n -> 0 <= i < Z.of_nat (length items) ->
  sliceDownloads items (-1 - i) n = take (Z.to_nat n) (drop (Z.to_nat i) (rev items)).
Proof.
  intros Hn Hi. unfold sliceDownloads. destruct (Z.ltb_spec n 0); [lia|]. destruct (Z.eqb_spec n 0); [lia|].
  destruct (Z.eqb_spec (Z.of_nat (length items)) 0) as [E|E]; [lia|]. cbn [orb].
  destruct (Z.leb_spec 0 (-1 - i)); [lia|]. destruct (Z.ltb_spec (Z.of_nat (length items) + (-1 - i)) 0); [lia|].
  f_equal. rewrite skipn_rev. do 2 f_equal. lia.
Qed.

Lemma pages_concat {A} (items : list A) (n k : nat) :
  concat (map (fun i => take n (drop (i * n) items)) (seq 0 k)) = take (k * n) items.
Proof.
  induction k as [|k IH]; [by rewrite take_0|]. rewrite seq_S, map_app, concat_app, IH. cbn [map concat].
  rewrite app_nil_r, take_take_drop. f_equal. lia.
Qed.

(** The pages of size [n] from the front are the listing, from the back its reverse. *)
Lemma pages_cover {A} (items : list A) (n : Z) (k : nat) :
  0 < n -> Z.of_nat (length items) <= Z.of_nat k * n ->
  concat (map (fun i => sliceDownloads items (Z.of_nat i * n) n) (seq 0 k)) = items.
Proof.
  intros Hn Hk. rewrite (map_ext _ (fun i => take (Z.to_nat n) (drop (i * Z.to_nat n) items))).
  - rewrite pages_concat, take_ge; [done|nia].
  - intros i. rewrite slice_forward by lia. do 2 f_equal. lia.
Qed.

(** ** Listings *)

Lemma elem_of_registered (e : Engine) (g : string) (d : Download) :
  (g, d) ∈ registered e <-> exists l, reg e g l d.
Proof.
  unfold registered. rewrite list_elem_of_omap. split.
  - intros ([g' l] & Hin & H). apply elem_of_map_to_list in Hin. cbn in H.
    destruct (e_heap e !! l) eqn:Hl; [|done]. injection H as <- <-. by exists l.
  - intros (l & H1 & H2). exists (g, l). split; [by apply elem_of_map_to_list|]. cbn. by rewrite H2.
Qed.

Lemma registered_fst (s : Sys) : Inv s -> map fst (registered (s_engine s)) = map fst (map_to_list (e_downloads (s_engine s))).
Proof.
  intros HI. unfold registered.
  assert (forall kv, kv ∈ map_to_list (e_downloads (s_engine s)) -> is_Some (e_heap (s_engine s) !! kv.2)) as H.
  { intros [g l] Hin%elem_of_map_to_list. destruct (inv_reg s HI g l Hin) as (d & Hd & _). by exists d. }
  induction (map_to_list (e_downloads (s_engine s))) as [|kv m IH]; [done|]. cbn.
  destruct (H kv) as [d Hd]; [by left|]. rewrite Hd. cbn. f_equal. apply IH. intros x Hx. apply H. by right.
Qed.

Lemma registered_nodup (s : Sys) : Inv s -> NoDup (map fst (registered (s_engine s))).
Proof. intros HI. rewrite (registered_fst s HI). apply NoDup_fst_map_to_list. Qed.

Lemma registered_length (s : Sys) : Inv s -> length (registered (s_engine s)) = size (e_downloads (s_engine s)).
Proof.
  intros HI. rewrite <- (length_map fst), (registered_fst s HI), length_map. apply length_map_to_list.
Qed.

Lemma lookupAll_fst (s : Sys) (gids : list string) :
  Inv s -> (forall g, g ∈ gids -> exists l d, reg (s_engine s) g l d) -> map fst (lookupAll gids (s_engine s)) = gids.
Proof.
  intros HI H. unfold lookupAll. induction gids as [|g gids IH]; [done|]. cbn.
  destruct (H g) as (l & d & Hr%lookupDownload_reg); [by left|]. rewrite Hr. cbn. f_equal. apply IH. intros x Hx. apply H. by right.
Qed.

Lemma elem_of_lookupAll (e : Engine) (gids : list string) (g : string) (d : Download) :
  (g, d) ∈ lookupAll gids e <-> g ∈ gids /\ exists l, reg e g l d.
Proof.
  unfold lookupAll. rewrite list_elem_of_omap. split.
  - intros (g' & Hin & H). destruct (lookupDownload g' e) as [[l d']|] eqn:E; [|done]. cbn in H. injection H as <- <-.
    split; [done|]. exists l. by apply lookupDownload_reg.
  - intros (Hin & l & Hr%lookupDownload_reg). exists g. split; [done|]. by rewrite Hr.
Qed.

(** The keys of a listing are the gids of its downloads. *)
Lemma listing_gids (s : Sys) (l : list (string * Download)) :
  Inv s -> Forall (fun kv => exists l, reg (s_engine s) kv.1 l kv.2) l -> map d_gid (map snd l) = map fst l.
Proof.
  intros HI H. rewrite map_map. induction H as [|kv l [x Hx] _ IH]; [done|]. cbn. f_equal; [|done]. by eapply reg_gid.
Qed.

Lemma pages_cover_back {A} (items : list A) (n : Z) (k : nat) :
  0 < n -> (Z.of_nat k - 1) * n < Z.of_nat (length items) <= Z.of_nat k * n ->
  concat (map (fun i => sliceDownloads items (-1 - Z.of_nat i * n) n) (seq 0 k)) = rev items.
Proof.
  intros Hn Hk. rewrite (map_ext_in _ (fun i => take (Z.to_nat n) (drop (i * Z.to_nat n) (rev items)))).
  - rewrite pages_concat, take_ge; [done|rewrite length_rev; nia].
  - intros i Hi%in_seq. rewrite slice_backward by nia. do 2 f_equal. lia.
Qed.

#[export] Instance created_le_total : Total created_le.
Proof.
  intros x y. unfold created_le. destruct (Ztrichotomy (d_createdAt x) (d_createdAt y)) as [H|[H|H]]; [by left; left| |right; left; lia].
  destruct (total String.le (d_gid x) (d_gid y)); [left|right]; by right.
Qed.

(** The paused downloads a listing appends to the queue. *)
Definition pausedListing (e : Engine) : list Download :=
  let seen : gset string := list_to_set (map fst (lookupAll (e_waiting e) e)) in
  merge_sort created_le
    (map snd (filter (fun kv : string * Download => kv.1 ∉ seen /\ d_status kv.2 = StatusPaused) (registered e))).

Lemma elem_of_paused (s : Sys) (d : Download) :
  Inv s -> d ∈ pausedListing (s_engine s) <->
  d_status d = StatusPaused /\ exists l, reg (s_engine s) (d_gid d) l d.
Proof.
  intros HI. unfold pausedListing. cbv zeta.
  rewrite (merge_sort_Permutation created_le), list_elem_of_fmap.
  rewrite (lookupAll_fst s) by (done || intros g Hg; destruct (inv_waiting s HI g Hg) as (l & d' & Hr & _); eauto).
  split.
  - intros ([g d'] & -> & Hin). apply list_elem_of_filter in Hin as [[_ Hp] (l & Hr)%elem_of_registered].
    cbn in *. split; [done|]. exists l. by rewrite (reg_gid s g l d' HI Hr).
  - intros [Hp [l Hr]]. exists (d_gid d, d). split; [done|]. apply list_elem_of_filter. cbn. split_and!; [|done|].
    + intros (l' & d' & Hr' & Hw)%elem_of_list_to_set%(inv_waiting s HI). destruct Hr, Hr'. congruence.
    + apply elem_of_registered. by exists l.
Qed.

Lemma paused_gids_nodup (s : Sys) : Inv s -> NoDup (map d_gid (pausedListing (s_engine s))).
Proof.
  intros HI. unfold pausedListing. cbv zeta. rewrite (merge_sort_Permutation created_le), (listing_gids s).
  - pose proof (registered_nodup s HI) as H. revert H. generalize (registered (s_engine s)). intros l.
    induction l as [|kv l IH]; intros H; [constructor|]. inversion H as [|? ? Hnot Hnd]; subst.
    rewrite filter_cons. destruct (decide _); [|by apply IH]. cbn. constructor; [|by apply IH].
    intros Hin. apply Hnot. apply list_elem_of_fmap in Hin as (x & -> & Hx). apply list_elem_of_filter in Hx as [_ Hx].
    by apply list_elem_of_fmap_2.
  - done.
  - apply Forall_forall. intros [g d] Hin. apply list_elem_of_filter in Hin as [_ Hin]. by apply elem_of_registered.
Qed.

Lemma waiting_listing (s : Sys) :
  Inv s -> map d_gid (waitingDownloads (s_engine s)) = e_waiting (s_engine s) ++ map d_gid (pausedListing (s_engine s)).
Proof.
  intros HI. unfold waitingDownloads. cbv zeta. rewrite map_app. f_equal.
  assert (forall g, g ∈ e_waiting (s_engine s) -> exists l d, reg (s_engine s) g l d) as Hw.
  { intros g Hg. destruct (inv_waiting s HI g Hg) as (l & d & Hr & _). eauto. }
  rewrite (listing_gids s); [by apply lookupAll_fst|done|]. apply Forall_forall. intros [g d] [_ H]%elem_of_lookupAll. done.
Qed.

(** Paging through the waiting downloads of any reachable engine meets every waiting
    or paused download once and nothing else: the queue in order, then the paused ones
    by creation time and gid, from the front with positive offsets and in reverse with
    negative ones, for pages of any size. *)
Theorem tell_waiting_exact {fs : FileSystem} {storage : TorrentStorage} {lib : TorrentLib}
    (s : Sys) (keys : list string) (n : Z) :
  reachable s -> 0 < n ->
  let e := s_engine s in
  exists items paused,
    map d_gid items = e_waiting e ++ map d_gid paused
    /\ NoDup (map d_gid items)
    /\ Sorted created_le paused
    /\ (forall d, d ∈ paused <-> d_status d = StatusPaused /\ exists l, reg e (d_gid d) l d)
    /\ (e_ctxErr e = false -> forall g l d, reg e g l d ->
          g ∈ map d_gid items <-> d_status d = StatusWaiting \/ d_status d = StatusPaused)
    /\ (forall k, Z.of_nat (length items) <= Z.of_nat k * n ->
          concat (map (fun i => TellWaiting (Z.of_nat i * n) n keys e) (seq 0 k)) = map (snapshot keys) items)
    /\ (forall k, (Z.of_nat k - 1) * n < Z.of_nat (length items) <= Z.of_nat k * n ->
          concat (map (fun i => TellWaiting (-1 - Z.of_nat i * n) n keys e) (seq 0 k)) = map (snapshot keys) (rev items)).
Proof.
  intros HR Hn e. pose proof (Inv_reachable s HR) as HI. exists (waitingDownloads e), (pausedListing e). subst e.
  rewrite (waiting_listing s HI).
  assert (forall g, g ∈ map d_gid (pausedListing (s_engine s)) <->
            exists l d, reg (s_engine s) g l d /\ d_status d = StatusPaused) as Hpaused.
  { intros g. rewrite list_elem_of_fmap. split.
    - intros (d & -> & [Hp [l Hr]]%(elem_of_paused s d HI)). eauto.
    - intros (l & d & Hr & Hp). exists d. pose proof (reg_gid s g l d HI Hr) as <-. split; [done|].
      apply (elem_of_paused s d HI). eauto. }
  split_and!; [done| | |by intros d; apply elem_of_paused| | |].
  - apply NoDup_app. split_and!; [apply (inv_waiting_nodup s HI)| |by apply paused_gids_nodup].
    intros g (l & d & Hr & Hw)%(inv_waiting s HI) (l' & d' & Hr' & Hp)%Hpaused. destruct Hr, Hr'. congruence.
  - apply (Sorted_merge_sort _).
  - intros Hctx g l d Hr. rewrite elem_of_app, Hpaused. split.
    + intros [(l' & d' & Hr' & Hw)%(inv_waiting s HI)|(l' & d' & Hr' & Hp)]; destruct Hr, Hr'; [left|right]; congruence.
    + intros [Hw|Hp]; [left; by eapply (inv_queued s HI)|right; eauto].
  - intros k Hk. rewrite <- (pages_cover (waitingDownloads (s_engine s)) n k Hn Hk), concat_map, map_map at 1. done.
  - intros k Hk. rewrite <- (pages_cover_back (waitingDownloads (s_engine s)) n k Hn Hk), concat_map, map_map. done.
Qed.

(** A snapshot by keys is the whole snapshot restricted to those keys: each requested
    key has the value it has in the snapshot without keys, or is missing from both, and
    no other key appears. *)
Theorem snapshot_selects_keys (d : Download) (k : string) (keys : list string) (key : string) :
  snapshot (k :: keys) d !! key = if bool_decide (key ∈ k :: keys) then snapshot [] d !! key else None.
Proof.
  change (snapshot [] d) with (snapshotAll d). rewrite snapshotAll_key.
  transitivity (if bool_decide (key ∈ k :: keys)
                then match snapshotKey d key with Some v => Some v | None => (∅ : gmap string field) !! key end
                else (∅ : gmap string field) !! key); [apply snapshot_fold|].
  case_bool_decide; [|done]. by destruct (snapshotKey d key).
Qed.

(** ** Statistics *)

Lemma count_fold (l : list Download) (speed active waiting : Z) :
  0 <= speed <= max_int64 ->
  foldl countDownload (speed, active, waiting) l
  = (Z.min max_int64 (speed + sumOf (activeSpeeds l)), active + countOf isActive l, waiting + countOf isQueued l).
Proof.
  assert (forall l, 0 <= sumOf (activeSpeeds l)) as Hpos.
  { intros l'. unfold activeSpeeds, sumOf. induction (List.filter isActive l'); cbn [map fold_right]; lia. }
  revert speed active waiting. induction l as [|d l IH]; intros speed active waiting Hs.
  { cbn. rewrite !Z.add_0_r, Z.min_r by lia. done. }
  pose proof (Hpos l). cbn [foldl]. unfold countDownload at 2, countOf, activeSpeeds. cbn [List.filter].
  destruct (isActive d) eqn:Ha, (isQueued d) eqn:Hq; unfold isActive, isQueued in Ha, Hq;
    destruct (d_status d); try done;
    rewrite IH by (unfold max_int64 in *; repeat case_match; lia);
    unfold countOf, activeSpeeds, sumOf in *; cbn [map fold_right length]; (apply (f_equal2 pair); [apply (f_equal2 pair)|]); try lia.
  destruct (Z.ltb_spec (max_int64 - speed) (d_downloadBPS d)); [lia|]. destruct (Z.ltb_spec 0 (d_downloadBPS d)); lia.
Qed.

Lemma countOf_split (f g : Download -> bool) (l : list Download) :
  (forall d, f d = true -> g d = false) ->
  countOf f l + countOf g l = countOf (fun d => f d || g d) l.
Proof.
  intros H. unfold countOf. induction l as [|d l IH]; [done|]. cbn [List.filter]. specialize (H d).
  destruct (f d), (g d); cbn [orb length]; lia.
Qed.

Lemma countOf_all (f : Download -> bool) (l : list Download) :
  (forall d, d ∈ l -> f d = true) -> countOf f l = Z.of_nat (length l).
Proof.
  intros H. unfold countOf. induction l as [|d l IH]; [done|]. cbn [List.filter]. rewrite (H d) by (by left).
  cbn [length]. specialize (IH ltac:(intros x Hx; apply H; by right)). lia.
Qed.

(** The stopped list holds one gid per stopped download of the map. *)
Lemma stopped_count (s : Sys) :
  Inv s -> Z.of_nat (length (e_stopped (s_engine s)))
           = countOf (fun d => isTerminal (d_status d)) (map snd (registered (s_engine s))).
Proof.
  intros HI. set (l := registered (s_engine s)). set (t := filter (fun kv : string * Download => isTerminal (d_status kv.2) = true) l).
  assert (e_stopped (s_engine s) ≡ₚ map fst t) as Hp.
  { apply NoDup_Permutation; [apply (inv_stopped_nodup s HI)| |].
    - subst t. pose proof (registered_nodup s HI) as H. fold l in H. clearbody l.
      induction l as [|kv l IH]; [constructor|]. inversion H as [|? ? Hnot Hnd]; subst.
      rewrite filter_cons. destruct (decide _); [|by apply IH]. cbn. constructor; [|by apply IH].
      intros Hin. apply Hnot. apply list_elem_of_fmap in Hin as (x & -> & Hx). apply list_elem_of_filter in Hx as [_ Hx].
      by apply list_elem_of_fmap_2.
    - intros g. rewrite (inv_stopped s HI), list_elem_of_fmap. split.
      + intros (x & d & Hr & Ht). exists (g, d). split; [done|]. apply list_elem_of_filter. split; [done|].
        apply elem_of_registered. by exists x.
      + intros ([g' d] & -> & Hin). apply list_elem_of_filter in Hin as [Ht (x & Hr)%elem_of_registered]. eauto. }
  rewrite Hp, length_map. unfold countOf, t. clearbody l. clear. f_equal.
  induction l as [|[g d] l IH]; [done|]. rewrite filter_cons. cbn [map List.filter snd].
  destruct (decide _) as [H|H]; cbn in H.
  - rewrite H. cbn [length]. by rewrite IH.
  - apply not_true_is_false in H. by rewrite H, IH.
Qed.

(** The global statistics of a reachable engine add up: every registered download is
    counted exactly once as active, waiting or stopped, and the speed is the sum of the
    active downloads' speeds, held at the largest 64-bit integer. *)
Theorem global_stat_exact {fs : FileSystem} {storage : TorrentStorage} {lib : TorrentLib} (s : Sys) :
  reachable s ->
  let e := s_engine s in
  let l := map snd (registered e) in
  GetGlobalStat e
  = mkStat (FormatInt (Z.min max_int64 (sumOf (activeSpeeds l)))) "0" (Itoa (countOf isActive l)) (Itoa (countOf isQueued l))
      (Itoa (Z.of_nat (length (e_stopped e)))) (Itoa (e_stoppedTotal e))
  /\ countOf isActive l + countOf isQueued l + Z.of_nat (length (e_stopped e)) = Z.of_nat (size (e_downloads e)).
Proof.
  intros HR e l. pose proof (Inv_reachable s HR) as HI. split.
  - unfold GetGlobalStat, globalTotals. fold l. rewrite count_fold by (unfold max_int64; lia). done.
  - subst e l. rewrite (stopped_count s HI), <- (registered_length s HI), <- (length_map snd).
    rewrite countOf_split by (intros d; unfold isActive, isQueued; by destruct (d_status d)).
    rewrite countOf_split by (intros d; unfold isActive, isQueued, isTerminal; by destruct (d_status d)).
    apply countOf_all. intros d _. unfold isActive, isQueued, isTerminal. by destruct (d_status d).
Qed.

(** Two queued downloads, the first of which is then paused. *)
Definition demoPaused : list action := [demoAdd "a"; demoAdd "b"; ACall (CPause "a")].

Lemma tell_waiting_exact_witness :
  exists s items, demo demoPaused = Some s /\ map d_gid items = ["b"; "a"]
    /\ concat (map (fun i => TellWaiting (Z.of_nat i * 1) 1 [] (s_engine s)) (seq 0 2)) = map (snapshot []) items.
Proof.
  destruct (demo_check demoPaused (fun s => bool_decide (e_waiting (s_engine s) = ["b"]
    /\ map d_gid (pausedListing (s_engine s)) = ["a"]))) as (s & E & Hs); [by vm_compute|].
  apply bool_decide_eq_true_1 in Hs as [Hw Hp].
  destruct (@tell_waiting_exact exampleFS sampleStorage demoLib s [] 1 (demo_reachable _ _ E) eq_refl)
    as (items & paused & H1 & H2 & _ & H4 & _ & H6 & _).
  assert (forall g, g ∈ map d_gid paused <-> g = "a") as Hg.
  { intros g. transitivity (g ∈ map d_gid (pausedListing (s_engine s))); [|by rewrite Hp; set_solver].
    rewrite !list_elem_of_fmap. pose proof (Inv_reachable s (demo_reachable _ _ E)) as HI.
    split; intros (d & -> & Hd); exists d; (split; [done|]); [apply (elem_of_paused s d HI)|apply H4]; [by apply H4|].
    by apply (elem_of_paused s d HI). }
  assert (map d_gid paused = ["a"]) as Hpa.
  { rewrite H1 in H2. apply NoDup_app in H2 as (_ & _ & H2). destruct (map d_gid paused) as [|x [|y l]].
    - exfalso. by apply (not_elem_of_nil "a"), Hg.
    - f_equal. apply Hg. by left.
    - exfalso. assert (x = "a") as -> by (apply Hg; by left). assert (y = "a") as -> by (apply Hg; by right; left).
      inversion H2. set_solver. }
  rewrite Hw, Hpa in H1. exists s, items. split; [done|]. split; [done|]. apply H6.
  rewrite <- (length_map d_gid), H1. cbn. lia.
Defined.

Lemma global_stat_exact_witness :
  exists s, demo demoPaused = Some s
    /\ GetGlobalStat (s_engine s) = mkStat "0" "0" "0" "2" "0" "0" /\ size (e_downloads (s_engine s)) = 2%nat.
Proof.
  destruct (demo_check demoPaused (fun s => bool_decide (
      activeSpeeds (map snd (registered (s_engine s))) = [] /\ countOf isActive (map snd (registered (s_engine s))) = 0
      /\ countOf isQueued (map snd (registered (s_engine s))) = 2 /\ e_stopped (s_engine s) = []
      /\ e_stoppedTotal (s_engine s) = 0))) as (s & E & Hs); [by vm_compute|].
  apply bool_decide_eq_true_1 in Hs as (H1 & H2 & H3 & H4 & H5). exists s. split; [done|].
  destruct (@global_stat_exact exampleFS sampleStorage demoLib s (demo_reachable _ _ E)) as [Hg Hn].
  rewrite H1, H2, H3, H4, H5 in Hg. rewrite H2, H3, H4 in Hn. split; [exact Hg|]. cbn in Hn. lia.
Defined.
