(* ===== verification/SessionSpec.v ===== *)
(** * Properties of session files ([session.go])

    What is written is read back; a save leaves the old or the complete new file;
    option layers and finalized files survive a restart. *)
From stdpp Require Import sorting.
From S2P Require Import Prelude GoStrings GoPath GoURL Text Base64 Json Pieces Options Reservations Torrent Queue State Engine Progress Session.

(** ** Vocabulary *)

(** What a written value is read back as: nothing, a text, or a list of at least two. *)
Definition readback (v : rpcval) : option oval :=
  match v with
  | RStr s => Some (VStr s)
  | RStrs [] => None
  | RStrs [s] => Some (VStr s)
  | RStrs l => Some (VStrs l)
  end.

Definition readOptions (options : gmap string rpcval) : gmap string oval := omap readback options.

(** The items of a written file: the entries with their first lines. *)
Fixpoint itemsOf (line : Z) (entries : list sessionDownload) : list sessionItem :=
  match entries with
  | [] => []
  | entry :: rest =>
      mkSessionItem (line + 1) (sd_uris entry) (PlainOptions (readOptions (sd_options entry)))
      :: itemsOf (line + Z.of_nat (length (entryLines entry))) rest
  end.

(** No option key reads as a comment. *)
Definition no_comment_keys (entry : sessionDownload) : bool :=
  forallb (fun kv => negb (HasPrefix kv.1 "#")) (map_to_list (sd_options entry)).

(** The line of URIs fits the reader's buffer. *)
Definition uri_line_fits (entry : sessionDownload) : bool :=
  len (Join (sd_uris entry) (String tab "")) <? sessionMaxLineSize.

Definition weight (lines : list string) : Z := len (unlines lines).

(** ** Lemmas: lines of text *)

Lemma len_app (s t : string) : len (s +:+ t) = len s + len t.
Proof. unfold len. rewrite str_app_length. lia. Qed.

Lemma len_cons (a : ascii) (s : string) : len (String a s) = 1 + len s.
Proof. unfold len. cbn [String.length]. lia. Qed.

Lemma len_nonneg (s : string) : 0 <= len s.
Proof. unfold len. lia. Qed.

Lemma weight_cons (line : string) (lines : list string) : weight (line :: lines) = len line + 1 + weight lines.
Proof. unfold weight. cbn [unlines foldr]. rewrite len_app, len_cons. unfold unlines. lia. Qed.

Lemma weight_nil : weight [] = 0.
Proof. done. Qed.

Lemma weight_app (l l' : list string) : weight (l ++ l') = weight l + weight l'.
Proof.
  induction l as [|x l IH]; cbn [app]; [by rewrite weight_nil|]. rewrite !weight_cons, IH. lia.
Qed.

Lemma weight_nonneg (l : list string) : 0 <= weight l.
Proof. apply len_nonneg. Qed.

Lemma space_not_contained (s : string) (c : ascii) :
  has_space s = false -> is_ascii_space c = true -> ContainsByte s c = false.
Proof.
  intros Hs Hc. induction s as [|a s IH]; [done|]. apply has_space_cons in Hs as [Ha Hs].
  rewrite ContainsByte_cons, IH by done. destruct (Ascii.eqb_spec c a) as [->|]; [|done].
  unfold lead_space in Ha. by rewrite Hc in Ha.
Qed.

Lemma ContainsAny_crlf (s : string) :
  ContainsAny s crlf = false -> ContainsByte s newline = false /\ ContainsByte s (ascii_of_N 13) = false.
Proof.
  intros H. induction s as [|a s IH]; [done|]. rewrite !ContainsByte_cons. unfold ContainsAny, exists_byte in H.
  apply negb_false_iff in H. cbn [forall_byte] in H. apply andb_true_iff in H as [Ha H].
  destruct IH as [-> ->]; [unfold ContainsAny, exists_byte; by rewrite H|].
  apply negb_true_iff in Ha. unfold crlf in Ha. rewrite !ContainsByte_cons in Ha.
  apply orb_false_iff in Ha as [H1 Ha]. apply orb_false_iff in Ha as [H2 _].
  unfold newline. by rewrite (Ascii.eqb_sym (ascii_of_N 10)), (Ascii.eqb_sym (ascii_of_N 13)), H1, H2.
Qed.

Lemma dropCR_none (line : string) : ContainsByte line (ascii_of_N 13) = false -> dropCR line = line.
Proof.
  intros H. unfold dropCR, TrimSuffix. assert (CutSuffix line (String (ascii_of_N 13) "") = None) as ->; [|done].
  induction line as [|a s IH]; [done|]. rewrite ContainsByte_cons in H. apply orb_false_iff in H as [Ha Hs].
  cbn [CutSuffix]. rewrite (IH Hs). case_match eqn:E; [|done]. apply String.eqb_eq in E. injection E as -> ->.
  by rewrite Ascii.eqb_refl in Ha.
Qed.

Lemma Split_unlines (lines : list string) :
  Forall (fun line => ContainsByte line newline = false) lines -> Split (unlines lines) newline = lines ++ [""].
Proof.
  induction 1 as [|line lines Hl _ IH]; [done|]. cbn [unlines foldr]. rewrite Split_app by done. cbn [app].
  f_equal. apply IH.
Qed.

Lemma scanLines_unlines (lines : list string) :
  Forall (fun line => ContainsByte line newline = false) lines -> scanLines (unlines lines) = lines.
Proof.
  intros H. unfold scanLines. rewrite Split_unlines by done. rewrite rev_app_distr. cbn [rev app]. apply rev_involutive.
Qed.

Lemma sessionLines_app (l l' : list string) (s : scan) :
  sessionLines (l ++ l') s = let! s := sessionLines l s in sessionLines l' s.
Proof. revert s. induction l as [|x l IH]; intros s; [done|]. cbn. destruct (sessionLine x s); [apply IH|done]. Qed.

(** ** Lemmas: one written line *)

(** The state after some lines. *)
Definition advance (lines : list string) (current : option sessionItem) (s : scan) : scan :=
  mkScan (sc_items s) current (sc_line s + Z.of_nat (length lines)) (sc_total s + weight lines).

Definition item_with (i : sessionItem) (m : gmap string oval) : sessionItem :=
  mkSessionItem (si_line i) (si_uris i) (PlainOptions m).

Definition key_ok (key : string) : Prop :=
  badOptionKey key = false /\ HasPrefix key "#" = false.

Definition value_ok (value : string) : Prop :=
  len value <= maxDownloadOptionValueSize /\ ContainsAny value crlf = false /\ TrimSpace value = value.

Lemma key_token (key : string) : badOptionKey key = false -> token key /\ len key <= 256 /\ ContainsByte key "=" = false.
Proof.
  unfold badOptionKey. intros H. apply orb_false_iff in H as [H Hs]. apply orb_false_iff in H as [H He].
  apply orb_false_iff in H as [Hn Hl]. apply String.eqb_neq in Hn. zbool. done.
Qed.

Lemma HasPrefix_hash_app (s t : string) : s <> "" -> HasPrefix s "#" = false -> HasPrefix (s +:+ t) "#" = false.
Proof.
  destruct s as [|a s]; [done|]. intros _. rewrite str_app_cons. cbn [HasPrefix].
  destruct (Ascii.eqb _ _); [|done]. by destruct s.
Qed.

Lemma TrimSpace_optionLine (key value : string) :
  token key -> TrimSpace value = value -> TrimSpace (optionLine key value) = key +:+ String "=" value.
Proof.
  intros Hk Hv. unfold optionLine, TrimSpace. change ("  " +:+ key +:+ "=" +:+ value) with (String " " (String " " (key +:+ String "=" value))).
  rewrite !trim_left_space by done. rewrite trim_left_id by (apply lead_space_token; [done|apply Hk..]).
  apply trim_right_app; [apply Hk|done|]. apply trim_right_digit; [done|]. by apply TrimSpace_fix.
Qed.

Lemma sessionMaxLineSize_eq : sessionMaxLineSize = 90527101.
Proof. by vm_compute. Qed.

Lemma option_line_step (key value : string) (s : scan) (i i' : sessionItem) :
  key_ok key -> value_ok value -> sc_current s = Some i -> sc_total s + weight [optionLine key value] <= maxSessionFileSize ->
  addOption key (VStr value) i = Ok i' ->
  sessionLine (optionLine key value) s = Ok (advance [optionLine key value] (Some i') s).
Proof.
  intros [Hk Hh] (Hl & Hc & Ht) Hi Htot Hadd. destruct (key_token key Hk) as (Htok & Hkl & He).
  apply ContainsAny_crlf in Hc as [_ Hcr]. rewrite weight_cons, weight_nil in Htot.
  assert (len (optionLine key value) = len key + len value + 3) as Hlen.
  { unfold optionLine. rewrite !len_app. change (len "  ") with 2. change (len "=") with 1. lia. }
  unfold sessionLine. rewrite sessionMaxLineSize_eq. unfold maxDownloadOptionValueSize in Hl.
  destruct (Z.leb_spec 90527101 (len (optionLine key value))); [lia|].
  rewrite dropCR_none.
  2:{ unfold optionLine. rewrite !ContainsByte_app, Hcr. rewrite (space_not_contained key) by (done || apply Htok). done. }
  cbv zeta. destruct (Z.ltb_spec maxSessionFileSize (sc_total s + len (optionLine key value) + 1)); [lia|].
  rewrite TrimSpace_optionLine by done. rewrite eqb_empty by (destruct Htok as [Hne _]; by destruct key).
  rewrite HasPrefix_hash_app by (done || apply Htok). cbn [orb]. change (isSessionOptionLine (optionLine key value)) with true.
  cbv iota. rewrite Hi, Cut_app by done. rewrite TrimSpace_no_space by apply Htok.
  rewrite eqb_empty by apply Htok. rewrite Ht. cbn [normalizeOptionValue]. rewrite Hadd. cbn [result_bind atLine].
  unfold advance. rewrite weight_cons, weight_nil. cbn [length]. do 2 f_equal; lia.
Qed.

Lemma addOption_new (key value : string) (i : sessionItem) (m : gmap string oval) :
  badOptionKey key = false -> len value <= maxDownloadOptionValueSize -> m !! key = None ->
  Z.of_nat (size m) < maxSessionOptionKeys ->
  addOption key (VStr value) (item_with i m) = Ok (item_with i (<[key := VStr value]> m)).
Proof.
  intros Hk Hl Hm Hs. unfold addOption. rewrite Hk. cbn [Sprint].
  destruct (Z.ltb_spec maxDownloadOptionValueSize (len value)); [lia|]. cbn [item_with si_options own]. rewrite Hm.
  destruct (Z.leb_spec maxSessionOptionKeys (Z.of_nat (size m))); [lia|]. done.
Qed.

(** The value of a key after one more of its values. *)
Definition grow (v : oval) (value : string) : oval :=
  match v with VStrs p => VStrs (p ++ [value]) | p => VStrs [Sprint p; value] end.

Lemma addOption_more (key value : string) (i : sessionItem) (m : gmap string oval) (v : oval) :
  badOptionKey key = false -> len value <= maxDownloadOptionValueSize -> m !! key = Some v ->
  (forall p, v = VStrs p -> Z.of_nat (length p) < maxSessionOptionValues) ->
  addOption key (VStr value) (item_with i m) = Ok (item_with i (<[key := grow v value]> m)).
Proof.
  intros Hk Hl Hm Hs. unfold addOption. rewrite Hk. cbn [Sprint].
  destruct (Z.ltb_spec maxDownloadOptionValueSize (len value)); [lia|]. cbn [item_with si_options own]. rewrite Hm.
  destruct v as [| |p| | | | | | |]; try done.
  destruct (Z.leb_spec maxSessionOptionValues (Z.of_nat (length p))); [specialize (Hs p eq_refl); lia|]. done.
Qed.

Lemma advance_app (l l' : list string) (c c' : option sessionItem) (s : scan) :
  advance l' c' (advance l c s) = advance (l ++ l') c' s.
Proof. unfold advance. cbn. rewrite weight_app, length_app. f_equal; lia. Qed.

(** The remaining values of a list. *)
Lemma more_lines (key : string) (l : list string) (s : scan) (i : sessionItem) (m : gmap string oval) (p : list string) :
  key_ok key -> Forall value_ok l -> sc_current s = Some (item_with i m) -> m !! key = Some (VStrs p) ->
  Z.of_nat (length p + length l) <= maxSessionOptionValues ->
  sc_total s + weight (map (optionLine key) l) <= maxSessionFileSize ->
  sessionLines (map (optionLine key) l) s
  = Ok (advance (map (optionLine key) l) (Some (item_with i (<[key := VStrs (p ++ l)]> m))) s).
Proof.
  intros Hk Hl. revert s m p. induction Hl as [|x l Hx Hl IH]; intros s m p Hc Hm Hlen Htot.
  - rewrite app_nil_r, insert_id by done. cbn. unfold advance. rewrite weight_nil. cbn.
    destruct s as [items current ln tot]. cbn in *. subst. do 2 f_equal; lia.
  - cbn [map] in *. rewrite weight_cons in Htot. pose proof (weight_nonneg (map (optionLine key) l)).
    cbn [sessionLines length] in *.
    rewrite (option_line_step key x s (item_with i m) (item_with i (<[key := VStrs (p ++ [x])]> m))); try done.
    + cbn [result_bind]. rewrite (IH _ (<[key := VStrs (p ++ [x])]> m) (p ++ [x])); try done.
      * rewrite insert_insert_eq, <- app_assoc, advance_app. done.
      * apply lookup_insert_eq.
      * rewrite length_app. cbn [length]. lia.
      * cbn. rewrite weight_cons, weight_nil. lia.
    + rewrite weight_cons, weight_nil. lia.
    + rewrite (addOption_more key x i m (VStrs p)); [done|apply Hk|apply Hx|done|].
      intros p' [= <-]. lia.
Qed.

Definition written_ok (v : rpcval) : Prop :=
  match v with
  | RStr s => value_ok s
  | RStrs l => Forall value_ok l /\ Z.of_nat (length l) <= maxSessionOptionValues
  end.

(** Recording what a key is read back as. *)
Definition record (options : gmap string rpcval) (key : string) (m : gmap string oval) : gmap string oval :=
  match options !! key ≫= readback with Some v => <[key := v]> m | None => m end.

Lemma option_lines_step (options : gmap string rpcval) (key : string) (s : scan) (i : sessionItem) (m : gmap string oval) :
  key_ok key -> (forall v, options !! key = Some v -> written_ok v) ->
  sc_current s = Some (item_with i m) -> m !! key = None -> Z.of_nat (size m) < maxSessionOptionKeys ->
  sc_total s + weight (optionLines options key) <= maxSessionFileSize ->
  sessionLines (optionLines options key) s
  = Ok (advance (optionLines options key) (Some (item_with i (record options key m))) s).
Proof.
  intros Hk Hv Hc Hm Hs Htot. unfold optionLines, record in *.
  assert (forall x, value_ok x -> sc_total s + weight [optionLine key x] <= maxSessionFileSize ->
    sessionLine (optionLine key x) s
    = Ok (advance [optionLine key x] (Some (item_with i (<[key := VStr x]> m))) s)) as Hone.
  { intros x Hx Hw. apply (option_line_step key x s (item_with i m)); try done.
    apply addOption_new; try done; [apply Hk|apply Hx]. }
  assert (sessionLines [] s = Ok (advance [] (Some (item_with i m)) s)) as Hnone.
  { cbn. unfold advance. rewrite weight_nil. destruct s. cbn in *. subst. do 2 f_equal; lia. }
  destruct (options !! key) as [[[|x [|y l]]|x]|]; cbn [map mbind option_bind readback] in *; try exact Hnone.
  - destruct (Hv _ eq_refl) as [[Hx _]%Forall_cons _]. cbn [sessionLines]. by rewrite Hone by done.
  - destruct (Hv _ eq_refl) as [[Hx [Hy Hl]%Forall_cons]%Forall_cons Hlen]. rewrite !weight_cons in Htot.
    pose proof (weight_nonneg (map (optionLine key) l)). pose proof (len_nonneg (optionLine key y)).
    pose proof (len_nonneg (optionLine key x)). cbn [sessionLines length] in *.
    rewrite Hone by (done || (rewrite weight_cons, weight_nil; lia)). cbn [result_bind].
    rewrite (option_line_step key y _ (item_with i (<[key := VStr x]> m))
      (item_with i (<[key := VStrs [x; y]]> (<[key := VStr x]> m)))); try done.
    + cbn [result_bind]. rewrite advance_app, insert_insert_eq.
      rewrite (more_lines key l _ i (<[key := VStrs [x; y]]> m) [x; y]); try done.
      * rewrite insert_insert_eq, advance_app. done.
      * apply lookup_insert_eq.
      * cbn. rewrite !weight_cons, weight_nil. lia.
    + cbn. rewrite !weight_cons, weight_nil. lia.
    + apply (addOption_more key y i (<[key := VStr x]> m) (VStr x)); [apply Hk|apply Hy|apply lookup_insert_eq|done].
  - specialize (Hv _ eq_refl). cbn [sessionLines]. by rewrite Hone by done.
Qed.

Definition blockLines (options : gmap string rpcval) (keys : list string) : list string :=
  concat (map (optionLines options) keys).

Lemma record_size (options : gmap string rpcval) (key : string) (m : gmap string oval) :
  (size (record options key m) <= S (size m))%nat.
Proof.
  unfold record. destruct (_ ≫= _) as [v|]; [|lia]. destruct (m !! key) as [w|] eqn:E.
  - rewrite map_size_insert_Some by by eexists. lia.
  - rewrite map_size_insert_None by done. lia.
Qed.

Lemma record_other (options : gmap string rpcval) (key k : string) (m : gmap string oval) :
  k <> key -> record options key m !! k = m !! k.
Proof. intros H. unfold record. destruct (_ ≫= _); [|done]. by rewrite lookup_insert_ne. Qed.

Lemma block_step (options : gmap string rpcval) (keys : list string) (s : scan) (i : sessionItem) (m : gmap string oval) :
  NoDup keys -> Forall key_ok keys -> (forall k v, options !! k = Some v -> written_ok v) ->
  sc_current s = Some (item_with i m) -> (forall k, k ∈ keys -> m !! k = None) ->
  Z.of_nat (size m + length keys) <= maxSessionOptionKeys ->
  sc_total s + weight (blockLines options keys) <= maxSessionFileSize ->
  sessionLines (blockLines options keys) s
  = Ok (advance (blockLines options keys) (Some (item_with i (foldl (fun m k => record options k m) m keys))) s).
Proof.
  intros Hnd. revert s m. induction Hnd as [|key keys Hni Hnd IH]; intros s m Hks Hv Hc Hm Hs Htot; unfold blockLines in *.
  - cbn in *. unfold advance. rewrite weight_nil. destruct s. cbn in *. subst. do 2 f_equal; lia.
  - apply Forall_cons in Hks as [Hk Hks]. cbn [map concat foldl length] in *. rewrite weight_app in Htot.
    pose proof (weight_nonneg (concat (map (optionLines options) keys))). rewrite sessionLines_app.
    rewrite (option_lines_step options key s i m); [|done| |done| |lia|lia].
    2:{ intros v Hv'. by eapply Hv. }
    2:{ apply Hm. by left. }
    cbn [result_bind]. rewrite (IH _ (record options key m)); [|done|done|done| | |].
    + by rewrite advance_app.
    + intros k Hk'. rewrite record_other by (intros ->; done). apply Hm. by right.
    + pose proof (record_size options key m). lia.
    + cbn. lia.
Qed.

(** All the keys together give what is read back. *)
Lemma record_all (options : gmap string rpcval) (keys : list string) (m : gmap string oval) (k : string) :
  NoDup keys ->
  foldl (fun m k => record options k m) m keys !! k
  = if decide (k ∈ keys) then match options !! k ≫= readback with Some v => Some v | None => m !! k end else m !! k.
Proof.
  intros Hnd. revert m. induction Hnd as [|key keys Hni Hnd IH]; intros m; [done|]. cbn [foldl]. rewrite IH.
  destruct (decide (k = key)) as [->|Hne].
  - rewrite decide_False by done. rewrite decide_True by by left. unfold record.
    destruct (_ ≫= _); [by rewrite lookup_insert_eq|done].
  - rewrite record_other by done. destruct (decide (k ∈ keys)).
    + rewrite decide_True by by right. done.
    + rewrite decide_False by by rewrite elem_of_cons; tauto. done.
Qed.

(** ** Lemmas: the line of URIs *)

Definition uriLine (uris : list string) : string := Join uris (String tab "").

Lemma uriLine_cons (x y : string) (l : list string) : uriLine (x :: y :: l) = x +:+ String tab (uriLine (y :: l)).
Proof. done. Qed.

Lemma uriLine_start (x : string) (l : list string) :
  Forall token (x :: l) ->
  lead_space (uriLine (x :: l)) = None /\ uriLine (x :: l) <> "" /\ isSessionOptionLine (uriLine (x :: l)) = false
  /\ (HasPrefix x "#" = false -> HasPrefix (uriLine (x :: l)) "#" = false).
Proof.
  intros [Hx Hl]%Forall_cons. destruct Hx as [Hne Hs]. destruct x as [|a x]; [done|].
  assert (exists t, uriLine (String a x :: l) = String a t) as [t Ht] by (destruct l; by eexists).
  assert (lead_space (uriLine (String a x :: l)) = None) as Hlead.
  { destruct l as [|y l]; [by apply lead_space_no_space|]. rewrite uriLine_cons. by apply lead_space_token. }
  split_and!; [done|by rewrite Ht| |].
  - rewrite Ht in Hlead |- *. unfold isSessionOptionLine. unfold lead_space in Hlead.
    destruct (is_ascii_space a) eqn:E; [done|].
    destruct (Ascii.eqb_spec a " ") as [->|]; [by vm_compute in E|].
    destruct (Ascii.eqb_spec a tab) as [->|]; [by vm_compute in E|done].
  - intros Hh. destruct l as [|y l]; [done|]. rewrite uriLine_cons. by apply HasPrefix_hash_app.
Qed.

Lemma trim_right_uriLine (l : list string) : Forall token l -> trim_right (uriLine l) = uriLine l.
Proof.
  induction l as [|x [|y l] IH]; intros H; [done| |].
  - apply Forall_cons in H as [[_ Hx] _]. by apply trim_right_no_space.
  - apply Forall_cons in H as [Hx H]. specialize (IH H). rewrite uriLine_cons.
    apply trim_right_app; [apply Hx|done|]. cbn [trim_right]. unfold all_space. rewrite trim_left_space by done.
    destruct (uriLine_start y l H) as (Hlead & Hne & _). rewrite trim_left_id by done.
    rewrite eqb_empty by done. by rewrite IH.
Qed.

Lemma TrimSpace_uriLine (l : list string) : Forall token l -> TrimSpace (uriLine l) = uriLine l.
Proof.
  intros H. destruct l as [|x l]; [done|]. unfold TrimSpace. destruct (uriLine_start x l H) as (Hlead & _).
  rewrite trim_left_id by done. by apply trim_right_uriLine.
Qed.

Lemma uriLine_without (l : list string) (c : ascii) :
  Forall token l -> is_ascii_space c = true -> c <> tab -> ContainsByte (uriLine l) c = false.
Proof.
  intros Hl Hc Hne. induction l as [|x [|y l] IH]; [done| |].
  - apply Forall_cons in Hl as [[_ Hx] _]. by apply space_not_contained.
  - apply Forall_cons in Hl as [[_ Hx] Hl]. rewrite uriLine_cons, ContainsByte_app, ContainsByte_cons, (IH Hl).
    rewrite space_not_contained by done. destruct (Ascii.eqb_spec c tab); [done|reflexivity].
Qed.

Lemma uri_line_step (uris : list string) (s : scan) :
  Forall token uris -> match uris with raw :: _ => HasPrefix raw "#" = false | [] => False end ->
  Z.of_nat (length uris) <= maxSessionURIsPerDownload -> len (uriLine uris) < sessionMaxLineSize ->
  Z.of_nat (length (flush s)) < maxSessionDownloads ->
  sc_total s + weight [uriLine uris] <= maxSessionFileSize ->
  sessionLine (uriLine uris) s
  = Ok (mkScan (flush s) (Some (mkSessionItem (sc_line s + 1) uris noOptions)) (sc_line s + 1)
          (sc_total s + weight [uriLine uris])).
Proof.
  intros Hu Hh Hn Hl Hf Htot. destruct uris as [|x l]; [done|]. rewrite weight_cons, weight_nil in Htot |- *.
  destruct (uriLine_start x l Hu) as (Hlead & Hne & Hopt & Hhash). unfold sessionLine.
  destruct (Z.leb_spec sessionMaxLineSize (len (uriLine (x :: l)))); [lia|].
  rewrite dropCR_none by by apply uriLine_without. cbv zeta.
  destruct (Z.ltb_spec maxSessionFileSize (sc_total s + len (uriLine (x :: l)) + 1)); [lia|].
  rewrite TrimSpace_uriLine, eqb_empty, Hhash, Hopt by done. cbn [orb].
  assert (Fields (uriLine (x :: l)) = x :: l) as -> by by apply Fields_Join.
  destruct (Z.ltb_spec maxSessionURIsPerDownload (Z.of_nat (length (x :: l)))); [lia|].
  destruct (Z.leb_spec maxSessionDownloads (Z.of_nat (length (flush s)))); [lia|]. do 2 f_equal. lia.
Qed.

(** ** Lemmas: one written entry *)

(** What a validated entry satisfies, and what the format needs besides. *)
Record entry_ok (entry : sessionDownload) : Prop := {
  eo_uris : Forall token (sd_uris entry);
  eo_first : match sd_uris entry with raw :: _ => HasPrefix raw "#" = false | [] => False end;
  eo_count : Z.of_nat (length (sd_uris entry)) <= maxSessionURIsPerDownload;
  eo_fits : len (uriLine (sd_uris entry)) < sessionMaxLineSize;
  eo_keys : forall k v, sd_options entry !! k = Some v -> key_ok k;
  eo_values : forall k v, sd_options entry !! k = Some v -> written_ok v;
  eo_options : Z.of_nat (size (sd_options entry)) <= maxSessionOptionKeys
}.

Definition itemOf (line : Z) (entry : sessionDownload) : sessionItem :=
  mkSessionItem (line + 1) (sd_uris entry) (PlainOptions (readOptions (sd_options entry))).

Lemma sorted_keys (options : gmap string rpcval) :
  let keys := sortStrings (map fst (map_to_list options)) in
  NoDup keys /\ length keys = size options /\ forall k, k ∈ keys <-> exists v, options !! k = Some v.
Proof.
  cbv zeta. assert (sortStrings (map fst (map_to_list options)) ≡ₚ map fst (map_to_list options)) as Hp
    by apply merge_sort_Permutation.
  split_and!.
  - rewrite Hp. apply NoDup_fst_map_to_list.
  - rewrite (Permutation_length Hp), length_map. apply length_map_to_list.
  - intros k. rewrite Hp. rewrite list_elem_of_fmap. split.
    + intros ([k' v] & -> & H%elem_of_map_to_list). by exists v.
    + intros [v H%elem_of_map_to_list]. by exists (k, v).
Qed.

Lemma entry_step (entry : sessionDownload) (s : scan) :
  entry_ok entry -> Z.of_nat (length (flush s)) < maxSessionDownloads ->
  sc_total s + weight (entryLines entry) <= maxSessionFileSize ->
  sessionLines (entryLines entry) s
  = Ok (mkScan (flush s) (Some (itemOf (sc_line s) entry)) (sc_line s + Z.of_nat (length (entryLines entry)))
          (sc_total s + weight (entryLines entry))).
Proof.
  intros [Hu Hh Hn Hl Hk Hv Ho] Hf Htot. unfold entryLines in *. fold (uriLine (sd_uris entry)) in *.
  destruct (sorted_keys (sd_options entry)) as (Hnd & Hlen & Hin).
  set (keys := sortStrings (map fst (map_to_list (sd_options entry)))) in *.
  fold (blockLines (sd_options entry) keys) in *. set (block := blockLines (sd_options entry) keys) in *.
  rewrite weight_cons in Htot. pose proof (weight_nonneg block). cbn [sessionLines length].
  rewrite uri_line_step by (done || (rewrite weight_cons, weight_nil; lia)). cbn [result_bind].
  set (i := mkSessionItem (sc_line s + 1) (sd_uris entry) noOptions).
  rewrite (block_step (sd_options entry) keys _ i ∅).
  - unfold advance. cbn. rewrite !weight_cons, weight_nil. f_equal. f_equal; [|fold block; lia|fold block; lia].
    unfold itemOf, item_with. do 3 f_equal. cbn. apply map_eq. intros k. rewrite record_all by done.
    unfold readOptions. rewrite lookup_omap, lookup_empty. case_decide as Hd.
    + by destruct (sd_options entry !! k ≫= readback).
    + destruct (sd_options entry !! k) as [v|] eqn:E; [|done]. exfalso. apply Hd, Hin. by exists v.
  - done.
  - apply Forall_forall. intros k [v Hkv]%Hin. by eapply Hk.
  - done.
  - done.
  - intros k _. apply lookup_empty.
  - rewrite map_size_empty, Hlen. lia.
  - cbn. rewrite weight_cons, weight_nil. fold block. lia.
Qed.

Lemma flush_item (items : list sessionItem) (i : sessionItem) (ln tot : Z) :
  si_uris i <> [] -> flush (mkScan items (Some i) ln tot) = items ++ [i].
Proof. intros H. unfold flush. cbn. by destruct (si_uris i). Qed.

Lemma entries_step (entries : list sessionDownload) (s : scan) :
  Forall entry_ok entries -> Z.of_nat (length (flush s) + length entries) <= maxSessionDownloads ->
  sc_total s + weight (concat (map entryLines entries)) <= maxSessionFileSize ->
  exists s', sessionLines (concat (map entryLines entries)) s = Ok s' /\ flush s' = flush s ++ itemsOf (sc_line s) entries.
Proof.
  intros He. revert s. induction He as [|entry entries He Hes IH]; intros s Hn Htot.
  - exists s. split; [done|]. cbn. by rewrite app_nil_r.
  - cbn [map concat length itemsOf] in *. rewrite weight_app in Htot.
    pose proof (weight_nonneg (concat (map entryLines entries))).
    rewrite sessionLines_app, entry_step by (done || lia). cbn [result_bind].
    set (s1 := mkScan _ _ _ _). assert (flush s1 = flush s ++ [itemOf (sc_line s) entry]) as Hf.
    { apply flush_item. destruct He as [_ Hfirst]. cbn. by destruct (sd_uris entry). }
    destruct (IH s1) as (s' & Hs' & Hfl).
    + rewrite Hf, length_app. cbn [length]. lia.
    + cbn. lia.
    + exists s'. split; [done|]. rewrite Hfl, Hf, <- app_assoc. done.
Qed.

Lemma optionLine_newline (key value : string) : key_ok key -> value_ok value -> ContainsByte (optionLine key value) newline = false.
Proof.
  intros [Hk _] (_ & Hc & _). destruct (key_token key Hk) as ([_ Hs] & _). apply ContainsAny_crlf in Hc as [Hc _].
  unfold optionLine. rewrite !ContainsByte_app, Hc. by rewrite (space_not_contained key) by done.
Qed.

Lemma entry_lines_newline (entry : sessionDownload) :
  entry_ok entry -> Forall (fun line => ContainsByte line newline = false) (entryLines entry).
Proof.
  intros [Hu _ _ _ Hk Hv _]. unfold entryLines. constructor; [by apply uriLine_without|].
  apply Forall_concat, Forall_fmap, Forall_forall. intros k Hin. unfold compose, optionLines.
  destruct (sd_options entry !! k) as [v|] eqn:E; [|done]. specialize (Hk k v E). specialize (Hv k v E).
  destruct v as [l|x]; [|constructor; [by apply optionLine_newline|done]].
  destruct Hv as [Hv _]. apply Forall_fmap, (Forall_impl _ _ _ Hv). intros x Hx. by apply optionLine_newline.
Qed.

(** ** Lemmas: what validation checks *)

Lemma first_error_imap {A} (f : nat -> A -> result unit) (l : list A) :
  first_error (imap f l) = Ok tt -> forall i x, l !! i = Some x -> f i x = Ok tt.
Proof.
  revert f. induction l as [|y l IH]; intros f H i x Hi; [done|]. cbn [imap first_error] in H.
  destruct (f 0%nat y) as [[]|] eqn:E; [|done]. destruct i as [|i]; [by simplify_eq/=|].
  apply (IH (f ∘ S) H i x Hi).
Qed.

Lemma validate_value (gid key value : string) : validateSessionOptionValue gid key value = Ok tt -> value_ok value.
Proof.
  unfold validateSessionOptionValue, cannotSerialize. intros H. destruct (Z.ltb_spec maxDownloadOptionValueSize (len value)); [done|].
  destruct (ContainsAny value crlf) eqn:Hc; [done|]. destruct (String.eqb_spec (TrimSpace value) value); [|done].
  by split_and!.
Qed.

Lemma validate_entry (entry : sessionDownload) :
  validateSessionDownload entry = Ok tt -> serializable entry = true ->
  no_comment_keys entry = true -> uri_line_fits entry = true -> entry_ok entry.
Proof.
  unfold validateSessionDownload. cbv zeta. intros H Hs Hc Hl.
  match type of H with (if ?u <? _ then _ else _) = _ => set (limit := u) in H end.
  assert (limit <= maxSessionURIsPerDownload) as Hlim.
  { unfold limit, maxSessionURIsPerDownload, maxDownloadURIs. repeat case_match; lia. }
  destruct (Z.ltb_spec limit (Z.of_nat (length (sd_uris entry)))); [done|].
  apply result_bind_ok in H as ([] & Hu & H). pose proof (first_error_imap _ _ Hu) as Huri.
  destruct (Z.ltb_spec maxSessionOptionKeys (Z.of_nat (size (sd_options entry)))); [done|].
  assert (forall k v, sd_options entry !! k = Some v -> validateSessionEntry (sd_gid entry) (k, v) = Ok tt) as Hent.
  { intros k v Hkv. apply first_error_ok in H. rewrite Forall_forall in H. apply H. by apply elem_of_map_to_list. }
  assert (forall i raw, sd_uris entry !! i = Some raw -> token raw /\ (i = 0%nat -> HasPrefix raw "#" = false)) as Htok.
  { intros i raw Hi. specialize (Huri i raw Hi). unfold validateSessionURI, cannotSerialize in Huri.
    destruct (String.eqb_spec raw ""); [done|]. destruct (has_space raw) eqn:Hsp; [done|]. split; [done|].
    intros ->. cbn [Nat.eqb andb] in Huri. by destruct (HasPrefix raw "#"). }
  constructor.
  - apply Forall_lookup. intros i raw Hi. by apply (Htok i raw Hi).
  - unfold serializable in Hs. destruct (sd_uris entry) as [|raw rest]; [done|]. by apply (Htok 0%nat raw).
  - lia.
  - unfold uri_line_fits in Hl. by zbool.
  - intros k v Hkv. split.
    + specialize (Hent k v Hkv). unfold validateSessionEntry, cannotSerialize in Hent.
      destruct (String.eqb k ""); [done|]. by destruct (badOptionKey k).
    + unfold no_comment_keys in Hc. rewrite forallb_forall in Hc.
      apply negb_true_iff, (Hc (k, v)), list_elem_of_In. by apply elem_of_map_to_list.
  - intros k v Hkv. specialize (Hent k v Hkv). unfold validateSessionEntry, cannotSerialize in Hent.
    destruct (String.eqb k ""); [done|]. destruct (badOptionKey k); [done|]. destruct v as [l|x]; [|by eapply validate_value].
    destruct (Z.ltb_spec maxSessionOptionValues (Z.of_nat (length l))); [done|]. split; [|done].
    apply first_error_ok in Hent. apply (Forall_impl _ _ _ Hent). intros x. apply validate_value.
  - done.
Qed.

Lemma validate_entries (entries : list sessionDownload) :
  validateSessionDownloads entries = Ok tt ->
  Forall (fun entry => validateSessionDownload entry = Ok tt) (List.filter serializable entries)
  /\ Z.of_nat (length (List.filter serializable entries)) <= maxSessionDownloads.
Proof.
  unfold validateSessionDownloads. cbv zeta. intros ([] & Hv & H)%result_bind_ok. apply first_error_ok in Hv.
  destruct (Z.ltb_spec maxSessionDownloads (Z.of_nat (length (List.filter serializable entries)))); [done|].
  split; [|done]. by rewrite take_ge in Hv by (unfold maxSessionDownloads in *; lia).
Qed.

Lemma written_entries_ok (entries : list sessionDownload) :
  validateSessionDownloads entries = Ok tt ->
  forallb (fun entry => no_comment_keys entry && uri_line_fits entry) (List.filter serializable entries) = true ->
  Forall entry_ok (List.filter serializable entries)
  /\ Z.of_nat (length (List.filter serializable entries)) <= maxSessionDownloads.
Proof.
  intros [Hv Hn]%validate_entries Hf. split; [|done]. rewrite forallb_forall in Hf. rewrite Forall_forall in Hv |- *.
  intros entry Hin. specialize (Hv entry Hin). apply list_elem_of_In in Hin. specialize (Hf entry Hin).
  apply andb_true_iff in Hf as [Hc Hl]. apply filter_In in Hin as [_ Hs]. by apply validate_entry.
Qed.

Lemma parse_written (entries : list sessionDownload) :
  Forall entry_ok (List.filter serializable entries) ->
  Z.of_nat (length (List.filter serializable entries)) <= maxSessionDownloads ->
  len (sessionText entries) <= maxSessionFileSize ->
  parseSession (sessionText entries) = Ok (itemsOf 0 (List.filter serializable entries)).
Proof.
  intros Hok Hn Hlen. unfold parseSession, sessionText in *. rewrite scanLines_unlines.
  - destruct (entries_step (List.filter serializable entries) (mkScan [] None 0 0)) as (s' & -> & Hf); [done|..].
    + cbn. lia.
    + exact Hlen.
    + cbn [result_bind]. by rewrite Hf.
  - apply Forall_concat, Forall_fmap, (Forall_impl _ _ _ Hok). intros entry. apply entry_lines_newline.
Qed.

(** ** Properties *)


Definition demoEntries : list sessionDownload :=
  [mkSessionDownload "0123456789abcdef" ["http://h/a"; "http://m/a"]
     (list_to_map [("dir", RStr "/d x"); ("header", RStrs ["A: b"; "C: d"]); ("out", RStrs ["f"]); ("index-out", RStrs [])]) 1 0;
   mkSessionDownload "1123456789abcdef" [] ∅ 2 0;
   mkSessionDownload "2123456789abcdef" ["magnet:?xt=1"] (list_to_map [("pause", RStr "true")]) 3 0].


(** An option whose key reads as a comment passes the checks and is lost. *)
Lemma comment_key_is_lost :
  let entry := mkSessionDownload "0123456789abcdef" ["http://h/a"] (list_to_map [("#note", RStr "x")]) 1 0 in
  validateSessionDownloads [entry] = Ok tt
  /\ parseSession (sessionText [entry]) = Ok [mkSessionItem 1 ["http://h/a"] noOptions].
Proof. split; by vm_compute. Qed.



(** ** Lemmas: finalized files *)

Lemma parse_finalized_indexes (l : list Z) (acc : gset Z) :
  Forall (fun i => 1 <= i <= max_int64) l -> parseIndexes (map Itoa l) acc = Ok (list_to_set l ∪ acc).
Proof.
  intros Hl. revert acc. induction Hl as [|i l Hi Hl IH]; intros acc; cbn [map parseIndexes].
  - f_equal. set_solver.
  - rewrite TrimSpace_plain by (apply FormatInt_plain; lia). unfold Atoi, Itoa. rewrite ParseInt_FormatInt by lia.
    destruct (Z.ltb_spec i 1); [lia|]. fold Itoa. rewrite IH. f_equal. set_solver.
Qed.

Lemma digits_without (s : string) (c : ascii) :
  forall_byte is_digit s = true -> is_digit c = false -> ContainsByte s c = false.
Proof. apply forall_byte_not_contains. Qed.

Lemma Join_plain (l : list string) :
  Forall (fun s => forall_byte plain_byte s = true) l -> forall_byte plain_byte (Join l ",") = true.
Proof.
  induction 1 as [|x [|y l] Hx _ IH]; [done|done|].
  change (Join (x :: y :: l) ",") with (x +:+ "," +:+ Join (y :: l) ","). by rewrite !forall_byte_app, Hx, IH.
Qed.

Lemma finalized_codec (finalized : gset Z) (opts : Options) :
  finalized <> ∅ -> set_Forall (fun i => 1 <= i <= max_int64) finalized ->
  own opts !! sessionTorrentFinalizedOption = Some (VStr (encodeSessionTorrentFinalizedIndexes finalized)) ->
  parseSessionTorrentFinalizedIndexes opts = Ok (Some finalized).
Proof.
  intros Hne Hf Ho. unfold parseSessionTorrentFinalizedIndexes, optionExplicit, optionString.
  rewrite Ho, (optionValue_own _ _ _ Ho). cbn [negb present fst snd]. cbv zeta.
  unfold encodeSessionTorrentFinalizedIndexes. set (l := merge_sort Z.le (elements finalized)).
  assert (l ≡ₚ elements finalized) as Hp by apply merge_sort_Permutation.
  assert (Forall (fun i => 1 <= i <= max_int64) l) as Hl.
  { rewrite Hp. apply Forall_forall. intros i Hi%elem_of_elements. by apply Hf. }
  assert (l <> []) as Hl0.
  { intros E. rewrite E in Hp. apply Permutation_nil_l in Hp. apply Hne. by apply leibniz_equiv, elements_empty_inv. }
  assert (Forall (fun s => forall_byte is_digit s = true) (map Itoa l)) as Hd.
  { apply Forall_fmap, (Forall_impl _ _ _ Hl). intros i Hi. apply FormatInt_digits. lia. }
  rewrite TrimSpace_plain.
  2:{ apply Join_plain, (Forall_impl _ _ _ Hd). intros s. apply forall_byte_impl, is_digit_plain. }
  rewrite eqb_empty.
  2:{ destruct l as [|i l']; [done|]. intros E. apply (FormatInt_nonempty i).
      destruct l'; [exact E|]. cbn [map Join] in E. by destruct (Itoa i) eqn:E'. }
  rewrite Split_Join.
  - rewrite parse_finalized_indexes by done. cbn. do 2 f_equal. rewrite union_empty_r_L.
    apply set_eq. intros i. by rewrite elem_of_list_to_set, Hp, elem_of_elements.
  - by destruct l.
  - apply (Forall_impl _ _ _ Hd). intros s Hs. by apply digits_without.
Qed.

(** ** Lemmas: option layers *)

(** A value the format keeps as it is. *)
Definition storable_value (v : oval) : bool :=
  match v with VStr _ => true | VStrs [] | VStrs [""] => false | VStrs _ => true | _ => false end.

Fixpoint storable (o : Options) : Prop :=
  map_Forall (fun _ v => storable_value v = true) (own o)
  /\ match o with PlainOptions _ => True | LayeredOptions _ b => storable b end.

(** The keys of ordinary options. *)
Definition ordinary (k : string) : bool := negb (private_key k) && negb (state_key k) && negb (String.eqb k "save-session").

Lemma storable_no_nil (o : Options) : storable o -> no_nil o.
Proof.
  induction o as [m|m b IH]; cbn; intros [Hm Hb]; (split; [|by try apply IH]).
  - intros k v Hk. specialize (Hm k v Hk). by destruct v.
  - intros k v Hk. specialize (Hm k v Hk). by destruct v.
Qed.

Lemma storable_lookup (o : Options) (k : string) :
  storable o -> (optionValue o k).2 = true -> storable_value (optionValue o k).1 = true.
Proof.
  induction o as [m|m b IH]; cbn [storable optionValue own]; intros [Hm Hb]; (destruct (m !! k) as [v|] eqn:E; [intros _; apply (Hm k v E)|]).
  - done.
  - by apply IH.
Qed.

(** What is read back of a storable value reads like it. *)
Lemma readback_storable (v : oval) :
  storable_value v = true ->
  exists w, readback (rpc_value v) = Some w /\ normalizeOptionValue w = w /\ w <> VNil
    /\ (forall o o' k, optionValue o k = (v, true) -> optionValue o' k = (w, true) ->
          optionString o k = optionString o' k /\ optionStringList o k = optionStringList o' k).
Proof.
  destruct v as [|s|[|x [|y l]]| | | | | | |]; try done; intros Hv.
  - exists (VStr s). split_and!; try done. intros o o' k H H'. unfold optionString, optionStringList. by rewrite H, H'.
  - exists (VStr x). split_and!; try done. intros o o' k H H'. unfold optionString, optionStringList. rewrite H, H'.
    split; [done|]. by destruct x.
  - exists (VStrs (x :: y :: l)). split_and!; try done. intros o o' k H H'.
    unfold optionString, optionStringList. by rewrite H, H'.
Qed.

Lemma sessionOptions_ordinary (d : Download) (k : string) :
  ordinary k = true -> sessionOptions d !! k = optionsForRPC (d_options d) !! k.
Proof.
  unfold ordinary. intros H. apply andb_true_iff in H as [H Hs]. apply andb_true_iff in H as [Hp Hk].
  apply negb_true_iff in Hp, Hk, Hs. unfold private_key in Hp. apply orb_false_iff in Hp as [Hp H3].
  apply orb_false_iff in Hp as [_ H2]. apply String.eqb_neq in H2, H3, Hs.
  assert (k <> "gid" /\ k <> "pause") as [H4 H5] by (split; intros ->; by vm_compute in Hk).
  unfold sessionOptions. cbv zeta. rewrite lookup_insert_ne, lookup_delete_ne, lookup_insert_ne by done.
  destruct (_ && _); rewrite ?lookup_insert_ne by done; by rewrite !lookup_delete_ne.
Qed.

(** The item of a download's entry, its private options removed. *)
Definition itemEntries (d : Download) : gmap string oval := readOptions (sessionOptions d).
Definition publicEntries (d : Download) : Options :=
  deleteOption sessionExplicitOptionsOption (deleteOption sessionTorrentFinalizedOption (PlainOptions (itemEntries d))).

Lemma publicEntries_lookup (d : Download) (k : string) :
  private_key k = false -> own (publicEntries d) !! k = itemEntries d !! k.
Proof.
  unfold private_key. intros H. apply orb_false_iff in H as [H H3]. apply orb_false_iff in H as [_ H2].
  apply String.eqb_neq in H2, H3. unfold publicEntries, deleteOption. cbn [own with_own]. by rewrite !lookup_delete_ne.
Qed.

Lemma filter_lookup_bool (f : string -> bool) (b : bool) (m : gmap string oval) (k : string) :
  filter (fun kv : string * oval => f kv.1 = b) m !! k = if Bool.eqb (f k) b then m !! k else None.
Proof.
  destruct (Bool.eqb_spec (f k) b) as [E|E].
  - destruct (m !! k) as [v|] eqn:Hk; [by apply map_lookup_filter_Some_2|by apply map_lookup_filter_None_2; left].
  - apply map_lookup_filter_None_2. right. intros v _. done.
Qed.

Lemma normalize_idem (v : oval) : normalizeOptionValue (normalizeOptionValue v) = normalizeOptionValue v.
Proof. by destruct v. Qed.

(** What a restored key reads as, and the layer it lives in. *)
Lemma restored_lookup (opts : Options) (explicit : gset string) (k : string) :
  private_key k = false ->
  let merged := restoreSessionOptionLayers opts explicit in
  optionValue merged k
  = match own opts !! k with Some v => present (normalizeOptionValue v) | None => (VNil, false) end
  /\ optionExplicit merged k
     = match own opts !! k with Some _ => state_key k || bool_decide (k ∈ explicit) | None => false end.
Proof.
  intros Hp. cbv zeta. unfold restoreSessionOptionLayers. set (f key := state_key key || bool_decide (key ∈ explicit)).
  split.
  - rewrite layer_effective. unfold effective. cbn [own]. rewrite lookup_fmap, (filter_lookup_bool f true), Hp.
    change (state_key k || bool_decide (k ∈ explicit)) with (f k). destruct (f k) eqn:Hf; cbn [Bool.eqb].
    + destruct (own opts !! k) as [v|] eqn:E; cbn; [by rewrite normalize_idem|].
      by rewrite lookup_fmap, (filter_lookup_bool f false), Hf.
    + cbn. rewrite lookup_fmap, (filter_lookup_bool f false), Hf. cbn. destruct (own opts !! k) as [v|]; [|done].
      cbn. by destruct v.
  - unfold optionExplicit, layerOptions. cbn [own obase].
    rewrite overlay_entries_lookup, Hp. cbn [own]. rewrite lookup_fmap, (filter_lookup_bool f true).
    assert (String.eqb k optionBaseKey = false) as ->.
    { unfold private_key in Hp. by destruct (String.eqb k optionBaseKey). }
    change (state_key k || bool_decide (k ∈ explicit)) with (f k).
    destruct (f k), (own opts !! k); done.
Qed.

Lemma explicitKeys_elem (o : Options) (k : string) :
  k ∈ explicitKeys o <-> (private_key k = false /\ state_key k = false /\ is_Some (own o !! k)).
Proof.
  unfold explicitKeys. rewrite list_elem_of_filter. unfold option_keys. rewrite elem_of_app.
  assert (k ∈ map fst (map_to_list (own o)) <-> is_Some (own o !! k)) as ->.
  { rewrite list_elem_of_fmap. split.
    - intros ([k' v] & -> & H%elem_of_map_to_list). by exists v.
    - intros [v H%elem_of_map_to_list]. by exists (k, v). }
  rewrite orb_false_iff. split; [|tauto]. intros [[Hp Hs] [H|H]]; [|done].
  destruct (obase o); [apply list_elem_of_singleton in H as ->; by vm_compute in Hp|by apply elem_of_nil in H].
Qed.

(** The explicit keys come back. *)
Lemma explicit_codec (o opts : Options) :
  Forall (fun k => ascii_text k = true /\ invalidOptionKey k = false) (explicitKeys o) ->
  Z.of_nat (length (explicitKeys o)) <= maxDownloadOptionKeys ->
  own opts !! sessionExplicitOptionsOption = Some (VStr (encodeSessionExplicitOptions o)) ->
  parseSessionExplicitOptions opts = Ok (Some (list_to_set (explicitKeys o))).
Proof.
  intros Hk Hn Ho. unfold parseSessionExplicitOptions, optionExplicit, optionString.
  rewrite Ho, (optionValue_own _ _ _ Ho). cbn [negb present fst snd]. cbv zeta.
  unfold encodeSessionExplicitOptions. rewrite DecodeString_EncodeToString.
  assert (sortStrings (explicitKeys o) ≡ₚ explicitKeys o) as Hp by apply merge_sort_Permutation.
  assert (Forall (fun k => ascii_text k = true /\ invalidOptionKey k = false) (sortStrings (explicitKeys o))) as Hk'
    by by rewrite Hp.
  rewrite Unmarshal_Marshal by (apply (Forall_impl _ _ _ Hk'); tauto).
  destruct (Z.ltb_spec maxDownloadOptionKeys (Z.of_nat (length (sortStrings (explicitKeys o))))) as [Hl|_].
  { rewrite (Permutation_length Hp) in Hl. lia. }
  rewrite (proj2 (first_error_ok _ _)).
  - cbn. do 2 f_equal. apply set_eq. intros k. by rewrite !elem_of_list_to_set, Hp.
  - apply (Forall_impl _ _ _ Hk'). intros k [_ H]. by rewrite H.
Qed.

(** The entries the snapshot adds. *)
Lemma sessionOptions_state (d : Download) :
  sessionOptions d !! "gid" = Some (RStr (d_gid d))
  /\ sessionOptions d !! "pause" = Some (RStr (if bool_decide (d_status d = StatusPaused) then "true" else "false"))
  /\ sessionOptions d !! sessionExplicitOptionsOption = Some (RStr (encodeSessionExplicitOptions (d_options d)))
  /\ sessionOptions d !! sessionTorrentFinalizedOption
     = if bool_decide (d_kind d = downloadKindTorrent) && negb (bool_decide (d_torrentFinalized d = ∅))
       then Some (RStr (encodeSessionTorrentFinalizedIndexes (d_torrentFinalized d))) else None.
Proof.
  unfold sessionOptions. cbv zeta. split_and!.
  - rewrite lookup_insert_ne, lookup_delete_ne by done. apply lookup_insert_eq.
  - apply lookup_insert_eq.
  - rewrite lookup_insert_ne, lookup_delete_ne, lookup_insert_ne by done.
    destruct (_ && _); rewrite ?lookup_insert_ne by done; apply lookup_insert_eq.
  - rewrite lookup_insert_ne, lookup_delete_ne, lookup_insert_ne by done.
    destruct (_ && _); [apply lookup_insert_eq|]. rewrite lookup_insert_ne, lookup_delete_ne by done. apply lookup_delete_eq.
Qed.

Lemma itemEntries_text (d : Download) (k v : string) :
  sessionOptions d !! k = Some (RStr v) -> itemEntries d !! k = Some (VStr v).
Proof. intros H. unfold itemEntries, readOptions. by rewrite lookup_omap, H. Qed.

Lemma restored_text (d : Download) (explicit : gset string) (k v : string) :
  private_key k = false -> sessionOptions d !! k = Some (RStr v) ->
  optionValue (restoreSessionOptionLayers (publicEntries d) explicit) k = (VStr v, true).
Proof.
  intros Hp H. rewrite (proj1 (restored_lookup _ _ k Hp)), publicEntries_lookup by done.
  by rewrite (itemEntries_text d k v H).
Qed.

Lemma optionExplicit_own (o : Options) (k : string) :
  private_key k = false -> optionExplicit o k = bool_decide (is_Some (own o !! k)).
Proof.
  intros Hp. unfold optionExplicit. assert (String.eqb k optionBaseKey = false) as ->.
  { unfold private_key in Hp. by destruct (String.eqb k optionBaseKey). }
  by destruct (own o !! k).
Qed.

Lemma optionExplicit_plain (m : gmap string oval) (k : string) :
  optionExplicit (PlainOptions m) k = bool_decide (is_Some (m !! k)).
Proof. unfold optionExplicit. cbn [own obase]. destruct (m !! k); [done|]. by rewrite andb_false_r. Qed.

Lemma absent_not_own (o : Options) (k : string) (v : oval) :
  storable o -> optionValue o k = (v, false) -> own o !! k = None.
Proof.
  intros Hst Ho. destruct (own o !! k) as [u|] eqn:E; [|done]. rewrite (optionValue_own _ _ _ E) in Ho.
  apply storable_no_nil in Hst. destruct o; cbn in Hst, E; destruct Hst as [Hst _]; specialize (Hst k u E); by destruct u.
Qed.

(** An ordinary option after a restore. *)
Lemma restored_ordinary (d : Download) (k : string) :
  storable (d_options d) -> ordinary k = true ->
  let merged := restoreSessionOptionLayers (publicEntries d) (list_to_set (explicitKeys (d_options d))) in
  optionString merged k = optionString (d_options d) k
  /\ optionStringList merged k = optionStringList (d_options d) k
  /\ optionPresent merged k = optionPresent (d_options d) k
  /\ optionExplicit merged k = optionExplicit (d_options d) k.
Proof.
  intros Hst Ho. cbv zeta. set (explicit := list_to_set (explicitKeys (d_options d))).
  set (merged := restoreSessionOptionLayers (publicEntries d) explicit).
  assert (private_key k = false /\ state_key k = false) as [Hp Hs].
  { unfold ordinary in Ho. by destruct (private_key k), (state_key k). }
  destruct (restored_lookup (publicEntries d) explicit k Hp) as [Hv He]. fold merged in Hv, He.
  rewrite publicEntries_lookup in Hv, He by done. unfold itemEntries, readOptions in Hv, He.
  rewrite lookup_omap, sessionOptions_ordinary, optionsForRPC_lookup in Hv, He by (done || by apply storable_no_nil).
  assert (k ∈ explicit <-> is_Some (own (d_options d) !! k)) as Hin.
  { unfold explicit. rewrite elem_of_list_to_set, explicitKeys_elem. tauto. }
  rewrite (optionExplicit_own (d_options d)) by done.
  destruct (optionValue (d_options d) k) as [v ok] eqn:Eo. destruct ok; cbn [fst snd mbind option_bind] in Hv, He.
  - pose proof (storable_lookup _ k Hst) as Hsv. rewrite Eo in Hsv. specialize (Hsv eq_refl).
    destruct (readback_storable v Hsv) as (w & Hw & Hnw & Hwn & Hsame). rewrite Hw in Hv, He. rewrite Hnw in Hv.
    assert (optionValue merged k = (w, true)) as Hm by (rewrite Hv; by destruct w).
    destruct (Hsame (d_options d) merged k Eo Hm) as [-> ->]. split_and!; [done..| |].
    + unfold optionPresent. by rewrite Hm, Eo.
    + rewrite He, Hs. by apply bool_decide_ext.
  - unfold optionString, optionStringList, optionPresent. rewrite Hv, Eo. split_and!; [done..|].
    rewrite He, (absent_not_own _ _ _ Hst Eo). done.
Qed.

(** C15: the options of a download survive a save and a restore: from the options an
    entry is written with, the restored layers read every ordinary option as before, in
    the same layer (set for the download, or inherited from the frozen base), and the
    gid, the paused state and the finalized files of the torrent come back. *)
Theorem session_restores_download_state (d : Download) :
  storable (d_options d) ->
  Forall (fun k => ascii_text k = true /\ invalidOptionKey k = false) (explicitKeys (d_options d)) ->
  Z.of_nat (length (explicitKeys (d_options d))) <= maxDownloadOptionKeys ->
  set_Forall (fun i => 1 <= i <= max_int64) (d_torrentFinalized d) ->
  let opts := PlainOptions (itemEntries d) in
  let explicit := list_to_set (explicitKeys (d_options d)) in
  let merged := restoreSessionOptionLayers (publicEntries d) explicit in
  parseSessionExplicitOptions (deleteOption sessionTorrentFinalizedOption opts) = Ok (Some explicit)
  /\ parseSessionTorrentFinalizedIndexes opts
     = Ok (if bool_decide (d_kind d = downloadKindTorrent /\ d_torrentFinalized d <> ∅)
           then Some (d_torrentFinalized d) else None)
  /\ optionString merged "gid" = d_gid d
  /\ optionBool merged "pause" = bool_decide (d_status d = StatusPaused)
  /\ forall k, ordinary k = true ->
       optionString merged k = optionString (d_options d) k
       /\ optionStringList merged k = optionStringList (d_options d) k
       /\ optionPresent merged k = optionPresent (d_options d) k
       /\ optionExplicit merged k = optionExplicit (d_options d) k.
Proof.
  intros Hst Hk Hn Hf. cbv zeta. destruct (sessionOptions_state d) as (Hgid & Hpause & Hexpl & Hfin). split_and!.
  - apply explicit_codec; [done..|]. unfold deleteOption. cbn [own with_own]. rewrite lookup_delete_ne by done.
    by apply itemEntries_text.
  - destruct (decide (d_kind d = downloadKindTorrent /\ d_torrentFinalized d <> ∅)) as [Hb|Hb].
    + rewrite bool_decide_eq_true_2 by done. destruct Hb as [Hkind Hne]. apply finalized_codec; [done..|].
      cbn [own]. apply itemEntries_text.
      rewrite Hfin. by repeat case_bool_decide.
    + rewrite bool_decide_eq_false_2 by done. unfold parseSessionTorrentFinalizedIndexes.
      rewrite optionExplicit_plain.
      assert (itemEntries d !! sessionTorrentFinalizedOption = None) as ->; [|done].
      unfold itemEntries, readOptions. rewrite lookup_omap, Hfin.
      case_bool_decide as H1; case_bool_decide as H2; try done. exfalso. by apply Hb.
  - unfold optionString. by rewrite (restored_text d _ "gid" (d_gid d)).
  - unfold optionBool, optionString. rewrite (restored_text d _ "pause" _ eq_refl Hpause).
    by destruct (bool_decide (d_status d = StatusPaused)).
  - intros k Ho. by apply restored_ordinary.
Qed.

Definition demoSaved : Download :=
  newDownload "0123456789abcdef" ["http://h/a"]
    (layerOptions (PlainOptions {["dir" := VStr "/d"; "split" := VStr "5"]})
       (PlainOptions {["split" := VStr "8"; "header" := VStrs ["A: b"; "C: d"]]})) 7
    <| d_status := StatusPaused |>.

Lemma session_restores_download_state_witness :
  let merged := restoreSessionOptionLayers (publicEntries demoSaved) (list_to_set (explicitKeys (d_options demoSaved))) in
  optionBool merged "pause" = true
  /\ optionStringList merged "header" = optionStringList (d_options demoSaved) "header"
  /\ optionExplicit merged "dir" = optionExplicit (d_options demoSaved) "dir".
Proof.
  destruct (session_restores_download_state demoSaved) as (_ & _ & _ & Hp & Ho).
  - split; [|split; [|done]]; apply (bool_decide_unpack _); by vm_compute.
  - assert (forallb (fun k => ascii_text k && negb (invalidOptionKey k)) (explicitKeys (d_options demoSaved)) = true) as H by by vm_compute.
    rewrite forallb_forall in H. apply Forall_forall. intros k Hk. apply list_elem_of_In, H, andb_true_iff in Hk as [? ?%negb_true_iff].
    done.
  - by vm_compute.
  - intros i Hi. by apply elem_of_empty in Hi.
  - cbv zeta. split; [exact Hp|]. split; [apply (Ho "header" eq_refl)|apply (Ho "dir" eq_refl)].
Defined.
