(* ===== verification/SessionQueue.v ===== *)
(** * Queued saves of the session ([session.go], [Engine.Close])

    A change of a live torrent queues a save that a timer makes later; an operation
    cancels what is queued and saves at once; closing the engine refuses further saves,
    waits for the callbacks that have begun and saves for the last time.  Every critical
    section is one event, and events interleave in any order.  What a save writes is the
    version of the engine's state its snapshot saw: [SaveSession] takes the snapshot and
    writes it under one lock. *)
From S2P Require Import Prelude.

(** ** State *)

(** The fields of the queue; [sq_live] are the timers that run, [sq_fired] the callbacks
    before their critical section, [sq_saving] those that are going to save, [sq_wg] the
    wait group, [sq_direct] the operations that have cancelled the queue and not yet
    saved.  The versions are of the engine's state: now, in the file, of the last snapshot
    and of the last state whose save was queued. *)
Record saveQueue := mkQueue {
  sq_closed : bool; sq_pending : bool; sq_timer : option nat;
  sq_live : gset nat; sq_fired : gset nat; sq_saving : gset nat; sq_wg : Z; sq_next : nat;
  sq_direct : nat; sq_final : bool;
  sq_version : Z; sq_file : Z; sq_tried : Z; sq_requested : Z
}.
#[global] Instance eta_saveQueue : Eta saveQueue := fun q =>
  mkQueue (sq_closed q) (sq_pending q) (sq_timer q) (sq_live q) (sq_fired q) (sq_saving q) (sq_wg q) (sq_next q)
    (sq_direct q) (sq_final q) (sq_version q) (sq_file q) (sq_tried q) (sq_requested q).

Definition newSaveQueue : saveQueue := mkQueue false false None ∅ ∅ ∅ 0 0 0 false 0 0 0 0.

(** ** Critical sections *)

(** [saveSessionIfConfigured]; [ok] says that the write succeeds. *)
Definition saveSessionIfConfigured (configured ok : bool) (q : saveQueue) : saveQueue :=
  if negb configured then q
  else (if ok then q <| sq_file := sq_version q |> else q) <| sq_tried := sq_version q |>.

(** [queueSessionSaveBestEffort] *)
Definition queueSessionSave (configured : bool) (q : saveQueue) : saveQueue :=
  if negb configured then q
  else if sq_closed q then q
  else
    let q := q <| sq_requested := sq_version q |> in
    if sq_pending q then q
    else
      let timer := sq_next q in
      q <| sq_pending := true |> <| sq_timer := Some timer |> <| sq_live ::= union {[timer]} |>
        <| sq_wg ::= Z.add 1 |> <| sq_next ::= S |>.

(** The timer's callback, up to the end of its critical section. *)
Definition enterCallback (timer : nat) (q : saveQueue) : saveQueue :=
  let q := if decide (sq_timer q = Some timer) then q <| sq_pending := false |> <| sq_timer := None |> else q in
  let q := q <| sq_fired ::= fun s => s ∖ {[timer]} |> in
  if sq_closed q then q <| sq_wg ::= Z.add (-1) |> else q <| sq_saving ::= union {[timer]} |>.

(** Stopping the timer, as [cancelQueuedSessionSave] and [closeQueuedSessionSaves] do. *)
Definition stopTimer (q : saveQueue) : saveQueue :=
  match sq_timer q with
  | Some timer =>
      let q := if decide (timer ∈ sq_live q)
               then q <| sq_live ::= fun s => s ∖ {[timer]} |> <| sq_wg ::= Z.add (-1) |> else q in
      q <| sq_timer := None |>
  | None => q
  end <| sq_pending := false |>.

Definition cancelQueuedSessionSave (q : saveQueue) : saveQueue := stopTimer q.

Definition closeQueuedSessionSaves (q : saveQueue) : saveQueue := stopTimer (q <| sq_closed := true |>).

(** ** Events *)

Inductive queueEvent :=
| QChange                        (* the engine's state changes *)
| QQueue                         (* [queueSessionSaveBestEffort] *)
| QFire (timer : nat)            (* the time has come *)
| QEnter (timer : nat)
| QSave (timer : nat) (ok : bool)
| QCancel                        (* [saveSessionBestEffort]: its cancellation *)
| QDirect (ok : bool)            (* and its save *)
| QClose                         (* [Engine.Close]: [closeQueuedSessionSaves] up to its wait *)
| QFinal (ok : bool).            (* the wait is over: the last save *)

(** [None] when the event cannot happen. *)
Definition queueStep (configured : bool) (q : saveQueue) (ev : queueEvent) : option saveQueue :=
  match ev with
  | QChange => Some (q <| sq_version ::= Z.add 1 |>)
  | QQueue => Some (queueSessionSave configured q)
  | QFire timer =>
      if decide (timer ∈ sq_live q)
      then Some (q <| sq_live ::= fun s => s ∖ {[timer]} |> <| sq_fired ::= union {[timer]} |>) else None
  | QEnter timer => if decide (timer ∈ sq_fired q) then Some (enterCallback timer q) else None
  | QSave timer ok =>
      if decide (timer ∈ sq_saving q)
      then Some (saveSessionIfConfigured configured ok q <| sq_saving ::= fun s => s ∖ {[timer]} |> <| sq_wg ::= Z.add (-1) |>)
      else None
  | QCancel => Some (cancelQueuedSessionSave q <| sq_direct ::= S |>)
  | QDirect ok =>
      match sq_direct q with O => None | S n => Some (saveSessionIfConfigured configured ok q <| sq_direct := n |>) end
  | QClose => if sq_closed q then None else Some (closeQueuedSessionSaves q)
  | QFinal ok =>
      if sq_closed q && (sq_wg q =? 0) && negb (sq_final q)
      then Some (saveSessionIfConfigured configured ok q <| sq_final := true |>) else None
  end.

Fixpoint queueRun (configured : bool) (q : saveQueue) (events : list queueEvent) : option saveQueue :=
  match events with
  | [] => Some q
  | ev :: events => match queueStep configured q ev with Some q => queueRun configured q events | None => None end
  end.

(** ** Lemmas: runs *)

Lemma queueRun_app (configured : bool) (q : saveQueue) (l1 l2 : list queueEvent) :
  queueRun configured q (l1 ++ l2) = match queueRun configured q l1 with Some q => queueRun configured q l2 | None => None end.
Proof. revert q. induction l1 as [|ev l1 IH]; intros q; [done|]. cbn. by destruct (queueStep configured q ev). Qed.

Lemma queueRun_ind (configured : bool) (P : saveQueue -> Prop) :
  (forall q ev q', P q -> queueStep configured q ev = Some q' -> P q') ->
  forall events q q', P q -> queueRun configured q events = Some q' -> P q'.
Proof.
  intros Hstep. induction events as [|ev events IH]; intros q q' Hq H; cbn in H; [by injection H as <-|].
  destruct (queueStep configured q ev) as [q1|] eqn:E; [|done]. by eapply IH; [eapply Hstep|].
Qed.

(** ** The invariant *)

Record queue_ok (q : saveQueue) : Prop := {
  qo_wg : sq_wg q = Z.of_nat (size (sq_live q) + size (sq_fired q) + size (sq_saving q));
  qo_pending : sq_pending q = true <-> sq_timer q <> None;
  qo_live : forall t, t ∈ sq_live q -> sq_timer q = Some t;
  qo_timer : forall t, sq_timer q = Some t -> t ∈ sq_live q \/ t ∈ sq_fired q;
  qo_next : forall t, t ∈ sq_live q ∪ sq_fired q ∪ sq_saving q -> (t < sq_next q)%nat;
  qo_apart : sq_live q ## sq_fired q /\ sq_live q ## sq_saving q /\ sq_fired q ## sq_saving q;
  qo_closed : sq_closed q = true -> sq_timer q = None;
  qo_final : sq_final q = true -> sq_closed q = true /\ sq_wg q = 0
}.

Record versions_ok (q : saveQueue) : Prop := {
  vo_file : sq_file q <= sq_tried q <= sq_version q;
  vo_requested : 0 <= sq_requested q <= sq_version q;
  vo_covered : sq_closed q = false ->
    sq_requested q <= sq_tried q \/ sq_live q ∪ sq_fired q ∪ sq_saving q <> ∅ \/ sq_direct q <> O
}.

Lemma size_remove (t : nat) (s : gset nat) : t ∈ s -> Z.of_nat (size (s ∖ {[t]})) = Z.of_nat (size s) - 1.
Proof.
  intros Ht. rewrite size_difference by set_solver. rewrite size_singleton.
  assert (size s <> O) by (intros E%size_empty_inv; set_solver). lia.
Qed.

Lemma size_add (t : nat) (s : gset nat) : t ∉ s -> Z.of_nat (size ({[t]} ∪ s)) = Z.of_nat (size s) + 1.
Proof. intros Ht. rewrite size_union, size_singleton by set_solver. lia. Qed.

Lemma newSaveQueue_ok : queue_ok newSaveQueue.
Proof. split; cbn; try done; set_solver. Qed.

Lemma save_frame (configured ok : bool) (q : saveQueue) : queue_ok q -> queue_ok (saveSessionIfConfigured configured ok q).
Proof. intros []. unfold saveSessionIfConfigured. destruct configured, ok; by split. Qed.

Lemma stopTimer_ok (q : saveQueue) : queue_ok q -> queue_ok (stopTimer q) /\ sq_timer (stopTimer q) = None /\ sq_live (stopTimer q) = ∅.
Proof.
  intros [H1 H2 H3 H4 H5 H6 H7 H8]. destruct q as [closed pending timer live fired saving wg next direct final v f tr rq]. cbn in *.
  unfold stopTimer. cbn. destruct timer as [t|]; cbn.
  - destruct (decide (t ∈ live)) as [Ht|Ht]; cbn.
    + assert (live ∖ {[t]} = ∅) as El by (apply set_eq; intros x; split; [intros [Hx ?]%elem_of_difference; specialize (H3 x Hx); set_solver|set_solver]).
      split; [|by split]. pose proof (size_remove t live Ht) as Hs. rewrite El in *.
      assert (size (∅ : gset nat) = O) as E0 by apply size_empty. rewrite E0 in Hs.
      split; cbn; try done; rewrite ?El, ?E0; [lia|set_solver|set_solver|set_solver|].
      intros [? ?]%H8. split; [done|]. lia.
    + assert (live = ∅) as -> by (apply set_eq; intros x; split; [intros Hx; specialize (H3 x Hx); set_solver|set_solver]).
      split; [|by split]. split; cbn; try done. 
  - assert (live = ∅) as -> by (apply set_eq; intros x; split; [intros Hx; by specialize (H3 x Hx)|set_solver]).
    split; [|by split]. split; cbn; try done.
Qed.

Section queue.
Context (configured : bool).

Lemma queueSession_ok (q : saveQueue) : queue_ok q -> queue_ok (queueSessionSave configured q).
Proof.
  intros H. unfold queueSessionSave. destruct configured; cbn [negb]; [|done]. destruct (sq_closed q) eqn:Ec; [done|].
  assert (queue_ok (q <| sq_requested := sq_version q |>)) as H' by (destruct H; by split).
  cbv zeta. destruct (sq_pending (q <| sq_requested := sq_version q |>)) eqn:Ep; [done|]. clear H.
  destruct H' as [H1 H2 H3 H4 H5 H6 H7 H8].
  destruct q as [closed pending timer live fired saving wg next direct final v f tr rq]. cbn in *. subst.
  assert (timer = None) as -> by (destruct timer as [t|]; [assert (false = true) as E by (by apply H2); discriminate E|done]).
  assert (next ∉ live ∪ fired ∪ saving) as Hn by (intros Hin; specialize (H5 _ Hin); lia).
  assert (live = ∅) as -> by (apply set_eq; intros x; split; [intros Hx; by specialize (H3 x Hx)|set_solver]).
  split; cbn.
  - rewrite !Nat2Z.inj_add, size_add by set_solver. rewrite size_empty. rewrite size_empty in *. lia.
  - split; [done|done].
  - set_solver.
  - intros t [= <-]. set_solver.
  - intros t Ht. destruct (decide (t = next)) as [->|]; [lia|]. assert (t < next)%nat; [apply H5; set_solver|lia].
  - set_solver.
  - done.
  - intros Hf. by destruct (H8 Hf).
Qed.

Lemma enter_ok (t : nat) (q : saveQueue) : queue_ok q -> t ∈ sq_fired q -> queue_ok (enterCallback t q).
Proof.
  intros [H1 H2 H3 H4 H5 H6 H7 H8] Ht. unfold enterCallback.
  destruct q as [closed pending timer live fired saving wg next direct final v f tr rq]. cbn in *. cbv zeta.
  pose proof (size_remove t fired Ht) as Hs. destruct H6 as (A1 & A2 & A3).
  assert (t ∉ saving) as Hsv by set_solver. pose proof (size_add t saving Hsv) as Ha.
  assert (size fired <> O) as Hf by (intros E%size_empty_inv; set_solver).
  assert (final = false) as -> by (destruct final; [destruct (H8 eq_refl); lia|done]).
  destruct (decide (timer = Some t)) as [->|Hne]; cbn.
  - assert (live = ∅) as -> by (apply set_eq; intros x; split; [intros Hx; specialize (H3 x Hx); set_solver|set_solver]).
    destruct closed; cbn; (split; cbn; [lia|done|set_solver|done|set_solver|set_solver|done|done]).
  - destruct closed; cbn; (split; cbn; [lia|done|done| |set_solver|set_solver|done|done]);
      intros x Hx; (destruct (H4 x Hx); [by left|right; set_solver]).
Qed.

Lemma queueStep_ok (q : saveQueue) (ev : queueEvent) (q' : saveQueue) :
  queue_ok q -> queueStep configured q ev = Some q' -> queue_ok q'.
Proof.
  intros Hq. destruct ev as [| |t|t|t ok| |ok| |ok]; cbn [queueStep].
  - intros [= <-]. destruct Hq. by split.
  - intros [= <-]. by apply queueSession_ok.
  - destruct (decide (t ∈ sq_live q)) as [Ht|]; [|done]. intros [= <-]. destruct Hq as [H1 H2 H3 H4 H5 (A1 & A2 & A3) H7 H8].
    destruct q as [closed pending timer live fired saving wg next direct final v f tr rq]. cbn in *.
    pose proof (size_remove t live Ht). assert (t ∉ fired) as Hf by set_solver. pose proof (size_add t fired Hf).
    split; cbn; [lia|done|set_solver| |set_solver|set_solver|done|done].
    intros x Hx. destruct (H4 x Hx); [|set_solver]. destruct (decide (x = t)); set_solver.
  - destruct (decide (t ∈ sq_fired q)) as [Ht|]; [|done]. intros [= <-]. by apply enter_ok.
  - destruct (decide (t ∈ sq_saving q)) as [Ht|]; [|done]. intros [= <-].
    assert (sq_saving (saveSessionIfConfigured configured ok q) = sq_saving q) as Es by (unfold saveSessionIfConfigured; by destruct configured, ok).
    rewrite <- Es in Ht. apply (save_frame configured ok) in Hq. clear Es. destruct Hq as [H1 H2 H3 H4 H5 (A1 & A2 & A3) H7 H8].
    destruct (saveSessionIfConfigured configured ok q) as [closed pending timer live fired saving wg next direct final v f tr rq]. cbn in *.
    pose proof (size_remove t saving Ht). assert (size saving <> O) as Hf by (intros E%size_empty_inv; set_solver).
    split; cbn; [lia|done|set_solver|done|set_solver|set_solver|done|].
    intros Hfin. destruct (H8 Hfin). lia.
  - intros [= <-]. apply stopTimer_ok in Hq as (Hq & _). destruct Hq. by split.
  - destruct (sq_direct q) as [|n]; [done|]. intros [= <-]. apply (save_frame configured ok) in Hq. destruct Hq. by split.
  - destruct (sq_closed q) eqn:Ec; [done|]. intros [= <-]. unfold closeQueuedSessionSaves, stopTimer.
    pose proof (stopTimer_ok q Hq) as ([H1 H2 H3 H4 H5 H6 H7 H8] & Ht & Hl). unfold stopTimer in *.
    destruct q as [closed pending timer live fired saving wg next direct final v f tr rq]. cbn in *. subst closed.
    destruct timer as [t|]; cbn in *; [destruct (decide (t ∈ live)); cbn in *|]; split; cbn; try done; by intros Hf; destruct (H8 Hf).
  - destruct (_ && _ && _) eqn:E; [|done]. intros [= <-]. apply andb_true_iff in E as [[Ec Ew%Z.eqb_eq]%andb_true_iff _].
    assert (sq_closed (saveSessionIfConfigured configured ok q) = true /\ sq_wg (saveSessionIfConfigured configured ok q) = 0) as Hc
      by (unfold saveSessionIfConfigured; by destruct configured, ok).
    apply (save_frame configured ok) in Hq. destruct Hq. by split.
Qed.

Lemma queueRun_ok (events : list queueEvent) (q : saveQueue) :
  queueRun configured newSaveQueue events = Some q -> queue_ok q.
Proof. apply (queueRun_ind configured queue_ok queueStep_ok). apply newSaveQueue_ok. Qed.
End queue.

(** ** Versions *)

Lemma stop_versions (q : saveQueue) :
  sq_version (stopTimer q) = sq_version q /\ sq_file (stopTimer q) = sq_file q /\ sq_tried (stopTimer q) = sq_tried q
  /\ sq_requested (stopTimer q) = sq_requested q /\ sq_closed (stopTimer q) = sq_closed q
  /\ sq_fired (stopTimer q) = sq_fired q /\ sq_saving (stopTimer q) = sq_saving q /\ sq_direct (stopTimer q) = sq_direct q
  /\ sq_final (stopTimer q) = sq_final q.
Proof. destruct q as [closed pending [t|]]; cbn; unfold stopTimer; cbn; [destruct (decide _)|]; cbn; by split_and!. Qed.

Lemma enter_versions (t : nat) (q : saveQueue) :
  sq_version (enterCallback t q) = sq_version q /\ sq_file (enterCallback t q) = sq_file q /\ sq_tried (enterCallback t q) = sq_tried q
  /\ sq_requested (enterCallback t q) = sq_requested q /\ sq_closed (enterCallback t q) = sq_closed q
  /\ (sq_closed q = false -> t ∈ sq_saving (enterCallback t q)).
Proof.
  destruct q as [closed pending timer]. unfold enterCallback. cbn. destruct (decide (timer = Some t)), closed; cbn; split_and!; try done; set_solver.
Qed.

Lemma queueStep_versions (q : saveQueue) (ev : queueEvent) (q' : saveQueue) :
  queue_ok q -> versions_ok q -> queueStep true q ev = Some q' -> versions_ok q' /\ sq_file q <= sq_file q'.
Proof.
  intros Hq [H1 H2 H3]. destruct ev as [| |t|t|t ok| |ok| |ok]; cbn [queueStep].
  - intros [= <-]. split; [split; cbn|cbn]; [lia|lia|done|lia].
  - intros [= <-]. unfold queueSessionSave. cbn [negb]. destruct (sq_closed q) eqn:Ec; [split; [split; [done|done|by rewrite Ec]|lia]|]. cbv zeta.
    destruct (sq_pending (q <| sq_requested := sq_version q |>)) eqn:Ep.
    + split; [split; cbn|cbn]; [lia|lia| |lia]. intros _. right. left.
      destruct (sq_timer q) as [t|] eqn:Et; [|by apply (qo_pending q Hq) in Ep]. destruct (qo_timer q Hq t Et); set_solver.
    + split; [split; cbn|cbn]; [lia|lia| |lia]. intros _. right. left. set_solver.
  - destruct (decide (t ∈ sq_live q)); [|done]. intros [= <-]. split; [split; cbn|cbn]; [lia|lia| |lia].
    intros _. right. left. set_solver.
  - destruct (decide (t ∈ sq_fired q)); [|done]. intros [= <-]. destruct (enter_versions t q) as (E1 & E2 & E3 & E4 & E5 & E6).
    split; [split; rewrite ?E1, ?E2, ?E3, ?E4, ?E5|rewrite E2]; [lia|lia| |lia]. intros Hc. right. left. specialize (E6 Hc). set_solver.
  - destruct (decide (t ∈ sq_saving q)); [|done]. intros [= <-].
    destruct ok; (split; [split; cbn|cbn]; [lia|lia|intros _; left; lia|lia]).
  - intros [= <-]. destruct (stop_versions q) as (E1 & E2 & E3 & E4 & E5 & _). unfold cancelQueuedSessionSave.
    set (q1 := stopTimer q) in *. clearbody q1.
    split; [split; cbn; rewrite ?E1, ?E2, ?E3, ?E4, ?E5|cbn; rewrite E2]; [lia|lia| |lia]. intros _. by right; right.
  - destruct (sq_direct q) as [|n]; [done|]. intros [= <-].
    destruct ok; (split; [split; cbn|cbn]; [lia|lia|intros _; left; lia|lia]).
  - destruct (sq_closed q) eqn:Ec; [done|]. intros [= <-]. unfold closeQueuedSessionSaves.
    destruct (stop_versions (q <| sq_closed := true |>)) as (E1 & E2 & E3 & E4 & E5 & _).
    split; [split; rewrite ?E1, ?E2, ?E3, ?E4, ?E5; cbn|rewrite E2; cbn]; [lia|lia|done|lia].
  - destruct (_ && _ && _); [|done]. intros [= <-].
    destruct ok; (split; [split; cbn|cbn]; [lia|lia|intros _; left; lia|lia]).
Qed.

Lemma queueRun_versions (events : list queueEvent) (q q' : saveQueue) :
  queue_ok q -> versions_ok q -> queueRun true q events = Some q' -> versions_ok q' /\ sq_file q <= sq_file q'.
Proof.
  revert q. induction events as [|ev events IH]; intros q Hq Hv H; cbn [queueRun] in H; [injection H as <-; by split|].
  destruct (queueStep true q ev) as [q1|] eqn:E; [|done]. destruct (queueStep_versions q ev q1 Hq Hv E) as [Hv1 Hf1].
  destruct (IH q1) as [Hv2 Hf2]; [by eapply queueStep_ok|done|done|]. split; [done|lia].
Qed.

Lemma newSaveQueue_versions : versions_ok newSaveQueue.
Proof. split; cbn; [lia|lia|]. intros _. left. lia. Qed.


(** ** Closing *)

(** An event of a timer or of its callback. *)
Definition timerEvent (ev : queueEvent) : bool :=
  match ev with QFire _ | QEnter _ | QSave _ _ => true | _ => false end.
Definition operationEvent (ev : queueEvent) : bool :=
  match ev with QCancel | QDirect _ => true | _ => false end.

Lemma ok_empty (q : saveQueue) : queue_ok q -> sq_wg q = 0 -> sq_live q = ∅ /\ sq_fired q = ∅ /\ sq_saving q = ∅.
Proof. intros [H1 _ _ _ _ _ _ _] Hw. split_and!; apply leibniz_equiv, size_empty_inv; lia. Qed.

Definition queueFinished (q : saveQueue) : Prop := sq_closed q = true /\ sq_final q = true /\ sq_wg q = 0.

Lemma queueFinished_step (configured : bool) (q : saveQueue) (ev : queueEvent) (q' : saveQueue) :
  queue_ok q -> queueFinished q -> operationEvent ev = false -> queueStep configured q ev = Some q' ->
  timerEvent ev = false /\ queueFinished q' /\ sq_file q' = sq_file q.
Proof.
  intros Hq (Hc & Hf & Hw) Hop H. destruct (ok_empty q Hq Hw) as (E1 & E2 & E3).
  destruct ev as [| |t|t|t ok| |ok| |ok]; try discriminate Hop; cbn [queueStep] in H; rewrite ?E1, ?E2, ?E3, ?Hc, ?Hf, ?andb_false_r in H.
  - injection H as <-. done.
  - injection H as <-. unfold queueSessionSave. rewrite Hc. by destruct configured.
  - by destruct (decide (t ∈ ∅)); [set_solver|].
  - by destruct (decide (t ∈ ∅)); [set_solver|].
  - by destruct (decide (t ∈ ∅)); [set_solver|].
  - done.
  - done.
Qed.

Lemma queueFinished_run (configured : bool) (events : list queueEvent) (q q' : saveQueue) :
  queue_ok q -> queueFinished q -> forallb (fun ev => negb (operationEvent ev)) events = true -> queueRun configured q events = Some q' ->
  forallb (fun ev => negb (timerEvent ev)) events = true /\ sq_file q' = sq_file q.
Proof.
  revert q. induction events as [|ev events IH]; intros q Hq Hf Hop H; cbn [queueRun] in H; [by injection H as <-|].
  cbn [forallb] in *. apply andb_true_iff in Hop as [Hev%negb_true_iff Hop]. destruct (queueStep configured q ev) as [q1|] eqn:E; [|done].
  destruct (queueFinished_step configured q ev q1 Hq Hf Hev E) as (Ht & Hf1 & Ef). rewrite Ht, <- Ef. apply IH; [by eapply queueStep_ok|done..].
Qed.

(** Once the engine has closed, no timer or callback of a queued save runs any more,
    and the session file stays as the last save left it, which is the engine's state at
    that time when the save succeeded. *)
Theorem closed_session_stays (before after : list queueEvent) (ok : bool) (q q1 q' : saveQueue) :
  queueRun true newSaveQueue before = Some q -> queueStep true q (QFinal ok) = Some q1 -> queueRun true q1 after = Some q' ->
  forallb (fun ev => negb (operationEvent ev)) after = true ->
  forallb (fun ev => negb (timerEvent ev)) after = true /\ sq_file q' = sq_file q1 /\ (ok = true -> sq_file q' = sq_version q).
Proof.
  intros H1 H2 H3 Hop. pose proof (queueRun_ok true before q H1) as Hq. pose proof (queueStep_ok true q _ q1 Hq H2) as Hq1.
  cbn [queueStep] in H2. destruct (_ && _ && _) eqn:E; [|done]. injection H2 as H2. apply andb_true_iff in E as [[Ec Ew%Z.eqb_eq]%andb_true_iff _].
  assert (queueFinished q1) as Hf by (subst q1; unfold queueFinished, saveSessionIfConfigured; by destruct ok).
  destruct (queueFinished_run true after q1 q' Hq1 Hf Hop H3) as [Ht Ef]. split_and!; [done|done|]. intros ->. rewrite Ef. by subst q1.
Qed.

(** Closing waits only for callbacks that have begun: each of them can go on, and when
    none is left the wait is over. *)
Theorem close_wait_ends (events : list queueEvent) (q : saveQueue) :
  queueRun true newSaveQueue events = Some q -> sq_closed q = true -> sq_final q = false ->
  (exists ev q', timerEvent ev = true /\ queueStep true q ev = Some q'
     /\ (2 * size (sq_fired q') + size (sq_saving q') < 2 * size (sq_fired q) + size (sq_saving q))%nat)
  \/ exists q', queueStep true q (QFinal true) = Some q'.
Proof.
  intros H%queueRun_ok Hc Hf. assert (sq_live q = ∅) as Hl.
  { apply set_eq. intros t. split; [|set_solver]. intros Ht%(qo_live q H). by rewrite (qo_closed q H Hc) in Ht. }
  destruct (set_choose_or_empty (sq_fired q)) as [[t Ht]|Ef].
  { left. exists (QEnter t). cbn [queueStep]. rewrite decide_True by done. eexists. split_and!; [done|done|].
    unfold enterCallback. rewrite (qo_closed q H Hc). rewrite decide_False by done. cbv zeta. cbn [sq_closed set]. 
    change (sq_closed (q <| sq_fired ::= _ |>)) with (sq_closed q). rewrite Hc. cbn. pose proof (size_remove t _ Ht). lia. }
  destruct (set_choose_or_empty (sq_saving q)) as [[t Ht]|Es].
  { left. exists (QSave t true). cbn [queueStep]. rewrite decide_True by done. eexists. split_and!; [done|done|].
    cbn. pose proof (size_remove t _ Ht). lia. }
  right. cbn [queueStep]. rewrite Hc, Hf. assert (sq_wg q = 0) as ->; [|eauto].
  rewrite (qo_wg q H). apply leibniz_equiv in Ef, Es. rewrite Hl, Ef, Es, !size_empty. done.
Qed.

(** ** A concrete history *)

Definition demoBefore : list queueEvent := [QChange; QQueue; QFire 0; QChange; QQueue].
Definition demoAfter : list queueEvent := [QEnter 0; QSave 0 true; QChange; QQueue; QCancel; QDirect true; QClose].
Abbreviation demoQueue := (fun events => default newSaveQueue (queueRun true newSaveQueue events)).
Abbreviation demoFinal := (default newSaveQueue (queueStep true (demoQueue (demoBefore ++ demoAfter)) (QFinal true))).


Lemma closed_session_stays_witness :
  sq_file (default newSaveQueue (queueRun true demoFinal [QChange; QQueue])) = 3.
Proof.
  refine (proj2 (proj2 (@closed_session_stays (demoBefore ++ demoAfter) [QChange; QQueue] true (demoQueue (demoBefore ++ demoAfter)) demoFinal
            (default newSaveQueue (queueRun true demoFinal [QChange; QQueue])) _ _ _ _)) eq_refl); vm_compute; reflexivity.
Defined.
