(* ===== verification/Downloader.v ===== *)
(** * Downloading over HTTP ([downloader.go])

    The decisions of a download, the rate limiter, the copy loop, one range request,
    and the loop that schedules the ranges of a segmented download.  What the network,
    the disk and the clock answer are arguments. *)
From Stdlib Require Import SpecFloat.
From S2P Require Import Prelude GoStrings GoPath GoURL Pieces Options Http Reservations Torrent State Engine Progress.

(** ** Decisions *)

Definition meetsSegmentedMinimum (length minSplit : Z) (explicit : bool) : bool :=
  if (length <=? 0) || (minSplit <? 0) || (max_int64 / 2 <? minSplit) then false
  else
    let minimum := minSplit * 2 in
    let minimum := if negb explicit && (minimum <? 8388608) then 8388608 else minimum in
    minimum <=? length.

Definition shouldDowngradeSegmentedDownload (err : option error) : bool :=
  match err with
  | Some err => match statusCodeOf err with Some status => status =? 200 | None => false end
  | None => false
  end.

Definition canUseSingleGETProbe (opts : Options) (segmentedRequested : bool) (initialConcurrency : Z) : bool :=
  if optionBool opts "dry-run" then false
  else
    let hasOut := negb (String.eqb (optionString opts "out") "") in
    let useSingleGET := hasOut || negb (optionBool opts "continue") in
    if negb segmentedRequested then useSingleGET
    else if 1 <? initialConcurrency then false
    else if optionBool opts "http-accept-gzip" then useSingleGET
    else hasOut && optionBool opts "continue".

Definition normalizeHTTPVersion (raw : string) : string :=
  let s := ToLower (TrimSpace raw) in
  if in_words s [""; "auto"] then "auto"
  else if in_words s ["1"; "1.1"; "http/1.1"; "h1"] then "1.1"
  else if in_words s ["2"; "2.0"; "http/2"; "h2"] then "2"
  else if in_words s ["3"; "3.0"; "http/3"; "h3"] then "3"
  else raw.

Definition transportOptionsForSegmented (opts : Options) : Options :=
  if negb (String.eqb (normalizeHTTPVersion (optionString opts "http-version")) "auto") then opts
  else setOption "http-version" (VStr "1.1") (cloneOptions opts).

Definition httpSegmentSize (opts : Options) (minSplit : Z) : Z :=
  let size := optionBytes opts "goaria-http-segment-size" defaultHTTPSegmentSize in
  let size := if size <=? 0 then defaultHTTPSegmentSize else size in
  if size <? minSplit then minSplit else size.

Definition canCreateSingleDestinationBeforeGET (opts : Options) (out : string) : bool :=
  negb (String.eqb out "") && optionBool opts "continue" && negb (optionBool opts "conditional-get").

Definition canRetryRangeAttempt (attempts maxTries : Z) : bool :=
  if maxTries =? 0 then true
  else let maxTries := if maxTries <? 0 then 1 else maxTries in attempts <? maxTries.

Definition isRetryableRangeError (err : error) : bool := isRetryableDownloadError err.

Definition isAdaptiveRangeThrottleError (err : error) : bool :=
  match statusCodeOf err with
  | None => false
  | Some status => (status =? 403) || (status =? 429) || ((500 <=? status) && (status <=? 599))
  end.

(** The options that apply to a running download, with the global concurrency where
    the download sets none. *)
Definition dynamicSegmentedOptionSnapshot (opts global : Options) : Options :=
  foldl (fun out key =>
      if optionExplicit out key then out
      else setOption key (normalizeOptionValue (VStr (optionString global key))) out)
    (cloneOptions opts) ["split"; "max-connection-per-server"].

Definition segmentedWorkerLimit (opts global fallback : Options) (max : Z) : Z :=
  let max := if max <? 1 then 1 else max in
  let opts := dynamicSegmentedOptionSnapshot opts global in
  let split := optionInt opts "split" (optionInt fallback "split" 1) in
  let split := if split <? 1 then 1 else split in
  let maxConn := optionInt opts "max-connection-per-server" split in
  let maxConn := if maxConn <? 1 then 1 else maxConn in
  let limit := Z.min split maxConn in
  let limit := if max <? limit then max else limit in
  if limit <? 1 then 1 else limit.

(** ** Concurrency of a segmented download *)

Record segmentedConcurrencyController := mkController {
  effectiveLimit : Z; successesAtLimit : Z; rejectedProbeLimit : Z; generation : Z
}.
#[global] Instance eta_controller : Eta segmentedConcurrencyController := fun c =>
  mkController (effectiveLimit c) (successesAtLimit c) (rejectedProbeLimit c) (generation c).

Definition adjustedCeiling (ceiling : Z) (c : segmentedConcurrencyController) : Z :=
  let ceiling := if ceiling <? 1 then 1 else ceiling in
  if (0 <? rejectedProbeLimit c) && (rejectedProbeLimit c <=? ceiling) then
    let ceiling := rejectedProbeLimit c - 1 in if ceiling <? 1 then 1 else ceiling
  else ceiling.

Definition clampCeiling (ceiling : Z) (c : segmentedConcurrencyController) : segmentedConcurrencyController :=
  let ceiling := adjustedCeiling ceiling c in
  let oldLimit := effectiveLimit c in
  let c := if effectiveLimit c <? 1 then c <| effectiveLimit := 1 |> else c in
  let c := if ceiling <? effectiveLimit c then c <| effectiveLimit := ceiling |> else c in
  if effectiveLimit c =? oldLimit then c
  else c <| successesAtLimit := 0 |> <| generation ::= fun g => g + 1 |>.

Definition newSegmentedConcurrencyController (ceiling : Z) : segmentedConcurrencyController :=
  clampCeiling ceiling (mkController 1 0 0 0).

Definition limit (c : segmentedConcurrencyController) : Z := if effectiveLimit c <? 1 then 1 else effectiveLimit c.

Definition launchState (c : segmentedConcurrencyController) : Z * Z := (limit c, generation c).

Definition onSuccess (launchLimit launchGeneration ceiling : Z) (c : segmentedConcurrencyController)
    : segmentedConcurrencyController :=
  let c := clampCeiling ceiling c in
  if negb (launchGeneration =? generation c) || negb (launchLimit =? effectiveLimit c) then c
  else
    let c := c <| successesAtLimit ::= fun n => n + 1 |> in
    if successesAtLimit c <? effectiveLimit c then c
    else
      let c := c <| successesAtLimit := 0 |> in
      let ceiling := adjustedCeiling ceiling c in
      if effectiveLimit c <? ceiling
      then c <| effectiveLimit ::= fun n => n + 1 |> <| generation ::= fun g => g + 1 |>
      else c.

Definition onThrottle (launchLimit launchGeneration ceiling : Z) (c : segmentedConcurrencyController)
    : segmentedConcurrencyController :=
  let c := clampCeiling ceiling c in
  if negb (launchGeneration =? generation c) then c
  else
    let launchLimit := if launchLimit <? 1 then limit c else launchLimit in
    let c := if (1 <? launchLimit) && ((rejectedProbeLimit c =? 0) || (launchLimit <? rejectedProbeLimit c))
             then c <| rejectedProbeLimit := launchLimit |> else c in
    let nextLimit := launchLimit - 1 in
    let nextLimit := if nextLimit <? 1 then 1 else nextLimit in
    let ceiling := adjustedCeiling ceiling c in
    let nextLimit := if ceiling <? nextLimit then ceiling else nextLimit in
    c <| effectiveLimit := nextLimit |> <| successesAtLimit := 0 |> <| generation ::= fun g => g + 1 |>.

Definition onRetryableError (launchLimit launchGeneration ceiling : Z) (c : segmentedConcurrencyController)
    : segmentedConcurrencyController :=
  let c := clampCeiling ceiling c in
  if negb (launchGeneration =? generation c) || negb (launchLimit =? effectiveLimit c) then c
  else c <| successesAtLimit := 0 |> <| generation ::= fun g => g + 1 |>.

(** ** Floating point *)

Definition float64 (z : Z) : spec_float := binary_normalize 53 1024 z 0 false.
Definition fmul : spec_float -> spec_float -> spec_float := SFmul 53 1024.
Definition fdiv : spec_float -> spec_float -> spec_float := SFdiv 53 1024.

(** The value of a non-negative float, rounded up or down; [None] is infinity. *)
Definition ceilFloat (x : spec_float) : option Z :=
  match x with
  | S754_zero _ => Some 0
  | S754_finite false m e => Some (if 0 <=? e then Z.pos m * 2 ^ e else (Z.pos m + (2 ^ (- e) - 1)) / 2 ^ (- e))
  | _ => None
  end.
Definition truncFloat (x : spec_float) : option Z :=
  match x with
  | S754_zero _ => Some 0
  | S754_finite false m e => Some (if 0 <=? e then Z.pos m * 2 ^ e else Z.pos m / 2 ^ (- e))
  | _ => None
  end.

(** The conversions saturate at [math.MaxInt64], whose [float64] is [2^63]. *)
Definition saturate (x : option Z) : Z :=
  match x with Some n => if max_int64 <? n then max_int64 else n | None => max_int64 end.

Definition second : Z := 1000000000.

Definition rateLimitDuration (n limit : Z) : Z :=
  if (n <=? 0) || (limit <=? 0) then 0
  else
    let nanoseconds := saturate (ceilFloat (fdiv (fmul (float64 n) (float64 second)) (float64 limit))) in
    if nanoseconds <? 1 then 1 else nanoseconds.

Definition bytesPerSecond (n elapsed : Z) : Z :=
  if (n <=? 0) || (elapsed <=? 0) then 0
  else saturate (truncFloat (fdiv (fmul (float64 n) (float64 second)) (float64 elapsed))).

(** ** The rate limiter *)

(** One limiter: its limit function's current value when it has one, the recorded
    limit, and the time up to which it is reserved.  A limiter and its parents are a
    list. *)
Record rateLimiter := mkLimiter { rl_limitFunc : option Z; rl_limit : Z; rl_next : Z }.
#[global] Instance eta_rateLimiter : Eta rateLimiter := fun l =>
  mkLimiter (rl_limitFunc l) (rl_limit l) (rl_next l).

Definition currentLimit (l : rateLimiter) : Z := match rl_limitFunc l with Some limit => limit | None => rl_limit l end.

Definition reservationChunk (limiters : list rateLimiter) (n : Z) : Z :=
  foldl (fun chunk l =>
      let limit := currentLimit l in
      if limit <=? 0 then chunk
      else
        let candidate := limit / 10 in
        let candidate := if candidate <? 1 then 1 else candidate in
        if candidate <? chunk then candidate else chunk) n limiters.

Definition reserve (now n : Z) (l : rateLimiter) : Z * rateLimiter :=
  let limit := currentLimit l in
  let l := match rl_limitFunc l with
           | Some dynamicLimit => if dynamicLimit =? rl_limit l then l
                                  else l <| rl_limit := dynamicLimit |> <| rl_next := now |>
           | None => l
           end in
  if limit <=? 0 then (now, l)
  else
    let l := if rl_next l <? now then l <| rl_next := now |> else l in
    let l := l <| rl_next ::= fun next => next + rateLimitDuration n limit |> in
    (rl_next l, l).

Fixpoint reservationDeadline (now n : Z) (limiters : list rateLimiter) (deadline : Z) : Z * list rateLimiter :=
  match limiters with
  | [] => (deadline, [])
  | l :: rest =>
      let '(reserved, l) := reserve now n l in
      let deadline := if deadline <? reserved then reserved else deadline in
      let '(deadline, rest) := reservationDeadline now n rest deadline in
      (deadline, l :: rest)
  end.

(** [wait] when the context stays alive: the clock is read before each reservation and
    the wait ends at its deadline, or at once when it has passed.  The result is the
    time of return.  A reservation takes at least one byte, so [n] rounds are enough. *)
Fixpoint waitLoop (fuel : nat) (limiters : list rateLimiter) (now n : Z) : option (Z * list rateLimiter) :=
  if n <=? 0 then Some (now, limiters)
  else match fuel with
  | O => None
  | S fuel' =>
      let chunk := reservationChunk limiters n in
      let '(deadline, limiters) := reservationDeadline now chunk limiters now in
      waitLoop fuel' limiters (Z.max now deadline) (n - chunk)
  end.

Definition wait (limiters : list rateLimiter) (now n : Z) : option (Z * list rateLimiter) :=
  waitLoop (Z.to_nat n) limiters now n.

(** ** Copying *)

(** What one round of the copy loop meets: the context, the read, the limiter, the
    write, and the time since the start. *)
Record copyStep := mkStep {
  cs_ctx : option error; cs_read : N; cs_readErr : option error; cs_wait : option error;
  cs_written : N; cs_writeErr : option error; cs_elapsed : Z
}.

Definition progressFlushBytes : Z := 1048576.

(** What a copy reports: the bytes written, the flushes to the download, and how it ended. *)
Record copyResult := mkCopy { cp_count : Z; cp_flushes : list Z; cp_result : result unit }.

Definition flushed (pending : Z) (flushes : list Z) : list Z := if 0 <? pending then flushes ++ [pending] else flushes.

Definition checkSpeed (lowestSpeed written elapsed : Z) : option error :=
  if (0 <? lowestSpeed) && (second <=? elapsed) then
    let avg := bytesPerSecond written elapsed in
    if avg <=? lowestSpeed then
      Some (EText ("download speed " +:+ FormatInt avg +:+ " is below lowest-speed-limit " +:+ FormatInt lowestSpeed))
    else None
  else None.

(** [errors.Is(err, io.EOF)] *)
Definition isEOF (err : error) : bool := errors_is (fun e => match e with EEOF => true | _ => false end) err.

(** The end of a round of [copyWithProgressBuffer]: after the write, the read error. *)
Definition afterRead (readErr : option error) (written pending : Z) (flushes : list Z) : option copyResult :=
  match readErr with
  | None => None
  | Some err => Some (mkCopy written (flushed pending flushes) (if isEOF err then Ok tt else Err err))
  end.

(** [copyWithProgressBuffer] from a reader that delivers at most [remaining] bytes
    ([io.LimitedReader]), or any number when it is [None].  A reader without further
    rounds is at its end. *)
Fixpoint copyLoop (lowestSpeed : Z) (steps : list copyStep) (remaining : option Z) (written pending : Z)
    (flushes : list Z) : copyResult :=
  match steps with
  | [] => mkCopy written (flushed pending flushes) (Ok tt)
  | s :: steps' =>
      match cs_ctx s with
      | Some err => mkCopy written (flushed pending flushes) (Err err)
      | None =>
          let '(nr, er, remaining) :=
            match remaining with
            | None => (Z.of_N (cs_read s), cs_readErr s, None)
            | Some r => if r <=? 0 then (0, Some EEOF, Some r)
                        else let nr := Z.min (Z.of_N (cs_read s)) r in (nr, cs_readErr s, Some (r - nr))
            end in
          if nr <=? 0 then
            match afterRead er written pending flushes with
            | Some result => result
            | None => copyLoop lowestSpeed steps' remaining written pending flushes
            end
          else
            match cs_wait s with
            | Some err => mkCopy written (flushed pending flushes) (Err err)
            | None =>
                let nw := Z.min (Z.of_N (cs_written s)) nr in
                let written := if 0 <? nw then addInt64 written nw else written in
                let pending := if 0 <? nw then addInt64 pending nw else pending in
                let flushNow := (0 <? nw) && ((progressFlushBytes <=? pending) || (0 <? lowestSpeed)) in
                let flushes := if flushNow then flushed pending flushes else flushes in
                let pending := if flushNow then 0 else pending in
                match (if flushNow then checkSpeed lowestSpeed written (cs_elapsed s) else None) with
                | Some err => mkCopy written flushes (Err err)
                | None =>
                    match cs_writeErr s with
                    | Some err => mkCopy written (flushed pending flushes) (Err err)
                    | None =>
                        if negb (nr =? nw) then mkCopy written (flushed pending flushes) (Err EShortWrite)
                        else match afterRead er written pending flushes with
                             | Some result => result
                             | None => copyLoop lowestSpeed steps' remaining written pending flushes
                             end
                    end
                end
            end
      end
  end.

(** [copyExactWithProgressCount]: the limited reader is exhausted exactly when
    [expected] bytes were read. *)
Definition copyExactWithProgressCount (lowestSpeed : Z) (steps : list copyStep) (expected : Z) : copyResult :=
  let c := copyLoop lowestSpeed steps (Some expected) 0 0 [] in
  match cp_result c with
  | Err _ => c
  | Ok _ => if negb (cp_count c =? expected) then mkCopy (cp_count c) (cp_flushes c) (Err EUnexpectedEOF) else c
  end.

(** ** One range *)

(** What a range request meets, besides the response and the copy. *)
Record rangeIO := mkRangeIO {
  ri_newRequest : result unit;
  ri_do : result Response;
  ri_open : result unit;
  ri_seek : result unit;
  ri_close : result unit;
  ri_steps : list copyStep
}.

Definition joinError (e : error) (r : result unit) : error := match r with Ok _ => e | Err e' => EJoin e e' end.

Definition rangeText (r : chunkRange) : string := FormatInt (ch_start r) +:+ "-" +:+ FormatInt (ch_end r).

(** [downloadRange]: the flushes its copy makes, and its error. *)
Definition downloadRange (meta : remoteMeta) (opts : Options) (r : chunkRange) (io : rangeIO) : list Z * result unit :=
  let failed err := ([], Err err) in
  match ri_newRequest io with
  | Err err => failed err
  | Ok _ =>
  match ri_do io with
  | Err err => failed err
  | Ok resp =>
      if negb (rs_StatusCode resp =? 206) then
        failed (EHTTPStatus "GET" (m_FinalURI meta) (rs_StatusCode resp)
                  ("range " +:+ rangeText r +:+ ": " +:+ rs_Status resp))
      else
        match validateExactRangeResponse resp (ch_start r) (ch_end r) (m_Length meta) with
        | Err err => failed err
        | Ok _ =>
            match ri_open io with
            | Err err => failed err
            | Ok _ =>
                match ri_seek io with
                | Err err => failed (joinError err (ri_close io))
                | Ok _ =>
                    let c := copyExactWithProgressCount (optionBytes opts "lowest-speed-limit" 0) (ri_steps io)
                               (addInt64 (wrap64 (ch_end r - ch_start r)) 1) in
                    match cp_result c with
                    | Err err => (cp_flushes c, Err (ERangeBody (joinError err (ri_close io)) (cp_count c)))
                    | Ok _ => (cp_flushes c, ri_close io)
                    end
                end
            end
        end
  end
  end.

(** The request of a range. *)
Definition rangeRequest {http : HTTPLib} (meta : remoteMeta) (opts : Options) (r : chunkRange) (req : Request) : Request :=
  applyIfRange meta (applyRangeRequestOptions opts ("bytes=" +:+ rangeText r) req).

(** ** The loop of a segmented download *)

Record segmentedRangeTask := mkTask {
  tk_index : Z; tk_r : chunkRange; tk_attempts : Z; tk_notBefore : option Z;
  tk_launchLimit : Z; tk_launchGeneration : Z
}.
#[global] Instance eta_task : Eta segmentedRangeTask := fun t =>
  mkTask (tk_index t) (tk_r t) (tk_attempts t) (tk_notBefore t) (tk_launchLimit t) (tk_launchGeneration t).

(** A worker: its task and the options it was started with, the flushes it still has
    to make, and the error it will send. *)
Record worker := mkWorker {
  wk_task : segmentedRangeTask; wk_maxTries : Z; wk_retryWait : Z;
  wk_flushes : list Z; wk_result : result unit
}.

Record segState := mkSeg {
  sg_tasks : list segmentedRangeTask;
  sg_active : list worker;
  sg_controller : segmentedConcurrencyController;
  sg_firstErr : option error;
  sg_ctxErr : option error;     (* the context's error, once it is done *)
  sg_ctxSeen : bool;            (* the loop has received from ctx.Done() *)
  sg_global : Options;          (* the engine's global options *)
  sg_d : Download
}.
#[global] Instance eta_segState : Eta segState := fun s =>
  mkSeg (sg_tasks s) (sg_active s) (sg_controller s) (sg_firstErr s) (sg_ctxErr s) (sg_ctxSeen s) (sg_global s) (sg_d s).

Fixpoint readySegmentedTaskIndex (tasks : list segmentedRangeTask) (now : Z) : option nat :=
  match tasks with
  | [] => None
  | task :: rest =>
      match tk_notBefore task with
      | None => Some O
      | Some t => if now <? t then S <$> readySegmentedTaskIndex rest now else Some O
      end
  end.

Section segmented.
(** The options the download was started with, and what the worker of an attempt at a
    range does with the options it is given. *)
Context (fallback : Options) (attempt : segmentedRangeTask -> Options -> list Z * result unit).

Definition remainingChunks (includeResult : bool) (s : segState) : Z :=
  Z.of_nat (length (sg_active s) + length (sg_tasks s)) + (if includeResult then 1 else 0).

Definition workerLimit (includeResult : bool) (s : segState) : Z :=
  segmentedWorkerLimit (d_options (sg_d s)) (sg_global s) fallback (remainingChunks includeResult s).

Definition startTask (task : segmentedRangeTask) (s : segState) : segState :=
  let rangeOpts := transportOptionsForSegmented (d_options (sg_d s)) in
  let maxTries := optionInt rangeOpts "max-tries" 5 in
  let maxTries := if maxTries <? 0 then 1 else maxTries in
  let retryWait := wrap64 (optionInt rangeOpts "retry-wait" 0 * second) in
  let '(launchLimit, launchGeneration) := launchState (sg_controller s) in
  let task := task <| tk_attempts ::= fun n => n + 1 |> <| tk_launchLimit := launchLimit |>
                   <| tk_launchGeneration := launchGeneration |> in
  let '(flushes, r) := attempt task rangeOpts in
  let active := sg_active s ++ [mkWorker task maxTries retryWait flushes r] in
  s <| sg_active := active |> <| sg_d ::= setConnections (Z.of_nat (length active)) |>.

(** The loop of [startReady]; it starts at most the tasks there are. *)
Fixpoint startLoop (fuel : nat) (now : Z) (s : segState) : segState :=
  match fuel with
  | O => s
  | S fuel' =>
      if Z.of_nat (length (sg_active s)) <? limit (sg_controller s) then
        match readySegmentedTaskIndex (sg_tasks s) now with
        | None => s
        | Some idx =>
            match sg_tasks s !! idx with
            | Some task => startLoop fuel' now (startTask task (s <| sg_tasks ::= delete idx |>))
            | None => s
            end
        end
      else s
  end.

Definition startReady (now : Z) (s : segState) : segState :=
  match sg_firstErr s with
  | Some _ => s
  | None => startLoop (length (sg_tasks s)) now (s <| sg_controller ::= clampCeiling (workerLimit false s) |>)
  end.

(** The task goes back to the queue. *)
Definition retryTask (w : worker) (now : Z) (s : segState) : segState :=
  s <| sg_tasks ::= fun l => l ++ [wk_task w <| tk_notBefore := Some (now + wk_retryWait w) |>] |>.

Definition fail (err : error) (s : segState) : segState :=
  match sg_firstErr s with Some _ => s | None => s <| sg_firstErr := Some err |> end.

(** [case result := <-results] *)
Definition handleResult (k : nat) (w : worker) (now : Z) (s : segState) : segState :=
  let task := wk_task w in
  let s := s <| sg_active ::= delete k |> in
  let s := s <| sg_d ::= setConnections (Z.of_nat (length (sg_active s))) |> in
  match wk_result w with
  | Ok _ =>
      let s := s <| sg_d ::= markPieceComplete (tk_index task) |> in
      s <| sg_controller ::= onSuccess (tk_launchLimit task) (tk_launchGeneration task) (workerLimit false s) |>
  | Err err =>
      let s := match errors_find (fun e => match e with ERangeBody _ n => Some n | _ => None end) err with
               | Some n => s <| sg_d ::= rollbackCompleted n |>
               | None => s
               end in
      let canRetry := canRetryRangeAttempt (tk_attempts task) (wk_maxTries w) in
      if isAdaptiveRangeThrottleError err then
        let s := s <| sg_controller ::=
                   onThrottle (tk_launchLimit task) (tk_launchGeneration task) (workerLimit canRetry s) |> in
        if canRetry then retryTask w now s else fail err s
      else if isRetryableRangeError err && canRetry then
        let s := s <| sg_controller ::=
                   onRetryableError (tk_launchLimit task) (tk_launchGeneration task) (workerLimit true s) |> in
        retryTask w now s
      else fail err s
  end.

(** What happens while the loop waits: a worker makes its next flush or sends its
    result, the ticker ticks, the context ends and the loop sees it, options change. *)
Inductive segEvent :=
| SgFlush (k : nat)
| SgResult (k : nat) (now : Z)
| SgTick (now : Z)
| SgCancel (err : error)
| SgCtxDone (now : Z)
| SgOptions (opts : Options)
| SgGlobal (global : Options).

(** The loop leaves at its head. *)
Definition finished (s : segState) : bool :=
  match sg_active s with
  | [] => match sg_tasks s, sg_firstErr s with [], _ => true | _, Some _ => true | _, None => false end
  | _ => false
  end.

(** A step; [None] when the event is not possible. *)
Definition segStep (s : segState) (ev : segEvent) : option segState :=
  match ev with
  | SgFlush k =>
      match sg_active s !! k with
      | Some w =>
          match wk_flushes w with
          | n :: rest => Some (s <| sg_active ::= <[k := mkWorker (wk_task w) (wk_maxTries w) (wk_retryWait w) rest (wk_result w)]> |>
                                 <| sg_d ::= addCompleted n |>)
          | [] => None
          end
      | None => None
      end
  | SgResult k now =>
      if finished s then None
      else match sg_active s !! k with
           | Some w => match wk_flushes w with
                       | [] => Some (startReady now (handleResult k w now s))
                       | _ => None
                       end
           | None => None
           end
  | SgTick now => if finished s then None else Some (startReady now s)
  | SgCancel err => match sg_ctxErr s with Some _ => None | None => Some (s <| sg_ctxErr := Some err |>) end
  | SgCtxDone now =>
      if finished s || sg_ctxSeen s then None
      else match sg_ctxErr s with
           | Some err => Some (startReady now (fail err s <| sg_ctxSeen := true |>))
           | None => None
           end
  | SgOptions opts => Some (s <| sg_d ::= fun d => d <| d_options := opts |> |>)
  | SgGlobal global => Some (s <| sg_global := global |>)
  end.

Fixpoint segRun (s : segState) (events : list segEvent) : option segState :=
  match events with
  | [] => Some s
  | ev :: rest => match segStep s ev with Some s' => segRun s' rest | None => None end
  end.

Definition initialTasks (chunks : list chunkRange) : list segmentedRangeTask :=
  imap (fun i ch => mkTask (Z.of_nat i) ch 0 None 0 0) chunks.

(** The state at the first wait; the file was created with its full length. *)
Definition segStart (meta : remoteMeta) (chunks : list chunkRange) (global : Options) (now : Z) (d : Download) : segState :=
  let d := resetProgress (m_Length meta) chunks d in
  startReady now
    (mkSeg (initialTasks chunks) []
       (newSegmentedConcurrencyController
          (segmentedWorkerLimit (d_options d) global fallback (Z.of_nat (length chunks))))
       None None false global d).

(** What [downloadSegmented] returns, and the download it leaves. *)
Definition segReturn (s : segState) : result unit * Download :=
  (match sg_firstErr s with
   | Some err => Err err
   | None => match sg_ctxErr s with Some err => Err err | None => Ok tt end
   end, setConnections 0 (sg_d s)).
End segmented.
