(* ===== verification/TorrentSource.v ===== *)
(** * Torrent sources ([torrent_download.go])

    What [AddTorrent] accepts as a torrent: base64 text with or without padding, within
    the size limit, or the URL of a torrent file, fetched with retries.  Each try of a
    fetch meets an answer of the network, which is an argument. *)
From S2P Require Import Prelude GoStrings GoURL Base64 Pieces Options Http Reservations Torrent State Engine Downloader.

(** [decodeTorrentParamUpTo] for one encoding.  The reader stops one byte past the limit,
    so an input that fails later is too large, not corrupt. *)
Definition decodeUpTo (m : b64mode) (s : string) (maxSize : Z) : result string :=
  match DecodeString m s with
  | Some data => if maxSize <? len data then Err (ETorrentSize maxSize) else Ok data
  | None => if maxSize <? b64complete m (without is_line_break s) then Err (ETorrentSize maxSize)
            else Err (EText "illegal base64 data")
  end.

(** [errors.As] for the size error *)
Definition isSizeError (err : error) : bool :=
  match errors_find (fun e => match e with ETorrentSize max => Some max | _ => None end) err with
  | Some _ => true
  | None => false
  end.

Definition decodeTorrentParamUpTo (s : string) (maxSize : Z) : result string :=
  match decodeUpTo StdEncoding s maxSize with
  | Ok data => Ok data
  | Err err =>
      if isSizeError err then Err err
      else match decodeUpTo RawStdEncoding s maxSize with
           | Ok data => Ok data
           | Err rawErr => if isSizeError rawErr then Err rawErr else Err (EWrap "invalid base64 torrent" err)
           end
  end.

(** ** Fetching *)

(** What one try meets: the context before it, the request, the response, the decoder of
    its body, the bytes the body delivers and how it ends, and the wait after the try. *)
Record fetchAttempt := mkAttempt {
  fa_ctx : option error;
  fa_newRequest : result unit;
  fa_do : result Response;
  fa_reader : result unit;
  fa_body : string;
  fa_bodyErr : option error;
  fa_sleep : option error
}.

Definition fetchTorrentURLOnce (raw : string) (maxSize : Z) (a : fetchAttempt) : result string :=
  let! _request := fa_newRequest a in
  let! resp := fa_do a in
  if negb (isHTTPBodySuccess (rs_StatusCode resp)) || (rs_StatusCode resp =? 206) then
    Err (EHTTPStatus "GET" raw (rs_StatusCode resp) (rs_Status resp))
  else if maxSize <? rs_ContentLength resp then Err (ETorrentSize maxSize)
  else
    let! _reader := fa_reader a in
    if maxSize <? len (fa_body a) then Err (ETorrentSize maxSize)
    else match fa_bodyErr a with Some err => Err err | None => Ok (fa_body a) end.

(** The tries from number [attempt] on; [None] when the fuel ends first, which can only
    happen when [maxTries] is zero, the value for any number of tries. *)
Fixpoint fetchLoop (fuel : nat) (raw : string) (maxSize maxTries retryWait : Z) (attempts : nat -> fetchAttempt)
    (attempt : nat) (lastErr : option error) : option (result string) :=
  if negb (maxTries =? 0) && negb (Z.of_nat attempt <? maxTries) then
    Some (Err (default (EText "") lastErr))
  else match fuel with
  | O => None
  | S fuel' =>
      let a := attempts attempt in
      match fa_ctx a with
      | Some err => Some (Err err)
      | None =>
          match fetchTorrentURLOnce raw maxSize a with
          | Ok data => Some (Ok data)
          | Err err =>
              if isSizeError err || negb (isRetryableDownloadError err) then Some (Err err)
              else if (0 <? retryWait) && ((maxTries =? 0) || (Z.of_nat attempt + 1 <? maxTries)) then
                match fa_sleep a with
                | Some err => Some (Err err)
                | None => fetchLoop fuel' raw maxSize maxTries retryWait attempts (S attempt) (Some err)
                end
              else fetchLoop fuel' raw maxSize maxTries retryWait attempts (S attempt) (Some err)
          end
      end
  end.

Definition fetchTorrentURL (fuel : nat) (raw : string) (opts : Options) (attempts : nat -> fetchAttempt)
    : option (result string) :=
  match validateHTTPURI raw with
  | Err err => Some (Err err)
  | Ok _ =>
      let maxTries := optionInt opts "max-tries" 5 in
      let maxTries := if maxTries <? 0 then 1 else maxTries in
      let retryWait := wrap64 (optionInt opts "retry-wait" 0 * second) in
      fetchLoop fuel raw (torrentSizeLimit opts) maxTries retryWait attempts O None
  end.

Section source.
Context {lib : TorrentLib}.

(** [resolveTorrentSource], with what [fetchTorrentURL] answers for the raw text. *)
Definition resolveTorrentSource (raw : string) (opts : Options) (fetch : result string)
    : result (string * MetaInfo * Info * string) :=
  let fetched :=
    let! data := fetch in
    let! ' (mi, info) := torrentMetaInfo data in
    Ok (data, mi, info, raw) in
  match decodeTorrentParamUpTo raw (torrentSizeLimit opts) with
  | Ok data =>
      match torrentMetaInfo data with
      | Ok (mi, info) => Ok (data, mi, info, "")
      | Err metaErr => if isHTTPTorrentURL raw then fetched else Err metaErr
      end
  | Err decodeErr =>
      if isSizeError decodeErr || negb (isHTTPTorrentURL raw) then Err decodeErr else fetched
  end.
End source.

Section addTorrent.
Context {fs : FileSystem} {storage : TorrentStorage} {lib : TorrentLib}.

(** [AddTorrent] without other calls between its two critical sections. *)
Definition AddTorrent (torrent : string) (uris : list string) (opts : Options) (position : option Z)
    (fetch : Options -> result string) (random : string) (now : Z) (e : Engine) : result string * Engine :=
  match addTorrentBegin uris opts e with
  | Err err => (Err err, e)
  | Ok merged =>
      addTorrentCommit merged (resolveTorrentSource torrent merged (fetch merged)) uris position random now e
  end.
End addTorrent.
