(* ===== verification/Rpc.v ===== *)
(** * The JSON-RPC layer ([jsonrpc/rpc.go], [jsonrpc/rpc_methods.go], [jsonrpc/rpc_params.go])

    Parameters, the methods and their parameter counts, the secret token, single calls,
    batches and [system.multicall].  The layer talks to the engine through one interface,
    [RPCEngine]: the calls it can make, and what performing one returns. *)
From S2P Require Import Prelude GoStrings GoURL Json JsonRaw Options Torrent Queue State Query.

(** ** Errors *)

Definition rpcParseError : Z := -32700.
Definition rpcInvalidRequest : Z := -32600.
Definition rpcMethodNotFound : Z := -32601.
Definition rpcInvalidParams : Z := -32602.
Definition rpcAriaError : Z := 1.

Definition maxBatchCalls : nat := 64.
Definition maxMulticallCalls : nat := 64.
Definition maxStringListItems : nat := 64.
Definition maxOptionCount : nat := 128.
Definition maxRPCParams : nat := 8.
Definition maxRPCObjectFields : nat := 16.
Definition maxRPCIDStringLen : Z := 64.
Definition maxSafeIntegerID : Z := 9007199254740991.

Definition invalidParams : error := ECall rpcInvalidParams "Invalid params".
Definition unauthorized : error := EText "Unauthorized".

Definition rpcCode (err : error) : Z :=
  match errors_find (fun e => match e with ECall code _ => Some code | _ => None end) err with
  | Some code => code
  | None => if errors_is (fun e => match e with ErrInvalidParams => true | _ => false end) err
            then rpcInvalidParams else rpcAriaError
  end.

Definition orInvalid {A} (o : option A) : result A := match o with Some a => Ok a | None => Err invalidParams end.

(** ** Parameters *)

(** A raw message. *)
Abbreviation RawMessage := string.

Definition stringParam (params : list RawMessage) (i : nat) : result string :=
  match params !! i with
  | None => Err invalidParams
  | Some p => if startsWith quote_char p then orInvalid (decodeString (TrimSpace p)) else Err invalidParams
  end.

Definition stringList (items : list RawMessage) : option (list string) := mapM decodeString items.

Definition stringSliceParam (params : list RawMessage) (i : nat) : result (list string) :=
  match params !! i with
  | None => Err invalidParams
  | Some p =>
      if startsWith "[" p then
        match decodeRawArrayLimited (TrimSpace p) maxStringListItems with
        | JOk items => orInvalid (stringList items)
        | JErr _ => Err invalidParams
        end
      else Err invalidParams
  end.

Definition optionalStringSliceParam (params : list RawMessage) (i : nat) : result (list string) :=
  if bool_decide (length params <= i)%nat then Ok [] else stringSliceParam params i.

Definition startsNumber (s : string) : bool :=
  match TrimSpace s with String a _ => Ascii.eqb a "-" || is_digit a | "" => false end.

Definition intParam (params : list RawMessage) (i : nat) : result Z :=
  match params !! i with
  | None => Err invalidParams
  | Some p =>
      if startsNumber p then
        orInvalid (match decodeNumber (TrimSpace p) with Some text => Atoi text | None => None end)
      else Err invalidParams
  end.

Definition optionalIntParam (params : list RawMessage) (i : nat) : result (option Z) :=
  if bool_decide (length params <= i)%nat then Ok None else let! n := intParam params i in Ok (Some n).

(** One option value: an array of strings, or a scalar. *)
Definition optionParamValue (encoded : RawMessage) : option oval :=
  if startsWith "[" encoded then
    match decodeRawArrayLimited (TrimSpace encoded) maxStringListItems with
    | JOk items => (fun l => VAnys (map VStr l)) <$> stringList items
    | JErr _ => None
    end
  else match decodeAny (TrimSpace encoded) with
       | Some ANull => Some VNil
       | Some (AString s) => Some (VStr s)
       | Some (ANumber text) => Some (VNum text)
       | Some (ABool b) => Some (VBool b)
       | Some AComposite | None => None
       end.

Definition optionsParam (params : list RawMessage) (i : nat) (required : bool) : result Options :=
  match params !! i with
  | None => if required then Err invalidParams else Ok noOptions
  | Some p =>
      if startsWith "{" p then
        match decodeRawObjectLimited (TrimSpace p) maxOptionCount with
        | JErr _ => Err invalidParams
        | JOk rawValues =>
            match mapM (fun kv => (fun v => (kv.1, v)) <$> optionParamValue kv.2) (map_to_list rawValues) with
            | Some entries => Ok (PlainOptions (list_to_map entries))
            | None => Err invalidParams
            end
        end
      else Err invalidParams
  end.

(** ** The interface of the engine *)

Inductive apiCall :=
| AddUriCall (uris : list string) (opts : Options) (pos : option Z)
| AddTorrentCall (torrent : string) (uris : list string) (opts : Options) (pos : option Z)
| AddMetalinkCall (metalink : string) (opts : Options) (pos : option Z)
| RemoveCall (force : bool) (gid : string)
| PauseCall (force : bool) (gid : string)
| PauseAllCall (force : bool)
| UnpauseCall (gid : string)
| UnpauseAllCall
| TellStatusCall (gid : string) (keys : list string)
| GetUrisCall (gid : string)
| GetFilesCall (gid : string)
| GetPeersCall (gid : string)
| GetServersCall (gid : string)
| TellActiveCall (keys : list string)
| TellWaitingCall (offset num : Z) (keys : list string)
| TellStoppedCall (offset num : Z) (keys : list string)
| ChangePositionCall (gid : string) (pos : Z) (how : string)
| ChangeUriCall (gid : string) (fileIndex : Z) (del add : list string) (pos : option Z)
| GetOptionCall (gid : string)
| ChangeOptionCall (gid : string) (opts : Options)
| GetGlobalOptionCall
| ChangeGlobalOptionCall (opts : Options)
| GetGlobalStatCall
| PurgeDownloadResultCall
| RemoveDownloadResultCall (gid : string)
| GetVersionCall
| GetSessionInfoCall
| ShutdownCall (force : bool)
| SaveSessionCall.

(** What a method returns, before it is marshalled. *)
Inductive value :=
| RText (s : string)
| RTexts (l : list string)
| RStatus (m : gmap string field)
| RStatuses (l : list (gmap string field))
| RURIs (l : list URIInfo)
| RFiles (l : list FileInfo)
| RPeers (l : list (list (string * string)))
| RServers (l : list ServerInfo)
| RPosition (n : Z)
| RCounts (deleted added : Z)
| ROptions (m : gmap string rpcval)
| RStat (s : GlobalStat)
| RVersion (v : VersionInfo)
| RSessionInfo (id : string).

Class RPCEngine (St : Type) := perform : apiCall -> St -> result value * St.

(** ** Methods *)

Definition rpcMethods : list string :=
  ["aria2.addUri"; "aria2.addTorrent"; "aria2.remove"; "aria2.forceRemove"; "aria2.pause"; "aria2.pauseAll";
   "aria2.forcePause"; "aria2.forcePauseAll"; "aria2.unpause"; "aria2.unpauseAll"; "aria2.tellStatus";
   "aria2.getUris"; "aria2.getFiles"; "aria2.getPeers"; "aria2.getServers"; "aria2.tellActive";
   "aria2.tellWaiting"; "aria2.tellStopped"; "aria2.changePosition"; "aria2.changeUri"; "aria2.getOption";
   "aria2.changeOption"; "aria2.getGlobalOption"; "aria2.changeGlobalOption"; "aria2.getGlobalStat";
   "aria2.purgeDownloadResult"; "aria2.removeDownloadResult"; "aria2.getVersion"; "aria2.getSessionInfo";
   "aria2.shutdown"; "aria2.forceShutdown"; "aria2.saveSession"; "system.multicall"; "system.listMethods";
   "system.listNotifications"].

Definition notificationMethods : list string :=
  ["aria2.onDownloadStart"; "aria2.onDownloadPause"; "aria2.onDownloadStop"; "aria2.onDownloadComplete";
   "aria2.onDownloadError"; "aria2.onBtDownloadComplete"].

Definition paramCounts (method : string) : option (nat * nat) :=
  if in_words method ["aria2.addUri"; "aria2.addMetalink"] then Some (1, 3)%nat
  else if in_words method ["aria2.addTorrent"] then Some (1, 4)%nat
  else if in_words method ["aria2.remove"; "aria2.forceRemove"; "aria2.pause"; "aria2.forcePause"; "aria2.unpause";
                           "aria2.getUris"; "aria2.getFiles"; "aria2.getPeers"; "aria2.getServers"; "aria2.getOption";
                           "aria2.removeDownloadResult"] then Some (1, 1)%nat
  else if in_words method ["aria2.pauseAll"; "aria2.forcePauseAll"; "aria2.unpauseAll"; "aria2.getGlobalOption";
                           "aria2.getGlobalStat"; "aria2.purgeDownloadResult"; "aria2.getVersion";
                           "aria2.getSessionInfo"; "aria2.shutdown"; "aria2.forceShutdown"; "aria2.saveSession";
                           "system.listMethods"; "system.listNotifications"] then Some (0, 0)%nat
  else if in_words method ["aria2.tellStatus"] then Some (1, 2)%nat
  else if in_words method ["aria2.tellActive"] then Some (0, 1)%nat
  else if in_words method ["aria2.tellWaiting"; "aria2.tellStopped"] then Some (2, 3)%nat
  else if in_words method ["aria2.changePosition"] then Some (3, 3)%nat
  else if in_words method ["aria2.changeUri"] then Some (4, 5)%nat
  else if in_words method ["aria2.changeOption"] then Some (2, 2)%nat
  else if in_words method ["aria2.changeGlobalOption"; "system.multicall"] then Some (1, 1)%nat
  else None.

Definition validateParamCount (method : string) (count : nat) : result unit :=
  match paramCounts method with
  | Some (lo, hi) => if bool_decide (count < lo \/ hi < count)%nat then Err invalidParams else Ok tt
  | None => Ok tt
  end.

(** The parameters of [aria2.addTorrent]: the URI list may be left out. *)
Definition addTorrentParams (params : list RawMessage) : result apiCall :=
  let! torrent := stringParam params 0 in
  if bool_decide (1 < length params)%nat then
    match optionalStringSliceParam params 1 with
    | Ok uris =>
        let! opts := optionsParam params 2 false in
        let! pos := optionalIntParam params 3 in
        Ok (AddTorrentCall torrent uris opts pos)
    | Err _ =>
        if bool_decide (3 < length params)%nat then Err invalidParams
        else
          let! opts := optionsParam params 1 false in
          let! pos := optionalIntParam params 2 in
          Ok (AddTorrentCall torrent [] opts pos)
    end
  else Ok (AddTorrentCall torrent [] noOptions None).

(** A method of the engine, or a list of names. *)
Inductive request := QCall (c : apiCall) | QNames (names : list string).

Definition withGid (params : list RawMessage) (c : string -> apiCall) : result request :=
  let! gid := stringParam params 0 in Ok (QCall (c gid)).

(** The methods from [aria2.changePosition] on. *)
Definition parseChangeMethod (method : string) (params : list RawMessage) : result request :=
  let called := String.eqb method in
  if called "aria2.changePosition" then
    let! gid := stringParam params 0 in
    let! pos := intParam params 1 in
    let! how := stringParam params 2 in
    Ok (QCall (ChangePositionCall gid pos how))
  else if called "aria2.changeUri" then
    let! gid := stringParam params 0 in
    let! fileIndex := intParam params 1 in
    let! del := stringSliceParam params 2 in
    let! add := stringSliceParam params 3 in
    let! pos := optionalIntParam params 4 in
    Ok (QCall (ChangeUriCall gid fileIndex del add pos))
  else if called "aria2.getOption" then withGid params GetOptionCall
  else if called "aria2.changeOption" then
    let! gid := stringParam params 0 in
    let! opts := optionsParam params 1 true in
    Ok (QCall (ChangeOptionCall gid opts))
  else if called "aria2.getGlobalOption" then Ok (QCall GetGlobalOptionCall)
  else if called "aria2.changeGlobalOption" then
    let! opts := optionsParam params 0 true in Ok (QCall (ChangeGlobalOptionCall opts))
  else if called "aria2.getGlobalStat" then Ok (QCall GetGlobalStatCall)
  else if called "aria2.purgeDownloadResult" then Ok (QCall PurgeDownloadResultCall)
  else if called "aria2.removeDownloadResult" then withGid params RemoveDownloadResultCall
  else if called "aria2.getVersion" then Ok (QCall GetVersionCall)
  else if called "aria2.getSessionInfo" then Ok (QCall GetSessionInfoCall)
  else if called "aria2.shutdown" then Ok (QCall (ShutdownCall false))
  else if called "aria2.forceShutdown" then Ok (QCall (ShutdownCall true))
  else if called "aria2.saveSession" then Ok (QCall SaveSessionCall)
  else if called "system.listMethods" then Ok (QNames rpcMethods)
  else if called "system.listNotifications" then Ok (QNames notificationMethods)
  else Err (ECall rpcMethodNotFound "Method not found").

Definition parseMethod (method : string) (params : list RawMessage) : result request :=
  let called := String.eqb method in
  if called "aria2.addUri" then
    let! uris := stringSliceParam params 0 in
    match uris with
    | [] => Err invalidParams
    | _ =>
        let! opts := optionsParam params 1 false in
        let! pos := optionalIntParam params 2 in
        Ok (QCall (AddUriCall uris opts pos))
    end
  else if called "aria2.addTorrent" then let! c := addTorrentParams params in Ok (QCall c)
  else if called "aria2.addMetalink" then
    let! metalink := stringParam params 0 in
    let! opts := optionsParam params 1 false in
    let! pos := optionalIntParam params 2 in
    Ok (QCall (AddMetalinkCall metalink opts pos))
  else if called "aria2.remove" then withGid params (RemoveCall false)
  else if called "aria2.forceRemove" then withGid params (RemoveCall true)
  else if called "aria2.pause" then withGid params (PauseCall false)
  else if called "aria2.pauseAll" then Ok (QCall (PauseAllCall false))
  else if called "aria2.forcePause" then withGid params (PauseCall true)
  else if called "aria2.forcePauseAll" then Ok (QCall (PauseAllCall true))
  else if called "aria2.unpause" then withGid params UnpauseCall
  else if called "aria2.unpauseAll" then Ok (QCall UnpauseAllCall)
  else if called "aria2.tellStatus" then
    let! gid := stringParam params 0 in
    let! keys := optionalStringSliceParam params 1 in
    Ok (QCall (TellStatusCall gid keys))
  else if called "aria2.getUris" then withGid params GetUrisCall
  else if called "aria2.getFiles" then withGid params GetFilesCall
  else if called "aria2.getPeers" then withGid params GetPeersCall
  else if called "aria2.getServers" then withGid params GetServersCall
  else if called "aria2.tellActive" then
    let! keys := optionalStringSliceParam params 0 in Ok (QCall (TellActiveCall keys))
  else if called "aria2.tellWaiting" then
    let! offset := intParam params 0 in
    let! num := intParam params 1 in
    let! keys := optionalStringSliceParam params 2 in
    Ok (QCall (TellWaitingCall offset num keys))
  else if called "aria2.tellStopped" then
    let! offset := intParam params 0 in
    let! num := intParam params 1 in
    let! keys := optionalStringSliceParam params 2 in
    Ok (QCall (TellStoppedCall offset num keys))
  else parseChangeMethod method params.

(** ** Calls *)

Record rpcCall := mkCall {
  rc_JSONRPC : string; rc_Method : string; rc_Params : list RawMessage; rc_ID : option RawMessage
}.

Definition rc_HasID (c : rpcCall) : bool := match rc_ID c with Some _ => true | None => false end.

Definition validRPCID (raw : RawMessage) : bool :=
  match decodeAny raw with
  | Some ANull => true
  | Some (AString s) => len s <=? maxRPCIDStringLen
  | Some (ANumber text) =>
      match ParseInt text with
      | Some n => (- maxSafeIntegerID <=? n) && (n <=? maxSafeIntegerID)
      | None => false
      end
  | _ => false
  end.

(** Why a text is not a call: it is no object, or a member has the wrong shape. *)
Inductive callFailure := BadJSON (e : jsonError) | BadCall (code : Z).

(** [parseCall]: the call, and its failure; a call with wrong parameters keeps its other
    members. *)
Definition parseCall (raw : string) : rpcCall * option callFailure :=
  let zero := mkCall "" "" [] None in
  match decodeRawObjectLimited raw maxRPCObjectFields with
  | JErr e => (zero, Some (BadJSON e))
  | JOk obj =>
      let member name := match obj !! name with Some v => default "" (decodeString v) | None => "" end in
      let id_ok := match obj !! "id" with Some v => validRPCID v | None => true end in
      if negb id_ok then (zero, Some (BadCall rpcInvalidRequest))
      else
        let call := mkCall (member "jsonrpc") (member "method") [] (obj !! "id") in
        match obj !! "params" with
        | None => (call, None)
        | Some v =>
            if startsWith "[" v then
              match decodeRawArrayLimited (TrimSpace v) maxRPCParams with
              | JOk params => (mkCall (rc_JSONRPC call) (rc_Method call) params (rc_ID call), None)
              | JErr _ => (call, Some (BadCall rpcInvalidParams))
              end
            else (call, Some (BadCall rpcInvalidParams))
        end
  end.

(** ** The secret *)

Definition methodNeedsSecret (method : string) : bool :=
  negb (in_words method ["system.listMethods"; "system.listNotifications"; "system.multicall"]).

(** The constant-time comparison is equality. *)
Definition matchesSecretParam (secret : string) (raw : RawMessage) : bool :=
  match decodeString raw with Some token => String.eqb token ("token:" +:+ secret) | None => false end.

Definition stripSecret (secret : string) (method : string) (params : list RawMessage) : result (list RawMessage) :=
  if in_words method ["system.listMethods"; "system.listNotifications"; "system.multicall"] then Ok params
  else match params with
  | [] => if String.eqb secret "" then Ok params else Err unauthorized
  | first :: rest =>
      match decodeString first with
      | Some token =>
          match CutPrefix token "token:" with
          | Some got => if negb (String.eqb secret "") && negb (String.eqb got secret) then Err unauthorized else Ok rest
          | None => if String.eqb secret "" then Ok params else Err unauthorized
          end
      | None => if String.eqb secret "" then Ok params else Err unauthorized
      end
  end.

Definition field_or_empty (obj : gmap string string) (name : string) : RawMessage := default "" (obj !! name).

Definition multicallProvesSecret (secret : string) (params : list RawMessage) : bool :=
  match params with
  | [param] =>
      match decodeRawArrayLimited param maxMulticallCalls with
      | JErr _ => false
      | JOk calls =>
          existsb (fun raw =>
            match decodeRawObjectLimited raw 4 with
            | JErr _ => false
            | JOk obj =>
                match decodeString (field_or_empty obj "methodName") with
                | None => false
                | Some method =>
                    methodNeedsSecret method &&
                    match decodeRawArrayLimited (field_or_empty obj "params") maxRPCParams with
                    | JOk (first :: _) => matchesSecretParam secret first
                    | _ => false
                    end
                end
            end) calls
      end
  | _ => false
  end.

Definition callProvesSecret (secret : string) (raw : RawMessage) : bool :=
  match parseCall raw with
  | (_, Some _) => false
  | (call, None) =>
      if negb (String.eqb (rc_JSONRPC call) "2.0") || String.eqb (rc_Method call) "" then false
      else if String.eqb (rc_Method call) "system.multicall" then multicallProvesSecret secret (rc_Params call)
      else methodNeedsSecret (rc_Method call) &&
           match rc_Params call with first :: _ => matchesSecretParam secret first | [] => false end
  end.

Definition payloadProvesSecret (secret : string) (payload : string) : bool :=
  if String.eqb secret "" then true
  else
    let payload := TrimSpace payload in
    if HasPrefix payload "[" then
      match decodeRawArrayLimited payload maxBatchCalls with
      | JErr _ => false
      | JOk calls => existsb (callProvesSecret secret) calls
      end
    else callProvesSecret secret payload.

(** ** Handling *)

(** The entries of a multicall's result: a fault or the single result. *)
Inductive multiEntry := Fault (code : Z) (text : string) | Single (v : value).
Inductive rpcResult := RValue (v : value) | RMulti (entries : list multiEntry).

(** A response: the id it answers, and an error or a result. *)
Record rpcResponse := mkRpcResponse { rp_ID : option RawMessage; rp_Body : (Z * string) + rpcResult }.

Definition errorResponse (id : option RawMessage) (code : Z) (msg : string) : rpcResponse :=
  mkRpcResponse id (inl (code, msg)).

Section handler.
Context {St : Type} {api : RPCEngine St}.
Context (secret : string).

(** [invoke] of every method but [system.multicall]. *)
Definition invokeMethod (method : string) (params : list RawMessage) (st : St) : result value * St :=
  match (let! _count := validateParamCount method (length params) in parseMethod method params) with
  | Err err => (Err err, st)
  | Ok (QNames names) => (Ok (RTexts names), st)
  | Ok (QCall c) => perform c st
  end.

(** One call of a multicall. *)
Definition multicallOne (encodedCall : RawMessage) (st : St) : multiEntry * St :=
  let invalid := Fault rpcInvalidParams "Invalid params" in
  match decodeRawObjectLimited encodedCall 2 with
  | JErr _ => (invalid, st)
  | JOk call =>
      if negb (bool_decide (size call = 2%nat)) then (invalid, st)
      else match decodeString (field_or_empty call "methodName") with
      | None => (invalid, st)
      | Some method =>
          if String.eqb method "" || String.eqb method "system.multicall" then (invalid, st)
          else match decodeRawArrayLimited (field_or_empty call "params") maxRPCParams with
          | JErr _ => (invalid, st)
          | JOk callParams =>
              match stripSecret secret method callParams with
              | Err err => (Fault rpcAriaError (errorText err), st)
              | Ok p =>
                  let '(r, st) := invokeMethod method p st in
                  (match r with Ok v => Single v | Err err => Fault (rpcCode err) (errorText err) end, st)
              end
          end
      end
  end.

Fixpoint multicallLoop (calls : list RawMessage) (st : St) : list multiEntry * St :=
  match calls with
  | [] => ([], st)
  | c :: rest =>
      let '(entry, st) := multicallOne c st in
      let '(entries, st) := multicallLoop rest st in
      (entry :: entries, st)
  end.

Definition multicall (params : list RawMessage) (st : St) : result rpcResult * St :=
  match decodeRawArrayLimited (default "" (params !! 0%nat)) maxMulticallCalls with
  | JErr _ => (Err invalidParams, st)
  | JOk calls => let '(entries, st) := multicallLoop calls st in (Ok (RMulti entries), st)
  end.

Definition invoke (method : string) (params : list RawMessage) (st : St) : result rpcResult * St :=
  if String.eqb method "system.multicall" then
    match validateParamCount method (length params) with
    | Err err => (Err err, st)
    | Ok _ => multicall params st
    end
  else
    let '(r, st) := invokeMethod method params st in
    (let! v := r in Ok (RValue v), st).

(** [handleOne]: the response, when the call gets one. *)
Definition handleOne (raw : RawMessage) (st : St) : option rpcResponse * St :=
  match parseCall raw with
  | (call, Some (BadCall code)) =>
      if (code =? rpcInvalidParams) && negb (rc_HasID call) && String.eqb (rc_JSONRPC call) "2.0"
         && negb (String.eqb (rc_Method call) "") then (None, st)
      else (Some (errorResponse (rc_ID call) code
                    (if code =? rpcInvalidParams then "Invalid params" else "Invalid Request")), st)
  | (_, Some (BadJSON e)) =>
      if isJSONParseError e then (Some (errorResponse None rpcParseError "Parse error"), st)
      else (Some (errorResponse None rpcInvalidRequest "Invalid Request"), st)
  | (call, None) =>
      if String.eqb (rc_Method call) "" || negb (String.eqb (rc_JSONRPC call) "2.0") then
        (Some (errorResponse (rc_ID call) rpcInvalidRequest "Invalid Request"), st)
      else match stripSecret secret (rc_Method call) (rc_Params call) with
      | Err err => (if rc_HasID call then Some (errorResponse (rc_ID call) rpcAriaError (errorText err)) else None, st)
      | Ok params =>
          let '(r, st) := invoke (rc_Method call) params st in
          (if rc_HasID call then
             Some (match r with
                   | Err err => errorResponse (rc_ID call) (rpcCode err) (errorText err)
                   | Ok v => mkRpcResponse (rc_ID call) (inr v)
                   end)
           else None, st)
      end
  end.

(** What is sent back: one response, or the responses of a batch. *)
Inductive reply := ReplyOne (r : rpcResponse) | ReplyBatch (rs : list rpcResponse).

Fixpoint handleBatch (raws : list RawMessage) (st : St) : list rpcResponse * St :=
  match raws with
  | [] => ([], st)
  | raw :: rest =>
      let '(resp, st) := handleOne raw st in
      let '(responses, st) := handleBatch rest st in
      (match resp with Some r => r :: responses | None => responses end, st)
  end.

Definition HandlePayload (payload : string) (st : St) : option reply * St :=
  let payload := TrimSpace payload in
  if String.eqb payload "" then (Some (ReplyOne (errorResponse None rpcParseError "Parse error")), st)
  else if HasPrefix payload "[" then
    match decodeRawArrayLimited payload maxBatchCalls with
    | JErr JTooLarge => (Some (ReplyOne (errorResponse None rpcInvalidRequest "Invalid Request")), st)
    | JErr _ => (Some (ReplyOne (errorResponse None rpcParseError "Parse error")), st)
    | JOk [] => (Some (ReplyOne (errorResponse None rpcInvalidRequest "Invalid Request")), st)
    | JOk raws =>
        let '(responses, st) := handleBatch raws st in
        (match responses with [] => None | _ => Some (ReplyBatch responses) end, st)
    end
  else
    let '(resp, st) := handleOne payload st in (ReplyOne <$> resp, st).
End handler.
