(* ===== verification/RpcSpec.v ===== *)
(** * What the RPC layer promises

    Without the secret, no payload changes the engine or learns anything about it,
    whatever the engine is; every call with an id gets one response, in order, and
    notifications get none; one payload makes a bounded number of engine calls. *)
From S2P Require Import Prelude GoStrings GoURL Text Json JsonRaw Options Torrent Queue State Query Rpc.

(** ** Limits of collections *)

Lemma atEOF_inv {A} (a b : A) (rest : string) : atEOF a rest = JOk b -> b = a.
Proof. unfold atEOF. destruct (requireJSONEOF rest); [by intros [= ->]|done]. Qed.

Lemma arrayItems_length (room : nat) (first : bool) (s : string) (items : list string) :
  arrayItems room first s = JOk items -> (length items <= room)%nat.
Proof.
  revert first s items. induction room as [|room IH]; intros first s items H; cbn [arrayItems] in H;
    destruct (skip_space s) as [|a s']; try done; destruct (Ascii.eqb a "]");
    try (apply atEOF_inv in H as ->; cbn; lia); destruct (Ascii.eqb a "}"); try done.
  destruct (if first then _ else _) as [start|]; [|done]. destruct (rawValue start) as [[item rest]|]; [|done].
  destruct (arrayItems room false rest) as [items'|] eqn:E; [|done]. injection H as <-. apply IH in E. cbn. lia.
Qed.

Lemma decodeRawArray_length (data : string) (maxItems : nat) (items : list string) :
  decodeRawArrayLimited data maxItems = JOk items -> (length items <= maxItems)%nat.
Proof.
  unfold decodeRawArrayLimited. destruct (CutPrefix _ _); [|done]. apply arrayItems_length.
Qed.

(** A larger limit accepts what a smaller one accepts. *)
Lemma objectFields_more (room k : nat) (first : bool) (values m : gmap string string) (s : string) :
  objectFields room first values s = JOk m -> objectFields (room + k) first values s = JOk m.
Proof.
  revert first values s. induction room as [|room IH]; intros first values s H; cbn [objectFields Nat.add] in *.
  - destruct k; cbn [objectFields]; destruct (skip_space s) as [|a s']; try done;
      destruct (Ascii.eqb a "}"); try done; by destruct (Ascii.eqb a "]").
  - destruct (skip_space s) as [|a s']; [done|]. destruct (Ascii.eqb a "}"); [done|]. destruct (Ascii.eqb a "]"); [done|].
    destruct (if first then _ else _) as [start|]; [|done]. destruct (CutPrefix start _) as [body|]; [|done].
    destruct (json_literal _ body) as [[key rest]|]; [|done]. destruct (values !! key); [done|].
    destruct (CutPrefix (skip_space rest) ":") as [rest'|]; [|done]. destruct (rawValue rest') as [[value rest2]|]; [|done].
    by apply IH.
Qed.

Lemma decodeRawObject_more (data : string) (n k : nat) (m : gmap string string) :
  decodeRawObjectLimited data n = JOk m -> decodeRawObjectLimited data (n + k) = JOk m.
Proof.
  unfold decodeRawObjectLimited. destruct (CutPrefix _ _); [|done]. apply objectFields_more.
Qed.

(** ** The secret *)

Section noninterference.
Context {St : Type} {api : RPCEngine St} (secret : string) (Hsecret : secret <> "").

(** A computation that neither reads nor changes the engine. *)
Definition blind {A} (f : St -> A * St) : Prop := exists a, forall st, f st = (a, st).

Lemma blind_ret {A} (a : A) : blind (fun st => (a, st)).
Proof. by exists a. Qed.

Lemma free_methods (method : string) :
  methodNeedsSecret method = false -> method <> "system.multicall" ->
  method = "system.listMethods" \/ method = "system.listNotifications".
Proof.
  unfold methodNeedsSecret. intros H%negb_false_iff Hm. cbn in H.
  repeat (apply orb_true_iff in H as [H|H]; [apply String.eqb_eq in H; auto|]); try done; by auto.
Qed.

Lemma invoke_free (method : string) (params : list RawMessage) :
  methodNeedsSecret method = false -> method <> "system.multicall" -> blind (invokeMethod method params).
Proof.
  intros H Hm. destruct (free_methods method H Hm) as [-> | ->]; unfold invokeMethod;
    destruct (let! _count := _ in _) as [[c|names]|err] eqn:E; try apply blind_ret;
    exfalso; cbv [validateParamCount paramCounts in_words existsb String.eqb] in E; cbn in E;
    destruct (bool_decide _) in E; done.
Qed.
Lemma CutPrefix_app (s p t : string) : CutPrefix s p = Some t -> s = p +:+ t.
Proof.
  revert p t. induction s as [|a s IH]; intros [|b p] t H; cbn in H; try (by injection H as <-); try done.
  destruct (Ascii.eqb b a) eqn:E; [|done]. apply Ascii.eqb_eq in E as ->. by rewrite (IH p t H).
Qed.

Lemma strip_proves (method : string) (params p : list RawMessage) :
  methodNeedsSecret method = true -> stripSecret secret method params = Ok p ->
  exists first rest, params = first :: rest /\ matchesSecretParam secret first = true.
Proof.
  unfold methodNeedsSecret, stripSecret, matchesSecretParam. intros ->%negb_true_iff.
  assert (String.eqb secret "" = false) as -> by (by apply String.eqb_neq).
  destruct params as [|first rest]; [done|]. intros H. exists first, rest. split; [done|].
  destruct (decodeString first) as [token|]; [|done]. destruct (CutPrefix token "token:") as [got|] eqn:E; [|done].
  apply CutPrefix_app in E as ->. cbn [negb andb] in H. destruct (String.eqb got secret) eqn:Eq; [|done]. apply String.eqb_eq in Eq. rewrite Eq.
  apply String.eqb_refl.
Qed.

(** What [multicallProvesSecret] asks of one call. *)
Definition entryProves (raw : RawMessage) : bool :=
  match decodeRawObjectLimited raw 4 with
  | JErr _ => false
  | JOk obj =>
      match decodeString (field_or_empty obj "methodName") with
      | None => false
      | Some method =>
          methodNeedsSecret method &&
          match decodeRawArrayLimited (field_or_empty obj "params") maxRPCParams with
          | JOk (first :: _) => matchesSecretParam secret first
          | _ => false
          end
      end
  end.

Lemma multicallOne_blind (raw : RawMessage) : entryProves raw = false -> blind (multicallOne secret raw).
Proof.
  intros Hp. unfold multicallOne. cbv zeta.
  destruct (decodeRawObjectLimited raw 2) as [obj|] eqn:E; [|apply blind_ret].
  pose proof (decodeRawObject_more raw 2 2 obj E) as E4. cbn [Nat.add] in E4. unfold entryProves in Hp. rewrite E4 in Hp.
  destruct (bool_decide (size obj = 2%nat)); cbn [negb]; [|apply blind_ret].
  destruct (decodeString (field_or_empty obj "methodName")) as [method|]; [|apply blind_ret].
  destruct (String.eqb method "") eqn:He, (String.eqb_spec method "system.multicall") as [->|Hm]; cbn [orb];
    try apply blind_ret.
  destruct (decodeRawArrayLimited (field_or_empty obj "params") maxRPCParams) as [params|]; [|apply blind_ret].
  destruct (stripSecret secret method params) as [p|err] eqn:Hs; [|apply blind_ret].
  destruct (methodNeedsSecret method) eqn:Hn.
  - destruct (strip_proves method params p Hn Hs) as (first & rest & -> & Hmatch). cbn in Hp. by rewrite Hmatch in Hp.
  - destruct (invoke_free method p Hn Hm) as [r Hr]. eexists. intros st. rewrite Hr. done.
Qed.

Lemma multicallLoop_blind (calls : list RawMessage) : existsb entryProves calls = false -> blind (multicallLoop secret calls).
Proof.
  induction calls as [|c calls IH]; cbn [existsb multicallLoop]; [intros _; apply blind_ret|].
  intros [Hc Hl]%orb_false_iff. destruct (multicallOne_blind c Hc) as [e He], (IH Hl) as [es Hes].
  exists (e :: es). intros st. by rewrite He, Hes.
Qed.

Lemma multicall_blind (params : list RawMessage) :
  multicallProvesSecret secret params = false -> blind (invoke secret "system.multicall" params).
Proof.
  intros Hp. unfold invoke. change (String.eqb "system.multicall" "system.multicall") with true. cbv iota.
  destruct (validateParamCount "system.multicall" (length params)) eqn:Hc; [|apply blind_ret].
  destruct params as [|param [|]]; try (by vm_compute in Hc).
  unfold multicall. change (default "" ([param] !! 0%nat)) with param. unfold multicallProvesSecret in Hp.
  destruct (decodeRawArrayLimited param maxMulticallCalls) as [calls|]; [|apply blind_ret].
  destruct (multicallLoop_blind calls Hp) as [es Hes]. eexists. intros st. by rewrite Hes.
Qed.

Lemma handleOne_blind (raw : RawMessage) : callProvesSecret secret raw = false -> blind (handleOne secret raw).
Proof.
  unfold callProvesSecret, handleOne. destruct (parseCall raw) as [call [[e|code]|]].
  - intros _. destruct (isJSONParseError e); apply blind_ret.
  - intros _. destruct (_ && _); apply blind_ret.
  - intros Hp. destruct (String.eqb (rc_JSONRPC call) "2.0") eqn:H2; cbn [negb orb] in *; rewrite ?orb_true_r;
      [|apply blind_ret]. rewrite orb_false_r.
    destruct (String.eqb_spec (rc_Method call) "") as [He|He]; [apply blind_ret|].
    destruct (stripSecret secret (rc_Method call) (rc_Params call)) as [params|err] eqn:Hs; [|apply blind_ret].
    assert (blind (invoke secret (rc_Method call) params)) as [r Hr].
    { destruct (String.eqb_spec (rc_Method call) "system.multicall") as [Hm|Hm].
      - rewrite Hm in *. assert (params = rc_Params call) as -> by by injection Hs. by apply multicall_blind.
      - destruct (methodNeedsSecret (rc_Method call)) eqn:Hn.
        + destruct (strip_proves _ _ _ Hn Hs) as (first & rest & E & Hmatch). rewrite E in Hp. cbn in Hp. by rewrite Hmatch in Hp.
        + destruct (invoke_free (rc_Method call) params Hn Hm) as [r Hr]. unfold invoke.
          apply String.eqb_neq in Hm as ->. eexists. intros st. rewrite Hr. done. }
    eexists. intros st. rewrite Hr. done.
Qed.

Lemma handleBatch_blind (raws : list RawMessage) :
  existsb (callProvesSecret secret) raws = false -> blind (handleBatch secret raws).
Proof.
  induction raws as [|r raws IH]; cbn [existsb handleBatch]; [intros _; apply blind_ret|].
  intros [Hr Hl]%orb_false_iff. destruct (handleOne_blind r Hr) as [x Hx], (IH Hl) as [xs Hxs].
  eexists. intros st. rewrite Hx, Hxs. done.
Qed.
End noninterference.

(** C22: without the secret a payload does nothing and learns nothing: when a secret is
    set and no call of a payload carries it (in a batch, in a multicall, or alone), the
    payload leaves the engine as it is and the answer is the same for every engine
    state, whatever the engine's methods do. *)
Theorem rpc_secret_protects_engine {St : Type} {api : RPCEngine St} (secret payload : string) :
  secret <> "" -> payloadProvesSecret secret payload = false ->
  exists answer, forall st, HandlePayload secret payload st = (answer, st).
Proof.
  intros Hs Hp. unfold payloadProvesSecret in Hp. assert (String.eqb secret "" = false) as E by by apply String.eqb_neq.
  rewrite E in Hp. unfold HandlePayload. cbv zeta in *.
  destruct (String.eqb (TrimSpace payload) ""); [apply blind_ret|].
  destruct (HasPrefix (TrimSpace payload) "[").
  - destruct (decodeRawArrayLimited (TrimSpace payload) maxBatchCalls) as [[|raw raws]|[]]; try apply blind_ret.
    destruct (handleBatch_blind secret Hs (raw :: raws) Hp) as [xs Hxs]. eexists. intros st. rewrite Hxs. done.
  - destruct (handleOne_blind secret Hs (TrimSpace payload) Hp) as [x Hx]. eexists. intros st. rewrite Hx. done.
Qed.

(** ** Responses *)

(** The id under which a call of a batch is answered; none for a notification.  A text
    that is no call is answered under the null id, and so is a call whose id is not
    valid. *)
Definition answerID (raw : RawMessage) : option (option RawMessage) :=
  let '(call, failure) := parseCall raw in
  let named := String.eqb (rc_JSONRPC call) "2.0" && negb (String.eqb (rc_Method call) "") in
  match failure with
  | Some (BadJSON _) => Some None
  | Some (BadCall code) =>
      if (code =? rpcInvalidParams) && named then Some <$> rc_ID call else Some (rc_ID call)
  | None => if named then Some <$> rc_ID call else Some (rc_ID call)
  end.

Section responses.
Context {St : Type} {api : RPCEngine St} (secret : string).

Lemma handleOne_id (raw : RawMessage) (st : St) : rp_ID <$> (handleOne secret raw st).1 = answerID raw.
Proof.
  unfold handleOne, answerID. destruct (parseCall raw) as [call [[e|code]|]].
  - by destruct (isJSONParseError e).
  - unfold rc_HasID. destruct (code =? rpcInvalidParams), (String.eqb (rc_JSONRPC call) "2.0"),
      (String.eqb (rc_Method call) ""), (rc_ID call); done.
  - destruct (String.eqb (rc_JSONRPC call) "2.0"), (String.eqb (rc_Method call) "");
      cbn [orb negb andb]; try done.
    unfold rc_HasID. destruct (stripSecret _ _ _); [|by destruct (rc_ID call)].
    destruct (invoke _ _ _ _) as [r st']. destruct (rc_ID call); [|done]. by destruct r.
Qed.

Lemma handleBatch_ids (raws : list RawMessage) (st : St) :
  map rp_ID (handleBatch secret raws st).1 = omap answerID raws
  /\ (handleBatch secret raws st).2 = foldl (fun st raw => (handleOne secret raw st).2) st raws.
Proof.
  revert st. induction raws as [|raw raws IH]; intros st; [done|]. cbn [handleBatch foldl omap list_omap].
  pose proof (handleOne_id raw st) as Hid. destruct (handleOne secret raw st) as [resp st1]. cbn in Hid |- *.
  specialize (IH st1). destruct (handleBatch secret raws st1) as [rs st2]. cbn in IH |- *. destruct IH as [IH1 IH2].
  split; [|done]. rewrite <- Hid. destruct resp; cbn; by rewrite IH1.
Qed.
End responses.

(** C24: a batch is handled call by call, in order: the engine goes through the calls one
    after the other, each call with an id and each malformed entry gets exactly one
    response, in the order of the calls and under the call's own id, notifications get
    none, and a batch of notifications gets no answer at all. *)
Theorem rpc_batch_answers_in_order {St : Type} {api : RPCEngine St} (secret payload : string)
    (raws : list RawMessage) (st : St) :
  HasPrefix (TrimSpace payload) "[" = true -> decodeRawArrayLimited (TrimSpace payload) maxBatchCalls = JOk raws ->
  raws <> [] ->
  exists responses,
    HandlePayload secret payload st
    = (match responses with [] => None | _ => Some (ReplyBatch responses) end,
       foldl (fun st raw => (handleOne secret raw st).2) st raws)
    /\ map rp_ID responses = omap answerID raws.
Proof.
  intros Hp Hd Hne. unfold HandlePayload. cbv zeta.
  assert (String.eqb (TrimSpace payload) "" = false) as ->.
  { apply String.eqb_neq. intros E. by rewrite E in Hp. }
  rewrite Hp, Hd. destruct raws as [|raw raws]; [done|]. set (l := raw :: raws).
  pose proof (handleBatch_ids secret l st) as [H1 H2]. destruct (handleBatch secret l st) as [rs st'].
  cbn in H1, H2. exists rs. by rewrite H2.
Qed.

(** ** Parameters read back *)

Lemma substring_app (s t : string) : String.substring 0 (String.length s) (s +:+ t) = s.
Proof. induction s as [|a s IH]; [by destruct t|]. rewrite str_app_cons. cbn [String.length String.substring]. by rewrite IH. Qed.

Lemma json_body_quote_length (s t : string) :
  ascii_text s = true -> (String.length s < String.length (json_body (String.length s) s +:+ String quote_char t))%nat.
Proof.
  intros Hs. pose proof (json_body_length (String.length s) s (le_n _) Hs). rewrite str_app_length. cbn [String.length]. lia.
Qed.

(** A text is one JSON value of nesting depth at most [k]: it is scanned as a whole,
    whatever follows it. *)
Definition scans (k : Z) (v : string) : Prop :=
  (exists a v', v = String a v' /\ json_space a = false /\ Ascii.eqb a "]" = false /\ Ascii.eqb a "}" = false)
  /\ forall fuel d t, (2 * String.length v <= fuel)%nat -> d + k <= maxNestingDepth -> scan_value fuel d (v +:+ t) = Some t.

Lemma scans_space (k : Z) (v t : string) : scans k v -> skip_space (v +:+ t) = v +:+ t.
Proof. intros [(a & v' & -> & Ha & _) _]. rewrite str_app_cons. cbn [skip_space]. by rewrite Ha. Qed.

Lemma scans_quote (s : string) : ascii_text s = true -> scans 0 (json_quote s).
Proof.
  intros Hs. split; [by eexists _, _|]. intros [|fuel] d t Hf _; [cbn in Hf; lia|].
  unfold json_quote. rewrite str_app_cons. cbn [scan_value].
  change (Ascii.eqb quote_char "{") with false. change (Ascii.eqb quote_char "[") with false.
  change (Ascii.eqb quote_char quote_char) with true. cbv iota. unfold scan_string. rewrite str_app_assoc, str_app_cons, str_app_nil_l.
  rewrite json_literal_body; [done|done| |lia]. by apply json_body_quote_length.
Qed.

Definition arrayText (vs : list string) : string := "[" +:+ Join vs "," +:+ "]".

Lemma scan_elements_values (k : Z) (v : string) (vs : list string) (fuel : nat) (d : Z) (t : string) :
  Forall (scans k) (v :: vs) -> (2 * String.length (Join (v :: vs) ",") < fuel)%nat -> d + k <= maxNestingDepth ->
  scan_elements fuel d (Join (v :: vs) "," +:+ String "]" t) = Some t.
Proof.
  intros Hv. revert v fuel Hv. induction vs as [|w vs IH]; intros v fuel Hv Hf Hd; inversion Hv as [|? ? H1 H2]; subst;
    (destruct fuel as [|fuel]; [lia|]); cbn [scan_elements].
  - cbn [Join] in *. rewrite (proj2 H1) by lia. done.
  - change (Join (v :: w :: vs) ",") with (v +:+ "," +:+ Join (w :: vs) ",") in *.
    rewrite !str_app_length in Hf. cbn [String.length] in Hf. rewrite str_app_assoc, (proj2 H1) by lia.
    rewrite str_app_assoc. change ("," +:+ ?x) with (String "," x). cbn [skip_space]. change (json_space ",") with false. cbv iota.
    change (Ascii.eqb "," ",") with true. cbv iota.
    assert (skip_space (Join (w :: vs) "," +:+ String "]" t) = Join (w :: vs) "," +:+ String "]" t) as ->.
    { inversion H2 as [|? ? Hw _]; subst. destruct vs; cbn [Join]; rewrite ?str_app_assoc; by apply (scans_space k). }
    apply IH; [done|lia|done].
Qed.

Lemma scans_array (k : Z) (vs : list string) : 0 <= k -> Forall (scans k) vs -> scans (k + 1) (arrayText vs).
Proof.
  intros Hk Hvs. split; [by eexists _, _|]. intros [|fuel] d t Hf Hd; [unfold arrayText in Hf; rewrite str_app_cons in Hf; cbn [String.length] in Hf; lia|].
  unfold arrayText in *. rewrite !str_app_length in Hf. cbn [String.length] in Hf.
  rewrite !str_app_assoc. change ("[" +:+ ?x) with (String "[" x). cbn [scan_value].
  change (Ascii.eqb "[" "{") with false. change (Ascii.eqb "[" "[") with true. cbv iota.
  destruct (Z.leb_spec maxNestingDepth d); [lia|]. destruct vs as [|v vs]; [by destruct t|].
  assert (skip_space (Join (v :: vs) "," +:+ "]" +:+ t) = Join (v :: vs) "," +:+ "]" +:+ t
          /\ CutPrefix (Join (v :: vs) "," +:+ "]" +:+ t) "]" = None) as [-> ->].
  { inversion Hvs as [|? ? Hv _]; subst. pose proof Hv as [(a & v' & -> & Ha & Hb & _) _].
    rewrite Ascii.eqb_sym in Hb.
    destruct vs; cbn [Join]; rewrite ?str_app_assoc; (split; [by apply (scans_space k)|]);
      rewrite str_app_cons; cbn [CutPrefix]; by rewrite Hb. }
  change ("]" +:+ t) with (String "]" t). apply (scan_elements_values k); [done|lia|lia].
Qed.

Lemma rawValue_scans (k : Z) (v t : string) : scans k v -> k <= maxNestingDepth -> rawValue (v +:+ t) = Some (v, t).
Proof.
  intros Hv Hk. unfold rawValue. rewrite (scans_space k) by done. rewrite str_app_length.
  rewrite (proj2 Hv) by (unfold maxNestingDepth in *; lia).
  replace (_ + _ - _)%nat with (String.length v) by lia. by rewrite substring_app.
Qed.

Lemma rawValue_quote (s t : string) : ascii_text s = true -> rawValue (json_quote s +:+ t) = Some (json_quote s, t).
Proof. intros Hs. apply (rawValue_scans 0); [by apply scans_quote|done]. Qed.

Lemma decodeString_quote (s : string) : ascii_text s = true -> decodeString (json_quote s) = Some s.
Proof.
  intros Hs. unfold decodeString, decodeAny. pose proof (rawValue_quote s "" Hs) as H. rewrite str_app_nil_r in H. rewrite H.
  unfold json_quote. change (requireJSONEOF "") with true. change (Ascii.eqb quote_char quote_char) with true. cbv iota.
  rewrite json_literal_body; [done|done| |lia]. by apply json_body_quote_length.
Qed.

Lemma arrayItems_values (k : Z) (v : string) (vs : list string) (room : nat) (first : bool) :
  Forall (scans k) (v :: vs) -> k <= maxNestingDepth -> (length vs < room)%nat ->
  arrayItems room first ((if first then "" else ",") +:+ Join (v :: vs) "," +:+ "]") = JOk (v :: vs).
Proof.
  intros Hvs Hk. revert v room first Hvs. induction vs as [|w vs IH]; intros v room first Hl Hr;
    inversion Hl as [|? ? Hv Hl']; subst; (destruct room as [|room]; [lia|]).
  - assert (forall rest, rest = v +:+ "]" ->
      match rawValue rest with
      | None => JErr JParse
      | Some (item, rest) =>
          match arrayItems room false rest with JOk items => JOk (item :: items) | JErr e => JErr e end
      end = JOk [v]) as H.
    { intros rest ->. rewrite (rawValue_scans k) by done. by destruct room. }
    specialize (H _ eq_refl). destruct Hv as [(a & v' & -> & Ha & Hb & Hc) _]. cbn [Join].
    destruct first; cbn [arrayItems]; [|exact H]. rewrite str_app_nil_l, str_app_cons in *. cbn [skip_space]. rewrite Ha, Hb, Hc. exact H.
  - change (Join (v :: w :: vs) ",") with (v +:+ "," +:+ Join (w :: vs) ",").
    specialize (IH w room false Hl' ltac:(cbn in Hr; lia)). rewrite !str_app_assoc in *.
    set (J := "," +:+ Join (w :: vs) "," +:+ "]") in *.
    assert (forall rest, rest = v +:+ J ->
      match rawValue rest with
      | None => JErr JParse
      | Some (item, rest) =>
          match arrayItems room false rest with JOk items => JOk (item :: items) | JErr e => JErr e end
      end = JOk (v :: w :: vs)) as H.
    { intros rest ->. rewrite (rawValue_scans k) by done. by rewrite IH. }
    specialize (H _ eq_refl). destruct Hv as [(a & v' & -> & Ha & Hb & Hc) _].
    destruct first; cbn [arrayItems]; [|exact H]. rewrite str_app_nil_l, str_app_cons in *. cbn [skip_space]. rewrite Ha, Hb, Hc. exact H.
Qed.

Lemma decodeRawArray_values (k : Z) (vs : list string) (maxItems : nat) :
  Forall (scans k) vs -> k <= maxNestingDepth -> (length vs <= maxItems)%nat ->
  decodeRawArrayLimited (arrayText vs) maxItems = JOk vs.
Proof.
  intros Hl Hk Hn. unfold decodeRawArrayLimited, arrayText.
  change (CutPrefix (skip_space ("[" +:+ Join vs "," +:+ "]")) "[") with (CutPrefix (Join vs "," +:+ "]") "").
  assert (forall s, CutPrefix s "" = Some s) as -> by (by intros []).
  destruct vs as [|v vs]; [by destruct maxItems|]. cbn in Hn. by apply (arrayItems_values k v vs maxItems true).
Qed.

Lemma decode_quotes (l : list string) :
  Forall (fun s => ascii_text s = true) l -> stringList (map json_quote l) = Some l.
Proof.
  induction 1 as [|s l Hs _ IH]; [done|]. unfold stringList in *. cbn. rewrite decodeString_quote by done. cbn. by rewrite IH.
Qed.

Lemma scans_quotes (l : list string) : Forall (fun s => ascii_text s = true) l -> Forall (scans 0) (map json_quote l).
Proof. intros Hl. apply Forall_fmap. eapply Forall_impl; [exact Hl|]. apply scans_quote. Qed.

(** A list of texts as a parameter. *)
Lemma stringSliceParam_Marshal (params : list RawMessage) (i : nat) (l : list string) :
  params !! i = Some (MarshalStrings l) -> Forall (fun s => ascii_text s = true) l -> (length l <= 64)%nat ->
  stringSliceParam params i = Ok l.
Proof.
  intros Hp Hl Hn. unfold stringSliceParam. rewrite Hp. unfold startsWith. rewrite TrimSpace_Marshal by done.
  change (HasPrefix (MarshalStrings l) "[") with (HasPrefix (Join (map json_quote l) "," +:+ "]") "").
  assert (forall s, HasPrefix s "" = true) as -> by (by intros []). cbv iota.
  change (MarshalStrings l) with (arrayText (map json_quote l)).
  rewrite (decodeRawArray_values 0); [by rewrite decode_quotes|by apply scans_quotes|done|by rewrite length_map].
Qed.

(** *** A whole request *)

Definition fieldText (key v : string) : string := json_quote key +:+ ":" +:+ v.

(** A request as a client writes it. *)
Definition requestText (id method : string) (params : list string) : string :=
  "{" +:+ Join [fieldText "jsonrpc" (json_quote "2.0"); fieldText "id" (json_quote id);
                fieldText "method" (json_quote method); fieldText "params" (arrayText params)] "," +:+ "}".

(** A field from its key on. *)
Definition fieldAfter (room : nat) (values : gmap string string) (body : string) : jres (gmap string string) :=
  match json_literal (String.length body) body with
  | None => JErr JParse
  | Some (key, rest) =>
      match values !! key with
      | Some _ => JErr JOther
      | None =>
          match CutPrefix (skip_space rest) ":" with
          | None => JErr JParse
          | Some rest =>
              match rawValue rest with
              | None => JErr JParse
              | Some (value, rest) => objectFields room false (<[key := value]> values) rest
              end
          end
      end
  end.

Lemma CutPrefix_empty (s : string) : CutPrefix s "" = Some s.
Proof. by destruct s. Qed.

Lemma objectFields_key (room : nat) (first : bool) (values : gmap string string) (body : string) :
  objectFields (S room) first values ((if first then "" else ",") +:+ String quote_char body) = fieldAfter room values body.
Proof.
  transitivity (match CutPrefix body "" with Some body => fieldAfter room values body | None => JErr JParse end);
    [by destruct first|by rewrite CutPrefix_empty].
Qed.

Lemma objectFields_step (k : Z) (room : nat) (first : bool) (values : gmap string string) (key v t : string) :
  ascii_text key = true -> values !! key = None -> scans k v -> k <= maxNestingDepth ->
  objectFields (S room) first values ((if first then "" else ",") +:+ fieldText key v +:+ t)
  = objectFields room false (<[key := v]> values) t.
Proof.
  intros Hk Hnone Hv Hd. unfold fieldText, json_quote. rewrite !str_app_assoc, str_app_cons, objectFields_key.
  unfold fieldAfter. rewrite !str_app_assoc. change (String quote_char "" +:+ ?x) with (String quote_char x).
  rewrite json_literal_body; [|done|by apply json_body_quote_length|lia]. rewrite Hnone.
  change (CutPrefix (skip_space (":" +:+ v +:+ t)) ":") with (CutPrefix (v +:+ t) "").
  by rewrite CutPrefix_empty, (rawValue_scans k).
Qed.

Lemma requestText_ascii (id method : string) (params : list string) :
  ascii_text id = true -> ascii_text method = true -> Forall (fun s => ascii_text s = true) params ->
  TrimSpace (requestText id method params) = requestText id method params.
Proof.
  intros Hi Hm Hp. unfold TrimSpace, requestText. rewrite !str_app_cons, str_app_nil_l.
  rewrite trim_left_id by by apply lead_space_plain. rewrite <- str_app_cons. apply trim_right_ascii_app; [|done].
  cbn [forall_byte andb]. change (ascii_byte "{") with true. cbn [andb]. apply Join_ascii; [|done].
  repeat constructor; unfold ascii_text, fieldText; rewrite !forall_byte_app;
    repeat (apply andb_true_iff; split); try done; try by apply json_quote_ascii.
  unfold arrayText. rewrite !forall_byte_app. repeat (apply andb_true_iff; split); try done. by apply Join_ascii.
Qed.

(** An object with the members of a call is that call. *)
Lemma parse_object (k : Z) (text id method : string) (params : list string) (m : gmap string string) :
  ascii_text id = true -> len id <= 64 -> ascii_text method = true ->
  Forall (fun s => ascii_text s = true) params -> Forall (scans k) params -> 0 <= k -> k + 1 <= maxNestingDepth ->
  (length params <= 8)%nat ->
  decodeRawObjectLimited text maxRPCObjectFields = JOk m ->
  m !! "jsonrpc" = Some (json_quote "2.0") -> m !! "id" = Some (json_quote id) -> m !! "method" = Some (json_quote method) ->
  m !! "params" = Some (arrayText params) ->
  parseCall text = (mkCall "2.0" method params (Some (json_quote id)), None).
Proof.
  intros Hi Hil Hm Ha Hs Hk Hk' Hn Hdec H1 H2 H3 H4. unfold parseCall. rewrite Hdec. cbv zeta. rewrite !H1, !H2, !H3, !H4.
  unfold validRPCID.
  assert (decodeAny (json_quote id) = Some (AString id)) as ->.
  { pose proof (decodeString_quote id Hi) as H. unfold decodeString in H.
    destruct (decodeAny (json_quote id)) as [[]|] eqn:E; try done; [|by injection H as ->].
    exfalso. revert E. unfold decodeAny. pose proof (rawValue_quote id "" Hi) as Hr. rewrite str_app_nil_r in Hr. rewrite Hr.
    unfold json_quote. change (requireJSONEOF "") with true. change (Ascii.eqb quote_char quote_char) with true. cbv iota.
    by destruct (json_literal _ _) as [[]|]. }
  unfold maxRPCIDStringLen. destruct (Z.leb_spec (len id) 64); [|lia]. cbn [negb].
  rewrite !decodeString_quote by done.
  assert (TrimSpace (arrayText params) = arrayText params) as E.
  { unfold TrimSpace, arrayText. rewrite !str_app_cons, str_app_nil_l. rewrite trim_left_id by by apply lead_space_plain.
    rewrite <- str_app_cons. apply trim_right_ascii_app; [|done]. cbn [forall_byte]. by apply Join_ascii. }
  unfold startsWith. rewrite E. change (HasPrefix (arrayText params) "[") with (HasPrefix (Join params "," +:+ "]") "").
  assert (forall s, HasPrefix s "" = true) as -> by (by intros []). by rewrite (decodeRawArray_values k) by (done || lia).
Qed.

Lemma parse_request (k : Z) (id method : string) (params : list string) :
  ascii_text id = true -> len id <= 64 -> ascii_text method = true ->
  Forall (fun s => ascii_text s = true) params -> Forall (scans k) params -> 0 <= k -> k + 1 <= maxNestingDepth ->
  (length params <= 8)%nat ->
  parseCall (requestText id method params) = (mkCall "2.0" method params (Some (json_quote id)), None).
Proof.
  intros Hi Hil Hm Ha Hs Hk Hk' Hn.
  eapply (parse_object k _ _ _ _ (<["params" := arrayText params]> (<["method" := json_quote method]> (<["id" := json_quote id]>
            (<["jsonrpc" := json_quote "2.0"]> ∅))))); try done.
  unfold decodeRawObjectLimited, requestText, maxRPCObjectFields. cbn [Join].
  change (CutPrefix (skip_space ("{" +:+ ?x)) "{") with (CutPrefix x "").
  rewrite CutPrefix_empty, !str_app_assoc.
  assert (forall t, objectFields 16 true ∅ (fieldText "jsonrpc" (json_quote "2.0") +:+ t)
            = objectFields 15 false (<["jsonrpc" := json_quote "2.0"]> ∅) t) as ->.
  { intros t. apply (objectFields_step 0 15 true); first [done | by apply scans_quote]. }
  rewrite (objectFields_step 0 14 false) by first [done | by apply scans_quote].
  rewrite (objectFields_step 0 13 false) by first [done | by apply scans_quote].
  rewrite (objectFields_step (k + 1) 12 false) by first [done | by apply scans_array]. done.
Qed.

(** The request a client writes for [aria2.addUri], with any id, secret and list of
    URIs in ASCII, makes exactly one engine call: the one that adds those URIs, with the
    token stripped; the engine's answer is returned under the client's id. *)
Theorem rpc_add_uri_request {St : Type} {api : RPCEngine St} (secret id : string) (uris : list string) (st : St) :
  ascii_text secret = true -> ascii_text id = true -> len id <= 64 ->
  Forall (fun s => ascii_text s = true) uris -> uris <> [] -> (length uris <= 64)%nat ->
  HandlePayload secret (requestText id "aria2.addUri" [json_quote ("token:" +:+ secret); MarshalStrings uris]) st
  = let '(r, st') := perform (AddUriCall uris noOptions None) st in
    (Some (ReplyOne (mkRpcResponse (Some (json_quote id))
       match r with Ok v => inr (RValue v) | Err err => inl (rpcCode err, errorText err) end)), st').
Proof.
  intros Hs Hi Hil Hu Hne Hn. set (params := [_; _]).
  assert (ascii_text ("token:" +:+ secret) = true) as Ht by exact Hs.
  assert (Forall (fun s => ascii_text s = true) params) as Ha.
  { repeat constructor; [by apply json_quote_ascii|]. unfold MarshalStrings, ascii_text. rewrite !forall_byte_app.
    repeat (apply andb_true_iff; split); try done. apply Join_ascii; [|done]. apply Forall_fmap.
    eapply Forall_impl; [exact Hu|]. apply json_quote_ascii. }
  assert (Forall (scans 1) params) as Hsc.
  { constructor; [|constructor; [by apply (scans_array 0), scans_quotes|constructor]].
    pose proof (scans_quote ("token:" +:+ secret) Ht) as [H1 H2]. split; [done|]. intros fuel d t Hf Hd. apply H2; [done|lia]. }
  unfold HandlePayload. cbv zeta. rewrite requestText_ascii by done.
  change (String.eqb (requestText id "aria2.addUri" params) "") with false.
  change (HasPrefix (requestText id "aria2.addUri" params) "[") with false. cbv iota.
  unfold handleOne. rewrite (parse_request 1) by (done || (cbn; lia)). cbn [rc_Method rc_JSONRPC rc_Params rc_ID].
  change (String.eqb "aria2.addUri" "" || negb (String.eqb "2.0" "2.0")) with false. cbv iota.
  assert (stripSecret secret "aria2.addUri" params = Ok [MarshalStrings uris]) as ->.
  { unfold stripSecret, params. change (in_words "aria2.addUri" _) with false. cbv iota.
    rewrite decodeString_quote by done. change (CutPrefix ("token:" +:+ secret) "token:") with (CutPrefix secret "").
    rewrite CutPrefix_empty, String.eqb_refl. cbn [negb]. by rewrite andb_false_r. }
  unfold invoke. change (String.eqb "aria2.addUri" "system.multicall") with false. cbv iota. unfold invokeMethod.
  change (validateParamCount "aria2.addUri" (length [MarshalStrings uris])) with (@Ok unit tt). cbn [result_bind].
  assert (parseMethod "aria2.addUri" [MarshalStrings uris] = Ok (QCall (AddUriCall uris noOptions None))) as ->.
  { unfold parseMethod, parseChangeMethod. change (String.eqb "aria2.addUri" "aria2.addUri") with true. cbv zeta iota.
    rewrite (stringSliceParam_Marshal _ _ uris) by done. cbn [result_bind]. by destruct uris. }
  destruct (perform (AddUriCall uris noOptions None) st) as [[v|err] st']; reflexivity.
Qed.

(** ** How much one payload does *)

(** An engine that records the calls it gets; its answers are arbitrary. *)
Definition recorder (answers : apiCall -> list apiCall -> result value) : RPCEngine (list apiCall) :=
  fun c log => (answers c log, log ++ [c]).

Section bounded.
Context (answers : apiCall -> list apiCall -> result value) (secret : string).
Let api : RPCEngine (list apiCall) := recorder answers.
#[local] Existing Instance api.

(** A handler that adds at most [n] calls to the log. *)
Definition adds {A} (n : nat) (f : list apiCall -> A * list apiCall) : Prop :=
  forall log, (length (f log).2 <= length log + n)%nat.

Lemma invokeMethod_adds (method : string) (params : list RawMessage) : adds 1 (invokeMethod method params).
Proof.
  intros log. unfold invokeMethod. destruct (let! _count := _ in _) as [[c|names]|err]; cbn; try lia.
  rewrite length_app. cbn. lia.
Qed.

Lemma multicallOne_adds (raw : RawMessage) : adds 1 (multicallOne secret raw).
Proof.
  intros log. unfold multicallOne. cbv zeta. destruct (decodeRawObjectLimited raw 2) as [obj|]; [|cbn; lia].
  destruct (negb _); [cbn; lia|]. destruct (decodeString _) as [method|]; [|cbn; lia]. destruct (_ || _); [cbn; lia|].
  destruct (decodeRawArrayLimited _ _) as [params|]; [|cbn; lia]. destruct (stripSecret _ _ _) as [p|]; [|cbn; lia].
  pose proof (invokeMethod_adds method p log). by destruct (invokeMethod method p log).
Qed.

Lemma multicallLoop_adds (calls : list RawMessage) : adds (length calls) (multicallLoop secret calls).
Proof.
  induction calls as [|c calls IH]; intros log; cbn [multicallLoop length]; [cbn; lia|].
  pose proof (multicallOne_adds c log). destruct (multicallOne secret c log) as [e log1]. cbn in *.
  specialize (IH log1). destruct (multicallLoop secret calls log1). cbn in *. lia.
Qed.

Lemma invoke_adds (method : string) (params : list RawMessage) : adds 64 (invoke secret method params).
Proof.
  intros log. unfold invoke. destruct (String.eqb method "system.multicall").
  - destruct (validateParamCount _ _); [|cbn; lia]. unfold multicall.
    destruct (decodeRawArrayLimited _ _) as [calls|] eqn:E; [|cbn; lia]. apply decodeRawArray_length in E.
    pose proof (multicallLoop_adds calls log). destruct (multicallLoop secret calls log). cbn in *.
    unfold maxMulticallCalls in E. lia.
  - pose proof (invokeMethod_adds method params log). destruct (invokeMethod method params log). cbn in *. lia.
Qed.

Lemma handleOne_adds (raw : RawMessage) : adds 64 (handleOne secret raw).
Proof.
  intros log. unfold handleOne. destruct (parseCall raw) as [call [[e|code]|]].
  - destruct (isJSONParseError e); cbn; lia.
  - destruct (_ && _); cbn; lia.
  - destruct (_ || _); [cbn; lia|]. destruct (stripSecret _ _ _) as [params|]; [|cbn; lia].
    pose proof (invoke_adds (rc_Method call) params log). by destruct (invoke secret (rc_Method call) params log).
Qed.

Lemma handleBatch_adds (raws : list RawMessage) : adds (length raws * 64) (handleBatch secret raws).
Proof.
  induction raws as [|r raws IH]; intros log; cbn [handleBatch length]; [cbn; lia|].
  pose proof (handleOne_adds r log). destruct (handleOne secret r log) as [x log1]. cbn in *.
  specialize (IH log1). destruct (handleBatch secret raws log1). cbn in *. lia.
Qed.
End bounded.

(** One payload makes at most 4096 engine calls (64 calls in a batch, 64 in each
    multicall, which cannot be nested), whatever the payload and whatever the engine
    answers. *)
Theorem rpc_payload_calls_bounded (answers : apiCall -> list apiCall -> result value) (secret payload : string)
    (log : list apiCall) :
  (length (@HandlePayload _ (recorder answers) secret payload log).2 <= length log + 4096)%nat.
Proof.
  unfold HandlePayload. cbv zeta. destruct (String.eqb _ ""); [cbn; lia|]. destruct (HasPrefix _ _).
  - destruct (decodeRawArrayLimited _ _) as [[|raw raws]|[]] eqn:E; try (cbn; lia).
    apply decodeRawArray_length in E. pose proof (handleBatch_adds answers secret (raw :: raws) log).
    destruct (@handleBatch _ (recorder answers) secret (raw :: raws) log). cbn [fst snd] in *. unfold maxBatchCalls in E. lia.
  - pose proof (handleOne_adds answers secret (TrimSpace payload) log).
    destruct (@handleOne _ (recorder answers) secret (TrimSpace payload) log). cbn [fst snd] in *. lia.
Qed.

(** ** Witnesses *)

(** An engine that records its calls and answers OK. *)
Definition demoEngine : RPCEngine (list apiCall) := recorder (fun _ _ => Ok (RText "OK")).

(** Text with single quotes for double ones. *)
Fixpoint js (s : string) : string :=
  match s with "" => "" | String a s' => String (if Ascii.eqb a "'" then quote_char else a) (js s') end.

Definition demoForbidden : string :=
  js "[{'jsonrpc':'2.0','id':1,'method':'aria2.pauseAll'},{'jsonrpc':'2.0','id':2,'method':'system.multicall','params':[[{'methodName':'aria2.shutdown','params':['token:no']}]]}]".

Lemma rpc_secret_protects_engine_witness :
  payloadProvesSecret "s" demoForbidden = false
  /\ (exists answer, forall st, @HandlePayload _ demoEngine "s" demoForbidden st = (answer, st))
  /\ (@HandlePayload _ demoEngine "s" (js "{'jsonrpc':'2.0','id':1,'method':'aria2.pauseAll','params':['token:s']}") []).2
     = [PauseAllCall false].
Proof.
  assert (payloadProvesSecret "s" demoForbidden = false) as Hp by by vm_compute.
  split; [exact Hp|]. split; [|by vm_compute].
  exact (@rpc_secret_protects_engine _ demoEngine "s" demoForbidden ltac:(done) Hp).
Defined.

Lemma rpc_batch_answers_in_order_witness :
  exists raws responses,
    decodeRawArrayLimited (TrimSpace demoForbidden) maxBatchCalls = JOk raws /\ length raws = 2%nat
    /\ (@HandlePayload _ demoEngine "s" demoForbidden []).1 = Some (ReplyBatch responses)
    /\ map rp_ID responses = [Some "1"; Some "2"].
Proof.
  assert (HasPrefix (TrimSpace demoForbidden) "[" = true) as Hp by by vm_compute.
  assert (exists raws, decodeRawArrayLimited (TrimSpace demoForbidden) maxBatchCalls = JOk raws
            /\ length raws = 2%nat /\ omap answerID raws = [Some "1"; Some "2"]) as (raws & E & Hl & Hids).
  { eexists. split; [vm_compute; reflexivity|]. by vm_compute. }
  assert (raws <> []) as Hne by (intros ->; discriminate Hl).
  destruct (@rpc_batch_answers_in_order _ demoEngine "s" demoForbidden raws [] Hp E Hne) as (responses & H1 & H2).
  rewrite Hids in H2. exists raws, responses. split; [exact E|]. split; [exact Hl|]. split; [|exact H2].
  rewrite H1. destruct responses; [discriminate H2|reflexivity].
Defined.

Lemma rpc_add_uri_request_witness :
  @HandlePayload _ demoEngine "s"
    (requestText "q1" "aria2.addUri" [json_quote "token:s"; MarshalStrings ["http://h/a"; "http://h/b"]]) []
  = (Some (ReplyOne (mkRpcResponse (Some (json_quote "q1")) (inr (RValue (RText "OK"))))),
     [AddUriCall ["http://h/a"; "http://h/b"] noOptions None]).
Proof.
  apply (@rpc_add_uri_request _ demoEngine "s" "q1" ["http://h/a"; "http://h/b"] []);
    [done|done|by vm_compute|by repeat constructor|done|cbn; lia].
Defined.
