(* ===== verification/RpcEngine.v ===== *)
(** * The engine behind the RPC layer

    The instance of [RPCEngine] for the engine of [Engine]: each call performs the
    operation of the same name.  What an operation draws from outside (gids, the clock,
    torrent files, the outcomes of file operations) is numbered by the calls made so
    far.  Every engine call of a payload is a step of the system of [EngineInv], so what
    holds in all reachable states holds under any RPC traffic. *)
From S2P Require Import Prelude GoStrings GoURL Json JsonRaw Options Reservations Torrent Queue State Engine Query Session EngineInv EngineProps EngineSpec Downloader TorrentSource Rpc RpcSpec.

(** The engine with its session id and file, and the number of calls so far. *)
Record World := mkWorld { w_engine : Engine; w_sessionID : string; w_disk : sessionDisk; w_calls : nat }.
#[global] Instance eta_World : Eta World := fun w => mkWorld (w_engine w) (w_sessionID w) (w_disk w) (w_calls w).

(** What call number [n] draws. *)
Record Draws := mkDraws {
  dr_random : nat -> string; dr_now : nat -> Z; dr_fetch : nat -> string -> Options -> result string;
  dr_save : nat -> sessionIO
}.

Section instance.
Context {fs : FileSystem} {storage : TorrentStorage} {lib : TorrentLib} {peers : PeerLib} (draws : Draws).

(** A query's result leaves the engine as it is. *)
Definition query {A} (f : A -> value) (r : result A) (w : World) : result value * World :=
  (let! a := r in Ok (f a), w).

(** An operation's result with the engine it leaves. *)
Definition operation {A} (f : A -> value) (r : result A * Engine) (w : World) : result value * World :=
  (let! a := r.1 in Ok (f a), w <| w_engine := r.2 |>).

#[export] Instance enginePerform : RPCEngine World := fun c w =>
  let n := w_calls w in
  let w := w <| w_calls ::= S |> in
  let e := w_engine w in
  match c with
  | AddUriCall uris opts pos => operation RText (AddURI uris opts pos (dr_random draws n) (dr_now draws n) e) w
  | AddTorrentCall torrent uris opts pos =>
      operation RText (AddTorrent torrent uris opts pos (dr_fetch draws n torrent) (dr_random draws n) (dr_now draws n) e) w
  | AddMetalinkCall _ _ _ => (Err ErrUnsupportedMethod, w)
  | RemoveCall _ gid => operation RText (remove gid (dr_now draws n) e) w
  | PauseCall _ gid => operation RText (pause gid e) w
  | PauseAllCall _ => operation RText (Ok (PauseAll e).1, (PauseAll e).2) w
  | UnpauseCall gid => operation RText (Unpause gid e) w
  | UnpauseAllCall => operation RText (Ok (UnpauseAll e).1, (UnpauseAll e).2) w
  | TellStatusCall gid keys => query RStatus (TellStatus gid keys e) w
  | GetUrisCall gid => query RURIs (GetURIs gid e) w
  | GetFilesCall gid => query RFiles (GetFiles gid e) w
  | GetPeersCall gid => query RPeers (GetPeers gid e) w
  | GetServersCall gid => query RServers (GetServers gid e) w
  | TellActiveCall keys => query RStatuses (Ok (TellActive keys e)) w
  | TellWaitingCall offset num keys => query RStatuses (Ok (TellWaiting offset num keys e)) w
  | TellStoppedCall offset num keys => query RStatuses (Ok (TellStopped offset num keys e)) w
  | ChangePositionCall gid pos how => operation RPosition (ChangePosition gid pos how e) w
  | ChangeUriCall gid fileIndex del add pos =>
      operation (fun r => RCounts r.1 r.2) (ChangeURI gid fileIndex del add pos e) w
  | GetOptionCall gid => query ROptions (GetOption gid e) w
  | ChangeOptionCall gid opts => operation RText (ChangeOption gid opts e) w
  | GetGlobalOptionCall => query ROptions (Ok (GetGlobalOption e)) w
  | ChangeGlobalOptionCall opts => operation RText (ChangeGlobalOption opts e) w
  | GetGlobalStatCall => query RStat (Ok (GetGlobalStat e)) w
  | PurgeDownloadResultCall => operation RText (Ok (PurgeDownloadResult e).1, (PurgeDownloadResult e).2) w
  | RemoveDownloadResultCall gid => operation RText (RemoveDownloadResult gid e) w
  | GetVersionCall => query RVersion (Ok GetVersion) w
  | GetSessionInfoCall => query RSessionInfo (Ok (w_sessionID w)) w
  | ShutdownCall force => operation RText (Ok "OK", RequestShutdown force e) w
  | SaveSessionCall =>
      let '(r, disk) := SaveSession e (dr_save draws n) (w_disk w) in
      (let! s := r in Ok (RText s), w <| w_disk := disk |>)
  end.

(** ** Payloads are engine steps *)

(** The system an engine and its runs form goes on from [w] to [w']. *)
Definition advances (runs : list run) (w w' : World) : Prop :=
  reachable (mkSys (w_engine w) runs) -> reachable (mkSys (w_engine w') runs).

Lemma advances_refl (runs : list run) (w : World) : advances runs w w.
Proof. by intros H. Qed.
#[local] Hint Resolve advances_refl : core.

Lemma advances_trans (runs : list run) (w1 w2 w3 : World) : advances runs w1 w2 -> advances runs w2 w3 -> advances runs w1 w3.
Proof. unfold advances. auto. Qed.

Lemma advances_call (runs : list run) (w w' : World) (c : call) : w_engine w' = run_call c (w_engine w) -> advances runs w w'.
Proof. intros E H. rewrite E. eapply reach_step; [exact H|]. constructor. Qed.

Lemma advances_same (runs : list run) (w w' : World) : w_engine w' = w_engine w -> advances runs w w'.
Proof. unfold advances. by intros ->. Qed.

Lemma perform_advances (runs : list run) (c : apiCall) (w : World) : advances runs w (perform c w).2.
Proof.
  destruct c; cbn [perform enginePerform]; unfold operation, query; cbn [fst snd];
    try (apply advances_same; reflexivity).
  - by apply (advances_call _ _ _ (CAddURI uris opts pos (dr_random draws (w_calls w)) (dr_now draws (w_calls w)))).
  - unfold AddTorrent. destruct (addTorrentBegin _ _ _) as [merged|err]; [|by apply advances_same].
    by apply (advances_call _ _ _ (CAddTorrent merged (resolveTorrentSource torrent merged (dr_fetch draws (w_calls w) torrent merged))
              uris pos (dr_random draws (w_calls w)) (dr_now draws (w_calls w)))).
  - by apply (advances_call _ _ _ (CRemove gid (dr_now draws (w_calls w)))).
  - by apply (advances_call _ _ _ (CPause gid)).
  - by apply (advances_call _ _ _ CPauseAll).
  - by apply (advances_call _ _ _ (CUnpause gid)).
  - by apply (advances_call _ _ _ CUnpauseAll).
  - by apply (advances_call _ _ _ (CChangePosition gid pos how)).
  - by apply (advances_call _ _ _ (CChangeURI gid fileIndex del add pos)).
  - by apply (advances_call _ _ _ (CChangeOption gid opts)).
  - by apply (advances_call _ _ _ (CChangeGlobalOption opts)).
  - by apply (advances_call _ _ _ CPurge).
  - by apply (advances_call _ _ _ (CRemoveResult gid)).
  - by apply (advances_call _ _ _ (CRequestShutdown force)).
  - destruct (SaveSession _ _ _). by apply advances_same.
Qed.

(** A handler whose engine calls are steps. *)
Definition steps {A} (runs : list run) (f : World -> A * World) : Prop := forall w, advances runs w (f w).2.

Lemma invokeMethod_steps (runs : list run) (method : string) (params : list RawMessage) : steps runs (invokeMethod method params).
Proof.
  intros w. unfold invokeMethod. destruct (let! _count := _ in _) as [[c|names]|err]; [|done|done]. apply perform_advances.
Qed.

Lemma multicallOne_steps (runs : list run) (secret : string) (raw : RawMessage) : steps runs (multicallOne secret raw).
Proof.
  intros w. unfold multicallOne. cbv zeta. destruct (decodeRawObjectLimited raw 2) as [obj|]; [|done].
  destruct (negb _); [done|]. destruct (decodeString _) as [method|]; [|done]. destruct (_ || _); [done|].
  destruct (decodeRawArrayLimited _ _) as [params|]; [|done]. destruct (stripSecret _ _ _) as [p|]; [|done].
  pose proof (invokeMethod_steps runs method p w) as H. by destruct (invokeMethod method p w).
Qed.

Lemma multicallLoop_steps (runs : list run) (secret : string) (calls : list RawMessage) : steps runs (multicallLoop secret calls).
Proof.
  induction calls as [|c calls IH]; intros w; cbn [multicallLoop]; [done|].
  pose proof (multicallOne_steps runs secret c w) as H. destruct (multicallOne secret c w) as [e w1].
  specialize (IH w1). destruct (multicallLoop secret calls w1). by eapply advances_trans.
Qed.

Lemma invoke_steps (runs : list run) (secret method : string) (params : list RawMessage) : steps runs (invoke secret method params).
Proof.
  intros w. unfold invoke. destruct (String.eqb method "system.multicall").
  - destruct (validateParamCount _ _); [|done]. unfold multicall. destruct (decodeRawArrayLimited _ _) as [calls|]; [|done].
    pose proof (multicallLoop_steps runs secret calls w) as H. by destruct (multicallLoop secret calls w).
  - pose proof (invokeMethod_steps runs method params w) as H. by destruct (invokeMethod method params w).
Qed.

Lemma handleOne_steps (runs : list run) (secret : string) (raw : RawMessage) : steps runs (handleOne secret raw).
Proof.
  intros w. unfold handleOne. destruct (parseCall raw) as [call [[e|code]|]].
  - by destruct (isJSONParseError e).
  - by destruct (_ && _).
  - destruct (_ || _); [done|]. destruct (stripSecret _ _ _) as [params|]; [|done].
    pose proof (invoke_steps runs secret (rc_Method call) params w) as H. by destruct (invoke secret (rc_Method call) params w).
Qed.

Lemma handleBatch_steps (runs : list run) (secret : string) (raws : list RawMessage) : steps runs (handleBatch secret raws).
Proof.
  induction raws as [|r raws IH]; intros w; cbn [handleBatch]; [done|].
  pose proof (handleOne_steps runs secret r w) as H. destruct (handleOne secret r w) as [x w1].
  specialize (IH w1). destruct (handleBatch secret raws w1). by eapply advances_trans.
Qed.

Lemma HandlePayload_steps (runs : list run) (secret payload : string) : steps runs (HandlePayload secret payload).
Proof.
  intros w. unfold HandlePayload. cbv zeta. destruct (String.eqb _ ""); [done|]. destruct (HasPrefix _ _).
  - destruct (decodeRawArrayLimited _ _) as [[|raw raws]|[]]; try done.
    pose proof (handleBatch_steps runs secret (raw :: raws) w) as H. by destruct (handleBatch secret (raw :: raws) w).
  - pose proof (handleOne_steps runs secret (TrimSpace payload) w) as H. by destruct (handleOne secret (TrimSpace payload) w).
Qed.

(** C23: no RPC traffic breaks the engine: whatever sequence of payloads clients send,
    from any reachable state of the engine with its runs, the engine is in a reachable
    state of its transition system and its invariant holds. *)
Theorem rpc_traffic_keeps_invariant (secret : string) (payloads : list string) (runs : list run) (w : World) :
  reachable (mkSys (w_engine w) runs) ->
  let w' := foldl (fun w payload => (HandlePayload secret payload w).2) w payloads in
  reachable (mkSys (w_engine w') runs) /\ Inv (mkSys (w_engine w') runs).
Proof.
  cbv zeta. revert w. induction payloads as [|p payloads IH]; intros w HR; cbn [foldl].
  - split; [done|]. by apply Inv_reachable.
  - by apply IH, (HandlePayload_steps runs secret p w).
Qed.
End instance.

(** ** A run of the whole stack *)

Definition demoDraws : Draws :=
  mkDraws (fun n => "g" +:+ Itoa (Z.of_nat n)) (fun n => Z.of_nat n) (fun _ _ _ => Err ENotExist)
    (fun _ => mkIO (Ok tt) (Ok tt) (Ok tt) (Ok tt) (Ok tt) (Ok tt) (Ok tt)).

Definition demoWorld : World :=
  mkWorld (s_engine (boot "/d" (mkConfig "" 0 0 "" ""))) "session" (mkDisk None None) 0.

(** Two downloads are added, one with the wrong secret, and the queue is reordered. *)
Definition demoPayloads : list string :=
  [requestText "1" "aria2.addUri" [json_quote "token:s"; MarshalStrings ["http://h/a"]];
   requestText "2" "aria2.addUri" [json_quote "token:x"; MarshalStrings ["http://h/b"]];
   requestText "3" "aria2.addUri" [json_quote "token:s"; MarshalStrings ["http://h/c"]];
   requestText "4" "aria2.changePosition" [json_quote "token:s"; json_quote "g1"; "0"; json_quote "POS_SET"]].

Lemma rpc_traffic_keeps_invariant_witness :
  let api := @enginePerform exampleFS sampleStorage demoLib (fun _ => []) demoDraws in
  let w := foldl (fun w payload => (@HandlePayload _ api "s" payload w).2) demoWorld demoPayloads in
  e_waiting (w_engine w) = ["g1"; "g0"] /\ Inv (mkSys (w_engine w) []).
Proof.
  cbv zeta. split; [by vm_compute|].
  apply (@rpc_traffic_keeps_invariant exampleFS sampleStorage demoLib (fun _ => []) demoDraws "s" demoPayloads [] demoWorld).
  apply reach_init. left. by eexists _, _.
Defined.
