(* ===== verification/RpcTypes.v ===== *)
(** * The types of RPC results

    Every method answers with a value of its own type, whatever the parameters and the
    state of the engine; the entries of a status map have the kinds their keys announce:
    numbers in decimal, truth values, status names, files and torrent information. *)
From S2P Require Import Prelude GoStrings GoURL GoNet Json JsonRaw Options Reservations Torrent Queue State Engine Query QuerySpec Session EngineInv EngineProps EngineSpec Downloader TorrentSource Rpc RpcSpec RpcEngine.

(** ** Types *)

Inductive valueType :=
| TText | TTexts | TStatus | TStatuses | TURIs | TFiles | TPeers | TServers | TPosition | TCounts | TOptions | TStat | TVersion | TSessionInfo.

Definition typeOf (v : value) : valueType :=
  match v with
  | RText _ => TText | RTexts _ => TTexts | RStatus _ => TStatus | RStatuses _ => TStatuses | RURIs _ => TURIs
  | RFiles _ => TFiles | RPeers _ => TPeers | RServers _ => TServers | RPosition _ => TPosition | RCounts _ _ => TCounts
  | ROptions _ => TOptions | RStat _ => TStat | RVersion _ => TVersion | RSessionInfo _ => TSessionInfo
  end.

Definition callType (c : apiCall) : valueType :=
  match c with
  | TellStatusCall _ _ => TStatus
  | GetUrisCall _ => TURIs
  | GetFilesCall _ => TFiles
  | GetPeersCall _ => TPeers
  | GetServersCall _ => TServers
  | TellActiveCall _ | TellWaitingCall _ _ _ | TellStoppedCall _ _ _ => TStatuses
  | ChangePositionCall _ _ _ => TPosition
  | ChangeUriCall _ _ _ _ _ => TCounts
  | GetOptionCall _ | GetGlobalOptionCall => TOptions
  | GetGlobalStatCall => TStat
  | GetVersionCall => TVersion
  | GetSessionInfoCall => TSessionInfo
  | _ => TText
  end.

(** The methods whose result is not a text. *)
Definition resultTypes : list (string * valueType) :=
  [("aria2.tellStatus", TStatus); ("aria2.getUris", TURIs); ("aria2.getFiles", TFiles); ("aria2.getPeers", TPeers);
   ("aria2.getServers", TServers); ("aria2.tellActive", TStatuses); ("aria2.tellWaiting", TStatuses);
   ("aria2.tellStopped", TStatuses); ("aria2.changePosition", TPosition); ("aria2.changeUri", TCounts);
   ("aria2.getOption", TOptions); ("aria2.getGlobalOption", TOptions); ("aria2.getGlobalStat", TStat);
   ("aria2.getVersion", TVersion); ("aria2.getSessionInfo", TSessionInfo); ("system.listMethods", TTexts);
   ("system.listNotifications", TTexts)].

Definition resultType (method : string) : valueType :=
  default TText ((list_to_map resultTypes : gmap string valueType) !! method).

(** ** The kinds of the entries of a status map *)

Inductive fieldKind := KText | KNumber | KBool | KStatus | KFiles | KBittorrent.

Definition fieldKindOf (key : string) : fieldKind :=
  if in_words key ["totalLength"; "completedLength"; "uploadLength"; "downloadSpeed"; "uploadSpeed"; "connections";
                   "numPieces"; "pieceLength"; "numSeeders"] then KNumber
  else if String.eqb key "seeder" then KBool
  else if String.eqb key "status" then KStatus
  else if String.eqb key "files" then KFiles
  else if String.eqb key "bittorrent" then KBittorrent
  else KText.

Definition field_typed (k : fieldKind) (f : field) : Prop :=
  match k, f with
  | KText, FText _ => True
  | KNumber, FText s => exists n, s = FormatInt n
  | KBool, FText s => s = "true" \/ s = "false"
  | KStatus, FText s => s ∈ ["active"; "waiting"; "paused"; "error"; "complete"; "removed"]
  | KFiles, FFiles _ => True
  | KBittorrent, FBittorrent _ => True
  | _, _ => False
  end.

Definition status_typed (m : gmap string field) : Prop := forall key f, m !! key = Some f -> field_typed (fieldKindOf key) f.

Definition value_typed (t : valueType) (v : value) : Prop :=
  typeOf v = t /\ match v with
                  | RStatus m => status_typed m
                  | RStatuses l => Forall status_typed l
                  | _ => True
                  end.

(** ** Snapshots *)

Lemma statusText_word (s : Status) : statusText s ∈ ["active"; "waiting"; "paused"; "error"; "complete"; "removed"].
Proof. destruct s; vm_compute; repeat constructor. Qed.

Lemma snapshotKey_typed (d : Download) (key : string) (f : field) :
  snapshotKey d key = Some f -> field_typed (fieldKindOf key) f.
Proof.
  unfold snapshotKey. intros H.
  repeat (match type of H with (if String.eqb key ?k then _ else _) = _ => destruct (String.eqb_spec key k) as [->|_] end;
    [repeat (match type of H with (if ?b then _ else _) = _ => destruct b end); try discriminate H;
     try (injection H as <-; cbn;
          first [exact I | eexists; reflexivity | exists 0; reflexivity | apply statusText_word
                | unfold FormatBool; destruct (d_seeder d); auto])|]).
  - destruct (d_bittorrent d); [injection H as <-; exact I|discriminate H].
  - discriminate H.
Qed.

Lemma snapshot_typed (keys : list string) (d : Download) : status_typed (snapshot keys d).
Proof.
  intros key f H. apply (snapshotKey_typed d). destruct keys as [|k keys].
  - by rewrite <- snapshotAll_key.
  - unfold snapshot in H. rewrite snapshot_fold in H. case_bool_decide; [|by rewrite lookup_empty in H].
    by destruct (snapshotKey d key).
Qed.

Lemma snapshots_typed (keys : list string) (l : list Download) : Forall status_typed (map (snapshot keys) l).
Proof. apply Forall_fmap, Forall_forall. intros d _. apply snapshot_typed. Qed.

(** ** Methods *)

Lemma addTorrent_call (params : list RawMessage) (c : apiCall) : addTorrentParams params = Ok c -> callType c = TText.
Proof.
  unfold addTorrentParams. intros (t & _ & H)%result_bind_ok. case_bool_decide; [|by injection H as <-].
  destruct (optionalStringSliceParam params 1).
  - apply result_bind_ok in H as (? & _ & H). apply result_bind_ok in H as (? & _ & H). by injection H as <-.
  - case_bool_decide; [discriminate H|]. apply result_bind_ok in H as (? & _ & H). apply result_bind_ok in H as (? & _ & H).
    by injection H as <-.
Qed.

(** A method parses to calls of its type. *)
Definition request_typed (t : valueType) (r : request) : Prop :=
  match r with QCall c => callType c = t | QNames _ => t = TTexts end.

Ltac parsed H :=
  repeat (let x := fresh "x" in let E := fresh "E" in apply result_bind_ok in H as (x & E & H));
  first [injection H as <-; reflexivity | discriminate H].

Lemma parseMethod_typed (method : string) (params : list RawMessage) (r : request) :
  parseMethod method params = Ok r -> request_typed (resultType method) r.
Proof.
  unfold parseMethod, parseChangeMethod, withGid. intros H.
  repeat (match type of H with (if String.eqb method ?k then _ else _) = _ => destruct (String.eqb_spec method k) as [->|_] end;
    [first [parsed H
           | apply result_bind_ok in H as (c & Hc%addTorrent_call & H); injection H as <-; exact Hc
           | apply result_bind_ok in H as ([|u uris] & E & H); [discriminate H|parsed H]]|]).
  discriminate H.
Qed.

Section results.
Context {fs : FileSystem} {storage : TorrentStorage} {lib : TorrentLib} {peers : PeerLib} (draws : Draws).

#[local] Existing Instance enginePerform.

Lemma query_typed {A} (t : valueType) (f : A -> value) (r : result A) (w : World) :
  (forall a, r = Ok a -> value_typed t (f a)) -> forall v, (query f r w).1 = Ok v -> value_typed t v.
Proof. intros Hf v (a & Ha & [= <-])%result_bind_ok. auto. Qed.

Lemma operation_typed {A} (t : valueType) (f : A -> value) (r : result A * Engine) (w : World) :
  (forall a, value_typed t (f a)) -> forall v, (operation f r w).1 = Ok v -> value_typed t v.
Proof. intros Hf v (a & _ & [= <-])%result_bind_ok. auto. Qed.

Lemma perform_typed (c : apiCall) (w : World) (v : value) :
  (@perform World (enginePerform draws) c w).1 = Ok v -> value_typed (callType c) v.
Proof.
  destruct c; cbn [perform enginePerform callType];
    try (apply operation_typed; done);
    try (apply query_typed; intros a Ha; try done).
  - done.
  - split; [done|]. apply result_bind_ok in Ha as (? & _ & [= <-]). apply snapshot_typed.
  - split; [done|]. injection Ha as <-. apply snapshots_typed.
  - split; [done|]. injection Ha as <-. apply snapshots_typed.
  - split; [done|]. injection Ha as <-. apply snapshots_typed.
  - destruct (SaveSession _ _ _) as [r disk]. cbn [fst]. intros (a & _ & [= <-])%result_bind_ok. done.
Qed.

Lemma invokeMethod_typed (method : string) (params : list RawMessage) (w : World) (v : value) :
  (@invokeMethod World (enginePerform draws) method params w).1 = Ok v -> value_typed (resultType method) v.
Proof.
  unfold invokeMethod. destruct (let! _count := _ in _) as [[c|names]|err] eqn:E; [| |discriminate].
  - apply result_bind_ok in E as (? & _ & E%parseMethod_typed). cbn in E. rewrite <- E. apply perform_typed.
  - apply result_bind_ok in E as (? & _ & E%parseMethod_typed). cbn in E. rewrite E. by intros [= <-].
Qed.

Definition entry_typed (entry : multiEntry) : Prop :=
  match entry with Single v => exists method, value_typed (resultType method) v | Fault _ _ => True end.

Lemma multicallOne_typed (secret : string) (raw : RawMessage) (w : World) :
  entry_typed (@multicallOne World (enginePerform draws) secret raw w).1.
Proof.
  unfold multicallOne. cbv zeta. destruct (decodeRawObjectLimited raw 2) as [obj|]; [|done].
  destruct (negb _); [done|]. destruct (decodeString _) as [method|]; [|done]. destruct (_ || _); [done|].
  destruct (decodeRawArrayLimited _ _) as [params|]; [|done]. destruct (stripSecret _ _ _) as [p|]; [|done].
  pose proof (invokeMethod_typed method p w) as H. destruct (invokeMethod method p w) as [[v|err] w']; [|done].
  exists method. by apply H.
Qed.

Lemma multicallLoop_typed (secret : string) (calls : list RawMessage) (w : World) :
  Forall entry_typed (@multicallLoop World (enginePerform draws) secret calls w).1.
Proof.
  revert w. induction calls as [|raw calls IH]; intros w; cbn [multicallLoop]; [constructor|].
  pose proof (multicallOne_typed secret raw w) as H1. destruct (multicallOne secret raw w) as [entry w1].
  specialize (IH w1). destruct (multicallLoop secret calls w1) as [entries w2]. by constructor.
Qed.

(** C38: every method that succeeds answers with a value of its own type, whatever its
    parameters and the state of the engine; the entries of status maps have the kinds
    their keys announce; and a multicall answers with faults and with values of methods'
    types. *)
Theorem rpc_results_typed (secret method : string) (params : list RawMessage) (w : World) (r : rpcResult) :
  (@invoke World (enginePerform draws) secret method params w).1 = Ok r ->
  match r with
  | RValue v => value_typed (resultType method) v
  | RMulti entries => method = "system.multicall" /\ Forall entry_typed entries
  end.
Proof.
  unfold invoke. destruct (String.eqb_spec method "system.multicall") as [->|Hm].
  - destruct (validateParamCount _ _); [|discriminate]. unfold multicall.
    destruct (decodeRawArrayLimited _ _) as [calls|]; [|discriminate].
    pose proof (multicallLoop_typed secret calls w) as H. destruct (multicallLoop secret calls w) as [entries w']. by intros [= <-].
  - pose proof (invokeMethod_typed method params w) as H. destruct (invokeMethod method params w) as [r0 w']. cbn [fst] in *.
    intros (v & -> & [= <-])%result_bind_ok. by apply H.
Qed.
End results.

(** After two downloads were added, one of them is asked for by number and name. *)
Abbreviation demoApi := (@enginePerform exampleFS sampleStorage demoLib (fun _ => []) demoDraws).
Abbreviation demoAdded := (foldl (fun w payload => (@HandlePayload _ demoApi "s" payload w).2) demoWorld demoPayloads).
Abbreviation demoAsk := (@invoke _ demoApi "s" "aria2.tellStatus" [json_quote "g1"] demoAdded).

Lemma rpc_results_typed_witness :
  match demoAsk.1 with
  | Ok (RValue v) => value_typed TStatus v
  | _ => False
  end.
Proof.
  assert (match demoAsk.1 with Ok (RValue _) => true | _ => false end = true) as Hc by (vm_compute; reflexivity).
  pose proof (@rpc_results_typed exampleFS sampleStorage demoLib (fun _ => []) demoDraws "s" "aria2.tellStatus" [json_quote "g1"] demoAdded) as H.
  destruct demoAsk.1 as [[v|entries]|err]; [exact (H _ eq_refl)|discriminate Hc|discriminate Hc].
Defined.
