(* ===== verification/DownloaderSpec.v ===== *)
(** * Properties of HTTP downloads ([downloader.go])

    The copy loop accounts for every byte it writes; the loop of a segmented download
    ends successfully only when every byte of every range is there; concurrency stays
    inside the ceiling and below what the server has rejected; the limiter makes
    progress. *)
From Stdlib Require Import SpecFloat.
From S2P Require Import Prelude GoStrings GoPath GoURL Pieces Options Http Reservations Torrent State Engine Progress Downloader.

(** ** Vocabulary *)

Definition sumFlushes (l : list Z) : Z := sumZ l.

(** A copy of at most [expected] bytes reports what it wrote. *)
Definition copy_ok (expected : Z) (c : copyResult) : Prop :=
  Forall (fun n => 0 < n) (cp_flushes c) /\ cp_count c = sumZ (cp_flushes c) /\ 0 <= cp_count c <= expected.

Definition rangeSize (r : chunkRange) : Z := ch_end r - ch_start r + 1.

(** What the worker of a range may do: its flushes never exceed the range, fill it when
    it succeeds, and are what its error says when it fails in the body. *)
Definition bodyBytes (err : error) : option Z := errors_find (fun e => match e with ERangeBody _ n => Some n | _ => None end) err.

Definition worker_run_ok (size : Z) (flushes : list Z) (r : result unit) : Prop :=
  Forall (fun n => 0 < n) flushes /\ sumZ flushes <= size
  /\ match r with
     | Ok _ => sumZ flushes = size
     | Err err => sumZ flushes = default 0 (bodyBytes err)
     end.

(** ** Lemmas: the copy loop *)

Lemma sumZ_app (l l' : list Z) : sumZ (l ++ l') = sumZ l + sumZ l'.
Proof. unfold sumZ. induction l as [|x l IH]; cbn; lia. Qed.

Lemma sumZ_pos (l : list Z) : Forall (fun n => 0 < n) l -> 0 <= sumZ l.
Proof. induction 1; unfold sumZ in *; cbn; lia. Qed.

Lemma flushed_sum (pending : Z) (fl : list Z) : 0 <= pending -> sumZ (flushed pending fl) = sumZ fl + pending.
Proof. intros H. unfold flushed. destruct (Z.ltb_spec 0 pending); [rewrite sumZ_app; unfold sumZ; cbn; lia|lia]. Qed.

Lemma flushed_pos (pending : Z) (fl : list Z) :
  Forall (fun n => 0 < n) fl -> Forall (fun n => 0 < n) (flushed pending fl).
Proof.
  intros H. unfold flushed. destruct (Z.ltb_spec 0 pending); [|done]. apply Forall_app. split; [done|].
  by constructor.
Qed.

(** Ending a copy. *)
Lemma copy_end (expected written pending : Z) (fl : list Z) (r : result unit) :
  Forall (fun n => 0 < n) fl -> 0 <= pending -> written = sumZ fl + pending -> 0 <= written <= expected ->
  copy_ok expected (mkCopy written (flushed pending fl) r).
Proof.
  intros Hf Hp Hw Hr. unfold copy_ok. cbn [cp_count cp_flushes]. split_and!; [by apply flushed_pos|rewrite flushed_sum by done; lia|lia|lia].
Qed.

Lemma copyLoop_ok (lowest expected : Z) (steps : list copyStep) (remaining written pending : Z) (fl : list Z) :
  0 <= expected <= max_int64 -> Forall (fun n => 0 < n) fl -> 0 <= pending -> written = sumZ fl + pending ->
  0 <= written -> 0 <= remaining -> written + remaining <= expected ->
  copy_ok expected (copyLoop lowest steps (Some remaining) written pending fl).
Proof.
  intros He. revert remaining written pending fl.
  induction steps as [|s steps IH]; intros remaining written pending fl Hf Hp Hw Hw0 Hr Hsum; cbn [copyLoop].
  { apply copy_end; try done; lia. }
  destruct (cs_ctx s); [apply copy_end; try done; lia|].
  assert (forall er k p f rest, Forall (fun n => 0 < n) f -> 0 <= p -> k = sumZ f + p -> 0 <= k -> 0 <= rest ->
    k + rest <= expected ->
    copy_ok expected (match afterRead er k p f with
                      | Some result => result
                      | None => copyLoop lowest steps (Some rest) k p f
                      end)) as Hafter.
  { intros er k p f rest Hf' Hp' Hk Hk0 Hrest Hle. unfold afterRead. destruct er; [|by apply IH]. apply copy_end; try done; lia. }
  destruct (Z.leb_spec remaining 0).
  { cbn. apply copy_end; try done; lia. }
  set (nr := Z.min (Z.of_N (cs_read s)) remaining). assert (0 <= nr <= remaining) by (unfold nr; lia).
  destruct (Z.leb_spec nr 0); [apply Hafter; try done; lia|].
  destruct (cs_wait s); [apply copy_end; try done; lia|]. cbv zeta. set (nw := Z.min (Z.of_N (cs_written s)) nr).
  assert (nw <= nr) by (unfold nw; lia).
  destruct (Z.ltb_spec 0 nw) as [Hnw|Hnw].
  - pose proof (sumZ_pos fl Hf). unfold addInt64.
    rewrite !wrap64_id by (unfold in_int64, min_int64, max_int64 in *; lia). cbn [andb].
    destruct ((progressFlushBytes <=? pending + nw) || (0 <? lowest)).
    + assert (Forall (fun n => 0 < n) (flushed (pending + nw) fl)) as Hf' by by apply flushed_pos.
      assert (written + nw = sumZ (flushed (pending + nw) fl) + 0) as Hw' by (rewrite flushed_sum; lia).
      destruct (checkSpeed _ _ _).
      { unfold copy_ok. cbn [cp_count cp_flushes]. split_and!; try done; lia. }
      destruct (cs_writeErr s); [apply copy_end; try done; lia|].
      destruct (negb (nr =? nw)) eqn:E; [apply copy_end; try done; lia|]. zbool. apply Hafter; try done; lia.
    + destruct (cs_writeErr s); [apply copy_end; try done; lia|].
      destruct (negb (nr =? nw)) eqn:E; [apply copy_end; try done; lia|]. zbool. apply Hafter; try done; lia.
  - cbn [andb]. destruct (cs_writeErr s); [apply copy_end; try done; lia|].
    destruct (negb (nr =? nw)) eqn:E; [apply copy_end; try done; lia|]. zbool. lia.
Qed.

Lemma copyExact_ok (lowest expected : Z) (steps : list copyStep) :
  0 <= expected <= max_int64 ->
  let c := copyExactWithProgressCount lowest steps expected in
  copy_ok expected c /\ (cp_result c = Ok tt -> cp_count c = expected).
Proof.
  intros He. cbv zeta. unfold copyExactWithProgressCount.
  pose proof (copyLoop_ok lowest expected steps expected 0 0 []) as Hc. cbv zeta.
  assert (copy_ok expected (copyLoop lowest steps (Some expected) 0 0 [])) as Hok by (apply Hc; try done; lia).
  destruct (copyLoop _ _ _ _ _ _) as [n fl r]. cbn in *. destruct r as [[]|err]; [|done].
  destruct (Z.eqb_spec n expected); [done|]. by split.
Qed.

Lemma bodyBytes_protocol {A} (msg : string) (err : error) : @protocolError A msg = Err err -> bodyBytes err = None.
Proof. unfold protocolError. by intros [= <-]. Qed.

Lemma validateExact_error (resp : Response) (first last total : Z) (err : error) :
  validateExactRangeResponse resp first last total = Err err -> bodyBytes err = None.
Proof.
  unfold validateExactRangeResponse, validatePartialContentRange, validateContentRangeLength, totalError, protocolError,
    result_bind.
  intros H. repeat case_match; simplify_eq; done.
Qed.

(** A range request whose file closes accounts for its bytes. *)
Lemma downloadRange_ok (meta : remoteMeta) (opts : Options) (r : chunkRange) (io : rangeIO) :
  0 <= ch_start r <= ch_end r -> ch_end r < max_int64 -> ri_close io = Ok tt ->
  (forall err, ri_newRequest io = Err err -> bodyBytes err = None) ->
  (forall err, ri_do io = Err err -> bodyBytes err = None) ->
  (forall err, ri_open io = Err err -> bodyBytes err = None) ->
  (forall err, ri_seek io = Err err -> bodyBytes err = None) ->
  worker_run_ok (rangeSize r) (downloadRange meta opts r io).1 (downloadRange meta opts r io).2.
Proof.
  intros Hr Hm Hclose Hnew Hdo Hopen Hseek. unfold downloadRange.
  assert (forall err, bodyBytes err = None -> worker_run_ok (rangeSize r) [] (Err err)) as Hfail.
  { intros err E. unfold worker_run_ok, rangeSize. rewrite E. cbn. split_and!; [done|lia|done]. }
  destruct (ri_newRequest io) as [[]|err]; [|by apply Hfail, Hnew].
  destruct (ri_do io) as [resp|err]; [|by apply Hfail, Hdo]. destruct (negb _); [by apply Hfail|].
  destruct (validateExactRangeResponse _ _ _ _) as [cr|err] eqn:E.
  2:{ apply Hfail. by eapply validateExact_error. }
  destruct (ri_open io) as [[]|err]; [|by apply Hfail, Hopen].
  destruct (ri_seek io) as [[]|err]; [|rewrite Hclose; cbn [joinError]; by apply Hfail, Hseek].
  unfold addInt64. rewrite !wrap64_id by (rewrite ?wrap64_id; unfold in_int64, min_int64, max_int64 in *; lia).
  fold (rangeSize r). destruct (copyExact_ok (optionBytes opts "lowest-speed-limit" 0) (rangeSize r) (ri_steps io))
    as [(Hf & Hc & Hle) Hok]; [unfold rangeSize; lia|].
  destruct (copyExactWithProgressCount _ _ _) as [n fl res]. cbn [cp_flushes cp_count cp_result fst snd] in *.
  unfold worker_run_ok. destruct res as [[]|err]; cbn [fst snd].
  - rewrite Hclose. split_and!; [done|lia|]. rewrite <- Hc. by apply Hok.
  - split_and!; [done|lia|]. by rewrite <- Hc.
Qed.

(** ** Lemmas: one report to the download *)

Lemma seg_state_ext (total n : Z) (pieces : gset Z) (d d' : Download) :
  d_totalLength d' = d_totalLength d -> d_completedLen d' = d_completedLen d -> d_numPieces d' = d_numPieces d ->
  d_donePieces d' = d_donePieces d -> d_bitfield d' = d_bitfield d ->
  seg_state total n pieces d -> seg_state total n pieces d'.
Proof. unfold seg_state. by intros -> -> -> -> ->. Qed.

Lemma seg_add (total n : Z) (pieces : gset Z) (d : Download) (k : Z) :
  total <= max_int64 -> 1 < n -> seg_state total n pieces d -> 0 < k -> d_completedLen d + k <= total ->
  let d' := addCompleted k d in
  seg_state total n pieces d' /\ d_completedLen d' = d_completedLen d + k /\ d_connections d' = d_connections d
  /\ d_options d' = d_options d.
Proof.
  intros Hm Hn Hst Hk Hle. cbv zeta. pose proof Hst as (H1 & H2 & H3 & H4 & H5 & H6).
  assert (addCompleted k d = d <| d_completedLen := wrap64 (d_completedLen d + k) |>) as ->.
  { unfold addCompleted. destruct (Z.leb_spec k 0); [lia|]. cbv zeta. unfold addInt64. simpl.
    rewrite !wrap64_id by (unfold in_int64, min_int64, max_int64 in *; lia). rewrite H1.
    destruct (Z.ltb_spec total (d_completedLen d + k)); [lia|]. rewrite andb_false_r. simpl. rewrite H3.
    destruct (Z.leb_spec n 1); [lia|]. rewrite andb_false_r. unfold set. simpl.
    by rewrite !wrap64_id by (unfold in_int64, min_int64, max_int64 in *; lia). }
  rewrite wrap64_id by (unfold in_int64, min_int64, max_int64 in *; lia). split_and!; try done.
  apply seg_state_completed; [done|lia].
Qed.

Lemma seg_rollback (total n : Z) (pieces : gset Z) (d : Download) (k : Z) :
  total <= max_int64 -> seg_state total n pieces d -> 0 <= k <= d_completedLen d ->
  let d' := rollbackCompleted k d in
  seg_state total n pieces d' /\ d_completedLen d' = d_completedLen d - k /\ d_connections d' = d_connections d
  /\ d_options d' = d_options d.
Proof.
  intros Hm Hst Hk. cbv zeta. pose proof Hst as (H1 & H2 & _). unfold rollbackCompleted. destruct (Z.leb_spec k 0).
  { split_and!; try done. lia. }
  rewrite wrap64_id by (unfold in_int64, min_int64, max_int64 in *; lia). cbv zeta.
  destruct (Z.ltb_spec (d_completedLen d - k) 0); [lia|]. split_and!; try done. apply seg_state_completed; [done|lia].
Qed.

Lemma mark_other (i : Z) (d : Download) :
  d_completedLen (markPieceComplete i d) = d_completedLen d /\ d_connections (markPieceComplete i d) = d_connections d
  /\ d_options (markPieceComplete i d) = d_options d.
Proof. unfold markPieceComplete. by repeat case_match. Qed.

Lemma seg_mark (total n : Z) (pieces : gset Z) (d : Download) (i : Z) :
  0 < total -> 1 < n -> 0 <= i < n -> seg_state total n pieces d ->
  seg_state total n ({[i]} ∪ pieces) (markPieceComplete i d).
Proof.
  intros Ht Hn Hi Hst. pose proof (seg_step total n pieces d (SegMark i) Ht Hn I Hst) as H. cbn [run_seg] in H.
  replace ({[i]} ∪ pieces) with (pieces ∪ marked n [SegMark i]); [done|]. unfold marked. cbn.
  destruct (Z.leb_spec 0 i), (Z.ltb_spec i n); try lia. cbn. set_solver.
Qed.

(** ** Lemmas: sums *)

Lemma sumZ_perm (l l' : list Z) : l ≡ₚ l' -> sumZ l = sumZ l'.
Proof. induction 1; unfold sumZ in *; cbn in *; lia. Qed.

Lemma sumZ_map_nonneg {A} (f : A -> Z) (l : list A) : (forall x, x ∈ l -> 0 <= f x) -> 0 <= sumZ (map f l).
Proof.
  induction l as [|x l IH]; intros H; [done|]. unfold sumZ in *. cbn. pose proof (H x ltac:(by left)).
  assert (0 <= foldr Z.add 0 (map f l)) by (apply IH; intros y Hy; apply H; by right). lia.
Qed.

Lemma delete_perm {A} (l : list A) (k : nat) (x : A) : l !! k = Some x -> l ≡ₚ x :: delete k l.
Proof. intros H. by apply delete_Permutation. Qed.

Lemma insert_perm {A} (l : list A) (k : nat) (x y : A) : l !! k = Some x -> <[k := y]> l ≡ₚ y :: delete k l.
Proof.
  intros H. apply lookup_lt_Some in H as Hlt. rewrite (delete_perm (<[k := y]> l) k y) by by apply list_lookup_insert_eq.
  f_equiv. clear H. revert k Hlt. induction l as [|z l IH]; intros [|k] Hlt; cbn in *; [done..|].
  f_equiv. apply IH. lia.
Qed.

(** ** Lemmas: the invariant of the segmented loop *)

Section loop.
Context (fallback : Options) (attempt : segmentedRangeTask -> Options -> list Z * result unit).
Context (total : Z) (chunks : list chunkRange).
Context (Htotal : 0 < total <= max_int64) (Hmany : 1 < Z.of_nat (length chunks)).

Definition task_ok (t : segmentedRangeTask) : Prop :=
  0 <= tk_index t /\ chunks !! Z.to_nat (tk_index t) = Some (tk_r t).

Definition sizeAt (i : Z) : Z := match chunks !! Z.to_nat i with Some c => rangeSize c | None => 0 end.

Context (Hsizes : forall i c, chunks !! i = Some c -> 0 <= rangeSize c).
Context (Hsum : sumZ (map sizeAt (seqZ 0 (Z.of_nat (length chunks)))) = total).
Context (Hattempt : forall t opts, task_ok t -> worker_run_ok (rangeSize (tk_r t)) (attempt t opts).1 (attempt t opts).2).

(** A worker that has reported [made] bytes. *)
Definition worker_ok (w : worker) (made : Z) : Prop :=
  task_ok (wk_task w) /\ 0 <= made /\ Forall (fun n => 0 < n) (wk_flushes w)
  /\ made + sumZ (wk_flushes w) <= rangeSize (tk_r (wk_task w))
  /\ match wk_result w with
     | Ok _ => made + sumZ (wk_flushes w) = rangeSize (tk_r (wk_task w))
     | Err err => made + sumZ (wk_flushes w) = default 0 (bodyBytes err)
     end.

Definition workerIndex (w : worker) : Z := tk_index (wk_task w).

(** Every range is waiting, running, done or given up; the download says exactly what
    the done and the running ones have written. *)
Record seg_inv (s : segState) (done lost made : list Z) : Prop := {
  si_split : map tk_index (sg_tasks s) ++ map workerIndex (sg_active s) ++ done ++ lost
             ≡ₚ seqZ 0 (Z.of_nat (length chunks));
  si_tasks : Forall task_ok (sg_tasks s);
  si_workers : Forall2 worker_ok (sg_active s) made;
  si_seg : seg_state total (Z.of_nat (length chunks)) (list_to_set done) (sg_d s);
  si_bytes : d_completedLen (sg_d s) = sumZ (map sizeAt done) + sumZ made;
  si_connections : d_connections (sg_d s) = Z.of_nat (length (sg_active s))
}.

Lemma task_size (t : segmentedRangeTask) : task_ok t -> sizeAt (tk_index t) = rangeSize (tk_r t).
Proof. intros [_ H]. unfold sizeAt. by rewrite H. Qed.

Lemma sizeAt_nonneg (i : Z) : 0 <= sizeAt i.
Proof. unfold sizeAt. destruct (chunks !! Z.to_nat i) eqn:E; [by eapply Hsizes|lia]. Qed.

Lemma worker_room (w : worker) (made : Z) : worker_ok w made -> made + sumZ (wk_flushes w) <= sizeAt (workerIndex w).
Proof. intros (Ht & _ & _ & Hle & _). unfold workerIndex. by rewrite task_size. Qed.

Lemma workers_made (active : list worker) (made : list Z) :
  Forall2 worker_ok active made -> 0 <= sumZ made <= sumZ (map sizeAt (map workerIndex active)).
Proof.
  induction 1 as [|w m active made Hw _ IH]; [by cbn|]. pose proof (worker_room w m Hw).
  destruct Hw as (_ & Hm & Hf & _). pose proof (sumZ_pos _ Hf). unfold sumZ in *. cbn. lia.
Qed.

(** The bytes still to come of a running worker fit. *)
Lemma worker_fits (s : segState) (done lost made : list Z) (k : nat) (w : worker) (m : Z) :
  seg_inv s done lost made -> sg_active s !! k = Some w -> made !! k = Some m ->
  d_completedLen (sg_d s) + sumZ (wk_flushes w) <= total.
Proof.
  intros HI Hw Hm. rewrite (si_bytes _ _ _ _ HI), <- Hsum, <- (sumZ_perm _ _ (Permutation_map sizeAt (si_split _ _ _ _ HI))).
  pose proof (si_workers _ _ _ _ HI) as Hws. rewrite !map_app, !sumZ_app.
  pose proof (sumZ_map_nonneg sizeAt (map tk_index (sg_tasks s)) (fun i _ => sizeAt_nonneg i)).
  pose proof (sumZ_map_nonneg sizeAt lost (fun i _ => sizeAt_nonneg i)).
  rewrite (sumZ_perm _ _ (delete_perm _ _ _ Hm)).
  rewrite (sumZ_perm (map sizeAt (map workerIndex (sg_active s))) _
             (Permutation_map sizeAt (Permutation_map workerIndex (delete_perm _ _ _ Hw)))).
  pose proof (workers_made _ _ (Forall2_delete _ _ _ k Hws)).
  pose proof (worker_room w m (Forall2_lookup_lr _ _ _ _ _ _ Hws Hw Hm)).
  unfold sumZ in *. cbn. lia.
Qed.

Lemma seg_inv_same (s s' : segState) (done lost made : list Z) :
  seg_inv s done lost made -> sg_tasks s' = sg_tasks s -> sg_active s' = sg_active s ->
  d_totalLength (sg_d s') = d_totalLength (sg_d s) -> d_completedLen (sg_d s') = d_completedLen (sg_d s) ->
  d_numPieces (sg_d s') = d_numPieces (sg_d s) -> d_donePieces (sg_d s') = d_donePieces (sg_d s) ->
  d_bitfield (sg_d s') = d_bitfield (sg_d s) -> d_connections (sg_d s') = d_connections (sg_d s) ->
  seg_inv s' done lost made.
Proof.
  intros [] Ht Ha H1 H2 H3 H4 H5 H6. constructor; rewrite ?Ht, ?Ha, ?H2, ?H6; try done. by eapply seg_state_ext.
Qed.

Lemma start_task_inv (s : segState) (done lost made : list Z) (idx : nat) (task : segmentedRangeTask) :
  seg_inv s done lost made -> sg_tasks s !! idx = Some task ->
  seg_inv (startTask attempt task (s <| sg_tasks ::= delete idx |>)) done lost (made ++ [0])
  /\ sg_firstErr (startTask attempt task (s <| sg_tasks ::= delete idx |>)) = sg_firstErr s.
Proof.
  intros HI Ht. unfold startTask. cbv zeta. destruct (launchState _) as [ll lg]. set (task' := _ <| tk_launchGeneration := lg |>).
  destruct (attempt task' _) as [flushes r] eqn:E. split; [|done]. pose proof HI as [Hp Htk Hws Hseg Hb Hc].
  assert (task_ok task) as Hok by by eapply Forall_lookup_1.
  assert (task_ok task') as Hok' by exact Hok.
  pose proof (Hattempt task' (transportOptionsForSegmented (d_options (sg_d s))) Hok') as (Hf & Hle & Hr).
  cbn [sg_d set] in E. unfold set in E. cbn in E. rewrite E in Hf, Hle, Hr. cbn [fst snd] in Hf, Hle, Hr.
  constructor; cbn.
  - rewrite map_app. cbn. rewrite <- Hp, (Permutation_map tk_index (delete_perm _ _ _ Ht)). cbn.
    change (workerIndex (mkWorker task' _ _ _ _)) with (tk_index task). solve_Permutation.
  - rewrite (delete_perm _ _ _ Ht) in Htk. by apply Forall_cons in Htk as [_ Htk].
  - apply Forall2_app; [done|]. constructor; [|done]. unfold worker_ok. cbn. split_and!; try done; try lia.
  - by eapply seg_state_ext.
  - rewrite sumZ_app. unfold sumZ in *. cbn. lia.
  - done.
Qed.

Lemma ready_index (tasks : list segmentedRangeTask) (now : Z) (idx : nat) :
  readySegmentedTaskIndex tasks now = Some idx -> is_Some (tasks !! idx).
Proof.
  revert idx. induction tasks as [|t tasks IH]; intros idx H; [done|]. cbn in H.
  assert (idx = O \/ exists j, idx = S j /\ readySegmentedTaskIndex tasks now = Some j) as [->|(j & -> & Hj)].
  { destruct (tk_notBefore t) as [z|]; [|simplify_eq; by left]. destruct (now <? z); [|simplify_eq; by left].
    destruct (readySegmentedTaskIndex tasks now); [|done]. simplify_eq/=. right. by eexists. }
  - by eexists.
  - cbn. by apply IH.
Qed.

Lemma start_loop_inv (fuel : nat) (now : Z) (s : segState) (done lost made : list Z) :
  seg_inv s done lost made ->
  exists made', seg_inv (startLoop attempt fuel now s) done lost made'
    /\ sg_firstErr (startLoop attempt fuel now s) = sg_firstErr s.
Proof.
  revert s made. induction fuel as [|fuel IH]; intros s made HI; cbn [startLoop]; [by exists made|].
  destruct (_ <? _); [|by exists made]. destruct (readySegmentedTaskIndex _ now) as [idx|]; [|by exists made].
  destruct (sg_tasks s !! idx) as [task|] eqn:Ht; [|by exists made].
  destruct (start_task_inv s done lost made idx task HI Ht) as [HI' Hf].
  destruct (IH _ _ HI') as (made' & HI'' & Hf'). exists made'. split; [done|]. congruence.
Qed.

Lemma start_ready_inv (now : Z) (s : segState) (done lost made : list Z) :
  seg_inv s done lost made ->
  exists made', seg_inv (startReady fallback attempt now s) done lost made'
    /\ sg_firstErr (startReady fallback attempt now s) = sg_firstErr s.
Proof.
  intros HI. unfold startReady. destruct (sg_firstErr s) eqn:Hf; [by exists made|].
  destruct (start_loop_inv (length (sg_tasks s)) now
    (s <| sg_controller ::= clampCeiling (workerLimit fallback false s) |>) done lost made) as (made' & H & H').
  { eapply seg_inv_same; done. }
  exists made'. split; [done|]. by rewrite H'.
Qed.

(** A worker has sent its result: until its task is done, queued again or given up it
    counts as given up. *)
Lemma release_worker (s : segState) (done lost made : list Z) (k : nat) (w : worker) :
  seg_inv s done lost made -> sg_active s !! k = Some w -> wk_flushes w = [] ->
  let s1 := s <| sg_active ::= delete k |> in
  let s1 := s1 <| sg_d ::= setConnections (Z.of_nat (length (sg_active s1))) |> in
  exists m, worker_ok w m /\ 0 <= m <= sizeAt (workerIndex w)
    /\ d_completedLen (sg_d s1) = sumZ (map sizeAt done) + sumZ (delete k made) + m
    /\ (forall d, d_completedLen d = sumZ (map sizeAt done) + sumZ (delete k made) ->
          seg_state total (Z.of_nat (length chunks)) (list_to_set done) d -> d_connections d = d_connections (sg_d s1) ->
          seg_inv (s1 <| sg_d := d |>) done (workerIndex w :: lost) (delete k made)).
Proof.
  intros HI Hw Hfl. cbv zeta. pose proof HI as [Hp Htk Hws Hseg Hb Hc].
  destruct (Forall2_lookup_l _ _ _ _ _ Hws Hw) as (m & Hm & Hok). exists m.
  pose proof (worker_room w m Hok) as Hroom. rewrite Hfl in Hroom. split_and!; try done.
  - destruct Hok as (_ & ? & _). lia.
  - cbn in Hroom. lia.
  - cbn. rewrite Hb, (sumZ_perm _ _ (delete_perm _ _ _ Hm)). unfold sumZ. cbn. lia.
  - intros d Hd Hst Hcon. constructor; cbn; try done.
    + rewrite <- Hp, (Permutation_map workerIndex (delete_perm _ _ _ Hw)). cbn. solve_Permutation.
    + by apply Forall2_delete.
Qed.

(** The task of a released worker is queued again. *)
Lemma requeue (s : segState) (done lost made : list Z) (t : segmentedRangeTask) :
  seg_inv s done (tk_index t :: lost) made -> task_ok t ->
  seg_inv (s <| sg_tasks ::= fun l => l ++ [t] |>) done lost made.
Proof.
  intros [Hp Htk Hws Hseg Hb Hc] Ht. constructor; cbn; try done.
  - rewrite <- Hp, map_app. cbn. solve_Permutation.
  - apply Forall_app. split; [done|]. by constructor.
Qed.

(** A released worker's range is complete. *)
Lemma complete (s : segState) (done lost made : list Z) (i : Z) (d : Download) :
  seg_inv (s <| sg_d := d |>) done (i :: lost) made -> 0 <= i < Z.of_nat (length chunks) ->
  seg_state total (Z.of_nat (length chunks)) (list_to_set done) (sg_d s) ->
  d_completedLen (sg_d s) = d_completedLen d + sizeAt i -> d_connections d = d_connections (sg_d s) ->
  seg_inv (s <| sg_d ::= markPieceComplete i |>) (i :: done) lost made.
Proof.
  intros [Hp Htk Hws Hseg Hb Hc] Hi Hst Hd Hcon. cbn in *. destruct (mark_other i (sg_d s)) as (H1 & H2 & _).
  constructor; cbn; try done.
  - rewrite <- Hp. solve_Permutation.
  - apply seg_mark; [lia|done|done|done].
  - unfold sumZ in *. cbn. lia.
  - congruence.
Qed.

(** The invariant with the ghost lists hidden; a range is given up only after an error. *)
Definition seg_good (s : segState) : Prop :=
  exists done lost made, seg_inv s done lost made /\ (sg_firstErr s = None -> lost = []).

Lemma fail_good (s : segState) (done lost made : list Z) (err : error) :
  seg_inv s done lost made -> seg_good (fail err s).
Proof.
  intros HI. exists done, lost, made. unfold fail. destruct (sg_firstErr s) eqn:E.
  - split; [done|]. congruence.
  - split; [|done]. eapply seg_inv_same; done.
Qed.

Lemma start_ready_good (now : Z) (s : segState) : seg_good s -> seg_good (startReady fallback attempt now s).
Proof.
  intros (done & lost & made & HI & Hl). destruct (start_ready_inv now s done lost made HI) as (made' & HI' & Hf).
  exists done, lost, made'. split; [done|]. by rewrite Hf.
Qed.

Lemma controller_good (f : segmentedConcurrencyController -> segmentedConcurrencyController) (s : segState)
    (done lost made : list Z) :
  seg_inv s done lost made -> seg_inv (s <| sg_controller ::= f |>) done lost made.
Proof. intros HI. eapply seg_inv_same; done. Qed.

Lemma retry_good (w : worker) (now : Z) (s : segState) (done lost made : list Z) :
  seg_inv s done (workerIndex w :: lost) made -> task_ok (wk_task w) -> (sg_firstErr s = None -> lost = []) ->
  seg_good (retryTask w now s).
Proof. intros HI Ht Hl. exists done, lost, made. split; [|exact Hl]. by apply requeue. Qed.

Lemma task_range (t : segmentedRangeTask) : task_ok t -> 0 <= tk_index t < Z.of_nat (length chunks).
Proof. intros [H0 H%lookup_lt_Some]. lia. Qed.

Lemma handle_result_good (k : nat) (w : worker) (now : Z) (s : segState) :
  seg_good s -> sg_active s !! k = Some w -> wk_flushes w = [] -> seg_good (handleResult fallback k w now s).
Proof.
  intros (done & lost & made & HI & Hl) Hw Hfl. pose proof (si_seg _ _ _ _ HI) as Hseg.
  destruct (release_worker s done lost made k w HI Hw Hfl) as (m & Hok & Hm & Hd & Hrel).
  unfold handleResult. cbv zeta. set (s1 := _ <| sg_d ::= setConnections _ |>) in *.
  assert (seg_state total (Z.of_nat (length chunks)) (list_to_set done) (sg_d s1)) as Hseg1 by by eapply seg_state_ext.
  pose proof Hok as (Ht & _ & _ & _ & Hres). rewrite Hfl in Hres. cbn in Hres.
  assert (sumZ [] = 0) as Hz by done.
  destruct (wk_result w) as [[]|err].
  - exists (workerIndex w :: done), lost, (delete k made). split; [|exact Hl]. apply controller_good.
    rewrite <- task_size in Hres by done. fold (workerIndex w) in Hres.
    apply (complete s1 done lost (delete k made) (workerIndex w) (sg_d s1 <| d_completedLen ::= fun c => c - m |>)).
    + apply Hrel; [|apply seg_state_completed; [done|]|done];
        change (d_completedLen (sg_d s1 <| d_completedLen ::= fun c => c - m |>)) with (d_completedLen (sg_d s1) - m); [lia|].
      destruct Hseg1 as (_ & ? & _). pose proof (sumZ_map_nonneg sizeAt done (fun i _ => sizeAt_nonneg i)).
      pose proof (workers_made _ _ (Forall2_delete _ _ _ k (si_workers _ _ _ _ HI))). lia.
    + by apply task_range.
    + done.
    + change (d_completedLen (sg_d s1 <| d_completedLen ::= fun c => c - m |>)) with (d_completedLen (sg_d s1) - m). lia.
    + done.
  - change (errors_find _ err) with (bodyBytes err). set (s2 := match bodyBytes err with Some _ => _ | None => _ end).
    assert (seg_inv s2 done (workerIndex w :: lost) (delete k made) /\ sg_firstErr s2 = sg_firstErr s) as [HI2 Hf2].
    { unfold s2. destruct (bodyBytes err) as [n|]; cbn in Hres.
      - assert (n = m) as -> by lia. destruct (seg_rollback total (Z.of_nat (length chunks)) (list_to_set done) (sg_d s1) m)
          as (H1 & H2 & H3 & _); [lia|done| |].
        { pose proof (sumZ_map_nonneg sizeAt done (fun i _ => sizeAt_nonneg i)).
          pose proof (workers_made _ _ (Forall2_delete _ _ _ k (si_workers _ _ _ _ HI))). lia. }
        split; [|done]. apply (Hrel (rollbackCompleted m (sg_d s1))); [lia|done|done].
      - split; [|done]. apply (Hrel (sg_d s1)); [lia|done|done]. }
    assert (sg_firstErr s2 = None -> lost = []) as Hl2 by by rewrite Hf2.
    clearbody s2. clear Hrel Hd.
    destruct (isAdaptiveRangeThrottleError err).
    + destruct (canRetryRangeAttempt _ _).
      * eapply retry_good; [by apply controller_good|done|exact Hl2].
      * eapply fail_good. by apply controller_good.
    + destruct (_ && _).
      * eapply retry_good; [by apply controller_good|done|exact Hl2].
      * by eapply fail_good.
Qed.

Lemma flush_good (s s' : segState) (k : nat) : seg_good s -> segStep fallback attempt s (SgFlush k) = Some s' -> seg_good s'.
Proof.
  intros (done & lost & made & HI & Hl) H. cbn [segStep] in H.
  destruct (sg_active s !! k) as [w|] eqn:Hw; [|done]. destruct (wk_flushes w) as [|n rest] eqn:Hfl; [done|].
  injection H as <-. pose proof HI as [Hp Htk Hws Hseg Hb Hc].
  destruct (Forall2_lookup_l _ _ _ _ _ Hws Hw) as (m & Hm & Hok).
  pose proof (worker_fits s done lost made k w m HI Hw Hm) as Hfit. destruct Hok as (Ht & H0 & Hpos & Hle & Hres).
  rewrite Hfl in Hfit, Hpos, Hle, Hres. apply Forall_cons in Hpos as [Hn Hpos]. pose proof (sumZ_pos rest Hpos) as Hrest.
  assert (sumZ (n :: rest) = n + sumZ rest) as E by done. rewrite E in *.
  destruct (seg_add total (Z.of_nat (length chunks)) (list_to_set done) (sg_d s) n) as (H1 & H2 & H3 & _); [lia|done|done|done|lia|].
  exists done, lost, (<[k := m + n]> made). split; [|exact Hl]. constructor; cbn; try done.
  - replace (map workerIndex (<[k:=_]> (sg_active s))) with (map workerIndex (sg_active s)); [done|].
    rewrite list_fmap_insert. symmetry. apply list_insert_id. by rewrite list_lookup_fmap, Hw.
  - apply Forall2_insert; [done|]. unfold worker_ok. cbn [wk_task wk_flushes wk_result].
    split_and!; try done; try lia. revert Hres. destruct (wk_result w); intros Hres; lia.
  - rewrite H2, Hb, (sumZ_perm _ _ (insert_perm _ _ _ _ Hm)), (sumZ_perm _ _ (delete_perm _ _ _ Hm)). unfold sumZ. cbn. lia.
  - rewrite H3, Hc. by rewrite length_insert.
Qed.

Lemma step_good (s s' : segState) (ev : segEvent) : seg_good s -> segStep fallback attempt s ev = Some s' -> seg_good s'.
Proof.
  intros Hg H. destruct ev as [k|k now|now|err|now|opts|global]; cbn [segStep] in H.
  - by eapply flush_good.
  - destruct (finished s); [done|]. destruct (sg_active s !! k) as [w|] eqn:Hw; [|done].
    destruct (wk_flushes w) eqn:Hfl; [|done]. injection H as <-. by apply start_ready_good, handle_result_good.
  - destruct (finished s); [done|]. injection H as <-. by apply start_ready_good.
  - destruct (sg_ctxErr s); [done|]. injection H as <-. destruct Hg as (done & lost & made & HI & Hl).
    exists done, lost, made. split; [|exact Hl]. by eapply seg_inv_same.
  - destruct (_ || _); [done|]. destruct (sg_ctxErr s) as [err|]; [|done]. injection H as <-. apply start_ready_good.
    destruct Hg as (done & lost & made & HI & Hl). destruct (fail_good s done lost made err HI) as (d1 & l1 & m1 & HI1 & Hl1).
    exists d1, l1, m1. split; [|exact Hl1]. by eapply seg_inv_same.
  - injection H as <-. destruct Hg as (done & lost & made & HI & Hl). exists done, lost, made. split; [|exact Hl].
    by eapply seg_inv_same.
  - injection H as <-. destruct Hg as (done & lost & made & HI & Hl). exists done, lost, made. split; [|exact Hl].
    by eapply seg_inv_same.
Qed.

Lemma run_good (s s' : segState) (events : list segEvent) :
  seg_good s -> segRun fallback attempt s events = Some s' -> seg_good s'.
Proof.
  revert s. induction events as [|ev events IH]; intros s Hg H; cbn in H; [by simplify_eq|].
  destruct (segStep fallback attempt s ev) as [s1|] eqn:E; [|done]. eapply IH; [|done]. by eapply step_good.
Qed.

Lemma initial_tasks_index (l : list chunkRange) (k : nat) :
  map tk_index (imap (fun i ch => mkTask (Z.of_nat (k + i)) ch 0 None 0 0) l) = seqZ (Z.of_nat k) (Z.of_nat (length l)).
Proof.
  revert k. induction l as [|c l IH]; intros k; [done|]. cbn [imap map tk_index length]. rewrite Nat.add_0_r.
  rewrite seqZ_cons by lia. f_equal. replace (Z.succ (Z.of_nat k)) with (Z.of_nat (S k)) by lia.
  replace (Z.pred (Z.of_nat (S (length l)))) with (Z.of_nat (length l)) by lia. rewrite <- IH. f_equal.
  apply imap_ext. intros i c' _. cbn. do 2 f_equal. lia.
Qed.

Lemma initial_good (d : Download) (c : segmentedConcurrencyController) (global : Options) :
  seg_state total (Z.of_nat (length chunks)) ∅ d -> d_completedLen d = 0 -> d_connections d = 0 ->
  seg_good (mkSeg (initialTasks chunks) [] c None None false global d).
Proof.
  intros Hst H0 Hc. exists [], [], []. split; [|done]. constructor; cbn; try done.
  - rewrite !app_nil_r. assert (map tk_index (initialTasks chunks) = seqZ 0 (Z.of_nat (length chunks))) as -> by exact (initial_tasks_index chunks 0).
    done.
  - apply Forall_forall. intros t Ht. unfold initialTasks in Ht. apply list_elem_of_lookup in Ht as [i Ht].
    rewrite list_lookup_imap in Ht. destruct (chunks !! i) as [ch|] eqn:E; [|done]. injection Ht as <-.
    unfold task_ok. cbn. split; [lia|]. by rewrite Nat2Z.id.
Qed.

(** What a successful end leaves. *)
Lemma success_complete (s : segState) :
  seg_good s -> finished s = true -> sg_firstErr s = None ->
  d_completedLen (sg_d s) = total /\ d_donePieces (sg_d s) = Z.of_nat (length chunks)
  /\ (forall i, 0 <= i < Z.of_nat (length chunks) -> hex_bit (d_bitfield (sg_d s)) i = true).
Proof.
  intros (done & lost & made & HI & Hl) Hfin Hf. specialize (Hl Hf) as ->. destruct HI as [Hp Htk Hws Hseg Hb Hc].
  unfold finished in Hfin. destruct (sg_active s) eqn:Ha; [|done]. destruct (sg_tasks s) eqn:Ht; [|by rewrite Hf in Hfin].
  apply Forall2_nil_inv_l in Hws as ->. cbn in Hp, Hb. rewrite app_nil_r in Hp.
  destruct Hseg as (H1 & H2 & H3 & H4 & H5 & H6).
  assert (forall i, i ∈ done <-> 0 <= i < Z.of_nat (length chunks)) as Hin.
  { intros i. rewrite Hp, elem_of_seqZ. lia. }
  split_and!.
  - rewrite Hb, <- Hsum, (sumZ_perm _ _ (Permutation_map sizeAt Hp)). lia.
  - rewrite H4, size_list_to_set by (rewrite Hp; apply NoDup_seqZ). rewrite (Permutation_length Hp), length_seqZ. lia.
  - intros i Hi. rewrite H6 by done. apply bool_decide_eq_true_2, elem_of_list_to_set. by apply Hin.
Qed.
End loop.

(** ** Lemmas: the ranges of a download *)

Lemma makeChunks_spec (total chunkSize : Z) :
  0 < total <= max_int64 ->
  let size := effectiveChunkSize total chunkSize in
  0 < size /\ Z.of_nat (length (makeChunks total chunkSize)) = ceilDivInt64 total size
  /\ forall i c, makeChunks total chunkSize !! i = Some c ->
       ch_start c = Z.of_nat i * size /\ ch_end c = Z.min (ch_start c + size) total - 1 /\ ch_start c < total.
Proof.
  intros Ht. cbv zeta. pose proof (effectiveChunkSize_pos total chunkSize) as Hs. unfold makeChunks.
  destruct (Z.leb_spec total 0); [lia|]. set (size := effectiveChunkSize total chunkSize) in *.
  pose proof (ceilDiv_spec total size ltac:(lia) Hs). pose proof (ceilDiv_pos total size ltac:(lia) Hs).
  destruct (chunksFrom_spec (Z.to_nat (ceilDivInt64 total size)) 0 total size) as [Hl Hcs]; [lia..|nia|].
  rewrite Z.sub_0_r in Hl. split_and!; [done|done|]. intros i c Hi. apply Hcs in Hi as (-> & -> & ?). split_and!; lia.
Qed.

Lemma makeChunks_bounds (total chunkSize : Z) (i : nat) (c : chunkRange) :
  0 < total <= max_int64 -> makeChunks total chunkSize !! i = Some c ->
  0 <= ch_start c <= ch_end c /\ ch_end c < max_int64.
Proof.
  intros Ht Hi. destruct (makeChunks_spec total chunkSize Ht) as (Hs & _ & H). apply H in Hi as (H1 & H2 & H3). nia.
Qed.

Lemma sizes_prefix (total chunkSize : Z) (k : nat) :
  0 < total <= max_int64 -> (k <= length (makeChunks total chunkSize))%nat ->
  sumZ (map (sizeAt (makeChunks total chunkSize)) (seqZ 0 (Z.of_nat k)))
  = Z.min (Z.of_nat k * effectiveChunkSize total chunkSize) total.
Proof.
  intros Ht. destruct (makeChunks_spec total chunkSize Ht) as (Hs & _ & H).
  induction k as [|k IH]; intros Hk; [change (sumZ (map (sizeAt (makeChunks total chunkSize)) (seqZ 0 (Z.of_nat 0)))) with 0; lia|].
  rewrite Nat2Z.inj_succ, <- Z.add_1_r, seqZ_app, map_app, sumZ_app, IH by lia.
  change (seqZ (0 + Z.of_nat k) 1) with [0 + Z.of_nat k]. cbn [map sumZ foldr].
  destruct (lookup_lt_is_Some_2 (makeChunks total chunkSize) k) as [c Hc]; [lia|].
  unfold sizeAt. rewrite Z.add_0_l, Nat2Z.id, Hc. apply H in Hc as (H1 & H2 & H3). unfold sumZ, rangeSize. cbn. lia.
Qed.

Lemma sizes_total (total chunkSize : Z) :
  0 < total <= max_int64 ->
  sumZ (map (sizeAt (makeChunks total chunkSize)) (seqZ 0 (Z.of_nat (length (makeChunks total chunkSize))))) = total.
Proof.
  intros Ht. rewrite sizes_prefix by done. destruct (makeChunks_spec total chunkSize Ht) as (Hs & -> & _).
  pose proof (ceilDiv_spec total (effectiveChunkSize total chunkSize) ltac:(lia) Hs). lia.
Qed.

Lemma resetProgress_other (total : Z) (chunks : list chunkRange) (d : Download) :
  d_completedLen (resetProgress total chunks d) = 0 /\ d_connections (resetProgress total chunks d) = d_connections d.
Proof. by destruct chunks. Qed.

(** What is assumed of the network and the disk: a file that was written closes, and
    the errors of the outside are not the program's own body errors. *)
Record range_io_ok (io : rangeIO) : Prop := {
  rio_close : ri_close io = Ok tt;
  rio_newRequest : forall err, ri_newRequest io = Err err -> bodyBytes err = None;
  rio_do : forall err, ri_do io = Err err -> bodyBytes err = None;
  rio_open : forall err, ri_open io = Err err -> bodyBytes err = None;
  rio_seek : forall err, ri_seek io = Err err -> bodyBytes err = None
}.

(** The worker of a range request. *)
Definition rangeAttempt (meta : remoteMeta) (io : segmentedRangeTask -> Options -> rangeIO)
    (t : segmentedRangeTask) (opts : Options) : list Z * result unit :=
  downloadRange meta opts (tk_r t) (io t opts).

Lemma rangeAttempt_ok (meta : remoteMeta) (io : segmentedRangeTask -> Options -> rangeIO) (chunkSize : Z) t opts :
  0 < m_Length meta <= max_int64 -> (forall t opts, range_io_ok (io t opts)) ->
  task_ok (makeChunks (m_Length meta) chunkSize) t ->
  worker_run_ok (rangeSize (tk_r t)) (rangeAttempt meta io t opts).1 (rangeAttempt meta io t opts).2.
Proof.
  intros Ht Hio [_ Hc]. destruct (makeChunks_bounds _ _ _ _ Ht Hc). destruct (Hio t opts). by apply downloadRange_ok.
Qed.


(** A server with the file, whose second range fails once. *)
Definition demoMeta : remoteMeta := mkMeta 100 true "http://h/f" "f" "" "" false.
Definition demoStep : copyStep := mkStep None 100 None None 100 None 1.
Definition demoIO (t : segmentedRangeTask) (opts : Options) : rangeIO :=
  let resp :=
    if (tk_index t =? 1) && (tk_attempts t =? 1) then mkResponse ∅ 503 "503 Service Unavailable" 0 None
    else mkResponse (hSet "Content-Range" (printContentRange (mkCR (ch_start (tk_r t)) (ch_end (tk_r t)) 100 true false)) ∅)
           206 "206 Partial Content" (rangeSize (tk_r t)) None in
  mkRangeIO (Ok tt) (Ok resp) (Ok tt) (Ok tt) (Ok tt) [demoStep].
Definition demoSegOptions : Options := PlainOptions {["split" := VStr "3"; "max-connection-per-server" := VStr "3"]}.
Definition demoSegDownload : Download := newDownload "0123456789abcdef" ["http://h/f"] demoSegOptions 0.
Definition demoSegEvents : list segEvent :=
  [SgFlush 0; SgResult 0 1; SgFlush 1; SgResult 0 2; SgTick 3; SgResult 0 4; SgFlush 0; SgResult 0 5; SgFlush 0; SgResult 0 6].

Definition succeeded (s : segState) : bool :=
  finished s && match sg_firstErr s, sg_ctxErr s with None, None => true | _, _ => false end.

Lemma demo_seg_run :
  exists s, segRun demoSegOptions (rangeAttempt demoMeta demoIO)
    (segStart demoSegOptions (rangeAttempt demoMeta demoIO) demoMeta (makeChunks (m_Length demoMeta) 30) noOptions 0
       demoSegDownload) demoSegEvents = Some s /\ succeeded s = true.
Proof.
  assert (match segRun demoSegOptions (rangeAttempt demoMeta demoIO)
    (segStart demoSegOptions (rangeAttempt demoMeta demoIO) demoMeta (makeChunks (m_Length demoMeta) 30) noOptions 0
       demoSegDownload) demoSegEvents with Some s => succeeded s | None => false end = true) as H by by vm_compute.
  destruct (segRun _ _ _ _) as [s|]; [by exists s|discriminate H].
Qed.


(** ** Lemmas: termination of the segmented loop *)

Section termination.
Context (fallback : Options) (attempt : segmentedRangeTask -> Options -> list Z * result unit).
Context (m : Z) (Hm : 0 < m).

(** The configured number of tries per range. *)
Definition triesOf (opts : Options) : Z :=
  let maxTries := optionInt (transportOptionsForSegmented opts) "max-tries" 5 in if maxTries <? 0 then 1 else maxTries.

Definition task_room (t : segmentedRangeTask) : Z := m - tk_attempts t.
Definition worker_room' (w : worker) : Z := m - tk_attempts (wk_task w) + 1.

Record tries_inv (s : segState) : Prop := {
  ti_tasks : Forall (fun t => 0 <= tk_attempts t < m) (sg_tasks s);
  ti_workers : Forall (fun w => 1 <= tk_attempts (wk_task w) <= m /\ wk_maxTries w = m) (sg_active s);
  ti_options : triesOf (d_options (sg_d s)) = m
}.

(** The requests that may still be answered. *)
Definition room (s : segState) : Z := sumZ (map task_room (sg_tasks s)) + sumZ (map worker_room' (sg_active s)).

Lemma room_nonneg (s : segState) : tries_inv s -> 0 <= room s.
Proof.
  intros [Ht Hw _]. unfold room. apply Z.add_nonneg_nonneg; apply sumZ_map_nonneg.
  - intros t Hin. pose proof (proj1 (Forall_forall _ _) Ht t Hin). unfold task_room. cbn in *. lia.
  - intros w Hin. pose proof (proj1 (Forall_forall _ _) Hw w Hin). unfold worker_room'. cbn in *. lia.
Qed.

Lemma start_task_tries (s : segState) (idx : nat) (task : segmentedRangeTask) :
  tries_inv s -> sg_tasks s !! idx = Some task ->
  let s' := startTask attempt task (s <| sg_tasks ::= delete idx |>) in tries_inv s' /\ room s' = room s.
Proof.
  intros [Ht Hw Ho] Hi. cbv zeta. unfold startTask. cbv zeta. destruct (launchState _) as [ll lg].
  destruct (attempt _ _) as [flushes r]. pose proof (delete_perm _ _ _ Hi) as Hp.
  rewrite Hp in Ht. apply Forall_cons in Ht as [Hk Ht]. split.
  - constructor; [exact Ht| |exact Ho]. cbn. apply Forall_app. split; [done|]. constructor; [|done]. cbn. split; [lia|exact Ho].
  - unfold room. cbn. rewrite map_app, sumZ_app, (sumZ_perm _ _ (Permutation_map task_room Hp)).
    unfold task_room at 2, worker_room' at 2, sumZ. cbn. unfold task_room. lia.
Qed.

Lemma start_loop_tries (fuel : nat) (now : Z) (s : segState) :
  tries_inv s -> tries_inv (startLoop attempt fuel now s) /\ room (startLoop attempt fuel now s) = room s.
Proof.
  revert s. induction fuel as [|fuel IH]; intros s HI; cbn [startLoop]; [done|].
  destruct (_ <? _); [|done]. destruct (readySegmentedTaskIndex _ now) as [idx|]; [|done].
  destruct (sg_tasks s !! idx) as [task|] eqn:Ht; [|done].
  destruct (start_task_tries s idx task HI Ht) as [HI' Hr]. destruct (IH _ HI') as [? ->]. done.
Qed.

Lemma start_ready_tries (now : Z) (s : segState) :
  tries_inv s -> tries_inv (startReady fallback attempt now s) /\ room (startReady fallback attempt now s) = room s.
Proof.
  intros HI. unfold startReady. destruct (sg_firstErr s); [done|].
  set (s0 := s <| sg_controller ::= clampCeiling (workerLimit fallback false s) |>).
  change (room s) with (room s0). apply start_loop_tries. destruct HI. by constructor.
Qed.

Lemma options_kept (d : Download) (n : Z) :
  d_options (addCompleted n d) = d_options d /\ d_options (rollbackCompleted n d) = d_options d
  /\ d_options (markPieceComplete n d) = d_options d.
Proof.
  unfold addCompleted, rollbackCompleted, markPieceComplete, recountPieces. cbv zeta. split_and!; by repeat case_match.
Qed.

Lemma fail_fields (err : error) (s : segState) :
  sg_tasks (fail err s) = sg_tasks s /\ sg_active (fail err s) = sg_active s /\ sg_d (fail err s) = sg_d s.
Proof. unfold fail. by destruct (sg_firstErr s). Qed.

(** A state with the same work. *)
Lemma tries_same (s s' : segState) :
  sg_tasks s' = sg_tasks s -> sg_active s' = sg_active s -> d_options (sg_d s') = d_options (sg_d s) ->
  tries_inv s -> tries_inv s' /\ room s' = room s.
Proof. intros Ht Ha Ho [H1 H2 H3]. unfold room. rewrite Ht, Ha. split; [|done]. constructor; by rewrite ?Ht, ?Ha, ?Ho. Qed.

Lemma fail_tries (err : error) (s : segState) :
  tries_inv s -> tries_inv (fail err s) /\ room (fail err s) = room s.
Proof. intros HI. destruct (fail_fields err s) as (H1 & H2 & H3). apply tries_same; [done|done|by rewrite H3|done]. Qed.

Lemma retry_tries (w : worker) (now : Z) (s : segState) :
  tries_inv s -> 1 <= tk_attempts (wk_task w) -> wk_maxTries w = m ->
  canRetryRangeAttempt (tk_attempts (wk_task w)) (wk_maxTries w) = true ->
  tries_inv (retryTask w now s) /\ room (retryTask w now s) = room s + worker_room' w - 1.
Proof.
  intros [H1 H2 H3] Ha Hmax Hcan. unfold canRetryRangeAttempt in Hcan. rewrite Hmax in Hcan.
  destruct (Z.eqb_spec m 0); [lia|]. destruct (Z.ltb_spec m 0); [lia|]. zbool. split.
  - constructor; cbn; [|done|done]. apply Forall_app. split; [done|]. constructor; [|done]. cbn. lia.
  - unfold room. cbn. rewrite map_app, sumZ_app. unfold sumZ. cbn. unfold task_room, worker_room'. cbn. lia.
Qed.

(** An answer uses one request up. *)
Lemma handle_result_tries (k : nat) (w : worker) (now : Z) (s : segState) :
  tries_inv s -> sg_active s !! k = Some w ->
  tries_inv (handleResult fallback k w now s) /\ room (handleResult fallback k w now s) < room s.
Proof.
  intros [Ht Hw Ho] Hk. pose proof (delete_perm _ _ _ Hk) as Hp. rewrite Hp in Hw. apply Forall_cons in Hw as [[Ha Hmax] Hw].
  unfold handleResult. cbv zeta. set (s1 := _ <| sg_d ::= setConnections _ |>).
  assert (tries_inv s1 /\ room s1 = room s - worker_room' w) as [HI1 Hr1].
  { split; [by constructor|]. unfold room. cbn. rewrite (sumZ_perm _ _ (Permutation_map worker_room' Hp)). unfold sumZ. cbn. lia. }
  assert (1 <= worker_room' w) as Hroom by (unfold worker_room'; lia).
  assert (forall err s2, tries_inv s2 -> room s2 = room s1 -> tries_inv (fail err s2) /\ room (fail err s2) < room s) as Hfail.
  { intros err s2 HI2 Hr2. destruct (fail_tries err s2 HI2) as [? ->]. split; [done|]. lia. }
  assert (forall s2, tries_inv s2 -> room s2 = room s1 -> canRetryRangeAttempt (tk_attempts (wk_task w)) (wk_maxTries w) = true ->
    tries_inv (retryTask w now s2) /\ room (retryTask w now s2) < room s) as Hretry.
  { intros s2 HI2 Hr2 Hcan. destruct (retry_tries w now s2 HI2 ltac:(lia) Hmax Hcan) as [? ->]. split; [done|]. lia. }
  destruct (wk_result w) as [[]|err].
  - set (s2 := s1 <| sg_d ::= _ |>). destruct (tries_same s1 s2) as [HI2 Hr2]; [done|done|apply mark_other|done|].
    set (f := onSuccess _ _ _). destruct (tries_same s2 (s2 <| sg_controller ::= f |>)) as [H1 H2]; [done..|]. split; [done|]. lia.
  - set (s2 := match errors_find _ err with Some _ => _ | None => _ end).
    assert (tries_inv s2 /\ room s2 = room s1) as [HI2 Hr2].
    { unfold s2. destruct (errors_find _ err); [|done]. apply tries_same; [done|done|by apply options_kept|done]. }
    assert (forall f, tries_inv (s2 <| sg_controller ::= f |>) /\ room (s2 <| sg_controller ::= f |>) = room s1) as Hc.
    { intros f. destruct (tries_same s2 (s2 <| sg_controller ::= f |>)) as [? ->]; done. }
    clearbody s2. destruct (isAdaptiveRangeThrottleError err).
    + destruct (canRetryRangeAttempt _ _) eqn:Hcan; [apply Hretry|apply Hfail]; by try apply Hc.
    + destruct (isRetryableRangeError err); cbn [andb]; [|by apply Hfail].
      destruct (canRetryRangeAttempt _ _) eqn:Hcan; [apply Hretry; by try apply Hc|by apply Hfail].
Qed.

Definition is_result (ev : segEvent) : bool := match ev with SgResult _ _ => true | _ => false end.
Definition is_options (ev : segEvent) : bool := match ev with SgOptions _ => true | _ => false end.

Lemma step_tries (s s' : segState) (ev : segEvent) :
  tries_inv s -> is_options ev = false -> segStep fallback attempt s ev = Some s' ->
  tries_inv s' /\ room s' + (if is_result ev then 1 else 0) <= room s.
Proof.
  intros HI Hev H. destruct ev as [k|k now|now|err|now|opts|global]; cbn [segStep is_result] in *.
  - destruct (sg_active s !! k) as [w|] eqn:Hw; [|done]. destruct (wk_flushes w) as [|n rest]; [done|]. injection H as <-.
    destruct HI as [H1 H2 H3]. split.
    + constructor; cbn; [done| |by rewrite (proj1 (options_kept _ _))]. apply Forall_insert; [done|]. exact (Forall_lookup_1 _ _ _ _ H2 Hw).
    + unfold room. cbn. rewrite (sumZ_perm (map worker_room' (<[k := _]> (sg_active s))) _ (Permutation_map worker_room' (insert_perm _ _ _ _ Hw))).
      rewrite (sumZ_perm (map worker_room' (sg_active s)) _ (Permutation_map worker_room' (delete_perm _ _ _ Hw))).
      unfold sumZ. cbn. unfold worker_room'. cbn. lia.
  - destruct (finished s); [done|]. destruct (sg_active s !! k) as [w|] eqn:Hw; [|done]. destruct (wk_flushes w); [|done].
    injection H as <-. destruct (handle_result_tries k w now s HI Hw) as [H1 H2].
    destruct (start_ready_tries now _ H1) as [H3 ->]. split; [done|]. lia.
  - destruct (finished s); [done|]. injection H as <-. destruct (start_ready_tries now s HI) as [H1 ->]. split; [done|]. lia.
  - destruct (sg_ctxErr s); [done|]. injection H as <-. destruct (tries_same s (s <| sg_ctxErr := Some err |>)) as [H1 ->]; try done.
    split; [done|]. lia.
  - destruct (_ || _); [done|]. destruct (sg_ctxErr s) as [err|]; [|done]. injection H as <-.
    destruct (fail_fields err s) as (E1 & E2 & E3).
    destruct (tries_same s (fail err s <| sg_ctxSeen := true |>)) as [H1 H2]; [exact E1|exact E2|cbn; by rewrite E3|done|].
    destruct (start_ready_tries now _ H1) as [H3 ->]. split; [done|]. lia.
  - done.
  - injection H as <-. destruct (tries_same s (s <| sg_global := global |>)) as [H1 ->]; try done. split; [done|]. lia.
Qed.

Lemma run_tries (s s' : segState) (events : list segEvent) :
  tries_inv s -> forallb (fun ev => negb (is_options ev)) events = true -> segRun fallback attempt s events = Some s' ->
  tries_inv s' /\ room s' + Z.of_nat (length (List.filter is_result events)) <= room s.
Proof.
  revert s. induction events as [|ev events IH]; intros s HI Hev H; cbn in H, Hev; [simplify_eq; cbn; split; [done|lia]|].
  apply andb_true_iff in Hev as [He%negb_true_iff Hev].
  destruct (segStep fallback attempt s ev) as [s1|] eqn:E; [|done]. destruct (step_tries s s1 ev HI He E) as [H1 H2].
  destruct (IH s1 H1 Hev H) as [H3 H4]. split; [done|]. cbn [List.filter]. destruct (is_result ev); cbn [length]; lia.
Qed.
End termination.

Lemma start_task_active (attempt : segmentedRangeTask -> Options -> list Z * result unit) (task : segmentedRangeTask) (s : segState) :
  sg_active (startTask attempt task s) <> [].
Proof.
  unfold startTask. cbv zeta. destruct (launchState _). destruct (attempt _ _). cbn. by destruct (sg_active s).
Qed.

Lemma start_loop_active (attempt : segmentedRangeTask -> Options -> list Z * result unit) (fuel : nat) (now : Z) (s : segState) :
  sg_active s <> [] -> sg_active (startLoop attempt fuel now s) <> [].
Proof.
  revert s. induction fuel as [|fuel IH]; intros s Hs; cbn [startLoop]; [done|]. destruct (_ <? _); [|done].
  destruct (readySegmentedTaskIndex _ now) as [idx|]; [|done]. destruct (sg_tasks s !! idx) as [task|]; [|done].
  apply IH, start_task_active.
Qed.

Lemma limit_pos (c : segmentedConcurrencyController) : 1 <= limit c.
Proof. unfold limit. destruct (Z.ltb_spec (effectiveLimit c) 1); lia. Qed.

(** Waiting tasks start as soon as the first of them is due. *)
Lemma start_ready_starts (fallback : Options) (attempt : segmentedRangeTask -> Options -> list Z * result unit)
    (now : Z) (s : segState) (t : segmentedRangeTask) (rest : list segmentedRangeTask) :
  sg_tasks s = t :: rest -> sg_active s = [] -> sg_firstErr s = None -> default 0 (tk_notBefore t) <= now ->
  sg_active (startReady fallback attempt now s) <> [].
Proof.
  intros Ht Ha Hf Hnow. unfold startReady. rewrite Hf, Ht. cbn [length]. set (s0 := s <| sg_controller ::= _ |>).
  assert (sg_tasks s0 = t :: rest) as Ht0 by exact Ht. assert (sg_active s0 = []) as Ha0 by exact Ha.
  cbn [startLoop]. rewrite Ha0, Ht0. cbn [length readySegmentedTaskIndex].
  pose proof (limit_pos (sg_controller s0)). destruct (Z.ltb_spec (Z.of_nat 0) (limit (sg_controller s0))); [|lia].
  assert (match tk_notBefore t with
          | None => Some O
          | Some t0 => if now <? t0 then S <$> readySegmentedTaskIndex rest now else Some O
          end = Some O) as ->.
  { destruct (tk_notBefore t) as [z|]; [|done]. cbn in Hnow. destruct (Z.ltb_spec now z); [lia|done]. }
  cbn [lookup list_lookup]. apply start_loop_active, start_task_active.
Qed.

Lemma initial_tasks_room (m : Z) (chunks : list chunkRange) :
  sumZ (map (task_room m) (initialTasks chunks)) = Z.of_nat (length chunks) * m.
Proof.
  unfold initialTasks. induction chunks as [|c chunks IH] using rev_ind; [done|].
  rewrite imap_app, map_app, sumZ_app, IH, length_app. unfold sumZ. cbn. unfold task_room. cbn. lia.
Qed.

Lemma initial_room (m : Z) (chunks : list chunkRange) (c : segmentedConcurrencyController) (global : Options) (d : Download) :
  room m (mkSeg (initialTasks chunks) [] c None None false global d) = Z.of_nat (length chunks) * m.
Proof. rewrite <- initial_tasks_room. unfold room. cbn [sg_tasks sg_active map]. unfold sumZ at 2. cbn [fold_right]. lia. Qed.

(** C17: a segmented download with a bounded number of tries ends: whatever the workers
    answer, no run of its loop receives more answers than ranges times tries, and until
    the loop ends something can happen: a running worker can always report or answer,
    and when none runs the first waiting range is started by the first tick after its
    delay. *)
Theorem segmented_download_terminates (fallback global : Options) (attempt : segmentedRangeTask -> Options -> list Z * result unit)
    (meta : remoteMeta) (chunks : list chunkRange) (now : Z) (d : Download) (events : list segEvent) (s : segState) :
  let m := triesOf (d_options d) in
  0 < m -> forallb (fun ev => negb (is_options ev)) events = true ->
  segRun fallback attempt (segStart fallback attempt meta chunks global now d) events = Some s ->
  Z.of_nat (length (List.filter is_result events)) <= Z.of_nat (length chunks) * m
  /\ (finished s = false ->
      (exists k w, sg_active s !! k = Some w
         /\ forall now, is_Some (segStep fallback attempt s (SgFlush k)) \/ is_Some (segStep fallback attempt s (SgResult k now)))
      \/ exists due, forall now, due <= now ->
           exists s', segStep fallback attempt s (SgTick now) = Some s' /\ sg_active s' <> []).
Proof.
  cbv zeta. intros Hm Hev Hrun. split.
  - set (m := triesOf (d_options d)) in *.
    assert (tries_inv m (mkSeg (initialTasks chunks) [] (newSegmentedConcurrencyController
      (segmentedWorkerLimit (d_options (resetProgress (m_Length meta) chunks d)) global fallback (Z.of_nat (length chunks))))
      None None false global (resetProgress (m_Length meta) chunks d))) as HI.
    { constructor; cbn; [|done|by destruct chunks]. apply Forall_forall. intros t Ht. unfold initialTasks in Ht.
      apply list_elem_of_lookup in Ht as [i Ht]. rewrite list_lookup_imap in Ht.
      destruct (chunks !! i); [|done]. injection Ht as <-. cbn. lia. }
    destruct (start_ready_tries fallback attempt m now _ HI) as [HI' Hr].
    destruct (run_tries fallback attempt m Hm _ s events HI' Hev Hrun) as [HI'' Hle].
    pose proof (room_nonneg m s HI''). rewrite Hr, initial_room in Hle. lia.
  - intros Hfin. destruct (sg_active s) as [|w rest] eqn:Ha.
    + right. unfold finished in Hfin. rewrite Ha in Hfin. destruct (sg_tasks s) as [|t tasks] eqn:Ht; [done|].
      destruct (sg_firstErr s) eqn:Hf; [done|]. exists (default 0 (tk_notBefore t)). intros now' Hnow.
      exists (startReady fallback attempt now' s). split; [|by eapply start_ready_starts].
      cbn [segStep]. unfold finished. by rewrite Ha, Ht, Hf.
    + left. exists 0%nat, w. split; [done|]. intros now'. cbn [segStep]. unfold finished. rewrite Ha. cbn [lookup list_lookup].
      destruct (wk_flushes w); [right|left]; by eexists.
Qed.

Lemma segmented_download_terminates_witness :
  Z.of_nat (length (List.filter is_result demoSegEvents)) <= Z.of_nat (length (makeChunks (m_Length demoMeta) 30)) * 5.
Proof.
  destruct demo_seg_run as (s & E & _). assert (triesOf (d_options demoSegDownload) = 5) as Hm by by vm_compute.
  pose proof (segmented_download_terminates demoSegOptions noOptions (rangeAttempt demoMeta demoIO) demoMeta
    (makeChunks (m_Length demoMeta) 30) 0 demoSegDownload demoSegEvents s) as T. cbv zeta in T. rewrite Hm in T.
  destruct (T eq_refl eq_refl E) as [H _]. exact H.
Defined.
