(* ===== verification/ControllerSpec.v ===== *)
(** * Limits: concurrency, rate and size

    The concurrency controller of a segmented download stays inside its ceiling and
    below every limit that was throttled, the rate limiter always finishes, and a
    fetched torrent is bounded in tries and in size. *)
From S2P Require Import Prelude GoStrings GoURL Base64 Pieces Options Http Reservations Torrent State Engine Downloader TorrentSource.

(** ** The concurrency controller

    A history of the controller: ranges are launched, and answers of launches come back
    in any order, each with the ceiling of its moment. *)
Inductive ctl_op :=
| OpClamp (ceiling : Z)
| OpLaunch
| OpSuccess (launch : nat) (ceiling : Z)
| OpThrottle (launch : nat) (ceiling : Z)
| OpRetryable (launch : nat) (ceiling : Z).

(** The controller and the launches so far, each with its limit and generation. *)
Record ctl := mkCtl { ct_c : segmentedConcurrencyController; ct_launches : list (Z * Z) }.

Definition answer (handler : Z -> Z -> Z -> segmentedConcurrencyController -> segmentedConcurrencyController)
    (launch : nat) (ceiling : Z) (s : ctl) : ctl :=
  match ct_launches s !! launch with
  | Some (l, g) => mkCtl (handler l g ceiling (ct_c s)) (ct_launches s)
  | None => s
  end.

Definition ctl_step (s : ctl) (op : ctl_op) : ctl :=
  match op with
  | OpClamp ceiling => mkCtl (clampCeiling ceiling (ct_c s)) (ct_launches s)
  | OpLaunch => mkCtl (ct_c s) (ct_launches s ++ [launchState (ct_c s)])
  | OpSuccess launch ceiling => answer onSuccess launch ceiling s
  | OpThrottle launch ceiling => answer onThrottle launch ceiling s
  | OpRetryable launch ceiling => answer onRetryableError launch ceiling s
  end.

Definition ctl_start (ceiling : Z) : ctl := mkCtl (newSegmentedConcurrencyController ceiling) [].

(** A generation has one limit, and the limit is positive and below every rejected one. *)
Record ctl_ok (c : segmentedConcurrencyController) : Prop := {
  ok_limit : 1 <= effectiveLimit c;
  ok_rejected : rejectedProbeLimit c = 0 \/ (2 <= rejectedProbeLimit c /\ effectiveLimit c < rejectedProbeLimit c);
  ok_successes : 0 <= successesAtLimit c < effectiveLimit c
}.

(** What one step may do to the limit. *)
Record ctl_change (c c' : segmentedConcurrencyController) : Prop := {
  ch_generation : generation c <= generation c';
  ch_same : generation c' = generation c -> effectiveLimit c' = effectiveLimit c;
  ch_rejected : 0 < rejectedProbeLimit c -> 0 < rejectedProbeLimit c' <= rejectedProbeLimit c
}.

(** Splits the comparisons of a goal, the innermost ones first. *)
Ltac no_test t :=
  lazymatch t with
  | context [Z.ltb _ _] => fail
  | context [Z.leb _ _] => fail
  | context [Z.eqb _ _] => fail
  | _ => idtac
  end.

Ltac controller_cases :=
  repeat (match goal with
  | |- context [?a <? ?b] => no_test a; no_test b; destruct (Z.ltb_spec a b)
  | |- context [?a <=? ?b] => no_test a; no_test b; destruct (Z.leb_spec a b)
  | |- context [?a =? ?b] => no_test a; no_test b; destruct (Z.eqb_spec a b)
  end; cbn [negb andb orb effectiveLimit successesAtLimit rejectedProbeLimit generation set] in *).

Lemma adjusted_bounds (ceiling : Z) (c : segmentedConcurrencyController) :
  1 <= adjustedCeiling ceiling c <= Z.max 1 ceiling
  /\ (2 <= rejectedProbeLimit c -> adjustedCeiling ceiling c < rejectedProbeLimit c).
Proof. unfold adjustedCeiling. controller_cases; lia. Qed.

Lemma clamp_spec (ceiling : Z) (c : segmentedConcurrencyController) :
  ctl_ok c -> let c' := clampCeiling ceiling c in
  ctl_ok c' /\ ctl_change c c' /\ effectiveLimit c' = Z.min (effectiveLimit c) (adjustedCeiling ceiling c)
  /\ rejectedProbeLimit c' = rejectedProbeLimit c.
Proof.
  intros [H1 H2 H3]. cbv zeta. pose proof (adjusted_bounds ceiling c) as [Hb Hr]. unfold clampCeiling. cbv zeta.
  generalize dependent (adjustedCeiling ceiling c). intros a Hb Hr. destruct c as [l s r g]. cbn in *.
  controller_cases; cbn in *; (split_and!; [constructor; cbn; lia|constructor; cbn; lia|lia|done]).
Qed.

(** What a step promises of the new controller: it is well formed, it changed as allowed,
    it is inside the ceiling of the step, and the limit grew by one at most. *)
Record ctl_stepped (ceiling : Z) (c c' : segmentedConcurrencyController) : Prop := {
  st_ok : ctl_ok c';
  st_change : ctl_change c c';
  st_ceiling : effectiveLimit c' <= Z.max 1 ceiling;
  st_grow : effectiveLimit c' <= effectiveLimit c + 1
}.

Lemma clamp_stepped (ceiling : Z) (c : segmentedConcurrencyController) :
  ctl_ok c -> ctl_stepped ceiling c (clampCeiling ceiling c).
Proof.
  intros H. destruct (clamp_spec ceiling c H) as (H1 & H2 & H3 & _). pose proof (adjusted_bounds ceiling c) as [Hb _].
  constructor; [done|done|lia|lia].
Qed.

(** After clamping, a handler works with a limit inside the ceiling. *)
Lemma after_clamp (ceiling : Z) (c c' : segmentedConcurrencyController) :
  ctl_ok c ->
  (let k := clampCeiling ceiling c in
   ctl_ok k -> effectiveLimit k <= adjustedCeiling ceiling k -> effectiveLimit k <= effectiveLimit c ->
   ctl_ok c' /\ ctl_change k c' /\ effectiveLimit c' <= adjustedCeiling ceiling k /\ effectiveLimit c' <= effectiveLimit k + 1) ->
  ctl_stepped ceiling c c'.
Proof.
  intros H. destruct (clamp_spec ceiling c H) as (H1 & [G1 G2 G3] & H3 & H4). cbv zeta. intros Hk.
  assert (adjustedCeiling ceiling (clampCeiling ceiling c) = adjustedCeiling ceiling c) as Ea.
  { unfold adjustedCeiling. by rewrite H4. }
  destruct Hk as (K1 & [K2 K3 K4] & K5 & K6); [done|rewrite Ea; lia|lia|].
  pose proof (adjusted_bounds ceiling c) as [Hb _].
  constructor; [done| |lia|lia]. constructor; [lia| |].
  - intros E. rewrite K3, G2; lia.
  - intros Hr. specialize (G3 Hr). specialize (K4 (proj1 G3)). lia.
Qed.

Lemma success_stepped (l g ceiling : Z) (c : segmentedConcurrencyController) :
  ctl_ok c -> ctl_stepped ceiling c (onSuccess l g ceiling c).
Proof.
  intros H. apply after_clamp; [done|]. cbv zeta. intros [H1 H2 H3] Hle _. unfold onSuccess. cbv zeta.
  revert H1 H2 H3 Hle. generalize (clampCeiling ceiling c). clear. intros k H1 H2 H3 Hle.
  destruct (negb (g =? generation k) || negb (l =? effectiveLimit k)).
  { split_and!; [done| |lia|lia]. constructor; lia. }
  pose proof (adjusted_bounds ceiling k) as [Hb Hr].
  change (adjustedCeiling ceiling (_ <| successesAtLimit := 0 |>)) with (adjustedCeiling ceiling k).
  revert Hb Hr Hle. generalize (adjustedCeiling ceiling k). intros a Hb Hr Hle.
  destruct k as [l0 s r g0]. cbn in *. controller_cases; cbn in *;
    (split_and!; [constructor; cbn; lia|constructor; cbn; lia|lia|lia]).
Qed.

Lemma retryable_stepped (l g ceiling : Z) (c : segmentedConcurrencyController) :
  ctl_ok c -> ctl_stepped ceiling c (onRetryableError l g ceiling c).
Proof.
  intros H. apply after_clamp; [done|]. cbv zeta. intros [H1 H2 H3] Hle _. unfold onRetryableError. cbv zeta.
  revert H1 H2 H3 Hle. generalize (clampCeiling ceiling c). clear. intros k H1 H2 H3 Hle.
  destruct (negb (g =? generation k) || negb (l =? effectiveLimit k)).
  { split_and!; [done| |lia|lia]. constructor; lia. }
  revert Hle. generalize (adjustedCeiling ceiling k). intros a Hle. destruct k as [l0 s r g0]. cbn in *.
  split_and!; [constructor; cbn; lia|constructor; cbn; lia|lia|lia].
Qed.

(** A throttled launch of the current generation lowers the limit below the one it was
    launched under, and no later limit reaches that one. *)
Lemma throttle_stepped (l g ceiling : Z) (c : segmentedConcurrencyController) :
  ctl_ok c -> 1 <= l -> (g = generation c -> l = effectiveLimit c) -> g <= generation c ->
  ctl_stepped ceiling c (onThrottle l g ceiling c)
  /\ (g = generation (clampCeiling ceiling c) -> 2 <= l ->
      effectiveLimit (onThrottle l g ceiling c) < l /\ 0 < rejectedProbeLimit (onThrottle l g ceiling c) <= l).
Proof.
  intros H Hl Hg Hg'. destruct (clamp_spec ceiling c H) as (Hk & [G1 G2 G3] & _ & _).
  assert (g = generation (clampCeiling ceiling c) -> l = effectiveLimit (clampCeiling ceiling c)) as Hsame.
  { intros E. rewrite G2 by lia. apply Hg. lia. }
  clear Hg Hg' G1 G2 G3. unfold onThrottle. cbv zeta. destruct Hk as [H1 H2 H3]. split; [apply after_clamp; [done|]; cbv zeta; intros _ Hle _; revert Hle|];
    revert H1 H2 H3 Hsame; generalize (clampCeiling ceiling c); clear -Hl; intros k H1 H2 H3 Hsame.
  - intros Hle. destruct (Z.eqb_spec g (generation k)) as [E|E]; cbn [negb].
    + specialize (Hsame E). destruct k as [l0 s r g0]. cbn in *. subst l0. destruct (Z.ltb_spec l 1); [lia|].
      clear Hle. unfold adjustedCeiling. cbn. controller_cases; cbn in *;
        (split_and!; [constructor; cbn; lia|constructor; cbn; lia|lia|lia]).
    + split_and!; [done| |lia|lia]. constructor; lia.
  - intros E H2l. specialize (Hsame E). rewrite E, Z.eqb_refl. cbn [negb]. destruct k as [l0 s r g0]. cbn in *. subst l0.
    unfold adjustedCeiling. destruct (Z.ltb_spec l 1); [lia|]. cbn. controller_cases; cbn in *; lia.
Qed.

(** Launches belong to generations so far, and a launch of the current one has its limit. *)
Definition ctl_inv (s : ctl) : Prop :=
  ctl_ok (ct_c s)
  /\ Forall (fun lg : Z * Z => 1 <= lg.1 /\ lg.2 <= generation (ct_c s)
                               /\ (lg.2 = generation (ct_c s) -> lg.1 = effectiveLimit (ct_c s))) (ct_launches s).

(** The ceiling a step is given. *)
Definition op_ceiling (op : ctl_op) : option Z :=
  match op with
  | OpClamp ceiling | OpSuccess _ ceiling | OpThrottle _ ceiling | OpRetryable _ ceiling => Some ceiling
  | OpLaunch => None
  end.

Lemma ctl_inv_stepped (s : ctl) (ceiling : Z) (c' : segmentedConcurrencyController) :
  ctl_inv s -> ctl_stepped ceiling (ct_c s) c' -> ctl_inv (mkCtl c' (ct_launches s)).
Proof.
  intros [H1 H2] [S1 [S2 S3 S4] S5 S6]. split; [done|]. eapply Forall_impl; [exact H2|]. intros [l g] (P1 & P2 & P3). cbn in *.
  split_and!; [done|lia|]. intros E. rewrite P3 by lia. symmetry. apply S3. lia.
Qed.

Lemma ctl_start_inv (ceiling : Z) : ctl_inv (ctl_start ceiling).
Proof.
  split; [|constructor]. unfold ctl_start, newSegmentedConcurrencyController. cbn [ct_c].
  apply clamp_spec. constructor; cbn; lia.
Qed.

Lemma ctl_step_inv (s : ctl) (op : ctl_op) :
  ctl_inv s -> ctl_inv (ctl_step s op)
  /\ (ctl_step s op = mkCtl (ct_c s) (ct_launches (ctl_step s op))
      \/ exists ceiling, op_ceiling op = Some ceiling /\ ctl_stepped ceiling (ct_c s) (ct_c (ctl_step s op))).
Proof.
  intros HI. pose proof HI as [Hok Hl].
  assert (forall handler launch ceiling,
    (forall l g, ct_launches s !! launch = Some (l, g) -> ctl_stepped ceiling (ct_c s) (handler l g ceiling (ct_c s))) ->
    ctl_inv (answer handler launch ceiling s)
    /\ (answer handler launch ceiling s = mkCtl (ct_c s) (ct_launches (answer handler launch ceiling s))
        \/ ctl_stepped ceiling (ct_c s) (ct_c (answer handler launch ceiling s)))) as Hans.
  { intros handler launch ceiling H. unfold answer. destruct (ct_launches s !! launch) as [[l g]|]; cbn [ct_c ct_launches].
    - specialize (H l g eq_refl). split; [by eapply ctl_inv_stepped|by right].
    - split; [done|left; by destruct s]. }
  destruct op as [ceiling| |launch ceiling|launch ceiling|launch ceiling]; cbn [ctl_step op_ceiling].
  - pose proof (clamp_stepped ceiling (ct_c s) Hok) as H. split; [by eapply ctl_inv_stepped|right; by exists ceiling].
  - split; [|by left]. split; [done|]. cbn [ct_launches ct_c]. apply Forall_app. split; [done|]. constructor; [|constructor].
    unfold launchState, limit. destruct Hok as [H1 _ _]. destruct (Z.ltb_spec (effectiveLimit (ct_c s)) 1); cbn; lia.
  - destruct (Hans onSuccess launch ceiling) as [H1 [H2|H2]]; [intros; by apply success_stepped|by auto|].
    split; [done|right; by exists ceiling].
  - destruct (Hans onThrottle launch ceiling) as [H1 [H2|H2]]; [|by auto|split; [done|right; by exists ceiling]].
    intros l g Hlg. rewrite Forall_lookup in Hl. destruct (Hl _ _ Hlg) as (P1 & P2 & P3). by apply throttle_stepped.
  - destruct (Hans onRetryableError launch ceiling) as [H1 [H2|H2]]; [intros; by apply retryable_stepped|by auto|].
    split; [done|right; by exists ceiling].
Qed.

Lemma ctl_run_inv (s : ctl) (ops : list ctl_op) : ctl_inv s -> ctl_inv (foldl ctl_step s ops).
Proof.
  revert s. induction ops as [|op ops IH]; intros s H; cbn [foldl]; [done|]. apply IH. by apply (ctl_step_inv s op).
Qed.

Lemma ctl_run_rejected (s : ctl) (ops : list ctl_op) :
  ctl_inv s -> 0 < rejectedProbeLimit (ct_c s) ->
  0 < rejectedProbeLimit (ct_c (foldl ctl_step s ops)) <= rejectedProbeLimit (ct_c s).
Proof.
  revert s. induction ops as [|op ops IH]; intros s HI Hr; cbn [foldl]; [lia|].
  destruct (ctl_step_inv s op HI) as [HI' Hs].
  assert (0 < rejectedProbeLimit (ct_c (ctl_step s op)) <= rejectedProbeLimit (ct_c s)) as H.
  { destruct Hs as [->|(ceiling & _ & Hs)]; [cbn; lia|]. by apply (ch_rejected _ _ (st_change _ _ _ Hs)). }
  specialize (IH _ HI' ltac:(lia)). lia.
Qed.

(** The concurrency of a segmented download stays between one and the ceiling of each
    step, grows by one range at a time, and once a launch is throttled under the current
    limit (two or more) the limit stays below that one for the rest of the download, in
    any history of launches and answers, stale answers included. *)
Theorem concurrency_stays_in_limits (ceiling0 : Z) (ops : list ctl_op) (op : ctl_op) (later : list ctl_op) :
  let s := foldl ctl_step (ctl_start ceiling0) ops in
  let s' := ctl_step s op in
  1 <= limit (ct_c s') <= limit (ct_c s) + 1
  /\ (forall ceiling, op_ceiling op = Some ceiling -> ct_c s' = ct_c s \/ limit (ct_c s') <= Z.max 1 ceiling)
  /\ (forall launch ceiling l, op = OpThrottle launch ceiling ->
        ct_launches s !! launch = Some (l, generation (clampCeiling ceiling (ct_c s))) -> 2 <= l ->
        limit (ct_c (foldl ctl_step s' later)) < l).
Proof.
  cbv zeta. set (s := foldl ctl_step (ctl_start ceiling0) ops).
  assert (ctl_inv s) as HI by apply ctl_run_inv, ctl_start_inv. pose proof HI as [Hok Hl].
  assert (forall c, ctl_ok c -> limit c = effectiveLimit c) as Hlim.
  { intros c [H _ _]. unfold limit. destruct (Z.ltb_spec (effectiveLimit c) 1); lia. }
  destruct (ctl_step_inv s op HI) as [HI' Hs]. rewrite (Hlim (ct_c s)), (Hlim (ct_c (ctl_step s op))) by (done || apply HI').
  split_and!.
  - apply HI'.
  - destruct Hs as [->|(ceiling & _ & Hs)]; [cbn; lia|]. apply Hs.
  - intros ceiling Hc. destruct Hs as [->|(c & E & Hs)]; [by left|right]. rewrite Hc in E. injection E as <-. apply Hs.
  - intros launch ceiling l -> Hlg H2. rewrite Forall_lookup in Hl. destruct (Hl _ _ Hlg) as (P1 & P2 & P3). cbn in P1, P2, P3.
    destruct (throttle_stepped l _ ceiling (ct_c s) Hok P1 P3 P2) as [_ Ht]. specialize (Ht eq_refl H2).
    set (s' := ctl_step s (OpThrottle launch ceiling)) in *.
    assert (ct_c s' = onThrottle l (generation (clampCeiling ceiling (ct_c s))) ceiling (ct_c s)) as E.
    { unfold s'. cbn [ctl_step]. unfold answer. by rewrite Hlg. }
    rewrite <- E in Ht. destruct Ht as [_ Ht].
    pose proof (ctl_run_rejected s' later HI' (proj1 Ht)) as Hr.
    pose proof (ctl_run_inv s' later HI') as [[H1 H3 _] _]. rewrite Hlim by apply (ctl_run_inv s' later HI'). lia.
Qed.

(** ** The rate limiter *)

Lemma reservationChunk_bounds (limiters : list rateLimiter) (n : Z) :
  1 <= n -> 1 <= reservationChunk limiters n <= n.
Proof.
  unfold reservationChunk. intros Hn.
  assert (forall chunk, 1 <= chunk <= n -> 1 <= foldl (fun chunk l =>
      let limit := currentLimit l in
      if limit <=? 0 then chunk
      else
        let candidate := limit / 10 in
        let candidate := if candidate <? 1 then 1 else candidate in
        if candidate <? chunk then candidate else chunk) chunk limiters <= n) as H; [|apply H; lia].
  induction limiters as [|l limiters IH]; intros chunk Hc; cbn [foldl]; [done|]. apply IH. cbv zeta.
  controller_cases; lia.
Qed.

(** A reservation of any number of bytes ends, and time does not go back. *)
Lemma wait_total (limiters : list rateLimiter) (now n : Z) :
  exists finish limiters', Downloader.wait limiters now n = Some (finish, limiters') /\ now <= finish.
Proof.
  unfold Downloader.wait.
  assert (forall fuel limiters now n, n <= Z.of_nat fuel ->
    exists finish limiters', waitLoop fuel limiters now n = Some (finish, limiters') /\ now <= finish) as H; [|apply H; lia].
  clear. induction fuel as [|fuel IH]; intros limiters now n Hn; cbn [waitLoop].
  - destruct (Z.leb_spec n 0); [|lia]. by eexists _, _.
  - destruct (Z.leb_spec n 0); [by eexists _, _|]. cbv zeta.
    pose proof (reservationChunk_bounds limiters n ltac:(lia)) as Hc.
    destruct (reservationDeadline now (reservationChunk limiters n) limiters now) as [deadline limiters'].
    destruct (IH limiters' (Z.max now deadline) (n - reservationChunk limiters n) ltac:(lia)) as (f & l & E & Hf).
    exists f, l. split; [done|lia].
Qed.

(** ** Fetching a torrent *)

Lemma fetchOnce_bounded (raw : string) (maxSize : Z) (a : fetchAttempt) (data : string) :
  fetchTorrentURLOnce raw maxSize a = Ok data -> len data <= maxSize.
Proof.
  unfold fetchTorrentURLOnce. destruct (fa_newRequest a); [|done]. cbn [result_bind].
  destruct (fa_do a) as [resp|]; [|done]. cbn [result_bind]. destruct (_ || _); [done|]. destruct (_ <? _); [done|].
  destruct (fa_reader a); [|done]. cbn [result_bind]. destruct (Z.ltb_spec maxSize (len (fa_body a))); [done|].
  destruct (fa_bodyErr a); [done|]. by intros [= <-].
Qed.

Lemma fetchLoop_bounded (fuel : nat) (raw : string) (maxSize maxTries retryWait : Z) (attempts : nat -> fetchAttempt)
    (attempt : nat) (lastErr : option error) (data : string) :
  fetchLoop fuel raw maxSize maxTries retryWait attempts attempt lastErr = Some (Ok data) -> len data <= maxSize.
Proof.
  revert attempt lastErr. induction fuel as [|fuel IH]; intros attempt lastErr; cbn [fetchLoop];
    (destruct (_ && negb (_ <? _)); [done|]); [done|].
  destruct (fa_ctx _); [done|]. destruct (fetchTorrentURLOnce _ _ _) as [d|err] eqn:E.
  - intros [= <-]. by eapply fetchOnce_bounded.
  - destruct (_ || _); [done|]. destruct (_ && _); [destruct (fa_sleep _); [done|]|]; apply IH.
Qed.

(** The loop only looks at the tries it is allowed. *)
Lemma fetchLoop_ends (fuel : nat) (raw : string) (maxSize maxTries retryWait : Z) (attempts attempts' : nat -> fetchAttempt)
    (attempt : nat) (lastErr : option error) :
  0 < maxTries -> (forall k, Z.of_nat k < maxTries -> attempts' k = attempts k) ->
  maxTries <= Z.of_nat (attempt + fuel) ->
  is_Some (fetchLoop fuel raw maxSize maxTries retryWait attempts attempt lastErr)
  /\ fetchLoop fuel raw maxSize maxTries retryWait attempts' attempt lastErr
     = fetchLoop fuel raw maxSize maxTries retryWait attempts attempt lastErr.
Proof.
  intros Hm Heq. revert attempt lastErr. induction fuel as [|fuel IH]; intros attempt lastErr Hf; cbn [fetchLoop];
    destruct (Z.eqb_spec maxTries 0); try lia; cbn [negb andb]; destruct (Z.ltb_spec (Z.of_nat attempt) maxTries);
    cbn [negb]; try (split; [by eexists|done]); [lia|].
  rewrite Heq by done. destruct (fa_ctx _); [split; [by eexists|done]|].
  destruct (fetchTorrentURLOnce _ _ _) as [d|err]; [split; [by eexists|done]|].
  destruct (_ || _); [split; [by eexists|done]|].
  destruct (_ && _); [destruct (fa_sleep _); [split; [by eexists|done]|]|]; apply IH; lia.
Qed.

Lemma decodeUpTo_bounded (m : b64mode) (s : string) (maxSize : Z) (data : string) :
  decodeUpTo m s maxSize = Ok data -> len data <= maxSize.
Proof.
  unfold decodeUpTo. destruct (DecodeString m s) as [d|].
  - destruct (Z.ltb_spec maxSize (len d)); [done|]. by intros [= <-].
  - by destruct (maxSize <? _).
Qed.

Lemma decodeParam_bounded (s : string) (maxSize : Z) (data : string) :
  decodeTorrentParamUpTo s maxSize = Ok data -> len data <= maxSize.
Proof.
  unfold decodeTorrentParamUpTo. destruct (decodeUpTo StdEncoding s maxSize) as [d|e] eqn:E1.
  - intros [= <-]. by eapply decodeUpTo_bounded.
  - destruct (isSizeError e); [done|]. destruct (decodeUpTo RawStdEncoding s maxSize) as [d|e'] eqn:E2.
    + intros [= <-]. by eapply decodeUpTo_bounded.
    + by destruct (isSizeError e').
Qed.

Lemma torrentSizeLimit_range (opts : Options) : 1 <= torrentSizeLimit opts <= 67108864.
Proof.
  unfold torrentSizeLimit, defaultMaxTorrentSize, maxSupportedTorrentSize. cbv zeta. controller_cases; lia.
Qed.

(** A torrent source is bounded in tries and in size: with a bounded number of tries
    the fetch of a torrent URL always ends, after at most that many requests (later
    answers of the network do not matter), and the bytes of an accepted torrent, decoded
    or fetched, are within the configured limit, which is at most 64 MiB. *)
Theorem torrent_source_bounded {lib : TorrentLib} (raw : string) (opts : Options) (attempts attempts' : nat -> fetchAttempt) :
  let maxTries := optionInt opts "max-tries" 5 in
  let tries := if maxTries <? 0 then 1 else maxTries in
  1 <= torrentSizeLimit opts <= 67108864
  /\ (maxTries <> 0 -> (forall k, Z.of_nat k < tries -> attempts' k = attempts k) ->
      exists answer, fetchTorrentURL (Z.to_nat tries) raw opts attempts = Some answer
        /\ fetchTorrentURL (Z.to_nat tries) raw opts attempts' = Some answer)
  /\ (forall fuel fetch data mi info url,
        fetchTorrentURL fuel raw opts attempts = Some fetch ->
        resolveTorrentSource raw opts fetch = Ok (data, mi, info, url) -> len data <= torrentSizeLimit opts).
Proof.
  cbv zeta. split; [apply torrentSizeLimit_range|]. split.
  - intros Hne Heq. unfold fetchTorrentURL. destruct (validateHTTPURI raw); [|by eexists]. cbv zeta.
    destruct (fetchLoop_ends (Z.to_nat (if optionInt opts "max-tries" 5 <? 0 then 1 else optionInt opts "max-tries" 5))
      raw (torrentSizeLimit opts) (if optionInt opts "max-tries" 5 <? 0 then 1 else optionInt opts "max-tries" 5)
      (wrap64 (optionInt opts "retry-wait" 0 * second)) attempts attempts' O None) as [[answer H1] H2];
      [controller_cases; lia|done|lia|]. exists answer. by rewrite H2, H1.
  - intros fuel fetch data mi info url Hf. unfold resolveTorrentSource. cbv zeta.
    assert (forall mi info url, (let! data := fetch in
      let! ' (mi, info) := torrentMetaInfo data in Ok (data, mi, info, raw)) = Ok (data, mi, info, url) -> len data <= torrentSizeLimit opts) as Hfetch.
    { intros mi' info' url'. destruct fetch as [d|]; [|done]. cbn [result_bind]. destruct (torrentMetaInfo d) as [[m i]|]; [|done].
      cbn [result_bind]. intros [= <- _ _ _]. unfold fetchTorrentURL in Hf. destruct (validateHTTPURI raw); [|done]. cbv zeta in Hf.
      by eapply fetchLoop_bounded. }
    destruct (decodeTorrentParamUpTo raw (torrentSizeLimit opts)) as [d|err] eqn:E.
    + destruct (torrentMetaInfo d) as [[m i]|err].
      * intros [= <- _ _ _]. by eapply decodeParam_bounded.
      * destruct (isHTTPTorrentURL raw); [apply Hfetch|done].
    + destruct (_ || _); [done|apply Hfetch].
Qed.

(** ** Witnesses *)

(** The limit grows to two; a launch under two is throttled; the limit stays at one. *)
Lemma concurrency_stays_in_limits_witness :
  let s := foldl ctl_step (ctl_start 8) [OpLaunch; OpSuccess 0 8; OpLaunch] in
  limit (ct_c s) = 2
  /\ limit (ct_c (foldl ctl_step (ctl_step s (OpThrottle 1 8)) [OpLaunch; OpSuccess 2 8; OpLaunch; OpSuccess 3 8])) < 2.
Proof.
  cbv zeta. split; [by vm_compute|].
  destruct (concurrency_stays_in_limits 8 [OpLaunch; OpSuccess 0 8; OpLaunch] (OpThrottle 1 8)
    [OpLaunch; OpSuccess 2 8; OpLaunch; OpSuccess 3 8]) as (_ & _ & H).
  apply (H 1%nat 8); [done|by vm_compute|done].
Defined.

(** A network that always answers 503. *)
Definition demoBusy (k : nat) : fetchAttempt :=
  mkAttempt None (Ok tt) (Ok (mkResponse ∅ 503 "503 Service Unavailable" 0 None)) (Ok tt) "" None None.

Lemma torrent_source_bounded_witness :
  exists answer, fetchTorrentURL 5 "http://h/x.torrent" noOptions demoBusy = Some answer.
Proof.
  destruct (@torrent_source_bounded (Build_TorrentLib (fun _ => Err ENotExist) (fun _ => Err ENotExist)
    (fun name => mkInfo 0 0 0 [] false false [] None [] [] name None false) (fun _ => Ok []) (fun _ _ => "") (fun s => s))
    "http://h/x.torrent" noOptions demoBusy demoBusy) as (_ & H & _).
  destruct H as (answer & H & _); [by vm_compute|done|]. exists answer. exact H.
Defined.
