(* ===== verification/TorrentRun.v ===== *)
(** * Runs of torrents ([torrent_download.go])

    [runTorrentDownload]: the client's settings, what is handed to the library, the wait
    for metadata and for the selected files, and the files that go to a handler one by one
    ([processCompletedTorrentFiles]).  What the library answers, the order in which it
    offers files and the ticks of the progress goroutine are inputs. *)
From S2P Require Import Prelude GoStrings GoPath GoURL Text Pieces Options Http Reservations Torrent State Engine Progress Downloader.

(** ** The client's settings *)

Record torrentClientConfig := mkTorrentConfig {
  tc_DataDir : string; tc_NoDefaultPortForwarding : bool; tc_Identity : clientIdentity; tc_NoUpload : bool;
  tc_DisableSmartBanning : bool; tc_Discovery : peerDiscovery; tc_DisableUTP : bool; tc_DisableIPv6 : bool;
  tc_Peers : option (Z * Z * Z);              (* established, high and low water *)
  tc_UploadLimit : option Z; tc_DownloadLimit : option Z; tc_ListenPort : Z; tc_ListenHost : option string
}.

(** The settings for the options of a download; [dflt] is the library's identity. *)
Definition torrentClientConfigFor (dflt : clientIdentity) (dir : string) (opts : Options) (private : bool) : result torrentClientConfig :=
  let! identity := applyTorrentClientIdentityOptions dflt opts in
  let maxPeers := optionInt opts "bt-max-peers" 0 in
  let '(upload, download) := applyTorrentRateLimitOptions opts in
  let host := optionString opts "goaria-listen-host" in
  Ok (mkTorrentConfig dir true identity (optionBool opts "goaria-torrent-no-upload")
        (optionBool opts "goaria-torrent-disable-smart-ban") (applyTorrentPeerDiscoveryOptions opts private)
        (optionBool opts "disable-utp" || optionBool opts "goaria-disable-utp") (optionBool opts "disable-ipv6")
        (if 0 <? maxPeers then Some (maxPeers, maxPeers, Z.quot maxPeers 2) else None)
        upload download (optionInt opts "listen-port" 0) (if String.eqb host "" then None else Some host)).

(** [torrentFileClientOpts] *)
Record fileClientOpts := mkFileOpts {
  fo_ClientBaseDir : string; fo_UsePartFiles : bool; fo_ForceClassicFileIO : bool; fo_FilePathMaker : option (FilePathMakerOpts -> string)
}.
Definition torrentFileClientOpts (dir : string) (opts : Options) : fileClientOpts :=
  mkFileOpts dir false true (torrentFilePathMaker opts).

(** [validatingTorrentStorage.OpenTorrent]: the storage is opened for valid metadata only. *)
Definition OpenTorrent {A} (delegate : result A) (info : Info) : result A :=
  match validateTorrentInfo info with Err err => Err (EWrap "invalid torrent metadata" err) | Ok _ => delegate end.

(** ** What is added to the client *)

Record torrentSpec := mkTorrentSpec {
  sp_Trackers : list (list string); sp_Webseeds : list string; sp_InfoHash : option string; sp_InfoHashV2Short : option string
}.
#[global] Instance eta_torrentSpec : Eta torrentSpec := fun s =>
  mkTorrentSpec (sp_Trackers s) (sp_Webseeds s) (sp_InfoHash s) (sp_InfoHashV2Short s).

Definition extractTorrentWebSeedURLs (spec : torrentSpec) (uris : list string) : torrentSpec * result (list string) :=
  (spec <| sp_Webseeds := [] |>, mergeTorrentWebSeedURLs (sp_Webseeds spec) uris).

Definition ensureTorrentSpecShortInfoHash (spec : torrentSpec) : torrentSpec :=
  match sp_InfoHash spec, sp_InfoHashV2Short spec with
  | None, Some short => spec <| sp_InfoHash := Some short |> <| sp_InfoHashV2Short := None |>
  | _, _ => spec
  end.

(** What a web seed's request carries: the library's range, and no encoding. *)
Definition applyWebSeedRequestOptions (opts : Options) (r : Request) : Request :=
  let rangeHeader := hGet (rq_Header r) "Range" in
  let r := applyRequestOptions opts r <| rq_Header ::= hDel "Range" |> in
  let r := if String.eqb rangeHeader "" then r else setHeader "Range" rangeHeader r in
  setHeader "Accept-Encoding" "identity" r.

(** The handler of write errors: the cause that cancels the run. *)
Definition writeChunkError (err : error) : option error :=
  if errors_is (fun e => match e with ECanceled => true | _ => false end) err then None
  else Some (EWrap "torrent write chunk error" err).

(** ** Progress *)

(** What [updateTorrentProgress] reads of the library. *)
Record torrentView := mkView { tv_stats : torrentStats; tv_snapshots : list fileSnapshot; tv_runs : list pieceRun }.

Definition refresh (v : torrentView) (d : Download) : Download := (updateTorrentProgress (tv_stats v) (tv_snapshots v) (tv_runs v) d).1.

(** A tick of the progress goroutine, [elapsed] after the last one. *)
Record progressTick := mkTick { pt_view : torrentView; pt_elapsed : Z }.

Definition progressStep (d : Download) (lastCompleted : Z) (t : progressTick) : Download * Z :=
  let '(d, completed) := updateTorrentProgress (tv_stats (pt_view t)) (tv_snapshots (pt_view t)) (tv_runs (pt_view t)) d in
  let d := if 0 <? pt_elapsed t
           then setDownloadBPS (bytesPerSecond (Z.max 0 (wrap64 (completed - lastCompleted))) (pt_elapsed t)) d
           else d in
  (d, completed).

Definition progressTicks (ticks : list progressTick) (d : Download) (lastCompleted : Z) : Download * Z :=
  fold_left (fun p t => progressStep p.1 p.2 t) ticks (d, lastCompleted).

(** ** Files for a handler *)

(** [waitTorrentFileLeaseFinalized]: what each poll sees, whether the context is done and
    whether the lease is finalized; [None] while it waits. *)
Fixpoint waitTorrentFileLeaseFinalized (ctxErr : error) (polls : list (bool * bool)) : option (result unit) :=
  match polls with
  | [] => None
  | (done, finalized) :: polls =>
      if finalized then Some (Ok tt) else if done then Some (Err ctxErr) else waitTorrentFileLeaseFinalized ctxErr polls
  end.

(** Where the callback of a lease stands. *)
Inductive leasePhase :=
| LeaseHandling                                  (* in the handler *)
| LeaseFinalizing                                (* the lease is not finalized yet *)
| LeaseDone (r : result unit).                   (* what the callback has returned *)

(** The state of a run: the download, the callbacks by file, the selection of the live
    torrent, the bytes of the last tick and what the outside is told. *)
Record runState := mkRun {
  tr_d : Download; tr_leases : gmap Z leasePhase; tr_selection : option selectionState; tr_last : Z; tr_events : list event
}.
#[global] Instance eta_runState : Eta runState := fun s => mkRun (tr_d s) (tr_leases s) (tr_selection s) (tr_last s) (tr_events s).

Inductive leaseEvent :=
| LeOpen (i : Z) (ctx : option error) (v : torrentView)            (* the callback begins *)
| LeHandled (i : Z) (handlerErr releaseErr : option error) (v : torrentView)
| LeWaited (i : Z) (ctxErr : error) (polls : list (bool * bool)) (runs : option (list pieceRun)) (v : torrentView)
| LeTick (t : progressTick).

Definition joinRelease (handlerErr : error) (releaseErr : option error) : error :=
  match releaseErr with Some err => EJoin handlerErr err | None => handlerErr end.

Definition settleLease (i : Z) (r : result unit) (s : runState) : runState := s <| tr_leases ::= <[i := LeaseDone r]> |>.

(** One step of a callback of [processCompletedTorrentFiles]; [None] when it cannot happen. *)
Definition leaseStep (s : runState) (ev : leaseEvent) : option runState :=
  match ev with
  | LeOpen i ctx v =>
      match tr_leases s !! i with
      | Some _ => None
      | None =>
          let s := s <| tr_d ::= refresh v |> in
          Some match ctx with
               | Some err => settleLease i (Err err) s
               | None => s <| tr_leases ::= <[i := LeaseHandling]> |>
               end
      end
  | LeHandled i handlerErr releaseErr v =>
      match tr_leases s !! i with
      | Some LeaseHandling =>
          Some match handlerErr with
               | Some err => settleLease i (Err (joinRelease err releaseErr)) (s <| tr_d ::= refresh v |>)
               | None => s <| tr_leases ::= <[i := LeaseFinalizing]> |>
               end
      | _ => None
      end
  | LeWaited i ctxErr polls runs v =>
      match tr_leases s !! i, waitTorrentFileLeaseFinalized ctxErr polls with
      | Some LeaseFinalizing, Some (Err err) => Some (settleLease i (Err err) s)
      | Some LeaseFinalizing, Some (Ok _) =>
          Some match markTorrentFileFinalized i runs (tr_d s) with
               | Err err => settleLease i (Err err) s
               | Ok (d, save) =>
                   let s := s <| tr_d := refresh v d |> <| tr_selection ::= markSelectionCompleted i |> in
                   let s := if save then s <| tr_events ::= fun l => l ++ [QueueSessionSave] |> else s in
                   settleLease i (Ok tt) s
               end
      | _, _ => None
      end
  | LeTick t =>
      let '(d, last) := progressStep (tr_d s) (tr_last s) t in Some (s <| tr_d := d |> <| tr_last := last |>)
  end.

Fixpoint leaseRun (s : runState) (events : list leaseEvent) : option runState :=
  match events with
  | [] => Some s
  | ev :: events => match leaseStep s ev with Some s => leaseRun s events | None => None end
  end.

(** The options [stream.Files] gets. *)
Record filesOptions := mkFilesOptions { fo_MaxActive : Z; fo_Readahead : Z; fo_RequireExplicitRelease : bool }.
Definition defaultTorrentHandlerWorkers : Z := 4.
Definition filesOptionsFor (opts : Options) (indexes : list Z) : filesOptions :=
  mkFilesOptions (optionInt opts "goaria-torrent-max-active-files" (Z.min (Z.of_nat (length indexes)) defaultTorrentHandlerWorkers))
    (optionBytes opts "goaria-torrent-readahead" 4194304) true.

(** [processCompletedTorrentFiles] for the steps of the callbacks and what [stream.Files]
    returns; the selection is closed and dropped at the end. *)
Definition processCompletedTorrentFiles (events : list leaseEvent) (answer : result unit) (s : runState) : option (result unit * runState) :=
  let indexes := selectedTorrentFileIndexesFromStates (d_torrentFiles (tr_d s)) (d_torrentFinalized (tr_d s)) in
  match indexes with
  | [] => Some (Ok tt, s)
  | _ =>
      match leaseRun (s <| tr_selection := Some (startSelection indexes) |>) events with
      | Some s => Some (answer, s <| tr_selection := None |>)
      | None => None
      end
  end.

(** ** A run *)

(** The metadata of the live torrent, once it has it: its options may have changed. *)
Record gotInfo := mkGot {
  gi_metainfo : result (MetaInfo * Info); gi_infoHash : string; gi_runs : list pieceRun; gi_encoded : result string;
  gi_snapshots : list fileSnapshot; gi_view : torrentView; gi_options : Options
}.

(** The wait for one selected file: ticks, then the error with which
    [WaitVerifiedComplete] ends, if it does, and the context's cause. *)
Record fileWait := mkWait { fw_ticks : list progressTick; fw_error : option error; fw_cause : option error; fw_view : torrentView }.

(** What the library does in a run. *)
Record torrentWorld := mkWorld {
  tw_identity : clientIdentity;
  tw_NewClient : torrentClientConfig -> option error;
  tw_Spec : result torrentSpec;
  tw_AddTorrentSpec : torrentSpec -> option error;
  tw_MergePeers : list string -> option error;
  tw_GotInfo : error + gotInfo;                  (* the cause of the end, or the metadata *)
  tw_numFiles : nat;
  tw_waits : nat -> fileWait;
  tw_leases : list leaseEvent; tw_Files : result unit;
  tw_cause : option error;                       (* of the context, after the files *)
  tw_first : torrentView; tw_last : torrentView  (* when the progress goroutine starts and stops *)
}.

(** Steps that may end a run early. *)
Definition unless (err : option error) {A} (k : result A) : result A := match err with Some e => Err e | None => k end.

(** The waits of [runTorrentDownload], file by file. *)
Fixpoint waitFiles (waits : nat -> fileWait) (positions : list nat) (s : runState) : option error * runState :=
  match positions with
  | [] => (None, s)
  | p :: rest =>
      let w := waits p in
      let '(d, last) := progressTicks (fw_ticks w) (tr_d s) (tr_last s) in
      let s := s <| tr_d := d |> <| tr_last := last |> in
      match fw_error w with
      | Some err => (Some (default err (fw_cause w)), s)
      | None => waitFiles waits rest (s <| tr_d ::= refresh (fw_view w) |>)
      end
  end.

Section runs.
Context {fs : FileSystem} {storage : TorrentStorage} {lib : TorrentLib}.

(** The part before the metadata: the settings and what was added to the client. *)
Definition startTorrent (w : torrentWorld) (d : Download) : result (torrentClientConfig * torrentSpec * list string) :=
  let opts := d_options d in
  let! private := if String.eqb (d_torrentMagnet d) "" then let! r := torrentMetaInfo (d_torrentData d) in Ok (torrentInfoPrivate r.2)
                  else Ok false in
  let! cfg := torrentClientConfigFor (tw_identity w) (d_dir d) opts private in
  let! _client := unless (tw_NewClient w cfg) (Ok tt) in
  let! spec := tw_Spec w in
  let spec := spec <| sp_Trackers ::= fun trackers => applyTorrentTrackerOptions trackers opts |> in
  let '(spec, webSeeds) := extractTorrentWebSeedURLs spec (map URI (d_uris d)) in
  let! webSeeds := webSeeds in
  let spec := ensureTorrentSpecShortInfoHash spec in
  let! _added := unless (tw_AddTorrentSpec w spec) (Ok tt) in
  match optionStringList opts "goaria-peer-addrs" with
  | [] => Ok (cfg, spec, webSeeds)
  | peers => unless (tw_MergePeers w peers) (Ok (cfg, spec, webSeeds))
  end.

(** What a run leaves: its error, the download, the reservations, and what it told. *)
Record runEnd := mkEnd { re_err : option error; re_d : Download; re_paths : Paths; re_events : list event }.

Definition endRun (err : option error) (s : runState) (paths : Paths) : runEnd := mkEnd err (tr_d s) paths (tr_events s).

Definition completeRun (s : runState) (paths : Paths) : runEnd :=
  endRun None (s <| tr_events ::= fun l => l ++ [Notify "aria2.onBtDownloadComplete" (d_gid (tr_d s))] |>) paths.

(** [stopProgress], when the function returns. *)
Definition stopProgress (w : torrentWorld) (r : runEnd) : runEnd :=
  mkEnd (re_err r) (refresh (tw_last w) (re_d r)) (re_paths r) (re_events r).

(** The part after the reservations, with the progress goroutine; [None] when the
    callbacks' steps cannot happen. *)
Definition transferFiles (handler : bool) (w : torrentWorld) (s : runState) (paths : Paths) : option runEnd :=
  let '(d, completed) := updateTorrentProgress (tv_stats (tw_first w)) (tv_snapshots (tw_first w)) (tv_runs (tw_first w)) (tr_d s) in
  let s := s <| tr_d := d |> <| tr_last := completed |> in
  let selected := selectedTorrentFiles d (tw_numFiles w) in
  stopProgress w <$>
    if handler then
      match processCompletedTorrentFiles (tw_leases w) (tw_Files w) s with
      | None => None
      | Some (Err err, s) => Some (endRun (Some (default err (tw_cause w))) s paths)
      | Some (Ok _, s) => Some match tw_cause w with Some cause => endRun (Some cause) s paths | None => completeRun s paths end
      end
    else match selected with
    | [] => Some (completeRun s paths)
    | _ =>
        let '(err, s) := waitFiles (tw_waits w) selected s in
        Some match err, tw_cause w with
             | Some err, _ => endRun (Some err) s paths
             | None, Some cause => endRun (Some cause) s paths
             | None, None => completeRun s paths
             end
    end.

(** [runTorrentDownload]; [handler] says that the engine has a [TorrentFileHandler]. *)
Definition runTorrentDownload (handler : bool) (w : torrentWorld) (d : Download) (paths : Paths) : option runEnd :=
  let start := mkRun d ∅ None 0 [] in
  match d_ctx d with
  | None => Some (endRun (Some ECanceled) start paths)
  | Some _ =>
      match startTorrent w d with
      | Err err => Some (endRun (Some err) start paths)
      | Ok _ =>
          let d := d <| d_torrent := Some (mkRuntime None) |> in
          match tw_GotInfo w with
          | inl cause => Some (endRun (Some cause) (start <| tr_d := d |>) paths)
          | inr got =>
              let metainfo := match gi_metainfo got with Ok mi => Ok mi.2 | Err err => Err err end in
              let d := d <| d_torrent := Some (mkRuntime (Some metainfo)) |> <| d_options := gi_options got |> in
              match (let! mi := gi_metainfo got in
                     refreshTorrentMetadata mi.1 mi.2 (gi_infoHash got) (gi_runs got) (gi_encoded got) d) with
              | Err err => Some (endRun (Some err) (start <| tr_d := d |>) paths)
              | Ok d =>
                  let '(d, save) := if handler then reconcileReleasedTorrentFiles (gi_snapshots got) d else (d, false) in
                  let s := mkRun d ∅ None 0 (if save then [QueueSessionSave] else []) in
                  if optionBool (d_options d) "bt-metadata-only" then
                    Some (completeRun (s <| tr_d ::= refresh (gi_view got) |>) paths)
                  else match reserveTorrentOutputPaths d paths with
                  | Err err => Some (endRun (Some err) s paths)
                  | Ok paths => transferFiles handler w s paths
                  end
              end
          end
      end
  end.
End runs.
