(* ===== verification/TorrentRunSpec.v ===== *)
(** * What runs of torrents promise

    A run says that it is complete exactly when it returns without an error; a file is
    finalized only after its handler has succeeded and its lease was finalized; a run
    whose handler has taken every file leaves none; and the totals stay those of the
    files throughout. *)
From S2P Require Import Prelude GoStrings GoPath GoURL Text Pieces Options Http Reservations Torrent State Engine EngineSpec Progress Downloader TorrentRun.

(** ** Lemmas: what progress leaves alone *)

Definition file_site (s : torrentFileState) : Z * string * Z * bool := (tf_Index s, tf_Path s, tf_Length s, tf_Selected s).

Lemma refreshFiles_site (l : list torrentFileState) (snapshots : list fileSnapshot) (finalized : gset Z) :
  map file_site (refreshFiles l snapshots finalized) = map file_site l.
Proof. revert snapshots. induction l as [|s l IH]; intros snapshots; [done|]. cbn. by rewrite IH. Qed.

Lemma clamp_site (finalized : gset Z) (l : list torrentFileState) : map file_site (map (clampProgress finalized) l) = map file_site l.
Proof. rewrite map_map. apply map_ext. intros s. unfold clampProgress, file_site. by repeat case_match. Qed.

Lemma released_site (l : list torrentFileState) (snapshots : list fileSnapshot) (finalized : gset Z) :
  map file_site (releasedFiles l snapshots finalized).1.1 = map file_site l.
Proof.
  revert snapshots finalized. induction l as [|s l IH]; intros [|sn snapshots] finalized; cbn; try done. case_match.
  - specialize (IH snapshots finalized). destruct (releasedFiles l snapshots finalized) as [[l' f'] n]. cbn in *. by rewrite IH.
  - specialize (IH snapshots ({[tf_Index s]} ∪ finalized)). destruct (releasedFiles l snapshots _) as [[l' f'] n]. cbn in *. by rewrite IH.
Qed.

(** What every step of a run's progress keeps: who the download is, and its files. *)
Record kept (d d' : Download) : Prop := {
  kp_gid : d_gid d' = d_gid d;
  kp_options : d_options d' = d_options d;
  kp_sites : map file_site (d_torrentFiles d') = map file_site (d_torrentFiles d);
  kp_consistent : files_consistent d -> files_consistent d';
  kp_finalized : d_torrentFinalized d ⊆ d_torrentFinalized d'
}.

#[export] Instance kept_preorder : PreOrder kept.
Proof.
  split.
  - intros d. by split.
  - intros d1 d2 d3 [A1 A2 A3 A4 A5] [B1 B2 B3 B4 B5].
    split; [congruence|congruence|congruence|auto|set_solver].
Qed.

Lemma refresh_kept (v : torrentView) (d : Download) : kept d (refresh v d) /\ d_torrentFinalized (refresh v d) = d_torrentFinalized d.
Proof.
  pose proof (fun H => torrent_step d (TorUpdate (tv_stats v) (tv_snapshots v) (tv_runs v)) H) as Hs. cbn [run_torrent_op] in Hs.
  unfold refresh in *. assert (d_torrentFinalized (updateTorrentProgress (tv_stats v) (tv_snapshots v) (tv_runs v) d).1 = d_torrentFinalized d) as E
    by (unfold updateTorrentProgress; by destruct (torrentPieceProgress _)).
  split; [|done]. split; [| | |by intros Hd; apply Hs|by rewrite E]; unfold updateTorrentProgress; destruct (torrentPieceProgress _); cbn; try done.
  apply refreshFiles_site.
Qed.

Lemma progressStep_kept (d : Download) (last : Z) (t : progressTick) :
  kept d (progressStep d last t).1 /\ d_torrentFinalized (progressStep d last t).1 = d_torrentFinalized d.
Proof.
  destruct (refresh_kept (pt_view t) d) as [Hk Hf]. unfold refresh, progressStep in *.
  destruct (updateTorrentProgress _ _ _ d) as [d1 completed]. cbn [fst] in *. destruct (0 <? pt_elapsed t); [|done].
  split; [|done]. by destruct Hk; split.
Qed.

Lemma progressTicks_kept (ticks : list progressTick) (d : Download) (last : Z) :
  kept d (progressTicks ticks d last).1 /\ d_torrentFinalized (progressTicks ticks d last).1 = d_torrentFinalized d.
Proof.
  unfold progressTicks. revert d last. induction ticks as [|t ticks IH]; intros d last; [by split|]. cbn [fold_left fst snd].
  destruct (progressStep_kept d last t) as [Hk Hf]. destruct (progressStep d last t) as [d1 last1]. cbn [fst] in *.
  destruct (IH d1 last1) as [Hk' Hf']. split; [by etransitivity|by rewrite Hf', Hf].
Qed.

Lemma finalize_kept (i : Z) (runs : option (list pieceRun)) (d d' : Download) (save : bool) :
  markTorrentFileFinalized i runs d = Ok (d', save) ->
  kept d d' /\ d_torrentFinalized d' = {[addInt64 i 1]} ∪ d_torrentFinalized d.
Proof.
  intros H. pose proof (fun Hd => torrent_step d (TorFinalize i runs) Hd) as Hs. cbn [run_torrent_op] in Hs. rewrite H in Hs.
  assert (d_torrentFinalized d' = {[addInt64 i 1]} ∪ d_torrentFinalized d /\ d_gid d' = d_gid d /\ d_options d' = d_options d
          /\ map file_site (d_torrentFiles d') = map file_site (d_torrentFiles d)) as (E1 & E2 & E3 & E4).
  { unfold markTorrentFileFinalized in H. destruct (negb _); [done|]. cbv zeta in H.
    destruct (match runs with Some _ => _ | None => _ end) as [done bits]. injection H as <- <-. cbn. split_and!; [done..|]. apply clamp_site. }
  split; [|done]. split; [done|done|done|by intros Hd; apply Hs|set_solver].
Qed.

(** A file that reconciling finalizes was released by the library. *)
Lemma released_source (l : list torrentFileState) (snapshots : list fileSnapshot) (finalized : gset Z) (i : Z) :
  i ∈ (releasedFiles l snapshots finalized).1.2 ->
  i ∈ finalized \/ exists k s sn, l !! k = Some s /\ snapshots !! k = Some sn /\ tf_Index s = i /\ sn_Released sn = true.
Proof.
  revert snapshots finalized. induction l as [|s l IH]; intros [|sn snapshots] finalized; cbn; auto.
  destruct (negb (sn_Released sn) || bool_decide (tf_Index s ∈ finalized)) eqn:E.
  - specialize (IH snapshots finalized). destruct (releasedFiles l snapshots finalized) as [[l' f'] n]. cbn in *.
    intros [|(k & s' & sn' & H)]%IH; [by left|right]. by exists (S k), s', sn'.
  - specialize (IH snapshots ({[tf_Index s]} ∪ finalized)). destruct (releasedFiles l snapshots _) as [[l' f'] n]. cbn in *.
    apply orb_false_iff in E as [E%negb_false_iff _].
    intros [Hi|(k & s' & sn' & H)]%IH; [|right; by exists (S k), s', sn'].
    apply elem_of_union in Hi as [->%elem_of_singleton|]; [right|by left]. by exists O, s, sn.
Qed.

Lemma reconcile_kept (snapshots : list fileSnapshot) (d : Download) :
  kept d (reconcileReleasedTorrentFiles snapshots d).1
  /\ forall i, i ∈ d_torrentFinalized (reconcileReleasedTorrentFiles snapshots d).1 ->
     i ∈ d_torrentFinalized d \/ exists k s sn, d_torrentFiles d !! k = Some s /\ snapshots !! k = Some sn /\ tf_Index s = i /\ sn_Released sn = true.
Proof.
  pose proof (fun Hd => torrent_step d (TorReconcile snapshots) Hd) as Hs. cbn [run_torrent_op] in Hs.
  pose proof (released_site (d_torrentFiles d) snapshots (d_torrentFinalized d)) as Hsite.
  pose proof (fun i => released_source (d_torrentFiles d) snapshots (d_torrentFinalized d) i) as Hsrc.
  pose proof (releasedFiles_spec (d_torrentFiles d) snapshots (d_torrentFinalized d)) as (_ & Hsub & _).
  unfold reconcileReleasedTorrentFiles in *. destruct (releasedFiles _ _ _) as [[files finalized] n]. cbn [fst snd] in *.
  destruct (n =? 0); (split; [|exact Hsrc]); (split; [done|done| |by intros Hd; apply Hs|done]); [done|].
  etransitivity; [|exact Hsite]. apply clamp_site.
Qed.

(** ** Files for a handler *)

(** A history in which the handler of a file has succeeded and its lease was then seen
    finalized. *)
Definition handed (events : list leaseEvent) (i : Z) : Prop :=
  exists l1 l2 l3 rel v ctxErr polls runs v',
    events = l1 ++ LeHandled i None rel v :: l2 ++ LeWaited i ctxErr polls runs v' :: l3 /\ existsb snd polls = true.

Definition handledIn (events : list leaseEvent) (i : Z) : Prop := exists l1 l2 rel v, events = l1 ++ LeHandled i None rel v :: l2.

Lemma handed_snoc (events : list leaseEvent) (ev : leaseEvent) (i : Z) : handed events i -> handed (events ++ [ev]) i.
Proof.
  intros (l1 & l2 & l3 & rel & v & ctxErr & polls & runs & v' & -> & H).
  exists l1, l2, (l3 ++ [ev]), rel, v, ctxErr, polls, runs, v'. split; [|done]. by rewrite <- app_assoc; cbn; rewrite <- app_assoc.
Qed.

Lemma handledIn_snoc (events : list leaseEvent) (ev : leaseEvent) (i : Z) : handledIn events i -> handledIn (events ++ [ev]) i.
Proof. intros (l1 & l2 & rel & v & ->). exists l1, (l2 ++ [ev]), rel, v. by rewrite <- app_assoc. Qed.

Lemma handed_now (events : list leaseEvent) (i : Z) (ctxErr : error) (polls : list (bool * bool)) runs v' :
  handledIn events i -> existsb snd polls = true -> handed (events ++ [LeWaited i ctxErr polls runs v']) i.
Proof.
  intros (l1 & l2 & rel & v & ->) H. exists l1, l2, [], rel, v, ctxErr, polls, runs, v'. split; [|done]. by rewrite <- app_assoc.
Qed.

Lemma lease_wait (ctxErr : error) (polls : list (bool * bool)) (u : unit) :
  waitTorrentFileLeaseFinalized ctxErr polls = Some (Ok u) -> existsb snd polls = true.
Proof.
  induction polls as [|[done finalized] polls IH]; [discriminate|]. cbn. destruct finalized; [done|]. destruct done; [discriminate|done].
Qed.

Definition queued (l : list event) : Prop := Forall (fun ev => ev = QueueSessionSave) l.

Record lease_ok (s0 : runState) (events : list leaseEvent) (s : runState) : Prop := {
  lo_kept : kept (tr_d s0) (tr_d s);
  lo_phase : forall i, tr_leases s !! i = Some LeaseFinalizing -> handledIn events i;
  lo_finalized : forall i, i ∈ d_torrentFinalized (tr_d s) ->
    i ∈ d_torrentFinalized (tr_d s0) \/ exists j, i = addInt64 j 1 /\ handed events j;
  lo_done : forall i, tr_leases s !! i = Some (LeaseDone (Ok tt)) -> addInt64 i 1 ∈ d_torrentFinalized (tr_d s);
  lo_events : exists saves, tr_events s = tr_events s0 ++ saves /\ queued saves
}.

(** A step that finalizes nothing. *)
Lemma lease_quiet (s0 s s' : runState) (events : list leaseEvent) (ev : leaseEvent) :
  lease_ok s0 events s -> kept (tr_d s) (tr_d s') -> d_torrentFinalized (tr_d s') = d_torrentFinalized (tr_d s) ->
  tr_events s' = tr_events s ->
  (forall i, tr_leases s' !! i = Some LeaseFinalizing -> tr_leases s !! i = Some LeaseFinalizing \/ handledIn (events ++ [ev]) i) ->
  (forall i, tr_leases s' !! i = Some (LeaseDone (Ok tt)) -> tr_leases s !! i = Some (LeaseDone (Ok tt))) ->
  lease_ok s0 (events ++ [ev]) s'.
Proof.
  intros [K P F D E] Hk Hf He Hp Hd. split.
  - by etransitivity.
  - intros i Hi. destruct (Hp i Hi) as [H|]; [|done]. by apply handledIn_snoc, P.
  - intros i. rewrite Hf. intros [|(j & -> & Hj)]%F; [by left|right]. exists j. split; [done|]. by apply handed_snoc.
  - intros i Hi. rewrite Hf. auto.
  - by rewrite He.
Qed.

Lemma leaseStep_ok (s0 : runState) (events : list leaseEvent) (s : runState) (ev : leaseEvent) (s' : runState) :
  lease_ok s0 events s -> leaseStep s ev = Some s' -> lease_ok s0 (events ++ [ev]) s'.
Proof.
  intros Hs. destruct ev as [i ctx v|i handlerErr releaseErr v|i ctxErr polls runs v|t]; cbn [leaseStep].
  - destruct (tr_leases s !! i) eqn:Ei; [done|]. destruct (refresh_kept v (tr_d s)) as [Hk Hf].
    destruct ctx as [err|]; intros [= <-]; (eapply lease_quiet; [exact Hs|exact Hk|exact Hf|done|..]); cbn;
      intros j [[<- ?]|[? ?]]%lookup_insert_Some; auto; done.
  - destruct (tr_leases s !! i) as [[| |]|] eqn:Ei; try done. destruct handlerErr as [err|]; intros [= <-].
    + destruct (refresh_kept v (tr_d s)) as [Hk Hf].
      eapply lease_quiet; [exact Hs|exact Hk|exact Hf|done|..]; cbn; intros j [[<- ?]|[? ?]]%lookup_insert_Some; auto; done.
    + eapply lease_quiet; [exact Hs|reflexivity|done|done|..]; cbn; intros j [[<- ?]|[? ?]]%lookup_insert_Some; auto; [|done].
      right. by exists events, [], releaseErr, v.
  - destruct (tr_leases s !! i) as [[| |]|] eqn:Ei; try done.
    destruct (waitTorrentFileLeaseFinalized ctxErr polls) as [[u|err]|] eqn:Ew; [|intros [= <-]|done].
    2:{ eapply lease_quiet; [exact Hs|reflexivity|done|done|..]; cbn; intros j [[<- ?]|[? ?]]%lookup_insert_Some; auto; done. }
    destruct (markTorrentFileFinalized i runs (tr_d s)) as [[d save]|err] eqn:Em; intros [= <-].
    2:{ eapply lease_quiet; [exact Hs|reflexivity|done|done|..]; cbn; intros j [[<- ?]|[? ?]]%lookup_insert_Some; auto; done. }
    destruct (finalize_kept i runs (tr_d s) d save Em) as [Hk Hf]. destruct (refresh_kept v d) as [Hk' Hf'].
    destruct Hs as [K P F D (saves & E & Q)]. pose proof (P i Ei) as Hi. apply lease_wait in Ew.
    assert (forall b : bool, tr_d (if b then (s <| tr_d := refresh v d |> <| tr_selection ::= markSelectionCompleted i |>) <| tr_events ::= fun l => l ++ [QueueSessionSave] |>
                               else s <| tr_d := refresh v d |> <| tr_selection ::= markSelectionCompleted i |>) = refresh v d) as Etr by by intros [].
    split.
    + cbn. destruct save; cbn; (etransitivity; [exact K|]; etransitivity; [exact Hk|exact Hk']).
    + intros j Hj. apply handledIn_snoc, P. by destruct save; cbn in Hj; apply lookup_insert_Some in Hj as [[<- ?]|[? ?]].
    + intros j Hj. assert (j ∈ {[addInt64 i 1]} ∪ d_torrentFinalized (tr_d s)) as [->%elem_of_singleton|[|(k & -> & Hk2)]%F]%elem_of_union.
      { rewrite <- Hf, <- Hf'. by destruct save. }
      * right. exists i. split; [done|]. by apply handed_now.
      * by left.
      * right. exists k. split; [done|]. by apply handed_snoc.
    + intros j Hj. assert (d_torrentFinalized (tr_d (settleLease i (Ok tt) (if save
         then (s <| tr_d := refresh v d |> <| tr_selection ::= markSelectionCompleted i |>) <| tr_events ::= fun l => l ++ [QueueSessionSave] |>
         else s <| tr_d := refresh v d |> <| tr_selection ::= markSelectionCompleted i |>))) = {[addInt64 i 1]} ∪ d_torrentFinalized (tr_d s)) as ->
        by (destruct save; cbn; congruence).
      destruct (decide (j = i)) as [->|Hne]; [set_solver|]. apply elem_of_union_r, D.
      by destruct save; cbn in Hj; apply lookup_insert_Some in Hj as [[<- ?]|[? ?]].
    + destruct save; cbn; [exists (saves ++ [QueueSessionSave])|exists saves]; [|done].
      rewrite E, app_assoc. split; [done|]. apply Forall_app; split; [done|by repeat constructor].
  - destruct (progressStep_kept (tr_d s) (tr_last s) t) as [Hk Hf]. destruct (progressStep _ _ t) as [d last]. intros [= <-].
    eapply lease_quiet; [exact Hs|exact Hk|exact Hf|done|..]; cbn; auto.
Qed.

Lemma leaseRun_ok (s0 : runState) (pre events : list leaseEvent) (s s' : runState) :
  lease_ok s0 pre s -> leaseRun s events = Some s' -> lease_ok s0 (pre ++ events) s'.
Proof.
  revert pre s. induction events as [|ev events IH]; intros pre s Hs H; cbn [leaseRun] in H.
  - injection H as <-. by rewrite app_nil_r.
  - destruct (leaseStep s ev) as [s1|] eqn:E; [|done]. replace (pre ++ ev :: events) with ((pre ++ [ev]) ++ events) by (by rewrite <- app_assoc).
    eapply IH; [|exact H]. by eapply leaseStep_ok.
Qed.

Lemma process_ok (events : list leaseEvent) (answer r : result unit) (s s' : runState) :
  tr_leases s = ∅ -> processCompletedTorrentFiles events answer s = Some (r, s') -> lease_ok s events s'.
Proof.
  intros He. unfold processCompletedTorrentFiles.
  destruct (selectedTorrentFileIndexesFromStates _ _) as [|i l].
  { intros [= <- <-]. split; [reflexivity|by intros i; rewrite He| |by intros i; rewrite He|exists []; rewrite app_nil_r; by repeat constructor]. by left. }
  destruct (leaseRun _ events) as [s1|] eqn:E; [|done]. intros [= <- <-].
  assert (lease_ok s [] (s <| tr_selection := Some (startSelection (i :: l)) |>)) as H0.
  { split; cbn; [reflexivity|by intros j; rewrite He|by left|by intros j; rewrite He|exists []; rewrite app_nil_r; by repeat constructor]. }
  pose proof (leaseRun_ok s [] events _ _ H0 E) as []. by split.
Qed.

(** ** Runs *)

Lemma selected_kept (d d' : Download) (n : nat) :
  map file_site (d_torrentFiles d') = map file_site (d_torrentFiles d) -> d_torrentFinalized d' = d_torrentFinalized d ->
  selectedTorrentFiles d' n = selectedTorrentFiles d n.
Proof.
  intros Hs Hf. unfold selectedTorrentFiles. apply list_filter_iff. intros k. rewrite Hf.
  assert (map file_site (d_torrentFiles d') !! k = map file_site (d_torrentFiles d) !! k) as H by (by rewrite Hs).
  change ((file_site <$> d_torrentFiles d') !! k = (file_site <$> d_torrentFiles d) !! k) in H.
  rewrite !list_lookup_fmap in H. destruct (d_torrentFiles d' !! k) as [s'|], (d_torrentFiles d !! k) as [s|]; try done; cbn in H.
  injection H as H1 _ _ H4. unfold pendingFile. by rewrite H1, H4.
Qed.

Lemma pending_sites {A} (finalized : gset Z) (f : torrentFileState -> A) (l l' : list torrentFileState) :
  (forall s s', file_site s = file_site s' -> f s = f s') -> map file_site l = map file_site l' ->
  map f (filter (fun s => pendingFile finalized s = true) l) = map f (filter (fun s => pendingFile finalized s = true) l').
Proof.
  intros Hf. revert l'. induction l as [|s l IH]; intros [|s' l'] H; try done. cbn [map] in H.
  assert (file_site s = file_site s') as H1 by congruence. assert (map file_site l = map file_site l') as H2 by congruence. clear H.
  assert (pendingFile finalized s = pendingFile finalized s') as Ep.
  { unfold pendingFile. unfold file_site in H1. injection H1 as -> _ _ ->. done. }
  destruct (pendingFile finalized s') eqn:E'.
  - rewrite !filter_cons_True by done. cbn [map]. f_equal; [by apply Hf|by apply IH].
  - rewrite !filter_cons_False by congruence. by apply IH.
Qed.

Lemma waitFiles_ok (waits : nat -> fileWait) (ps : list nat) (s : runState) :
  let r := waitFiles waits ps s in
  kept (tr_d s) (tr_d r.2) /\ d_torrentFinalized (tr_d r.2) = d_torrentFinalized (tr_d s) /\ tr_events r.2 = tr_events s
  /\ (r.1 = None -> forall p, p ∈ ps -> fw_error (waits p) = None).
Proof.
  cbv zeta. revert s. induction ps as [|p ps IH]; intros s; cbn [waitFiles].
  { split_and!; [reflexivity|done|done|]. intros _ p Hp. by apply elem_of_nil in Hp. }
  destruct (progressTicks_kept (fw_ticks (waits p)) (tr_d s) (tr_last s)) as [Hk Hf].
  destruct (progressTicks _ _ _) as [d last]. cbn [fst] in *. destruct (fw_error (waits p)) as [err|] eqn:Ee.
  { by split_and!. }
  destruct (refresh_kept (fw_view (waits p)) d) as [Hk' Hf'].
  destruct (IH (s <| tr_d := d |> <| tr_last := last |> <| tr_d ::= refresh (fw_view (waits p)) |>)) as (A & B & C & D). cbn in A, B, C.
  split_and!; [by etransitivity; [exact Hk|]; etransitivity|congruence|done|].
  intros Hn q [->|Hq]%elem_of_cons; auto.
Qed.

(** The notification of a run that ends without an error. *)
Definition completion (err : option error) (gid : string) : list event :=
  match err with None => [Notify "aria2.onBtDownloadComplete" gid] | Some _ => [] end.

Record transfer_ok (handler : bool) (w : torrentWorld) (s : runState) (paths : Paths) (r : runEnd) : Prop := {
  to_kept : kept (tr_d s) (re_d r);
  to_finalized : forall i, i ∈ d_torrentFinalized (re_d r) ->
    i ∈ d_torrentFinalized (tr_d s) \/ handler = true /\ exists j, i = addInt64 j 1 /\ handed (tw_leases w) j;
  to_plain : handler = false -> d_torrentFinalized (re_d r) = d_torrentFinalized (tr_d s);
  to_events : exists saves, re_events r = tr_events s ++ saves ++ completion (re_err r) (d_gid (tr_d s)) /\ queued saves;
  to_paths : re_paths r = paths;
  to_waited : re_err r = None -> handler = false -> forall p, p ∈ selectedTorrentFiles (tr_d s) (tw_numFiles w) -> fw_error (tw_waits w p) = None
}.

Lemma transfer_plain (w : torrentWorld) (s : runState) (paths : Paths) (r : runEnd) :
  transferFiles false w s paths = Some r -> transfer_ok false w s paths r.
Proof.
  unfold transferFiles. destruct (refresh_kept (tw_first w) (tr_d s)) as [Hk Hf]. unfold refresh in Hk, Hf.
  destruct (updateTorrentProgress _ _ _ (tr_d s)) as [d completed]. cbn [fst] in Hk, Hf.
  rewrite (selected_kept (tr_d s) d) by (by destruct Hk || done).
  set (s1 := s <| tr_d := d |> <| tr_last := completed |>). set (selected := selectedTorrentFiles (tr_d s) (tw_numFiles w)).
  assert (exists s2 err, kept (tr_d s1) (tr_d s2) /\ d_torrentFinalized (tr_d s2) = d_torrentFinalized (tr_d s1) /\ tr_events s2 = tr_events s1
          /\ (err = None -> forall p, p ∈ selected -> fw_error (tw_waits w p) = None)
          /\ (match selected with [] => Some (completeRun s1 paths) | _ =>
               let '(err, s) := waitFiles (tw_waits w) selected s1 in
               Some match err, tw_cause w with
                    | Some err, _ => endRun (Some err) s paths | None, Some cause => endRun (Some cause) s paths | None, None => completeRun s paths end end
              = Some (match err with None => completeRun s2 paths | Some e => endRun (Some e) s2 paths end))) as (s2 & err & K2 & F2 & E2 & W & ->).
  { destruct (waitFiles_ok (tw_waits w) selected s1) as (A & B & C & D). destruct selected as [|p ps].
    - exists s1, None. split_and!; try done.
    - destruct (waitFiles (tw_waits w) (p :: ps) s1) as [[err|] s2]; cbn [fst snd] in *; [by exists s2, (Some err)|].
      destruct (tw_cause w) as [cause|]; [by exists s2, (Some cause)|]. exists s2, None. split_and!; auto. }
  cbn [fmap option_fmap option_map]. intros [= <-].
  assert (kept (tr_d s) (tr_d s2)) as K by (etransitivity; [exact Hk|exact K2]).
  destruct (refresh_kept (tw_last w) (tr_d s2)) as [K3 F3].
  assert (d_torrentFinalized (refresh (tw_last w) (tr_d s2)) = d_torrentFinalized (tr_d s)) as Fin by (rewrite F3, F2; exact Hf).
  assert (kept (tr_d s) (refresh (tw_last w) (tr_d s2))) as Kr by (etransitivity; [exact K|exact K3]).
  split; cbn [stopProgress re_d re_err re_events re_paths].
  - by destruct err.
  - intros i Hi. left. by rewrite <- Fin; destruct err.
  - intros _. by destruct err.
  - exists []. split; [|by constructor]. destruct err as [err|]; cbn; rewrite E2; cbn; [by rewrite app_nil_r|]. by rewrite (kp_gid _ _ K).
  - by destruct err.
  - intros He _. apply W. by destruct err.
Qed.

Lemma transfer_handler (w : torrentWorld) (s : runState) (paths : Paths) (r : runEnd) :
  tr_leases s = ∅ -> transferFiles true w s paths = Some r -> transfer_ok true w s paths r.
Proof.
  intros He. unfold transferFiles. destruct (refresh_kept (tw_first w) (tr_d s)) as [Hk Hf]. unfold refresh in Hk, Hf.
  destruct (updateTorrentProgress _ _ _ (tr_d s)) as [d completed]. cbn [fst] in Hk, Hf.
  set (s1 := s <| tr_d := d |> <| tr_last := completed |>).
  destruct (processCompletedTorrentFiles (tw_leases w) (tw_Files w) s1) as [[answer s2]|] eqn:Ep; [|done].
  destruct (process_ok (tw_leases w) (tw_Files w) answer s1 s2 He Ep) as [K2 _ F2 _ (saves & E2 & Q)]. cbn [tr_d tr_events s1] in K2, F2, E2.
  assert (exists err, stopProgress w <$> match answer with
            | Err err => Some (endRun (Some (default err (tw_cause w))) s2 paths)
            | Ok _ => Some match tw_cause w with Some cause => endRun (Some cause) s2 paths | None => completeRun s2 paths end
            end = Some (stopProgress w (match err with None => completeRun s2 paths | Some e => endRun (Some e) s2 paths end))) as (err & Hr).
  { destruct answer as [u|err]; [destruct (tw_cause w) as [cause|]; [by exists (Some cause)|by exists None]|by exists (Some (default err (tw_cause w)))]. }
  intros H. assert (Some r = Some (stopProgress w (match err with None => completeRun s2 paths | Some e => endRun (Some e) s2 paths end))) as [= ->].
  { rewrite <- Hr, <- H. by destruct answer. }
  clear Hr H.
  assert (kept (tr_d s) (tr_d s2)) as K by (etransitivity; [exact Hk|exact K2]).
  destruct (refresh_kept (tw_last w) (tr_d s2)) as [K3 F3].
  assert (kept (tr_d s) (refresh (tw_last w) (tr_d s2))) as Kr by (etransitivity; [exact K|exact K3]).
  split; cbn [stopProgress re_d re_err re_events re_paths].
  - by destruct err.
  - intros i Hi. assert (i ∈ d_torrentFinalized (tr_d s2)) as [Hi'|]%F2; [by rewrite <- F3; destruct err|left; by rewrite <- Hf|by right].
  - done.
  - exists saves. split; [|done]. destruct err as [err|]; cbn; rewrite E2; cbn; [by rewrite app_nil_r|].
    rewrite (kp_gid _ _ K). by rewrite <- app_assoc.
  - by destruct err.
  - done.
Qed.

Lemma transferFiles_ok (handler : bool) (w : torrentWorld) (s : runState) (paths : Paths) (r : runEnd) :
  tr_leases s = ∅ -> transferFiles handler w s paths = Some r -> transfer_ok handler w s paths r.
Proof. destruct handler; [apply transfer_handler|intros _; apply transfer_plain]. Qed.

Section runs.
Context {fs : FileSystem} {storage : TorrentStorage} {lib : TorrentLib}.

(** Metadata replaces what is known of the files, and keeps what was finalized. *)
Lemma metadata_keeps (mi : MetaInfo) (info : Info) (hash : string) (runs : list pieceRun) (encoded : result string) (d d' : Download) :
  refreshTorrentMetadata mi info hash runs encoded d = Ok d' ->
  d_gid d' = d_gid d /\ d_options d' = d_options d /\ d_torrentFinalized d' = d_torrentFinalized d.
Proof.
  unfold refreshTorrentMetadata. intros (? & _ & H)%result_bind_ok. destruct (torrentInfoPieceCount info); [|done].
  destruct (torrentPieceProgress runs) as [done bits].
  apply result_bind_ok in H as (? & _ & H). apply result_bind_ok in H as (? & _ & H). apply result_bind_ok in H as (? & _ & H).
  injection H as <-. cbv zeta. destruct (String.eqb _ ""); [destruct encoded|]; done.
Qed.

(** What the library reports as released when the run gets its metadata. *)
Definition releasedIn (w : torrentWorld) (i : Z) : Prop :=
  exists got k sn, tw_GotInfo w = inr got /\ gi_snapshots got !! k = Some sn /\ sn_Released sn = true.

Lemma run_cases (handler : bool) (w : torrentWorld) (d : Download) (paths : Paths) (r : runEnd) :
  runTorrentDownload handler w d paths = Some r ->
  (* an early error *)
  (exists err, re_err r = Some err /\ re_paths r = paths /\ queued (re_events r) /\ d_gid (re_d r) = d_gid d
    /\ forall i, i ∈ d_torrentFinalized (re_d r) -> i ∈ d_torrentFinalized d \/ handler = true /\ releasedIn w i)
  (* metadata only, or the files *)
  \/ exists s, tr_leases s = ∅ /\ queued (tr_events s) /\ d_gid (tr_d s) = d_gid d
    /\ (forall i, i ∈ d_torrentFinalized (tr_d s) -> i ∈ d_torrentFinalized d \/ handler = true /\ releasedIn w i)
    /\ (optionBool (d_options (tr_d s)) "bt-metadata-only" = true
          /\ (exists v, r = completeRun (s <| tr_d ::= refresh v |>) paths)
        \/ optionBool (d_options (tr_d s)) "bt-metadata-only" = false
          /\ exists paths', reserveTorrentOutputPaths (tr_d s) paths = Ok paths' /\ transferFiles handler w s paths' = Some r).
Proof.
  unfold runTorrentDownload. destruct (d_ctx d); [|intros [= <-]; left; exists ECanceled; split_and!; [done|done|by constructor|done|by left]].
  destruct (startTorrent w d) as [?|err]; [|intros [= <-]; left; exists err; split_and!; [done|done|by constructor|done|by left]].
  cbv zeta. destruct (tw_GotInfo w) as [cause|got] eqn:Eg; [intros [= <-]; left; exists cause; split_and!; [done|done|by constructor|done|by left]|].
  set (d1 := d <| d_torrent := _ |> <| d_torrent := _ |> <| d_options := _ |>).
  destruct (result_bind (gi_metainfo got) _) as [dm|err] eqn:Em;
    [|intros [= <-]; left; exists err; split_and!; [done|done|by constructor|done|by left]].
  apply result_bind_ok in Em as (mi & _ & (G & O & F)%metadata_keeps).
  assert (exists d2 save, (if handler then reconcileReleasedTorrentFiles (gi_snapshots got) dm else (dm, false)) = (d2, save)
          /\ d_gid d2 = d_gid d /\ forall i, i ∈ d_torrentFinalized d2 -> i ∈ d_torrentFinalized d \/ handler = true /\ releasedIn w i)
    as (d2 & save & -> & G2 & F2).
  { destruct handler; [|exists dm, false; split_and!; [done|done|]; intros i; rewrite F; by left].
    destruct (reconcile_kept (gi_snapshots got) dm) as [K Hf]. destruct (reconcileReleasedTorrentFiles _ dm) as [d2 save]. cbn [fst] in *.
    exists d2, save. split_and!; [done|by rewrite (kp_gid _ _ K)|]. intros i [Hi|(k & s & sn & _ & Hsn & _ & Hr)]%Hf; [left; by rewrite F in Hi|].
    right. split; [done|]. by exists got, k, sn. }
  set (s := mkRun d2 ∅ None 0 (if save then [QueueSessionSave] else [])).
  assert (queued (tr_events s)) as Hq by (destruct save; by repeat constructor).
  destruct (optionBool (d_options d2) "bt-metadata-only") eqn:Eo.
  { intros [= <-]. right. exists s. split_and!; [done|done|done|done|]. left. split; [done|]. by exists (gi_view got). }
  destruct (reserveTorrentOutputPaths d2 paths) as [paths'|err] eqn:Er.
  - intros H. right. exists s. split_and!; [done|done|done|done|]. right. split; [done|]. by exists paths'.
  - intros [= <-]. left. exists err. by split_and!.
Qed.

(** C25: a run of a torrent tells the outside that the download is complete exactly once,
    as its last word, when it returns without an error, and never otherwise; a run without
    a handler that succeeds on more than metadata owns the output paths of the files it
    had to download and has seen each of them verified. *)
Theorem torrent_run_outcome (handler : bool) (w : torrentWorld) (d : Download) (paths : Paths) (r : runEnd) :
  runTorrentDownload handler w d paths = Some r ->
  (exists saves, re_events r = saves ++ completion (re_err r) (d_gid d) /\ queued saves)
  /\ (re_err r = None -> handler = false -> optionBool (d_options (re_d r)) "bt-metadata-only" = false ->
      reserveTorrentOutputPaths (re_d r) paths = Ok (re_paths r)
      /\ forall p, p ∈ selectedTorrentFiles (re_d r) (tw_numFiles w) -> fw_error (tw_waits w p) = None).
Proof.
  intros H. destruct (run_cases handler w d paths r H)
    as [(err & He & _ & Hq & _)|(s & Hl & Hq & Hg & _ & [(Ho & v & ->)|(Ho & paths' & Hr & Ht)])].
  - rewrite He. split; [|done]. exists (re_events r). by rewrite app_nil_r.
  - destruct (refresh_kept v (tr_d s)) as [K _]. split.
    + exists (tr_events s). split; [|done]. cbn. by rewrite (kp_gid _ _ K), Hg.
    + intros _ _ Hm. assert (optionBool (d_options (refresh v (tr_d s))) "bt-metadata-only" = false) as Hm' by exact Hm.
      rewrite (kp_options _ _ K) in Hm'. congruence.
  - destruct (transferFiles_ok handler w s paths' r Hl Ht) as [K _ P (saves & E & Q) Ep W]. split.
    + exists (tr_events s ++ saves). rewrite E, Hg, app_assoc. split; [done|]. by apply Forall_app.
    + intros He Hh _. specialize (P Hh). rewrite (selected_kept (tr_d s) (re_d r)) by (by destruct K || done).
      split; [|by apply W]. rewrite Ep, <- Hr. unfold reserveTorrentOutputPaths. rewrite P, (kp_gid _ _ K). f_equal.
      unfold selectedTorrentOutputPaths. apply (pending_sites (d_torrentFinalized (tr_d s)) tf_Path). 1: intros s1 s2 Es; unfold file_site in Es; congruence.
      apply (kp_sites _ _ K).
Qed.

End runs.

(** ** Handlers that take every file *)

(** What [stream.Files] documents: it returns without an error once the callback of every
    selected file has. *)
Definition files_contract (events : list leaseEvent) (answer : result unit) (s : runState) : Prop :=
  forall s', leaseRun (s <| tr_selection := Some (startSelection (selectedTorrentFileIndexesFromStates (d_torrentFiles (tr_d s)) (d_torrentFinalized (tr_d s)))) |>) events = Some s' ->
    answer = Ok tt -> forall i, i ∈ selectedTorrentFileIndexesFromStates (d_torrentFiles (tr_d s)) (d_torrentFinalized (tr_d s)) ->
    tr_leases s' !! i = Some (LeaseDone (Ok tt)).

(** The files carry the numbers of their positions, from one. *)
Definition numbered (d : Download) : Prop :=
  forall (k : nat) s, d_torrentFiles d !! k = Some s -> tf_Index s = addInt64 (Z.of_nat k) 1.

Lemma indexes_spec (states : list torrentFileState) (finalized : gset Z) (i : Z) :
  i ∈ selectedTorrentFileIndexesFromStates states finalized <->
  exists (k : nat) s, i = Z.of_nat k /\ states !! k = Some s /\ pendingFile finalized s = true.
Proof.
  unfold selectedTorrentFileIndexesFromStates. split.
  - intros ([k s] & -> & [Hp (k' & s' & [= -> ->] & Hk)%elem_of_lookup_imap_1]%list_elem_of_filter)%list_elem_of_fmap. by exists k', s'.
  - intros (k & s & -> & Hk & Hp). apply list_elem_of_fmap. exists (k, s). split; [done|].
    apply list_elem_of_filter. split; [done|]. by apply (elem_of_lookup_imap_2 pair).
Qed.

(** When the library keeps its contract and reports success, every selected file of
    the torrent has been made final: none is left for a later run. *)
Theorem handler_run_finalizes_all (events : list leaseEvent) (answer : result unit) (s s' : runState) :
  tr_leases s = ∅ -> numbered (tr_d s) -> files_contract events answer s ->
  processCompletedTorrentFiles events answer s = Some (Ok tt, s') ->
  selectedTorrentFileIndexesFromStates (d_torrentFiles (tr_d s')) (d_torrentFinalized (tr_d s')) = []
  /\ (files_consistent (tr_d s) -> files_consistent (tr_d s')).
Proof.
  intros Hl Hn Hc Hp. destruct (process_ok events answer (Ok tt) s s' Hl Hp) as [K _ _ D _].
  split; [|apply (kp_consistent _ _ K)]. apply elem_of_nil_inv. intros i (k & f' & -> & Hk & Hpend)%indexes_spec.
  assert (exists f, d_torrentFiles (tr_d s) !! k = Some f /\ file_site f' = file_site f) as (f & Hf & Es).
  { pose proof (f_equal (fun l => l !! k) (kp_sites _ _ K)) as E. cbn beta in E.
    change ((file_site <$> d_torrentFiles (tr_d s')) !! k = (file_site <$> d_torrentFiles (tr_d s)) !! k) in E.
    rewrite !list_lookup_fmap, Hk in E. destruct (d_torrentFiles (tr_d s) !! k) as [f|]; [|done]. exists f. split; [done|]. cbn [fmap option_fmap option_map] in E. by apply (inj Some) in E. }
  assert (tf_Index f' = tf_Index f) as E1 by (unfold file_site in Es; congruence).
  assert (tf_Selected f' = tf_Selected f) as E4 by (unfold file_site in Es; congruence).
  unfold pendingFile in Hpend. rewrite E1, E4 in Hpend. apply andb_true_iff in Hpend as [Hsel Hnf%negb_true_iff%bool_decide_eq_false].
  assert (pendingFile (d_torrentFinalized (tr_d s)) f = true) as Hp0.
  { unfold pendingFile. rewrite Hsel. apply negb_true_iff, bool_decide_eq_false. intros Hin. apply Hnf. by apply (kp_finalized _ _ K). }
  assert (Z.of_nat k ∈ selectedTorrentFileIndexesFromStates (d_torrentFiles (tr_d s)) (d_torrentFinalized (tr_d s))) as Hin
    by (apply indexes_spec; by exists k, f).
  apply Hnf. rewrite (Hn k f Hf). apply D.
  revert Hp. unfold processCompletedTorrentFiles. unfold files_contract in Hc.
  destruct (selectedTorrentFileIndexesFromStates (d_torrentFiles (tr_d s)) (d_torrentFinalized (tr_d s))) as [|j l]; [by apply elem_of_nil in Hin|].
  destruct (leaseRun _ events) as [s2|] eqn:Er; [|done]. intros [= -> <-]. cbn. by apply (Hc s2).
Qed.

(** ** Concrete runs *)

Definition demoView : torrentView := mkView (mkStats 1 0 1 false) [mkSnapshot false 30; mkSnapshot false 5] [].
Definition demoLeases : list leaseEvent :=
  [LeOpen 0 None demoView; LeHandled 0 None None demoView; LeTick (mkTick demoView 1000000000);
   LeWaited 0 ECanceled [(false, false); (true, true)] None demoView;
   LeOpen 1 None demoView; LeHandled 1 None None demoView; LeWaited 1 ECanceled [(false, true)] None demoView].

Definition demoWorld : torrentWorld := {|
  tw_identity := mkIdentity "-GT0000-" "go" "go";
  tw_NewClient := fun _ => None;
  tw_Spec := Ok (mkTorrentSpec [["http://t"]] ["http://seed"] (Some "00") None);
  tw_AddTorrentSpec := fun _ => None;
  tw_MergePeers := fun _ => None;
  tw_GotInfo := inr (mkGot (Ok (mkMetaInfo [] ∅ [] "" 0 "" "", sampleInfo)) "00" [] (Ok "data") [] demoView noOptions);
  tw_numFiles := 2;
  tw_waits := fun _ => mkWait [mkTick demoView 1000000000] None None demoView;
  tw_leases := demoLeases; tw_Files := Ok tt;
  tw_cause := None; tw_first := demoView; tw_last := demoView
|}.

Definition demoMagnet : Download :=
  newDownload "0123456789abcdef" [] noOptions 0 <| d_dir := "/d" |> <| d_torrentMagnet := "magnet:?x" |> <| d_ctx := Some 1%positive |>.

Abbreviation demoTorrentRun := (fun handler =>
  @runTorrentDownload exampleFS sampleStorage demoLib handler demoWorld demoMagnet noPaths).
Abbreviation demoEnd := (fun handler => default (mkEnd None demoMagnet noPaths []) (demoTorrentRun handler)).

Lemma torrent_run_outcome_witness :
  re_events (demoEnd false) = [Notify "aria2.onBtDownloadComplete" "0123456789abcdef"]
  /\ exists saves, re_events (demoEnd false) = saves ++ completion (re_err (demoEnd false)) (d_gid demoMagnet) /\ queued saves.
Proof.
  split; [vm_compute; reflexivity|].
  refine (proj1 (@torrent_run_outcome exampleFS sampleStorage demoLib false demoWorld demoMagnet noPaths (demoEnd false) _)).
  vm_compute. reflexivity.
Defined.


Definition demoFiles : runState :=
  mkRun (demoMagnet <| d_torrentFiles := [mkFileState 1 "/d/a.mkv" 30 0 true; mkFileState 2 "/d/b.txt" 12 0 true] |>
                    <| d_totalLength := 42 |> <| d_completedLen := 0 |>) ∅ None 0 [].
Abbreviation demoProcessed := (match processCompletedTorrentFiles demoLeases (Ok tt) demoFiles with Some (_, s) => s | None => demoFiles end).

Lemma demo_contract : files_contract demoLeases (Ok tt) demoFiles.
Proof.
  intros s' H _ i Hi. assert (i = 0 \/ i = 1) as [-> | ->].
  { assert (bool_decide (Forall (fun i => i = 0 \/ i = 1)
      (selectedTorrentFileIndexesFromStates (d_torrentFiles (tr_d demoFiles)) (d_torrentFinalized (tr_d demoFiles)))) = true) as Hb
      by (vm_compute; reflexivity).
    apply bool_decide_eq_true in Hb. rewrite Forall_forall in Hb. auto. }
  all: match type of H with ?l = _ => assert (match l with Some s => tr_leases s !! 0 = Some (LeaseDone (Ok tt)) /\ tr_leases s !! 1 = Some (LeaseDone (Ok tt)) | None => False end) as Hd
         by (vm_compute; split; reflexivity) end; rewrite H in Hd; apply Hd.
Qed.

Lemma handler_run_finalizes_all_witness :
  d_completedLen (tr_d demoProcessed) = 42
  /\ selectedTorrentFileIndexesFromStates (d_torrentFiles (tr_d demoProcessed)) (d_torrentFinalized (tr_d demoProcessed)) = [].
Proof.
  split; [vm_compute; reflexivity|].
  refine (proj1 (@handler_run_finalizes_all demoLeases (Ok tt) demoFiles demoProcessed _ _ _ _)).
  - reflexivity.
  - intros [|[|k]] s H; cbn in H; [injection H as <-; reflexivity|injection H as <-; reflexivity|discriminate].
  - apply demo_contract.
  - vm_compute. reflexivity.
Defined.
