(* ===== verification/Runner.v ===== *)
(** * Running a download ([downloader.go])

    A run from [runDownload] down to the bytes of the output file: the retry loop over
    the URIs, the choice between one GET and a probe, the probe, the single download and
    its resumption, the assembly of a segmented file, the checks at the end, and the
    speed tracker.  The disk is explicit state; what the network, the clock and the
    failing system calls answer are arguments, one record per operation. *)
From S2P Require Import Prelude GoStrings GoPath GoURL Pieces Options Http Reservations Filename Torrent State Engine Progress Downloader.

(** ** The disk and the state of a run *)

Abbreviation bytes := (list ascii).

(** A file with its contents and modification time, or a directory with its size. *)
Inductive node := FileNode (content : bytes) (mtime : Z) | DirNode (size : Z).
Abbreviation Disk := (gmap string node).

Record RunState := mkRun { r_disk : Disk; r_paths : Paths; r_d : Download }.
#[global] Instance eta_RunState : Eta RunState := fun s => mkRun (r_disk s) (r_paths s) (r_d s).

(** [http.NewRequestWithContext] for a method and a URL, and the size of a new directory. *)
Class RunLib := { NewRequest : string -> string -> result Request; NewDirSize : Z }.

Definition fileSize (content : bytes) : Z := Z.of_nat (length content).

(** The file system over a disk: links and the errors of absent paths are those of [fs]. *)
Definition diskFS (fs : FileSystem) (disk : Disk) : FileSystem := {|
  Getwd := Getwd;
  Lstat := Lstat;
  Readlink := Readlink;
  EvalSymlinks := EvalSymlinks;
  Stat := fun path =>
    match disk !! path with
    | Some (FileNode content _) => Ok (false, fileSize content)
    | Some (DirNode size) => Ok (true, size)
    | None => Err (match Stat path with Err err => err | Ok _ => ENotExist end)
    end
|}.

(** The standard library over a disk; [readable] is what opening and reading a file meets. *)
Definition diskHTTP (http : HTTPLib) (disk : Disk) (readable : result unit) : HTTPLib := {|
  ParseTime := ParseTime;
  FormatTime := FormatTime;
  DispositionFilename := DispositionFilename;
  ModTime := fun path => match disk !! path with Some (FileNode _ t) => t | _ => ModTime path end;
  Digest := Digest;
  ReadFile := fun path =>
    let! _opened := readable in
    match disk !! path with
    | Some (FileNode content _) => Ok (String.string_of_list_ascii content)
    | _ => Err ENotExist
    end
|}.

(** ** The monad of a run

    A step changes the state and returns a value or an error; [None] is a run that has
    not returned, because the events given to a segmented download do not end its loop. *)
Definition M (A : Type) : Type := RunState -> option (RunState * result A).

Definition ret {A} (a : A) : M A := fun s => Some (s, Ok a).
Definition throw {A} (err : error) : M A := fun s => Some (s, Err err).
Definition bind {A B} (m : M A) (k : A -> M B) : M B := fun s =>
  match m s with
  | Some (s', Ok a) => k a s'
  | Some (s', Err err) => Some (s', Err err)
  | None => None
  end.
Notation "'let?' x ':=' m 'in' k" := (bind m (fun x => k))
  (at level 10, x name, m at level 100, k at level 200) : goaria_scope.

Definition lift {A} (r : result A) : M A := fun s => Some (s, r).
Definition gets {A} (f : RunState -> A) : M A := fun s => Some (s, Ok (f s)).
Definition modify (f : RunState -> RunState) : M unit := fun s => Some (f s, Ok tt).
(** A method of the download. *)
Definition publish (f : Download -> Download) : M unit := modify (fun s => s <| r_d ::= f |>).

(** The result of [m] with what a later step did to it. *)
Definition thenAlways {A} (m : M A) (k : result A -> M A) : M A := fun s =>
  match m s with
  | Some (s', r) => k r s'
  | None => None
  end.

(** [errors.Join(retErr, file.Close())] *)
Definition joinResult {A} (r : result A) (closed : result unit) : result A :=
  match r, closed with
  | Ok a, Ok _ => Ok a
  | Ok _, Err err => Err err
  | Err err, _ => Err (joinError err closed)
  end.

(** ** Files *)

(** [os.O_TRUNC], [os.O_APPEND], [os.O_EXCL] or neither, always with [os.O_CREATE]. *)
Inductive openMode := Truncating | Appending | Exclusive | Keeping.

(** [os.OpenFile]: [outcome] is what the system answers where the disk leaves it open. *)
Definition openFile (mode : openMode) (path : string) (outcome : result unit) (now : Z) : M unit := fun s =>
  match mode, r_disk s !! path with
  | Exclusive, Some _ => Some (s, Err EExist)
  | _, Some (DirNode _) => Some (s, Err (EText ("open " +:+ path +:+ ": is a directory")))
  | _, found =>
      match outcome with
      | Err err => Some (s, Err err)
      | Ok _ =>
          let node := match mode, found with
                      | (Appending | Keeping), Some node => node
                      | _, _ => FileNode [] now
                      end in
          Some (s <| r_disk ::= <[path := node]> |>, Ok tt)
      end
  end.

(** A change of the contents of a file. *)
Definition onFile (path : string) (now : Z) (f : bytes -> bytes) : M unit := modify (fun s =>
  match r_disk s !! path with
  | Some (FileNode content _) => s <| r_disk ::= <[path := FileNode (f content) now]> |>
  | _ => s
  end).

(** [file.Truncate(size)] *)
Definition resizeTo (size : Z) (content : bytes) : bytes := resize (Z.to_nat size) zero content.
Definition truncate (path : string) (size : Z) (outcome : result unit) (now : Z) : M unit :=
  let? _truncated := lift outcome in onFile path now (resizeTo size).

(** [os.Remove], whose error is dropped. *)
Definition removeFile (path : string) (outcome : result unit) : M unit := modify (fun s =>
  match outcome with Ok _ => s <| r_disk ::= delete path |> | Err _ => s end).

(** The directories a path lies in, itself included. *)
Definition ancestors (dir : string) : list string :=
  let l := elems dir in map (fun n => unelems (IsAbs dir) (take n l)) (seq 0 (S (length l))).

(** [ensureDownloadDir] *)
Definition ensureDownloadDir `{RunLib} (dir : string) (outcome : result unit) : M unit :=
  let? _made := lift outcome in
  modify (fun s => s <| r_disk ::= fun disk =>
    foldl (fun disk dir => match disk !! dir with Some _ => disk | None => <[dir := DirNode NewDirSize]> disk end)
      disk (ancestors (Clean dir)) |>).

(** ** Bodies

    What one round of the copy loop reads, besides what it meets. *)
Record bodyStep := mkBody {
  bs_chunk : bytes; bs_ctx : option error; bs_readErr : option error; bs_wait : option error;
  bs_written : N; bs_writeErr : option error; bs_elapsed : Z
}.

Definition stepOf (b : bodyStep) : copyStep :=
  mkStep (bs_ctx b) (N.of_nat (length (bs_chunk b))) (bs_readErr b) (bs_wait b) (bs_written b) (bs_writeErr b)
    (bs_elapsed b).

Definition bodyBytesOf (body : list bodyStep) : bytes := concat (map bs_chunk body).

(** The bytes a copy has written: the reads in order, up to its count. *)
Definition copied (body : list bodyStep) (c : copyResult) : bytes := take (Z.to_nat (cp_count c)) (bodyBytesOf body).

(** ** The speed tracker *)

(** [downloadSpeedTracker.run]: [samples] are the instants at which it updates with the
    bytes counted by then; the last one is its end. *)
Definition trackerUpdate (t : Z * Z * list Z) (sample : Z * Z) : Z * Z * list Z :=
  let '(lastBytes, lastAt, speeds) := t in
  let '(now, current) := sample in
  let elapsed := now - lastAt in
  if elapsed <=? 0 then t
  else
    let delta := current - lastBytes in
    let delta := if delta <? 0 then 0 else delta in
    (current, now, speeds ++ [bytesPerSecond delta elapsed]).

Definition trackerRun (started : Z) (samples : list (Z * Z)) : list Z :=
  (foldl trackerUpdate (0, started, []) samples).2.

Definition publishSpeeds (started : Z) (samples : list (Z * Z)) (d : Download) : Download :=
  foldl (fun d bps => setDownloadBPS bps d) d (trackerRun started samples).

(** ** Exchanges

    What one request meets: the answer to it, the body the reader delivers, and the body
    after decompression, when the reader for it can be made. *)
Record exchange := mkExchange {
  ex_resp : Response; ex_body : list bodyStep; ex_gunzip : result (list bodyStep)
}.

Definition responseReader (ex : exchange) (opts : Options) : result (list bodyStep) :=
  if responseBodyDecoded (ex_resp ex) opts then ex_gunzip ex else Ok (ex_body ex).

Definition httpStatusError {A} (method url : string) (resp : Response) : result A :=
  Err (EHTTPStatus method url (rs_StatusCode resp) (rs_Status resp)).

Definition bodyLengthMismatchError (got want : Z) : error :=
  if got <? want then EUnexpectedEOF
  else EHTTPProtocol ("response body length " +:+ FormatInt got +:+ " does not match expected length " +:+ FormatInt want).

Section runs.
Context {fs : FileSystem} {http : HTTPLib} {run : RunLib}.

(** ** The probe ([Engine.probe]) *)

Record probeIO := mkProbeIO {
  pb_head : Request -> result Response;
  pb_get : Request -> result Response
}.

Definition metadataProbeRangeEnd : Z := 1023.

(** What the HEAD request leaves: an answer, or metadata to fall back on, if any. *)
Definition probeHead (io : probeIO) (rawURI : string) (opts : Options) (conditionalPath : string) (disk : Disk)
    : result remoteMeta + option remoteMeta :=
  let conditional := @applyConditionalHeaders (diskFS fs disk) (diskHTTP http disk (Ok tt)) opts conditionalPath in
  if negb (optionBoolDefault opts "use-head" true) then inr None
  else match NewRequest "HEAD" rawURI with
  | Err err => inl (Err err)
  | Ok req =>
      let req := applyMetadataRequestOptions opts req in
      let req := if optionBool opts "continue" then req else conditional req in
      match pb_head io req with
      | Err _ => inr None
      | Ok resp =>
          if rs_StatusCode resp =? 304 then
            inl (Ok (@notModifiedMeta (diskFS fs disk) (diskHTTP http disk (Ok tt)) rawURI conditionalPath))
          else if isHTTPTransferSuccess (rs_StatusCode resp) then
            let meta := metaFromResponse resp rawURI opts in
            if 0 <=? rs_ContentLength resp then inl (Ok meta) else inr (Some meta)
          else if negb (bool_decide (rs_StatusCode resp ∈ [405; 501; 403])) then
            inl (httpStatusError "HEAD" rawURI resp)
          else inr None
      end
  end.

Definition orHead (head : option remoteMeta) (err : error) : result remoteMeta :=
  match head with Some meta => Ok meta | None => Err err end.

(** What the answer to the ranged GET says. *)
Definition probeAnswer (resp : Response) (head : option remoteMeta) (rawURI : string) (opts : Options)
    : result remoteMeta :=
  let meta := metaFromResponse resp rawURI opts in
  let unsatisfied := if rs_StatusCode resp =? 416 then completeLengthFromUnsatisfiedRange resp else None in
  match unsatisfied with
  | Some total => Ok (meta <| m_Length := total |> <| m_AcceptRange := true |>)
  | None =>
      if negb (isHTTPTransferSuccess (rs_StatusCode resp)) then
        match head with Some headMeta => Ok headMeta | None => httpStatusError "GET" rawURI resp end
      else if rs_StatusCode resp =? 206 then
        match validateProbeRangeResponse resp 0 metadataProbeRangeEnd with
        | Err err => orHead head err
        | Ok cr => Ok (meta <| m_AcceptRange := true |> <| m_Length := if cr_totalKnown cr then cr_total cr else 0 |>)
        end
      else Ok (meta <| m_AcceptRange := false |>)
  end.

Definition probe (io : probeIO) (rawURI : string) (opts : Options) (conditionalPath : string) (disk : Disk)
    : result remoteMeta :=
  match probeHead io rawURI opts conditionalPath disk with
  | inl answer => answer
  | inr head =>
      let! req := NewRequest "GET" rawURI in
      let req := applyRangeRequestOptions opts ("bytes=0-" +:+ FormatInt metadataProbeRangeEnd) req in
      let req := if optionBool opts "continue" then req
                 else @applyConditionalHeaders (diskFS fs disk) (diskHTTP http disk (Ok tt)) opts conditionalPath req in
      match pb_get io req with
      | Err err => orHead head err
      | Ok resp =>
          if rs_StatusCode resp =? 304 then
            Ok (@notModifiedMeta (diskFS fs disk) (diskHTTP http disk (Ok tt)) rawURI conditionalPath)
          else probeAnswer resp head rawURI opts
      end
  end.

(** ** One transfer into one file *)

(** What the copy of a body meets besides its bytes: when it starts, the samples of its
    speed tracker, and the time of its last write. *)
Record singleIO := mkSingleIO {
  si_do : Request -> result exchange;
  si_open : result unit;
  si_mkdir : result unit;
  si_remove : result unit;
  si_truncate : result unit;
  si_seek : result unit;
  si_close : result unit;
  si_now : Z;
  si_samples : list (Z * Z)
}.

(** From [startDownloadSpeedTracker] to [tracker.stopAndWait]: the copy appends to the
    file and publishes its flushes and speeds.  [rangeLength] is the number of bytes a
    partial response announced, if it is one. *)
Definition transfer (io : singleIO) (path : string) (ex : exchange) (body : list bodyStep) (rangeLength : Z)
    (metaLength : Z) (opts : Options) : M unit :=
  let lowestSpeed := optionBytes opts "lowest-speed-limit" 0 in
  let steps := map stepOf body in
  let c := if 0 <=? rangeLength then copyExactWithProgressCount lowestSpeed steps rangeLength
           else copyLoop lowestSpeed steps None 0 0 [] in
  let? _written := onFile path (si_now io) (fun content => content ++ copied body c) in
  let? _reported := publish (fun d => foldl (fun d n => addCompleted n d) d (cp_flushes c)) in
  let? _speeds := publish (publishSpeeds (si_now io) (si_samples io)) in
  let? _disconnected := publish (setConnections 0) in
  lift (let! _copied := cp_result c in
        if (rangeLength <? 0) && negb (responseBodyDecoded (ex_resp ex) opts) && (0 <? metaLength)
           && negb (cp_count c =? metaLength)
        then Err (bodyLengthMismatchError (cp_count c) metaLength) else Ok tt).

(** The offset at which [downloadSingle] resumes. *)
Definition resumeOffset (disk : Disk) (path : string) (opts : Options) (meta : remoteMeta) : Z :=
  if optionBool opts "continue" && (0 <? m_Length meta) then
    match @Stat (diskFS fs disk) path with
    | Ok (_, size) => if (0 <? size) && (size <? m_Length meta) && m_AcceptRange meta then size else 0
    | Err _ => 0
    end
  else 0.

Definition rangeFrom (start : Z) : string := "bytes=" +:+ FormatInt start +:+ "-".

(** What [downloadSingle] decides from the answer: it is done, or it copies the body
    from [start] on, [rangeLength] bytes or all of it, for a file described by the
    metadata. *)
Inductive singlePlan :=
| PlanDone (total : Z)
| PlanRestart
| PlanResume (rangeLength : Z)
| PlanFull (meta : remoteMeta).

Definition planSingle (start : Z) (resp : Response) (meta : remoteMeta) (opts : Options) : result singlePlan :=
  let unsatisfied := if (0 <? start) && (rs_StatusCode resp =? 416) then completeLengthFromUnsatisfiedRange resp else None in
  let complete := match unsatisfied with
                  | Some total => (total =? start) && ((m_Length meta <=? 0) || (total =? m_Length meta))
                  | None => false
                  end in
  if complete then Ok (PlanDone start)
  else if negb (isHTTPTransferSuccess (rs_StatusCode resp)) || negb (isHTTPBodySuccess (rs_StatusCode resp)) then
    httpStatusError "GET" (m_FinalURI meta) resp
  else if 0 <? start then
    if negb (rs_StatusCode resp =? 206) then Ok PlanRestart
    else let! cr := validateOpenRangeResponse resp start (m_Length meta) in
         Ok (PlanResume (addInt64 (wrap64 (cr_end cr - cr_start cr)) 1))
  else if rs_StatusCode resp =? 206 then
    protocolError "unexpected partial response without an internal Range request"
  else
    let respMeta := metaFromResponse resp (m_FinalURI meta) opts in
    let length := if (0 <=? rs_ContentLength resp) || responseBodyDecoded resp opts || (m_Length meta <=? 0)
                  then m_Length respMeta else m_Length meta in
    Ok (PlanFull (meta <| m_Length := length |> <| m_LastModified := m_LastModified respMeta |>
                       <| m_FinalURI := m_FinalURI respMeta |> <| m_AcceptRange := m_AcceptRange respMeta |>)).

(** The copy of the body, all of it or the rest of a file. *)
Definition receive (io : singleIO) (path : string) (ex : exchange) (start rangeLength : Z) (metaLength : Z)
    (opts : Options) : M unit :=
  let? _reset := publish (resetSingleProgress metaLength start) in
  let? _connected := publish (setConnections 1) in
  match (if rangeLength <? 0 then responseReader ex opts else Ok (ex_body ex)) with
  | Err err => let? _disconnected := publish (setConnections 0) in throw err
  | Ok body => transfer io path ex body rangeLength metaLength opts
  end.

Definition singleRequest (start : Z) (meta : remoteMeta) (opts : Options) (req : Request) : Request :=
  if 0 <? start then applyIfRange meta (applyRangeRequestOptions opts (rangeFrom start) req)
  else applyRequestOptions opts req.

(** [downloadSingle] with its file open. *)
Definition singleBody (io : singleIO) (meta : remoteMeta) (path : string) (opts : Options) (start : Z) : M unit :=
  let? req := lift (NewRequest "GET" (m_FinalURI meta)) in
  let? ex := lift (si_do io (singleRequest start meta opts req)) in
  let? plan := lift (planSingle start (ex_resp ex) meta opts) in
  match plan with
  | PlanDone total => publish (resetSingleProgress total total)
  | PlanRestart =>
      let? _truncated := truncate path 0 (si_truncate io) (si_now io) in
      let? _rewound := lift (si_seek io) in
      receive io path ex 0 (-1) (m_Length meta) opts
  | PlanResume rangeLength => receive io path ex start rangeLength (m_Length meta) opts
  | PlanFull meta =>
      let? _described := publish (setMetadata meta path) in
      receive io path ex 0 (-1) (m_Length meta) opts
  end.

Definition downloadSingle (io : singleIO) (meta : remoteMeta) (path : string) (opts : Options) : M unit :=
  let? start := gets (fun s => resumeOffset (r_disk s) path opts meta) in
  let? _opened := openFile (if 0 <? start then Appending else Truncating) path (si_open io) (si_now io) in
  thenAlways (singleBody io meta path opts start) (fun r => lift (joinResult r (si_close io))).

(** ** One GET that is its own probe ([downloadSingleWithGETProbe]) *)

(** The destination the request is made for: its path, the offset found in it, and
    whether the run created it. *)
Record destination := mkDestination { de_path : string; de_start : Z; de_created : bool }.

Definition existingSize (disk : Disk) (path : string) : Z :=
  match @Stat (diskFS fs disk) path with Ok (_, size) => if 0 <? size then size else 0 | Err _ => 0 end.

(** [e.reserveOutputPath] *)
Definition reserveOutput (path : string) (autoRename : bool) : M string := fun s =>
  match @reserveOutputPath (diskFS fs (r_disk s)) path (d_gid (r_d s)) autoRename (r_paths s) with
  | Ok (path, paths) => Some (s <| r_paths := paths |>, Ok path)
  | Err err => Some (s, Err err)
  end.

Definition isExist (err : error) : bool := match err with EExist => true | _ => false end.

(** [openFile] without failing: whether it opened the file, or an error. *)
Definition tryOpen (mode : openMode) (path : string) (outcome : result unit) (now : Z) : M (result unit) := fun s =>
  match openFile mode path outcome now s with
  | Some (s', r) => Some (s', Ok r)
  | None => None
  end.

Definition chooseDestination (io : singleIO) (opts : Options) (provisionalPath outOpt : string) : M destination :=
  if canCreateSingleDestinationBeforeGET opts outOpt then
    let? _dir := ensureDownloadDir (Dir provisionalPath) (si_mkdir io) in
    let? path := reserveOutput provisionalPath false in
    let? opened := tryOpen Exclusive path (si_open io) (si_now io) in
    match opened with
    | Ok _ => ret (mkDestination path 0 true)
    | Err err =>
        if isExist err then gets (fun s => mkDestination path (existingSize (r_disk s) path) false)
        else throw err
    end
  else if optionBool opts "continue" then
    gets (fun s => mkDestination provisionalPath (existingSize (r_disk s) provisionalPath) false)
  else ret (mkDestination provisionalPath 0 false).

(** A file the run created goes away again. *)
Definition discard (io : singleIO) (dest : destination) : M unit :=
  if de_created dest then removeFile (de_path dest) (si_remove io) else ret tt.

Definition probeRequest (disk : Disk) (dest : destination) (opts : Options) (req : Request) : Request :=
  let req := if 0 <? de_start dest then applyRangeRequestOptions opts (rangeFrom (de_start dest)) req
             else applyRequestOptions opts req in
  if de_start dest =? 0
  then @applyConditionalHeaders (diskFS fs disk) (diskHTTP http disk (Ok tt)) opts (de_path dest) req else req.

(** What the answer means: nothing to fetch, or a body for a file described by the
    metadata, as a range when it is partial. *)
Inductive probePlan :=
| ProbeNotModified
| ProbeDone (meta : remoteMeta)
| ProbeBody (meta : remoteMeta) (rangeLength : Z).

Definition planProbe (dest : destination) (resp : Response) (rawURI : string) (opts : Options)
    : result probePlan :=
  let start := de_start dest in
  let meta := metaFromResponse resp rawURI opts in
  let unsatisfied := if (0 <? start) && (rs_StatusCode resp =? 416) then completeLengthFromUnsatisfiedRange resp else None in
  let complete := match unsatisfied with Some total => total =? start | None => false end in
  if rs_StatusCode resp =? 304 then Ok ProbeNotModified
  else if complete then Ok (ProbeDone (meta <| m_Length := start |> <| m_AcceptRange := true |>))
  else if negb (isHTTPTransferSuccess (rs_StatusCode resp)) || negb (isHTTPBodySuccess (rs_StatusCode resp)) then
    httpStatusError "GET" rawURI resp
  else if rs_StatusCode resp =? 206 then
    if start =? 0 then protocolError "unexpected partial response without an internal Range request"
    else
      let! cr := validateOpenRangeResponse resp start (-1) in
      let rangeLength := addInt64 (wrap64 (cr_end cr - cr_start cr)) 1 in
      let meta := meta <| m_AcceptRange := true |> in
      let meta := if cr_totalKnown cr then meta <| m_Length := cr_total cr |>
                  else if cr_end cr <? max_int64 then meta <| m_Length := cr_end cr + 1 |> else meta in
      Ok (ProbeBody meta rangeLength)
  else Ok (ProbeBody meta (-1)).

(** The path the body goes to, when the run has not created it: where the name in the
    answer leads, kept or renamed by what is there, and reserved. *)
Definition settlePath (io : singleIO) (opts : Options) (outOpt selectedPath outPath : string) (start : Z) : M string :=
  let? outPath :=
    (if String.eqb selectedPath "" && (start =? 0) then
       fun s =>
         let reuseRequestedOutput :=
           negb (String.eqb outOpt "") && optionBool opts "continue"
           && match @Stat (diskFS fs (r_disk s)) outPath with Ok (isDir, size) => negb isDir && (size =? 0) | Err _ => false end in
         lift (@resolveExistingOutputPath (diskFS fs (r_disk s)) outPath opts reuseRequestedOutput) s
     else ret outPath) in
  let? _dir := ensureDownloadDir (Dir outPath) (si_mkdir io) in
  reserveOutput outPath
    (String.eqb selectedPath "" && (start =? 0) && negb (optionBool opts "allow-overwrite")
     && optionBoolDefault opts "auto-file-renaming" true).

(** The transfer with its file open, from [d.setMetadata] on. *)
Definition fillFile (io : singleIO) (created : bool) (meta : remoteMeta) (path : string) (ex : exchange)
    (start rangeLength : Z) (opts : Options) : M unit :=
  let? _described := publish (setMetadata meta path) in
  if (rangeLength <? 0) && created && negb (is_ok (responseReader ex opts)) then
    let? _reset := publish (resetSingleProgress (m_Length meta) start) in
    let? _disconnected := publish (setConnections 0) in
    let? _removed := removeFile path (si_remove io) in
    match responseReader ex opts with
    | Err err => throw (joinError (joinError err (si_close io)) (si_remove io))
    | Ok _ => ret tt
    end
  else
    thenAlways (receive io path ex start rangeLength (m_Length meta) opts)
      (fun r => lift (joinResult r (si_close io))).

(** Where the name in the answer leads. *)
Definition answeredPath (meta : remoteMeta) (rawURI dirOpt outOpt selectedPath provisionalPath : string) : string :=
  if String.eqb selectedPath "" && String.eqb outOpt "" && negb (String.eqb (m_Filename meta) "")
     && negb (String.eqb (m_Filename meta) (filenameFromURI rawURI))
  then resolveOutputPath dirOpt "" (m_Filename meta) rawURI else provisionalPath.

(** The request for a destination and what follows its answer. *)
Definition probeAndFill (io : singleIO) (rawURI : string) (opts : Options) (dirOpt outOpt selectedPath : string)
    (dest : destination) : M (remoteMeta * string) :=
  let? req := lift (NewRequest "GET" rawURI) in
  let? disk := gets r_disk in
  match si_do io (probeRequest disk dest opts req) with
  | Err err => let? _gone := discard io dest in throw err
  | Ok ex =>
      match planProbe dest (ex_resp ex) rawURI opts with
      | Err err => let? _gone := discard io dest in throw err
      | Ok ProbeNotModified =>
          let? _gone := discard io dest in
          let? meta := gets (fun s => @notModifiedMeta (diskFS fs (r_disk s)) (diskHTTP http (r_disk s) (Ok tt)) rawURI (de_path dest)) in
          let? _described := publish (setMetadata meta (de_path dest)) in
          ret (meta, de_path dest)
      | Ok (ProbeDone meta) =>
          let? _gone := discard io dest in
          let? _described := publish (setMetadata meta (de_path dest)) in
          ret (meta, de_path dest)
      | Ok (ProbeBody meta rangeLength) =>
          let outPath := answeredPath meta rawURI dirOpt outOpt selectedPath (de_path dest) in
          if de_created dest then
            let? _filled := fillFile io true meta outPath ex 0 rangeLength opts in ret (meta, outPath)
          else
            let start := if negb (String.eqb outPath (de_path dest)) || negb (rs_StatusCode (ex_resp ex) =? 206)
                         then 0 else de_start dest in
            let? outPath := settlePath io opts outOpt selectedPath outPath start in
            let? _opened := openFile (if 0 <? start then Appending else Truncating) outPath (si_open io) (si_now io) in
            let? _filled := fillFile io false meta outPath ex start rangeLength opts in
            ret (meta, outPath)
      end
  end.

Definition downloadSingleWithGETProbe (io : singleIO) (rawURI : string) (opts : Options) (dirOpt outOpt : string)
    : M (remoteMeta * string) :=
  let? selectedPath := gets (fun s => outputPath (r_d s)) in
  let provisionalPath := if String.eqb selectedPath "" then resolveOutputPath dirOpt outOpt (filenameFromURI rawURI) rawURI
                         else selectedPath in
  let? dest := chooseDestination io opts provisionalPath outOpt in
  probeAndFill io rawURI opts dirOpt outOpt selectedPath dest.

(** ** Segmented downloads ([downloadSegmented]) *)

(** What one attempt at a range meets. *)
Record rangeEnv := mkRangeEnv {
  rv_do : Request -> result Response;
  rv_open : result unit; rv_seek : result unit; rv_close : result unit;
  rv_body : list bodyStep
}.

Definition rangeIOof (meta : remoteMeta) (opts : Options) (r : chunkRange) (v : rangeEnv) : rangeIO :=
  let request := NewRequest "GET" (m_FinalURI meta) in
  mkRangeIO (let! _req := request in Ok tt) (let! req := request in rv_do v (rangeRequest meta opts r req))
    (rv_open v) (rv_seek v) (rv_close v) (map stepOf (rv_body v)).

Record segIO := mkSegIO {
  sg_openFile : result unit; sg_truncate : result unit; sg_closeFile : result unit;
  sg_now : Z;
  sg_ranges : segmentedRangeTask -> rangeEnv;    (* by attempt: a task carries its attempt number *)
  sg_events : list segEvent;
  sg_globalOptions : Options;
  sg_samples : list (Z * Z)
}.

Definition rangeWorker (meta : remoteMeta) (io : segIO) (t : segmentedRangeTask) (opts : Options) : list Z * result unit :=
  downloadRange meta opts (tk_r t) (rangeIOof meta opts (tk_r t) (sg_ranges io t)).

Definition rangeBody (io : segIO) (t : segmentedRangeTask) : bytes := bodyBytesOf (rv_body (sg_ranges io t)).

(** The bytes of a file with some of them overwritten at an offset. *)
Definition writeAt (offset : Z) (data content : bytes) : bytes :=
  resize (Z.to_nat offset) zero content ++ data ++ drop (Z.to_nat offset + length data) content.

(** The loop with the file it fills: what each running attempt, by its range, has
    written so far.  A worker has written the bytes of a flush when it makes it. *)
Record segFile := mkSegFile { sf_seg : segState; sf_content : bytes; sf_written : gmap Z Z }.

Definition writtenBy (f : segFile) (t : segmentedRangeTask) : Z := default 0 (sf_written f !! tk_index t).

Definition fileStep (fallback : Options) (attempt : segmentedRangeTask -> Options -> list Z * result unit)
    (body : segmentedRangeTask -> bytes) (f : segFile) (ev : segEvent) : option segFile :=
  match segStep fallback attempt (sf_seg f) ev with
  | None => None
  | Some s' =>
      Some (match ev with
            | SgFlush k =>
                match sg_active (sf_seg f) !! k with
                | Some (mkWorker t _ _ (n :: _) _) =>
                    let made := writtenBy f t in
                    let block := take (Z.to_nat n) (drop (Z.to_nat made) (body t)) in
                    mkSegFile s' (writeAt (ch_start (tk_r t) + made) block (sf_content f))
                      (<[tk_index t := made + n]> (sf_written f))
                | _ => mkSegFile s' (sf_content f) (sf_written f)
                end
            | SgResult k _ =>
                match sg_active (sf_seg f) !! k with
                | Some w => mkSegFile s' (sf_content f) (delete (tk_index (wk_task w)) (sf_written f))
                | None => mkSegFile s' (sf_content f) (sf_written f)
                end
            | _ => mkSegFile s' (sf_content f) (sf_written f)
            end)
  end.

Fixpoint fileRun (fallback : Options) (attempt : segmentedRangeTask -> Options -> list Z * result unit)
    (body : segmentedRangeTask -> bytes) (f : segFile) (events : list segEvent) : option segFile :=
  match events with
  | [] => Some f
  | ev :: rest =>
      match fileStep fallback attempt body f ev with
      | Some f' => fileRun fallback attempt body f' rest
      | None => None
      end
  end.

Definition contentOf (disk : Disk) (path : string) : bytes :=
  match disk !! path with Some (FileNode content _) => content | _ => [] end.

Definition segLoop (io : segIO) (meta : remoteMeta) (path : string) (opts : Options) (chunks : list chunkRange) : M unit :=
  fun s =>
    let attempt := rangeWorker meta io in
    let start := segStart opts attempt meta chunks (sg_globalOptions io) (sg_now io) (r_d s) in
    match fileRun opts attempt (rangeBody io) (mkSegFile start (contentOf (r_disk s) path) ∅) (sg_events io) with
    | Some f =>
        if finished (sf_seg f) then
          let '(r, d) := segReturn (sf_seg f) in
          Some (s <| r_disk ::= <[path := FileNode (sf_content f) (sg_now io)]> |>
                  <| r_d := publishSpeeds (sg_now io) (sg_samples io) d |>, r)
        else None
    | None => None
    end.

Definition downloadSegmented (io : segIO) (meta : remoteMeta) (path : string) (opts : Options) (chunks : list chunkRange)
    : M unit :=
  let? _opened := openFile Keeping path (sg_openFile io) (sg_now io) in
  let? _sized := truncate path (m_Length meta) (sg_truncate io) (sg_now io) in
  let? _closed := lift (sg_closeFile io) in
  segLoop io meta path opts chunks.

(** ** One URI ([downloadURI]) *)

Record uriIO := mkUriIO {
  ui_single : singleIO;
  ui_probe : probeIO;
  ui_seg : segIO;
  ui_mkdir : result unit;
  ui_readable : result unit;
  ui_chtimes : result unit
}.

Definition checksumOk (io : uriIO) (path : string) (opts : Options) : M unit := fun s =>
  lift (@verifyChecksum (diskHTTP http (r_disk s) (ui_readable io)) path opts) s.

Definition applyRemoteTime (io : uriIO) (path : string) (meta : remoteMeta) (opts : Options) : M unit :=
  if negb (optionBool opts "remote-time") || String.eqb (m_LastModified meta) "" then ret tt
  else match ParseTime (m_LastModified meta) with
       | None => ret tt
       | Some t =>
           let? _changed := lift (ui_chtimes io) in
           modify (fun s => match r_disk s !! path with
                            | Some (FileNode content _) => s <| r_disk ::= <[path := FileNode content t]> |>
                            | _ => s
                            end)
       end.

Definition finishFile (io : uriIO) (path : string) (meta : remoteMeta) (opts : Options) : M unit :=
  let? _verified := checksumOk io path opts in applyRemoteTime io path meta opts.

(** The numbers [downloadURI] reads from the options: the connections allowed, those it
    starts with, and the minimal size of a split. *)
Definition splitOf (opts : Options) : Z := Z.max 1 (optionInt opts "split" 1).
Definition initialConcurrency (opts : Options) : Z :=
  Z.min (splitOf opts) (Z.max 1 (optionInt opts "max-connection-per-server" (splitOf opts))).
Definition minSplitOf (opts : Options) : Z := optionBytes opts "min-split-size" 1048576.

Definition segmentedFor (meta : remoteMeta) (opts : Options) : bool :=
  (0 <? m_Length meta) && m_AcceptRange meta && (1 <? splitOf opts)
  && meetsSegmentedMinimum (m_Length meta) (minSplitOf opts) (optionExplicit opts "min-split-size").

(** The output path of a probed download: the one it has, or the one the name leads to,
    then reserved. *)
Definition chooseOutput (io : uriIO) (opts : Options) (meta : remoteMeta) (segmented : bool) (outPath : string) : M string :=
  let? selectedPath := gets (fun s => outputPath (r_d s)) in
  let resumable := fun s path => @canResumeExistingOutput (diskFS fs (r_disk s)) path opts meta segmented in
  let? outPath :=
    (if negb (String.eqb selectedPath "") then ret selectedPath
     else fun s => lift (@resolveExistingOutputPath (diskFS fs (r_disk s)) outPath opts (resumable s outPath)) s) in
  let? _dir := ensureDownloadDir (Dir outPath) (ui_mkdir io) in
  let? autoRename := gets (fun s =>
    String.eqb selectedPath "" && negb (resumable s outPath) && negb (optionBool opts "allow-overwrite")
    && optionBoolDefault opts "auto-file-renaming" true) in
  reserveOutput outPath autoRename.

(** The transfer of a probed download, in segments when the answer allows them. *)
Definition fetch (io : uriIO) (meta : remoteMeta) (outPath : string) (opts : Options) (segmented : bool) : M unit :=
  if segmented then
    let opts := transportOptionsForSegmented opts in
    let chunks := makeChunks (m_Length meta) (httpSegmentSize opts (minSplitOf opts)) in
    thenAlways (downloadSegmented (ui_seg io) meta outPath opts chunks)
      (fun r => if shouldDowngradeSegmentedDownload (match r with Ok _ => None | Err err => Some err end)
                then downloadSingle (ui_single io) (meta <| m_AcceptRange := false |>) outPath opts
                else lift r)
  else downloadSingle (ui_single io) meta outPath opts.

Definition downloadURI (io : uriIO) (rawURI : string) (opts : Options) : M unit :=
  let segmentedRequested := 1 <? splitOf opts in
  let dirOpt := optionString opts "dir" in
  let outOpt := optionString opts "out" in
  if canUseSingleGETProbe opts segmentedRequested (initialConcurrency opts) then
    let? found := downloadSingleWithGETProbe (ui_single io) rawURI opts dirOpt outOpt in
    if m_NotModified found.1 then ret tt else finishFile io found.2 found.1 opts
  else
    let provisionalName := filenameFromURI rawURI in
    let provisionalPath := resolveOutputPath dirOpt outOpt provisionalName rawURI in
    let probeOpts := if segmentedRequested then transportOptionsForSegmented opts else opts in
    let? meta := (fun s => lift (probe (ui_probe io) rawURI probeOpts provisionalPath (r_disk s)) s) in
    let outPath :=
      if String.eqb outOpt "" && negb (String.eqb (m_Filename meta) "") && negb (String.eqb (m_Filename meta) provisionalName)
      then resolveOutputPath dirOpt "" (m_Filename meta) rawURI else provisionalPath in
    if optionBool opts "dry-run" || m_NotModified meta then publish (setMetadata meta outPath)
    else
      let segmented := segmentedFor meta opts in
      let? outPath := chooseOutput io opts meta segmented outPath in
      let? _described := publish (setMetadata meta outPath) in
      let? _fetched := fetch io meta outPath opts segmented in
      finishFile io outPath meta (if segmented then transportOptionsForSegmented opts else opts).

(** ** The retry loop ([runDownload]) *)

(** What happens around one attempt: the context before it, the attempt, and the sleep
    after it. *)
Record attemptIO := mkAttempt { at_ctx : option error; at_uri : uriIO; at_sleep : option error }.

Record retryState := mkRetry {
  rt_attempt : Z; rt_notFound : Z; rt_lastErr : option error; rt_retryable : bool
}.

(** The numbers of the loop. *)
Record retryLimits := mkLimits { rl_maxTries : Z; rl_retryWait : Z; rl_maxNotFound : Z; rl_many : bool }.

Section retry.
Context (limits : retryLimits) (opts : Options) (io : Z -> attemptIO).

(** A round over the URIs from the [k]-th attempt on: [inl] returns from [runDownload]. *)
Fixpoint retryRound (uris : list URIInfo) (st : retryState) : M (result unit + retryState) :=
  match uris with
  | [] => ret (inr st)
  | u :: rest =>
      let env := io (rt_attempt st) in
      match at_ctx env with
      | Some err => ret (inl (Err err))
      | None =>
          if (0 <? rl_maxTries limits) && (rl_maxTries limits <=? rt_attempt st) then ret (inr st)
          else
            let attempt := rt_attempt st + 1 in
            let? _used := (if rl_many limits then publish (setURIUsed (URI u)) else ret tt) in
            thenAlways (let? _done := downloadURI (at_uri env) (URI u) opts in ret (inl (Ok tt)))
              (fun r =>
                 match r with
                 | Ok answer => ret answer
                 | Err err =>
                     let notFound := rt_notFound st + (if isFileNotFoundError err then 1 else 0) in
                     if isFileNotFoundError err && (0 <? rl_maxNotFound limits) && (rl_maxNotFound limits <=? notFound)
                     then ret (inl (Err err))
                     else
                       let retryable := isRetryableDownloadError err in
                       let st := mkRetry attempt notFound (Some err) (rt_retryable st || retryable) in
                       let sleeps := (0 <? rl_retryWait limits) && retryable
                                     && ((rl_maxTries limits =? 0) || (attempt <? rl_maxTries limits)) in
                       match (if sleeps then at_sleep env else None) with
                       | Some err => ret (inl (Err err))
                       | None => retryRound rest st
                       end
                 end)
      end
  end.

Definition lastError (st : retryState) : result unit :=
  Err (match rt_lastErr st with Some err => err | None => EText "no usable URI" end).

(** The rounds; [fuel] of them, [None] when they are not enough. *)
Fixpoint retryRounds (fuel : nat) (uris : list URIInfo) (st : retryState) : M unit := fun s =>
  if (rl_maxTries limits =? 0) || (rt_attempt st <? rl_maxTries limits) then
    match fuel with
    | O => None
    | S fuel' =>
        (let? answer := retryRound uris (mkRetry (rt_attempt st) (rt_notFound st) (rt_lastErr st) false) in
         match answer with
         | inl r => lift r
         | inr st => if rt_retryable st then retryRounds fuel' uris st else lift (lastError st)
         end) s
    end
  else lift (lastError st) s.
End retry.

Definition limitsOf (opts : Options) (uris : list URIInfo) : retryLimits :=
  let maxTries := optionInt opts "max-tries" 5 in
  mkLimits (if maxTries <? 0 then 1 else maxTries) (wrap64 (optionInt opts "retry-wait" 0 * second))
    (optionInt opts "max-file-not-found" 0) (1 <? length uris)%nat.

(** [runDownload] of a URI download. *)
Definition runDownload (fuel : nat) (io : Z -> attemptIO) : M unit := fun s =>
  let d := r_d s in
  match d_ctx d with
  | None => Some (s, Err ECanceled)
  | Some _ =>
      retryRounds (limitsOf (d_options d) (d_uris d)) (d_options d) io fuel (d_uris d) (mkRetry 0 0 None false) s
  end.
End runs.
