(* ===== verification/AssemblySpec.v ===== *)
(** * The file of a segmented download ([downloader.go])

    The ranges of a segmented download are written by concurrent workers, in blocks, with
    retries.  The run with its file is the run of the loop with the writes added, and
    when the loop succeeds every range of the file is the body of one accepted attempt
    at that range. *)
From S2P Require Import Prelude GoStrings GoPath GoURL Pieces Options Http Reservations Filename Torrent State Engine Progress Downloader DownloaderSpec Runner.

(** ** Vocabulary *)

Definition readsOf (steps : list copyStep) : Z := sumZ (map (fun s => Z.of_N (cs_read s)) steps).

(** The bytes of a file between two offsets. *)
Definition slice (start size : Z) (content : bytes) : bytes := take (Z.to_nat size) (drop (Z.to_nat start) content).

(** ** Lemmas: what a copy reads bounds what it writes *)

Lemma readsOf_nonneg (steps : list copyStep) : 0 <= readsOf steps.
Proof. unfold readsOf, sumZ. induction steps as [|s steps IH]; cbn; lia. Qed.

Lemma copyLoop_reads (lowest : Z) (steps : list copyStep) (remaining : option Z) (written pending : Z) (fl : list Z) :
  Forall (fun n => 0 < n) fl -> 0 <= pending -> written = sumZ fl + pending -> 0 <= written ->
  match remaining with Some r => 0 <= r /\ written + r <= max_int64 | None => written + readsOf steps <= max_int64 end ->
  copy_ok (written + readsOf steps) (copyLoop lowest steps remaining written pending fl).
Proof.
  revert remaining written pending fl.
  induction steps as [|s steps IH]; intros remaining written pending fl Hf Hp Hw Hw0 Hr; cbn [copyLoop].
  { apply copy_end; try done. unfold readsOf, sumZ. cbn. lia. }
  assert (readsOf (s :: steps) = Z.of_N (cs_read s) + readsOf steps) as E by done. rewrite E in *.
  pose proof (readsOf_nonneg steps) as Hn. destruct (cs_ctx s); [apply copy_end; try done; lia|].
  set (total := written + (Z.of_N (cs_read s) + readsOf steps)) in *.
  assert (forall er k p f rest, Forall (fun n => 0 < n) f -> 0 <= p -> k = sumZ f + p -> 0 <= k -> k + readsOf steps <= total ->
    match rest with Some r => 0 <= r /\ k + r <= max_int64 | None => k + readsOf steps <= max_int64 end ->
    copy_ok total (match afterRead er k p f with
                   | Some result => result
                   | None => copyLoop lowest steps rest k p f
                   end)) as Hafter.
  { intros er k p f rest Hf' Hp' Hk Hk0 Hle Hrest. unfold afterRead. destruct er; [apply copy_end; try done; lia|].
    destruct (IH rest k p f) as (H1 & H2 & H3); try done. split_and!; [done|done|lia|lia]. }
  destruct (match remaining with None => _ | Some r => _ end) as [[nr er] rest] eqn:Hnr.
  assert (nr <= Z.of_N (cs_read s) /\ match rest with Some r => 0 <= r /\ written + Z.max 0 nr + r <= max_int64
          | None => written + Z.max 0 nr + readsOf steps <= max_int64 end) as [Hle Hrest].
  { destruct remaining as [r|]; [|simplify_eq; lia]. destruct (Z.leb_spec r 0); simplify_eq; lia. }
  destruct (Z.leb_spec nr 0); [apply Hafter; try done; destruct rest; lia|].
  destruct (cs_wait s); [apply copy_end; try done; lia|]. cbv zeta. set (nw := Z.min (Z.of_N (cs_written s)) nr).
  assert (nw <= nr) by (unfold nw; lia). assert (written + nr <= max_int64) by (destruct rest; lia).
  destruct (Z.ltb_spec 0 nw) as [Hnw|Hnw].
  - pose proof (sumZ_pos fl Hf). unfold addInt64.
    rewrite !wrap64_id by (unfold in_int64, min_int64, max_int64 in *; lia). cbn [andb].
    destruct ((progressFlushBytes <=? pending + nw) || (0 <? lowest)).
    + assert (Forall (fun n => 0 < n) (flushed (pending + nw) fl)) as Hf' by by apply flushed_pos.
      assert (written + nw = sumZ (flushed (pending + nw) fl) + 0) as Hw' by (rewrite flushed_sum; lia).
      destruct (checkSpeed _ _ _).
      { unfold copy_ok. cbn [cp_count cp_flushes]. split_and!; try done; lia. }
      destruct (cs_writeErr s); [apply copy_end; try done; lia|].
      destruct (negb (nr =? nw)) eqn:E'; [apply copy_end; try done; lia|]. zbool. apply Hafter; try done; destruct rest; lia.
    + destruct (cs_writeErr s); [apply copy_end; try done; lia|].
      destruct (negb (nr =? nw)) eqn:E'; [apply copy_end; try done; lia|]. zbool. apply Hafter; try done; destruct rest; lia.
  - cbn [andb]. destruct (cs_writeErr s); [apply copy_end; try done; lia|].
    destruct (negb (nr =? nw)) eqn:E'; [apply copy_end; try done; lia|]. zbool. lia.
Qed.

Lemma reads_of_body (body : list bodyStep) : readsOf (map stepOf body) = fileSize (bodyBytesOf body).
Proof.
  unfold readsOf, fileSize, bodyBytesOf, sumZ. induction body as [|b body IH]; [done|].
  cbn [map concat foldr]. rewrite IH, length_app. unfold stepOf at 1. cbn [cs_read]. lia.
Qed.

Lemma copied_length (body : list bodyStep) (c : copyResult) (n : Z) :
  0 <= cp_count c -> cp_count c <= n -> n <= fileSize (bodyBytesOf body) -> fileSize (copied body c) = cp_count c.
Proof. unfold fileSize, copied. rewrite length_take. lia. Qed.

(** ** Lemmas: writing into a file *)

Lemma writeAt_lookup (offset : Z) (data content : bytes) (i : nat) :
  0 <= offset -> offset + fileSize data <= fileSize content ->
  writeAt offset data content !! i
  = if decide (offset <= Z.of_nat i < offset + fileSize data) then data !! (i - Z.to_nat offset)%nat else content !! i.
Proof.
  unfold writeAt, fileSize. intros H0 Hle. rewrite resize_le by lia.
  destruct (decide (i < Z.to_nat offset)%nat) as [Hi|Hi].
  { rewrite lookup_app_l by (rewrite length_take; lia). rewrite lookup_take_lt by lia. case_decide; [lia|done]. }
  rewrite lookup_app_r by (rewrite length_take; lia). rewrite length_take, Nat.min_l by lia.
  case_decide as Hd.
  - rewrite lookup_app_l by lia. done.
  - rewrite lookup_app_r by lia. rewrite lookup_drop. f_equal. lia.
Qed.

Lemma writeAt_length (offset : Z) (data content : bytes) :
  0 <= offset -> offset + fileSize data <= fileSize content -> fileSize (writeAt offset data content) = fileSize content.
Proof.
  unfold writeAt, fileSize. intros H0 Hle. rewrite resize_le by lia.
  rewrite !length_app, length_take, length_drop. lia.
Qed.

(** The file holds the first [m] bytes of a body from [start] on. *)
Definition holds (start m : Z) (body content : bytes) : Prop :=
  forall i : nat, Z.of_nat i < m -> content !! (Z.to_nat start + i)%nat = body !! i.

Lemma holds_slice (start size : Z) (body content : bytes) :
  holds start size body content -> slice start size content = take (Z.to_nat size) body.
Proof.
  intros H. apply list_eq. intros i. unfold slice. destruct (decide (i < Z.to_nat size)%nat).
  - rewrite !lookup_take_lt, lookup_drop by lia. apply H. lia.
  - by rewrite !lookup_take_ge by lia.
Qed.

(** A block continues the bytes before it. *)
Lemma holds_extend (start m n : Z) (body content : bytes) :
  0 <= start -> 0 <= m -> 0 <= n -> m + n <= fileSize body -> start + m + n <= fileSize content ->
  holds start m body content ->
  holds start (m + n) body
    (writeAt (start + m) (take (Z.to_nat n) (drop (Z.to_nat m) body)) content).
Proof.
  intros Hs Hm Hn Hb Hc H i Hi.
  assert (fileSize (take (Z.to_nat n) (drop (Z.to_nat m) body)) = n) as Hl.
  { unfold fileSize in *. rewrite length_take, length_drop. lia. }
  rewrite writeAt_lookup, Hl by lia. case_decide.
  - rewrite lookup_take_lt by lia. rewrite lookup_drop. f_equal. lia.
  - apply H. lia.
Qed.

(** A block elsewhere changes nothing. *)
Lemma holds_frame (start m offset : Z) (data body content : bytes) :
  0 <= start -> 0 <= offset -> offset + fileSize data <= fileSize content ->
  start + m <= offset \/ offset + fileSize data <= start ->
  holds start m body content -> holds start m body (writeAt offset data content).
Proof.
  intros Hs Ho Hle Hd H i Hi. rewrite writeAt_lookup by done. case_decide; [lia|]. by apply H.
Qed.

(** ** Lemmas: how the loop moves its tasks *)

Section moves.
Context (fallback : Options) (attempt : segmentedRangeTask -> Options -> list Z * result unit).

(** A worker just started from a task. *)
Definition started (t : segmentedRangeTask) (w : worker) : Prop :=
  tk_index (wk_task w) = tk_index t /\ tk_r (wk_task w) = tk_r t
  /\ exists opts, attempt (wk_task w) opts = (wk_flushes w, wk_result w).

Definition moved (s s' : segState) : Prop :=
  exists ts ws, sg_active s' = sg_active s ++ ws /\ sg_tasks s ≡ₚ ts ++ sg_tasks s' /\ Forall2 started ts ws
    /\ sg_firstErr s' = sg_firstErr s.

Lemma moved_refl (s s' : segState) :
  sg_active s' = sg_active s -> sg_tasks s' = sg_tasks s -> sg_firstErr s' = sg_firstErr s -> moved s s'.
Proof. intros E1 E2 E3. exists [], []. rewrite E1, E2, app_nil_r. by split_and!. Qed.

Lemma moved_trans (s1 s2 s3 : segState) : moved s1 s2 -> moved s2 s3 -> moved s1 s3.
Proof.
  intros (ts & ws & A1 & A2 & A3 & A4) (ts' & ws' & B1 & B2 & B3 & B4). exists (ts ++ ts'), (ws ++ ws').
  rewrite B1, A1, app_assoc. split_and!; [done| |by apply Forall2_app|congruence].
  by rewrite A2, B2, app_assoc.
Qed.

Lemma start_task_moved (idx : nat) (task : segmentedRangeTask) (s : segState) :
  sg_tasks s !! idx = Some task -> moved s (startTask attempt task (s <| sg_tasks ::= delete idx |>)).
Proof.
  intros Ht. unfold startTask. cbv zeta. destruct (launchState _) as [l g].
  set (t' := task <| tk_attempts ::= _ |> <| tk_launchLimit := _ |> <| tk_launchGeneration := _ |>).
  destruct (attempt t' _) as [fl r] eqn:Ha. exists [task], [mkWorker t' (let m := optionInt
    (transportOptionsForSegmented (d_options (sg_d (s <| sg_tasks ::= delete idx |>)))) "max-tries" 5 in if m <? 0 then 1 else m)
    (wrap64 (optionInt (transportOptionsForSegmented (d_options (sg_d (s <| sg_tasks ::= delete idx |>)))) "retry-wait" 0 * second)) fl r].
  split_and!; [done|by apply delete_perm| |done]. constructor; [|done]. split_and!; [done|done|]. by eexists.
Qed.

Lemma start_loop_moved (fuel : nat) (now : Z) (s : segState) : moved s (startLoop attempt fuel now s).
Proof.
  revert s. induction fuel as [|fuel IH]; intros s; cbn [startLoop]; [by apply moved_refl|].
  destruct (_ <? _); [|by apply moved_refl]. destruct (readySegmentedTaskIndex _ now) as [idx|]; [|by apply moved_refl].
  destruct (sg_tasks s !! idx) as [task|] eqn:Ht; [|by apply moved_refl].
  eapply moved_trans; [by apply start_task_moved|apply IH].
Qed.

Lemma start_ready_moved (now : Z) (s : segState) : moved s (startReady fallback attempt now s).
Proof.
  unfold startReady. destruct (sg_firstErr s); [by apply moved_refl|].
  eapply moved_trans; [|apply start_loop_moved]. by apply moved_refl.
Qed.

(** A result takes its worker away; its task is done, queued again, or the first error
    is recorded. *)
Lemma handle_result_moved (k : nat) (w : worker) (now : Z) (s : segState) :
  sg_active s !! k = Some w ->
  let s' := handleResult fallback k w now s in
  sg_active s' = delete k (sg_active s)
  /\ ((wk_result w = Ok tt /\ sg_tasks s' = sg_tasks s /\ sg_firstErr s' = sg_firstErr s)
      \/ (is_ok (wk_result w) = false
          /\ ((exists t, tk_index t = tk_index (wk_task w) /\ tk_r t = tk_r (wk_task w) /\ sg_tasks s' = sg_tasks s ++ [t]
                 /\ sg_firstErr s' = sg_firstErr s)
              \/ (sg_tasks s' = sg_tasks s /\ sg_firstErr s' <> None)))).
Proof.
  intros Hw. cbv zeta. unfold handleResult. cbv zeta. set (s1 := _ <| sg_d ::= setConnections _ |>).
  assert (forall err s2, sg_active s2 = sg_active s1 -> sg_tasks s2 = sg_tasks s1 ->
    sg_active (fail err s2) = delete k (sg_active s) /\ sg_tasks (fail err s2) = sg_tasks s /\ sg_firstErr (fail err s2) <> None) as Hfail.
  { intros err s2 E1 E2. unfold fail. destruct (sg_firstErr s2) eqn:E; cbn; rewrite E1, E2; [by rewrite E|done]. }
  destruct (wk_result w) as [[]|err]; [by split; [|left]|].
  set (s2 := match errors_find _ err with Some _ => _ | None => _ end).
  assert (sg_active s2 = sg_active s1 /\ sg_tasks s2 = sg_tasks s1 /\ sg_firstErr s2 = sg_firstErr s) as (E1 & E2 & E3)
    by (unfold s2; by destruct (errors_find _ err)).
  clearbody s2. destruct (isAdaptiveRangeThrottleError err).
  - destruct (canRetryRangeAttempt _ _).
    + split; [by cbn; rewrite E1|]. right. split; [done|]. left.
      exists (wk_task w <| tk_notBefore := Some (now + wk_retryWait w) |>). split_and!; [done|done|by cbn; rewrite E2|exact E3].
    + split; [by apply Hfail|]. right. split; [done|]. right. split; by apply Hfail.
  - destruct (_ && _).
    + split; [by cbn; rewrite E1|]. right. split; [done|]. left.
      exists (wk_task w <| tk_notBefore := Some (now + wk_retryWait w) |>). split_and!; [done|done|by cbn; rewrite E2|exact E3].
    + split; [by apply Hfail|]. right. split; [done|]. right. split; by apply Hfail.
Qed.
End moves.

(** ** Lemmas: the invariant of the file *)

Section assembly.
Context (fallback : Options) (attempt : segmentedRangeTask -> Options -> list Z * result unit)
  (body : segmentedRangeTask -> bytes) (total : Z) (chunks : list chunkRange).

(** What the worker of an attempt may do: it writes a prefix of the body inside the
    range, and all the range when it succeeds. *)
Definition attempt_writes (t : segmentedRangeTask) (flushes : list Z) (r : result unit) : Prop :=
  Forall (fun n => 0 < n) flushes /\ sumZ flushes <= rangeSize (tk_r t) /\ sumZ flushes <= fileSize (body t)
  /\ (r = Ok tt -> sumZ flushes = rangeSize (tk_r t)).

Context (Hchunks : forall i c, chunks !! i = Some c -> 0 <= ch_start c <= ch_end c /\ ch_end c < total).
Context (Hdisjoint : forall i j c c', chunks !! i = Some c -> chunks !! j = Some c' -> i <> j ->
  ch_end c < ch_start c' \/ ch_end c' < ch_start c).
Context (Hattempt : forall t opts, task_ok chunks t -> attempt_writes t (attempt t opts).1 (attempt t opts).2).

(** An attempt that succeeded and whose bytes the file holds. *)
Definition succeeded_in (content : bytes) (t : segmentedRangeTask) : Prop :=
  (exists opts, (attempt t opts).2 = Ok tt) /\ rangeSize (tk_r t) <= fileSize (body t)
  /\ holds (ch_start (tk_r t)) (rangeSize (tk_r t)) (body t) content.

(** A running attempt after [made] bytes. *)
Definition running_in (content : bytes) (made : Z) (w : worker) : Prop :=
  let t := wk_task w in
  (wk_result w = Ok tt -> exists opts, (attempt t opts).2 = Ok tt) /\ 0 <= made
  /\ Forall (fun n => 0 < n) (wk_flushes w)
  /\ made + sumZ (wk_flushes w) <= rangeSize (tk_r t) /\ made + sumZ (wk_flushes w) <= fileSize (body t)
  /\ (wk_result w = Ok tt -> made + sumZ (wk_flushes w) = rangeSize (tk_r t))
  /\ holds (ch_start (tk_r t)) made (body t) content.

Definition indexes (s : segState) (done : list segmentedRangeTask) : list Z :=
  map tk_index (sg_tasks s) ++ map workerIndex (sg_active s) ++ map tk_index done.

(** The ranges that wait, run or are done are different; the running ones hold what
    they have written, the waiting ones nothing yet, the done ones their whole body. *)
Record file_inv (f : segFile) (done : list segmentedRangeTask) : Prop := {
  fi_length : fileSize (sf_content f) = total;
  fi_nodup : NoDup (indexes (sf_seg f) done);
  fi_all : sg_firstErr (sf_seg f) = None -> forall i, 0 <= i < Z.of_nat (length chunks) -> i ∈ indexes (sf_seg f) done;
  fi_tasks : Forall (fun t => task_ok chunks t /\ sf_written f !! tk_index t = None) (sg_tasks (sf_seg f));
  fi_active : Forall (fun w => task_ok chunks (wk_task w) /\ running_in (sf_content f) (writtenBy f (wk_task w)) w)
                (sg_active (sf_seg f));
  fi_done : Forall (fun t => task_ok chunks t /\ succeeded_in (sf_content f) t) done
}.

Lemma fresh_running (content : bytes) (t : segmentedRangeTask) (w : worker) :
  task_ok chunks t -> started attempt t w -> task_ok chunks (wk_task w) /\ running_in content 0 w.
Proof.
  intros [H1 H2] (E1 & E2 & opts & Ha).
  assert (task_ok chunks (wk_task w)) as Hok by (split; rewrite ?E1, ?E2; done).
  split; [done|]. pose proof (Hattempt (wk_task w) opts Hok) as (A1 & A2 & A3 & A4). rewrite Ha in *. cbn in *.
  unfold running_in. cbv zeta. split_and!; try done; try lia.
  - intros E. exists opts. by rewrite Ha.
  - intros i Hi. lia.
Qed.

(** Starting waiting ranges keeps the invariant. *)
Lemma moved_inv (f : segFile) (s' : segState) (done : list segmentedRangeTask) :
  file_inv f done -> moved attempt (sf_seg f) s' -> file_inv (mkSegFile s' (sf_content f) (sf_written f)) done.
Proof.
  intros [Hl Hnd Hall Htk Hac Hdn] (ts & ws & Ea & Et & Hst & Ee).
  assert (map workerIndex ws = map tk_index ts) as Ei.
  { clear -Hst. induction Hst as [|t w ts ws (E & _) _ IH]; [done|]. cbn. unfold workerIndex at 1. by rewrite E, IH. }
  assert (indexes s' done ≡ₚ indexes (sf_seg f) done) as Hp.
  { unfold indexes. rewrite Ea, map_app, Ei. rewrite (Permutation_map tk_index Et), map_app. solve_Permutation. }
  assert (Forall (fun t => task_ok chunks t /\ sf_written f !! tk_index t = None) (ts ++ sg_tasks s')) as Htk'.
  { by rewrite <- Et. }
  apply Forall_app in Htk' as [Hts Htk'].
  constructor; cbn [sf_seg sf_content sf_written]; try done.
  - by rewrite Hp.
  - intros He i Hi. rewrite Hp. apply Hall; [congruence|done].
  - rewrite Ea. apply Forall_app. split; [done|]. clear -Hts Hst Hattempt.
    induction Hst as [|t w ts ws Hst _ IH]; [done|]. apply Forall_cons in Hts as [[H1 H2] Hts]. constructor; [|by apply IH].
    destruct (fresh_running (sf_content f) t w H1 Hst) as [Hok Hr]. split; [done|]. destruct Hst as (E & _).
    unfold writtenBy. cbn. rewrite E, H2. done.
Qed.

Lemma task_bounds (t : segmentedRangeTask) : task_ok chunks t -> 0 <= ch_start (tk_r t) /\ ch_start (tk_r t) + rangeSize (tk_r t) <= total
  /\ 0 <= rangeSize (tk_r t).
Proof. intros [_ H]. apply Hchunks in H. unfold rangeSize. lia. Qed.

Lemma apart (t t' : segmentedRangeTask) :
  task_ok chunks t -> task_ok chunks t' -> tk_index t <> tk_index t' ->
  ch_start (tk_r t) + rangeSize (tk_r t) <= ch_start (tk_r t') \/ ch_start (tk_r t') + rangeSize (tk_r t') <= ch_start (tk_r t).
Proof.
  intros [H0 H] [H0' H'] Hne. unfold rangeSize. destruct (Hdisjoint _ _ _ _ H H' ltac:(lia)); lia.
Qed.

(** A block written inside one range leaves what is held in the others. *)
Lemma write_apart (content : bytes) (t t' : segmentedRangeTask) (m : Z) (m' : Z) (block : bytes) :
  fileSize content = total -> task_ok chunks t -> task_ok chunks t' -> tk_index t <> tk_index t' ->
  0 <= m -> m + fileSize block <= rangeSize (tk_r t) -> 0 <= m' <= rangeSize (tk_r t') ->
  holds (ch_start (tk_r t')) m' (body t') content ->
  holds (ch_start (tk_r t')) m' (body t') (writeAt (ch_start (tk_r t) + m) block content).
Proof.
  intros Hl Ht Ht' Hne Hm Hle Hm' H. pose proof (task_bounds t Ht). pose proof (task_bounds t' Ht').
  assert (0 <= fileSize block) by (unfold fileSize; lia).
  apply holds_frame; try done; try lia. destruct (apart t t' Ht Ht' Hne); lia.
Qed.

Lemma running_bound (content : bytes) (made : Z) (w : worker) :
  running_in content made w -> 0 <= made <= rangeSize (tk_r (wk_task w)).
Proof. intros (_ & H0 & Hpos & Hle & _). pose proof (sumZ_pos _ Hpos). lia. Qed.

Lemma fileSize_block (b : bytes) (m n : Z) : 0 <= m -> 0 <= n -> m + n <= fileSize b ->
  fileSize (take (Z.to_nat n) (drop (Z.to_nat m) b)) = n.
Proof. unfold fileSize. rewrite length_take, length_drop. lia. Qed.

(** Where a running worker's index does not occur. *)
Lemma index_unique (f : segFile) (done : list segmentedRangeTask) (k : nat) (w : worker) :
  file_inv f done -> sg_active (sf_seg f) !! k = Some w ->
  (forall t, t ∈ sg_tasks (sf_seg f) -> tk_index t <> workerIndex w)
  /\ (forall t, t ∈ done -> tk_index t <> workerIndex w)
  /\ (forall j w', sg_active (sf_seg f) !! j = Some w' -> j <> k -> workerIndex w' <> workerIndex w).
Proof.
  intros HI Hw. pose proof (fi_nodup _ _ HI) as Hnd. unfold indexes in Hnd.
  apply NoDup_app in Hnd as (_ & H1 & Hnd). apply NoDup_app in Hnd as (Hnd & H2 & _).
  assert (workerIndex w ∈ map workerIndex (sg_active (sf_seg f))) as Hin.
  { apply list_elem_of_fmap. exists w. split; [done|]. by eapply list_elem_of_lookup_2. }
  split_and!.
  - intros t Ht E. apply (H1 (tk_index t)); [by apply list_elem_of_fmap_2|]. rewrite E. apply elem_of_app. by left.
  - intros t Ht E. apply (H2 (workerIndex w)); [done|]. rewrite <- E. by apply list_elem_of_fmap_2.
  - intros j w' Hj Hne E. apply Hne. eapply (NoDup_lookup (map workerIndex (sg_active (sf_seg f)))); [done| |].
    + rewrite list_lookup_fmap, Hj. done.
    + rewrite list_lookup_fmap, Hw. cbn. by rewrite E.
Qed.

Lemma flush_inv (f f' : segFile) (done : list segmentedRangeTask) (k : nat) :
  file_inv f done -> fileStep fallback attempt body f (SgFlush k) = Some f' -> file_inv f' done.
Proof.
  intros HI H. unfold fileStep in H. cbn [segStep] in H.
  destruct (sg_active (sf_seg f) !! k) as [w|] eqn:Hw; [|done].
  destruct (index_unique f done k w HI Hw) as (U1 & U2 & U3). destruct HI as [Hl Hnd Hall Htk Hac Hdn].
  pose proof (Forall_lookup_1 _ _ _ _ Hac Hw) as [Hok Hrun]. pose proof (running_bound _ _ _ Hrun) as Hm.
  destruct w as [t mt rw [|n rest] r]; [done|]. cbn [wk_flushes wk_task wk_maxTries wk_retryWait wk_result] in *. injection H as <-.
  unfold workerIndex in U1, U2, U3. cbn [wk_task] in *.
  set (m := writtenBy f t) in *. destruct Hrun as (Hsome & H0 & Hpos & Hle & Hbody & Hfull & Hheld).
  cbn [wk_flushes wk_task wk_result] in *. apply Forall_cons in Hpos as [Hn Hpos]. pose proof (sumZ_pos rest Hpos).
  assert (sumZ (n :: rest) = n + sumZ rest) as E by done. rewrite E in *. clear E.
  set (block := take (Z.to_nat n) (drop (Z.to_nat m) (body t))).
  assert (fileSize block = n) as Hblock by (apply fileSize_block; lia).
  pose proof (task_bounds t Hok). constructor; cbn [sf_seg sf_content sf_written sg_tasks sg_active sg_firstErr].
  - by rewrite writeAt_length by lia.
  - unfold indexes in *. cbn. rewrite list_fmap_insert. cbn. rewrite list_insert_id; [done|]. by rewrite list_lookup_fmap, Hw.
  - intros He i Hi. unfold indexes in *. cbn. rewrite list_fmap_insert. cbn. rewrite list_insert_id; [by apply Hall|].
    by rewrite list_lookup_fmap, Hw.
  - apply Forall_forall. intros t' Ht'. pose proof (proj1 (Forall_forall _ _) Htk t' Ht') as [K1 K2]. split; [done|]. rewrite lookup_insert_ne; [done|]. intros E. by apply (U1 t').
  - apply Forall_lookup. intros j w' Hj. cbn in Hj. destruct (decide (j = k)) as [->|Hne].
    + rewrite list_lookup_insert_eq in Hj by by eapply lookup_lt_Some. injection Hj as <-. cbn [wk_task]. split; [done|].
      unfold writtenBy. cbn [sf_written]. rewrite lookup_insert_eq. change (default 0 (Some (m + n))) with (m + n). unfold running_in. cbn [wk_task wk_flushes wk_result].
      split_and!; try done; try lia. { intros ->. specialize (Hfull eq_refl). lia. }
      apply holds_extend; try done; lia.
    + rewrite list_lookup_insert_ne in Hj by done. pose proof (Forall_lookup_1 _ _ _ _ Hac Hj) as [Hok' Hrun']. split; [done|].
      assert (tk_index (wk_task w') <> tk_index t) as Hidx by by eapply U3.
      assert (writtenBy (mkSegFile (sf_seg f <| sg_active ::= <[k:=mkWorker t mt rw rest r]> |>) (sf_content f) (<[tk_index t:=m + n]> (sf_written f))) (wk_task w')
              = writtenBy f (wk_task w')) as E by (unfold writtenBy; cbn; by rewrite lookup_insert_ne).
      unfold writtenBy in E |- *. cbn [sf_written] in E |- *. rewrite E. fold (writtenBy f (wk_task w')) in *.
      pose proof (running_bound _ _ _ Hrun'). destruct Hrun' as (R1 & R2 & R3 & R4 & R5 & R6 & R7).
      split_and!; try done. apply write_apart; try done; lia.
  - apply Forall_forall. intros t' Ht'. pose proof (proj1 (Forall_forall _ _) Hdn t' Ht') as [K1 (K2 & K3 & K4)]. split; [done|]. split_and!; [done|done|].
    pose proof (task_bounds t' K1). apply write_apart; try done; try lia. intros E. by apply (U2 t').
Qed.

Definition file_good (f : segFile) : Prop := exists done, file_inv f done.

(** A worker leaves; its range is then given up, unless the caller puts it elsewhere. *)
Lemma result_inv (f : segFile) (done : list segmentedRangeTask) (k : nat) (w : worker) (now : Z) :
  file_inv f done -> sg_active (sf_seg f) !! k = Some w -> wk_flushes w = [] ->
  file_good (mkSegFile (handleResult fallback k w now (sf_seg f)) (sf_content f) (delete (tk_index (wk_task w)) (sf_written f))).
Proof.
  intros HI Hw Hfl. destruct (index_unique f done k w HI Hw) as (U1 & U2 & U3).
  destruct HI as [Hl Hnd Hall Htk Hac Hdn]. pose proof (Forall_lookup_1 _ _ _ _ Hac Hw) as [Hok Hrun].
  pose proof (delete_perm _ _ _ Hw) as Hperm. set (s := sf_seg f) in *.
  assert (forall t, t ∈ sg_tasks s -> delete (tk_index (wk_task w)) (sf_written f) !! tk_index t = None) as Hnone.
  { intros t Ht. rewrite lookup_delete_ne; [by apply (proj1 (Forall_forall _ _) Htk t Ht)|]. intros E. by apply (U1 t). }
  assert (Forall (fun w' => task_ok chunks (wk_task w') /\ running_in (sf_content f)
     (default 0 (delete (tk_index (wk_task w)) (sf_written f) !! tk_index (wk_task w'))) w') (delete k (sg_active s))) as Hac'.
  { apply Forall_lookup. intros j w' Hj. assert (exists j', j' <> k /\ sg_active s !! j' = Some w') as (j' & Hne & Hj').
    { destruct (decide (j < k)%nat).
      - rewrite list_lookup_delete_lt in Hj by lia. exists j. split; [lia|done].
      - rewrite list_lookup_delete_ge in Hj by lia. exists (S j). split; [lia|done]. }
    pose proof (Forall_lookup_1 _ _ _ _ Hac Hj') as [H1 H2]. split; [done|]. rewrite lookup_delete_ne; [done|].
    intros E. by apply (U3 j' w'). }
  destruct (handle_result_moved fallback k w now s Hw) as (Ea & Hcases).
  set (s' := handleResult fallback k w now s) in *. clearbody s'.
  assert (map workerIndex (sg_active s) ≡ₚ workerIndex w :: map workerIndex (delete k (sg_active s))) as Hpi
    by by rewrite (Permutation_map workerIndex Hperm).
  destruct Hcases as [(Hr & Et & Ee)|(Hr & [(t' & E1 & E2 & Et & Ee)|(Et & Ee)])].
  - exists (wk_task w :: done).
    assert (indexes s' (wk_task w :: done) ≡ₚ indexes s done) as Hp.
    { unfold indexes. rewrite Ea, Et, Hpi. cbn [map]. unfold workerIndex at 2. solve_Permutation. }
    constructor; cbn [sf_seg sf_content sf_written]; try done.
    + by rewrite Hp.
    + intros He i Hi. rewrite Hp. apply Hall; [congruence|done].
    + rewrite Et. apply Forall_forall. intros t Ht. split; [by apply (proj1 (Forall_forall _ _) Htk t Ht)|by apply Hnone].
    + by rewrite Ea.
    + constructor; [|done]. split; [done|]. destruct Hrun as (R1 & R2 & R3 & R4 & R5 & R6 & R7). rewrite Hfl in *.
      change (sumZ []) with 0 in *. specialize (R6 Hr). rewrite Z.add_0_r in *. split_and!; [by apply R1|lia|]. by rewrite <- R6.
  - exists done. assert (indexes s' done ≡ₚ indexes s done) as Hp.
    { unfold indexes. rewrite Ea, Et, Hpi, map_app. cbn [map]. rewrite E1. fold (workerIndex w). solve_Permutation. }
    constructor; cbn [sf_seg sf_content sf_written]; try done.
    + by rewrite Hp.
    + intros He i Hi. rewrite Hp. apply Hall; [congruence|done].
    + rewrite Et. apply Forall_app. split.
      * apply Forall_forall. intros t Ht. split; [by apply (proj1 (Forall_forall _ _) Htk t Ht)|by apply Hnone].
      * constructor; [|done]. split; [|by rewrite E1, lookup_delete_eq]. destruct Hok. split; by rewrite E1, ?E2.
    + by rewrite Ea.
  - exists done. constructor; cbn [sf_seg sf_content sf_written]; try done.
    + assert (indexes s done ≡ₚ workerIndex w :: indexes s' done) as Hp.
      { unfold indexes. rewrite Ea, Et, Hpi. solve_Permutation. }
      rewrite Hp in Hnd. by apply NoDup_cons in Hnd as [_ ?].
    + rewrite Et. apply Forall_forall. intros t Ht. split; [by apply (proj1 (Forall_forall _ _) Htk t Ht)|by apply Hnone].
    + by rewrite Ea.
Qed.

Lemma file_same (f : segFile) (s' : segState) (done : list segmentedRangeTask) :
  file_inv f done -> sg_active s' = sg_active (sf_seg f) -> sg_tasks s' = sg_tasks (sf_seg f) ->
  (sg_firstErr s' = None -> sg_firstErr (sf_seg f) = None) ->
  file_inv (mkSegFile s' (sf_content f) (sf_written f)) done.
Proof.
  intros [Hl Hnd Hall Htk Hac Hdn] E1 E2 E3. constructor; cbn [sf_seg sf_content sf_written]; unfold indexes in *; rewrite ?E1, ?E2; try done.
  intros He. by apply Hall, E3.
Qed.

Lemma started_good (f : segFile) (now : Z) :
  file_good f -> file_good (mkSegFile (startReady fallback attempt now (sf_seg f)) (sf_content f) (sf_written f)).
Proof. intros [done HI]. exists done. apply moved_inv; [done|]. apply start_ready_moved. Qed.

Lemma file_step_good (f f' : segFile) (ev : segEvent) :
  file_good f -> fileStep fallback attempt body f ev = Some f' -> file_good f'.
Proof.
  intros [done HI] H. destruct ev as [k|k now|now|err|now|opts|global].
  - exists done. by eapply flush_inv.
  - unfold fileStep in H. cbn [segStep] in H. destruct (finished (sf_seg f)); [done|].
    destruct (sg_active (sf_seg f) !! k) as [w|] eqn:Hw; [|done]. destruct (wk_flushes w) eqn:Hfl; [|done]. injection H as <-.
    pose proof (result_inv f done k w now HI Hw Hfl) as Hg. by apply (started_good _ now) in Hg.
  - unfold fileStep in H. cbn [segStep] in H. destruct (finished (sf_seg f)); [done|]. injection H as <-.
    apply started_good. by exists done.
  - unfold fileStep in H. cbn [segStep] in H. destruct (sg_ctxErr (sf_seg f)); [done|]. injection H as <-.
    exists done. by apply file_same.
  - unfold fileStep in H. cbn [segStep] in H. destruct (_ || _); [done|]. destruct (sg_ctxErr (sf_seg f)) as [err|]; [|done].
    injection H as <-. set (s1 := fail err (sf_seg f) <| sg_ctxSeen := true |>).
    apply (started_good (mkSegFile s1 (sf_content f) (sf_written f)) now). exists done. apply file_same; [done|..];
      unfold s1, fail; destruct (sg_firstErr (sf_seg f)) eqn:E; try done. cbn. by rewrite E.
  - unfold fileStep in H. cbn [segStep] in H. injection H as <-. exists done. by apply file_same.
  - unfold fileStep in H. cbn [segStep] in H. injection H as <-. exists done. by apply file_same.
Qed.

Lemma file_run_good (f f' : segFile) (events : list segEvent) :
  file_good f -> fileRun fallback attempt body f events = Some f' -> file_good f'.
Proof.
  revert f. induction events as [|ev events IH]; intros f Hg H; cbn in H; [by simplify_eq|].
  destruct (fileStep fallback attempt body f ev) as [f1|] eqn:E; [|done]. eapply IH; [|done]. by eapply file_step_good.
Qed.

Lemma initial_file_good (s : segState) (content : bytes) :
  fileSize content = total -> sg_tasks s = initialTasks chunks -> sg_active s = [] -> file_good (mkSegFile s content ∅).
Proof.
  intros Hl Et Ea. exists []. assert (indexes s [] = seqZ 0 (Z.of_nat (length chunks))) as Ei.
  { unfold indexes. rewrite Et, Ea. cbn. rewrite app_nil_r. exact (initial_tasks_index chunks chunks 0). }
  constructor; cbn [sf_seg sf_content sf_written]; try done.
  - rewrite Ei. apply NoDup_seqZ.
  - intros _ i Hi. rewrite Ei. apply elem_of_seqZ. lia.
  - rewrite Et. apply Forall_forall. intros t Ht. unfold initialTasks in Ht. apply list_elem_of_lookup in Ht as [i Ht].
    rewrite list_lookup_imap in Ht. destruct (chunks !! i) as [ch|] eqn:E; [|done]. injection Ht as <-.
    unfold task_ok. cbn. rewrite Nat2Z.id. split; [split; [lia|done]|done].
  - by rewrite Ea.
Qed.

(** What a successful end leaves in the file. *)
Lemma assembled (f : segFile) :
  file_good f -> finished (sf_seg f) = true -> sg_firstErr (sf_seg f) = None ->
  fileSize (sf_content f) = total
  /\ forall i c, chunks !! i = Some c -> exists t, tk_r t = c /\ succeeded_in (sf_content f) t.
Proof.
  intros [done [Hl Hnd Hall Htk Hac Hdn]] Hfin He. split; [done|]. intros i c Hc.
  assert (sg_active (sf_seg f) = [] /\ sg_tasks (sf_seg f) = []) as [Ea Et].
  { unfold finished in Hfin. rewrite He in Hfin. destruct (sg_active (sf_seg f)); [|done]. by destruct (sg_tasks (sf_seg f)). }
  apply lookup_lt_Some in Hc as Hlt. specialize (Hall He (Z.of_nat i) ltac:(lia)). unfold indexes in Hall. rewrite Ea, Et in Hall.
  cbn in Hall. apply list_elem_of_fmap in Hall as (t & Ei & Ht). exists t.
  pose proof (proj1 (Forall_forall _ _) Hdn t Ht) as [[_ Hr] Hs]. split; [|done]. rewrite <- Ei, Nat2Z.id in Hr. congruence.
Qed.
End assembly.

(** ** Lemmas: the workers of the program *)

Lemma range_worker_writes {run : RunLib} {http : HTTPLib} (meta : remoteMeta) (io : segIO) (t : segmentedRangeTask) (opts : Options) :
  0 <= ch_start (tk_r t) <= ch_end (tk_r t) -> ch_end (tk_r t) < max_int64 ->
  attempt_writes (rangeBody io) t (rangeWorker meta io t opts).1 (rangeWorker meta io t opts).2.
Proof.
  intros Hr Hm. unfold rangeWorker, downloadRange. cbn [ri_newRequest ri_do ri_open ri_seek ri_close ri_steps rangeIOof].
  assert (forall err, attempt_writes (rangeBody io) t [] (Err err)) as Hfail.
  { intros err. unfold attempt_writes, rangeSize, fileSize. change (sumZ []) with 0. split_and!; [done|lia|lia|done]. }
  destruct (let! _req := NewRequest "GET" (m_FinalURI meta) in Ok tt) as [[]|err]; [|apply Hfail].
  destruct (let! req := _ in rv_do _ _) as [resp|err]; [|apply Hfail]. destruct (negb _); [apply Hfail|].
  destruct (validateExactRangeResponse _ _ _ _) as [cr|err]; [|apply Hfail].
  destruct (rv_open _) as [[]|err]; [|apply Hfail]. destruct (rv_seek _) as [[]|err]; [|apply Hfail].
  unfold addInt64. rewrite !wrap64_id by (rewrite ?wrap64_id; unfold in_int64, min_int64, max_int64 in *; lia).
  fold (rangeSize (tk_r t)). set (steps := map stepOf _). set (lowest := optionBytes _ _ _).
  destruct (copyExact_ok lowest (rangeSize (tk_r t)) steps) as [(Hf & Hc & Hle) Hok]; [unfold rangeSize; lia|].
  assert (sumZ (cp_flushes (copyExactWithProgressCount lowest steps (rangeSize (tk_r t)))) <= fileSize (rangeBody io t)) as Hb.
  { rewrite <- Hc. unfold copyExactWithProgressCount.
    pose proof (copyLoop_reads lowest steps (Some (rangeSize (tk_r t))) 0 0 []) as H.
    destruct H as (_ & _ & H); [done|lia|done|lia|unfold rangeSize; lia|]. unfold steps in H. rewrite reads_of_body in H.
    fold (rangeBody io t) in H. set (c := copyLoop _ _ _ _ _ _) in *.
    destruct (cp_result c); [destruct (negb _)|]; cbn [cp_count]; lia. }
  destruct (copyExactWithProgressCount _ _ _) as [n fl res]. cbn [cp_flushes cp_count cp_result] in *.
  destruct res as [[]|err]; unfold attempt_writes; cbn [fst snd]; rewrite <- ?Hc in *; split_and!; try done; try lia.
  intros _. by apply Hok.
Qed.

(** Without its writes a run with the file is a run of the loop, and the other way round. *)
Lemma file_step_loop fallback attempt body (f : segFile) (ev : segEvent) :
  sf_seg <$> fileStep fallback attempt body f ev = segStep fallback attempt (sf_seg f) ev.
Proof.
  unfold fileStep. destruct (segStep fallback attempt (sf_seg f) ev); [|done]. cbn. f_equal.
  destruct ev; try done; destruct (sg_active (sf_seg f) !! k) as [[? ? ? [|? ?] ?]|]; done.
Qed.

Lemma file_run_loop fallback attempt body (f : segFile) (events : list segEvent) :
  sf_seg <$> fileRun fallback attempt body f events = segRun fallback attempt (sf_seg f) events.
Proof.
  revert f. induction events as [|ev events IH]; intros f; [done|]. cbn [fileRun segRun].
  rewrite <- (file_step_loop fallback attempt body f ev). destruct (fileStep _ _ _ f ev) as [f'|]; [apply IH|done].
Qed.

Lemma file_run_some fallback attempt body (f f' : segFile) (events : list segEvent) :
  fileRun fallback attempt body f events = Some f' -> segRun fallback attempt (sf_seg f) events = Some (sf_seg f').
Proof. intros H. by rewrite <- (file_run_loop fallback attempt body), H. Qed.

Lemma chunks_ordered (total chunkSize : Z) (i j : nat) (c c' : chunkRange) :
  0 < total <= max_int64 -> makeChunks total chunkSize !! i = Some c -> makeChunks total chunkSize !! j = Some c' ->
  i <> j -> ch_end c < ch_start c' \/ ch_end c' < ch_start c.
Proof.
  intros Ht Hi Hj Hne. destruct (makeChunks_spec total chunkSize Ht) as (Hs & _ & H).
  apply H in Hi as (H1 & H2 & H3). apply H in Hj as (H4 & H5 & H6). destruct (decide (i < j)%nat); [left|right]; nia.
Qed.

(** The bytes at an offset of the file lie in one of its ranges. *)
Lemma chunk_of (total chunkSize : Z) (p : nat) :
  0 < total <= max_int64 -> Z.of_nat p < total ->
  exists i c, makeChunks total chunkSize !! i = Some c /\ ch_start c <= Z.of_nat p <= ch_end c.
Proof.
  intros Ht Hp. destruct (makeChunks_spec total chunkSize Ht) as (Hs & Hl & H).
  pose proof (ceilDiv_spec total (effectiveChunkSize total chunkSize) ltac:(lia) Hs) as Hc. rewrite <- Hl in Hc.
  set (size := effectiveChunkSize total chunkSize) in *. set (i := Z.to_nat (Z.of_nat p / size)).
  pose proof (Z.div_mod (Z.of_nat p) size ltac:(lia)). pose proof (Z.mod_pos_bound (Z.of_nat p) size ltac:(lia)).
  assert (0 <= Z.of_nat p / size) by (apply Z.div_pos; lia).
  destruct (lookup_lt_is_Some_2 (makeChunks total chunkSize) i) as [c Hi]; [unfold i; nia|].
  exists i, c. split; [done|]. apply H in Hi as (K1 & K2 & K3). unfold i in *. rewrite Z2Nat.id in K1 by done. nia.
Qed.

(** What a finished segmented loop leaves in its file. *)
Lemma segmented_result {run : RunLib} {http : HTTPLib} (meta : remoteMeta) (io : segIO) (chunkSize : Z)
    (fallback global : Options) (now : Z) (d : Download) (content : bytes) (events : list segEvent) (f : segFile) :
  let chunks := makeChunks (m_Length meta) chunkSize in
  let attempt := rangeWorker meta io in
  0 < m_Length meta <= max_int64 -> fileSize content = m_Length meta ->
  fileRun fallback attempt (rangeBody io) (mkSegFile (segStart fallback attempt meta chunks global now d) content ∅) events = Some f ->
  finished (sf_seg f) = true -> (segReturn (sf_seg f)).1 = Ok tt ->
  fileSize (sf_content f) = m_Length meta
  /\ forall i c, chunks !! i = Some c -> exists t, tk_r t = c /\ succeeded_in attempt (rangeBody io) (sf_content f) t.
Proof.
  cbv zeta. intros Ht Hl Hrun Hfin Hr.
  apply (assembled (rangeWorker meta io) (rangeBody io) (m_Length meta) (makeChunks (m_Length meta) chunkSize)); [|done|].
  2:{ unfold segReturn in Hr. by destruct (sg_firstErr (sf_seg f)). }
  eapply (file_run_good fallback (rangeWorker meta io) (rangeBody io) (m_Length meta)); [..|exact Hrun].
  - intros i c Hi. destruct (makeChunks_spec (m_Length meta) chunkSize Ht) as (Hs & _ & H).
    apply H in Hi as (K1 & K2 & K3). lia.
  - intros i j c c' Hi Hj Hne. by eapply chunks_ordered.
  - intros t opts [_ Hc]. destruct (makeChunks_bounds _ _ _ _ Ht Hc). by apply range_worker_writes.
  - unfold segStart. set (s0 := mkSeg _ _ _ _ _ _ _ _).
    apply (started_good fallback (rangeWorker meta io) (rangeBody io) (m_Length meta) (makeChunks (m_Length meta) chunkSize)
             ltac:(intros t opts [_ Hc]; destruct (makeChunks_bounds _ _ _ _ Ht Hc); by apply range_worker_writes)
             (mkSegFile s0 content ∅)).
    by apply initial_file_good.
Qed.

(** Files that agree on every range are equal. *)
Lemma slices_determine (total chunkSize : Z) (content content' : bytes) :
  0 < total <= max_int64 -> fileSize content = total -> fileSize content' = total ->
  (forall i c, makeChunks total chunkSize !! i = Some c ->
     slice (ch_start c) (rangeSize c) content = slice (ch_start c) (rangeSize c) content') ->
  content = content'.
Proof.
  intros Ht H1 H2 H. unfold fileSize in *. apply list_eq_same_length with (n := length content); [lia|done|].
  intros p x y Hp Hx Hy. destruct (chunk_of total chunkSize p Ht ltac:(lia)) as (i & c & Hi & Hc).
  pose proof (makeChunks_bounds _ _ _ _ Ht Hi) as [Hb _]. specialize (H i c Hi). unfold slice in H.
  assert (forall l : bytes, take (Z.to_nat (rangeSize c)) (drop (Z.to_nat (ch_start c)) l) !! (p - Z.to_nat (ch_start c))%nat = l !! p) as Hl.
  { intros l. rewrite lookup_take_lt by (unfold rangeSize; lia). rewrite lookup_drop. f_equal. lia. }
  pose proof (Hl content) as E1. pose proof (Hl content') as E2. rewrite H, E2 in E1. congruence.
Qed.

(** ** The file of a segmented download *)

(** C20: however the workers of a segmented download interleave, fail and are retried, the
    writes leave the loop alone, and when the download succeeds the file has exactly the
    announced length and every range of it is the body of one attempt at that range that
    the program accepted.  If those bodies are what a file has at their offsets, the
    output is that file. *)
Theorem segmented_file_assembled {run : RunLib} {http : HTTPLib} (meta : remoteMeta) (io : segIO) (chunkSize : Z)
    (fallback global : Options) (now : Z) (d : Download) (content : bytes) (events : list segEvent) (f : segFile) :
  let chunks := makeChunks (m_Length meta) chunkSize in
  let attempt := rangeWorker meta io in
  let start := segStart fallback attempt meta chunks global now d in
  let accepted t := exists opts, (attempt t opts).2 = Ok tt in
  0 < m_Length meta <= max_int64 -> fileSize content = m_Length meta ->
  fileRun fallback attempt (rangeBody io) (mkSegFile start content ∅) events = Some f ->
  segRun fallback attempt start events = Some (sf_seg f)
  /\ (finished (sf_seg f) = true -> (segReturn (sf_seg f)).1 = Ok tt ->
       fileSize (sf_content f) = m_Length meta
       /\ (forall i c, chunks !! i = Some c -> exists t, tk_r t = c /\ accepted t
             /\ slice (ch_start c) (rangeSize c) (sf_content f) = take (Z.to_nat (rangeSize c)) (rangeBody io t))
       /\ (forall remote, fileSize remote = m_Length meta ->
             (forall i t, chunks !! i = Some (tk_r t) -> accepted t ->
                take (Z.to_nat (rangeSize (tk_r t))) (rangeBody io t) = slice (ch_start (tk_r t)) (rangeSize (tk_r t)) remote) ->
             sf_content f = remote)).
Proof.
  cbv zeta. intros Ht Hl Hrun. split.
  { by apply file_run_some in Hrun. }
  intros Hfin Hr. destruct (segmented_result meta io chunkSize fallback global now d content events f Ht Hl Hrun Hfin Hr) as [H1 H2].
  assert (forall i c, makeChunks (m_Length meta) chunkSize !! i = Some c -> exists t, tk_r t = c
    /\ (exists opts, (rangeWorker meta io t opts).2 = Ok tt)
    /\ slice (ch_start c) (rangeSize c) (sf_content f) = take (Z.to_nat (rangeSize c)) (rangeBody io t)) as H3.
  { intros i c Hi. destruct (H2 i c Hi) as (t & <- & Ha & _ & Hh). exists t. split_and!; [done|done|by apply holds_slice]. }
  split_and!; [done|exact H3|]. intros remote Hrl Hremote.
  eapply (slices_determine (m_Length meta) chunkSize); [done..|]. intros i c Hi. destruct (H3 i c Hi) as (t & <- & Ha & ->).
  by eapply Hremote.
Qed.

(** A server with a file of a hundred bytes; the first body of the second range is cut
    after ten. *)
Definition demoHTTP : HTTPLib := {|
  ParseTime := ParseInt; FormatTime := FormatInt; DispositionFilename := fun _ => None; ModTime := fun _ => 0;
  Digest := fun _ s => s; ReadFile := fun _ => Err ENotExist
|}.
Definition demoRun : RunLib := {| NewRequest := fun _ url => Ok (mkRequest ∅ "" None url); NewDirSize := 4096 |}.
Definition demoRemote : bytes := concat (replicate 10 (String.list_ascii_of_string "0123456789")).
Definition demoRange (t : segmentedRangeTask) : rangeEnv :=
  let r := tk_r t in
  let body := slice (ch_start r) (rangeSize r) demoRemote in
  mkRangeEnv (fun _ => Ok (mkResponse
      (hSet "Content-Range" (printContentRange (mkCR (ch_start r) (ch_end r) 100 true false)) ∅) 206 "206 Partial Content" (rangeSize r) None))
    (Ok tt) (Ok tt) (Ok tt)
    (if (tk_index t =? 1) && (tk_attempts t =? 1) then [mkBody (take 10 body) None (Some EUnexpectedEOF) None 100 None 1]
     else [mkBody body None (Some EEOF) None 100 None 1]).
Definition demoSeg : segIO :=
  mkSegIO (Ok tt) (Ok tt) (Ok tt) 7 demoRange
    [SgFlush 0; SgResult 0 1; SgFlush 1; SgFlush 0; SgResult 0 2; SgResult 0 3; SgTick 4; SgFlush 1; SgFlush 0; SgResult 0 5; SgResult 0 6]
    noOptions [(8, 100)].
Definition demoFileStart : segFile :=
  mkSegFile (segStart demoSegOptions (@rangeWorker demoHTTP demoRun demoMeta demoSeg) demoMeta
    (makeChunks (m_Length demoMeta) 30) noOptions 0 demoSegDownload) (replicate 100 zero) ∅.

Definition demo_assembled (f : segFile) : bool :=
  finished (sf_seg f) && is_ok (segReturn (sf_seg f)).1 && bool_decide (sf_content f = demoRemote).

Lemma segmented_file_assembled_witness :
  exists f, fileRun demoSegOptions (@rangeWorker demoHTTP demoRun demoMeta demoSeg) (rangeBody demoSeg) demoFileStart
              (sg_events demoSeg) = Some f
    /\ fileSize (sf_content f) = 100 /\ sf_content f = demoRemote.
Proof.
  assert (0 < m_Length demoMeta <= max_int64 /\ fileSize (replicate 100 zero) = m_Length demoMeta) as [Hlen Hsize].
  { cbn [m_Length demoMeta]. unfold max_int64, fileSize. rewrite length_replicate. lia. }
  assert (match fileRun demoSegOptions (@rangeWorker demoHTTP demoRun demoMeta demoSeg) (rangeBody demoSeg) demoFileStart
              (sg_events demoSeg) with Some f => demo_assembled f | None => false end = true) as H by by vm_compute.
  destruct (fileRun _ _ _ demoFileStart _) as [f|] eqn:E; [|discriminate H]. exists f. split; [reflexivity|].
  unfold demo_assembled in H. apply andb_true_iff in H as [H H3]. apply andb_true_iff in H as [H1 H2].
  apply bool_decide_eq_true in H3.
  destruct (@segmented_file_assembled demoRun demoHTTP demoMeta demoSeg 30 demoSegOptions noOptions 0 demoSegDownload (replicate 100 zero)
    (sg_events demoSeg) f Hlen Hsize E) as [_ T].
  destruct T as (T & _); [exact H1| |split; [exact T|exact H3]].
  destruct (segReturn (sf_seg f)) as [[[]|err] d]; [reflexivity|discriminate H2].
Defined.
