(* ===== verification/RunnerSpec.v ===== *)
(** * Properties of a run ([downloader.go])

    The retry loop ends; a run changes no file but the one it has chosen and reserved, and
    no file that was there before unless it may; a successful run leaves a file of the
    reported length, with the digest that was asked for and the server's time. *)
From S2P Require Import Prelude GoStrings GoPath GoURL Pieces Options Http Reservations Filename Torrent State Engine Progress Downloader DownloaderSpec Runner AssemblySpec.

(** ** Vocabulary *)

(** A relation every outcome of [m] respects. *)
Definition respects (R : RunState -> RunState -> Prop) {A} (m : M A) : Prop :=
  forall s s' r, m s = Some (s', r) -> R s s'.

(** The contents and time of a regular file. *)
Definition fileAt (disk : Disk) (path : string) : option (bytes * Z) :=
  match disk !! path with Some (FileNode content t) => Some (content, t) | _ => None end.

Definition contentAt (disk : Disk) (path : string) : option bytes := fst <$> fileAt disk path.

(** A step that touches no file but [P], no reservation, and gives the download no other
    path. *)
Record stays (P : string) (s s' : RunState) : Prop := {
  st_files : forall p, p <> P -> fileAt (r_disk s') p = fileAt (r_disk s) p;
  st_paths : r_paths s' = r_paths s;
  st_gid : d_gid (r_d s') = d_gid (r_d s);
  st_path : outputPath (r_d s') = outputPath (r_d s) \/ outputPath (r_d s') = P
}.

#[export] Instance stays_preorder (P : string) : PreOrder (stays P).
Proof.
  split.
  - intros s. by split; auto.
  - intros s1 s2 s3 [A1 A2 A3 A4] [B1 B2 B3 B4]. split; [|congruence|congruence|].
    + intros p Hp. by rewrite B1, A1.
    + destruct B4 as [->|]; auto.
Qed.

(** ** Lemmas: the monad *)

Lemma bind_inv {A B} (m : M A) (k : A -> M B) (s s' : RunState) (r : result B) :
  bind m k s = Some (s', r) ->
  (exists a s1, m s = Some (s1, Ok a) /\ k a s1 = Some (s', r)) \/ (exists err, m s = Some (s', Err err) /\ r = Err err).
Proof.
  unfold bind. destruct (m s) as [[s1 [a|err]]|]; [|intros [= <- <-]; right; by exists err|done].
  intros H. left. by exists a, s1.
Qed.

Lemma modify_inv (f : RunState -> RunState) (s s' : RunState) (r : result unit) : modify f s = Some (s', r) -> s' = f s.
Proof. by intros [= <- _]. Qed.

Section respects.
Context (R : RunState -> RunState -> Prop) `{!PreOrder R}.

Lemma respects_ret {A} (a : A) : respects R (ret a).
Proof. by intros s s' r [= <- _]. Qed.
Lemma respects_throw {A} (err : error) : respects R (throw (A := A) err).
Proof. by intros s s' r [= <- _]. Qed.
Lemma respects_lift {A} (x : result A) : respects R (lift x).
Proof. by intros s s' r [= <- _]. Qed.
Lemma respects_gets {A} (f : RunState -> A) : respects R (gets f).
Proof. by intros s s' r [= <- _]. Qed.
Lemma respects_modify (f : RunState -> RunState) : (forall s, R s (f s)) -> respects R (modify f).
Proof. by intros H s s' r [= <- _]. Qed.
Lemma respects_bind {A B} (m : M A) (k : A -> M B) :
  respects R m -> (forall a, respects R (k a)) -> respects R (bind m k).
Proof.
  intros Hm Hk s s' r H. apply bind_inv in H as [(a & s1 & H1 & H2)|(err & H1 & _)]; [|by eapply Hm].
  etrans; [by eapply Hm|by eapply Hk].
Qed.
Lemma respects_always {A} (m : M A) (k : result A -> M A) :
  respects R m -> (forall r, respects R (k r)) -> respects R (thenAlways m k).
Proof.
  intros Hm Hk s s' r. unfold thenAlways. destruct (m s) as [[s1 r1]|] eqn:E; [|done]. intros H.
  etrans; [by eapply Hm|by eapply Hk].
Qed.
End respects.

Create HintDb respects.
#[export] Hint Resolve respects_ret respects_throw respects_lift respects_gets : respects.

(** One step at a time through a program of the monad. *)
Ltac respect :=
  repeat match goal with
  | |- respects _ (bind _ _) => apply respects_bind; [apply _| |intros ?]
  | |- respects _ (thenAlways _ _) => apply respects_always; [apply _| |intros ?]
  | |- respects _ (match ?x with _ => _ end) => destruct x
  | |- respects _ (if ?x then _ else _) => destruct x
  | |- respects _ (let '(_, _) := ?x in _) => destruct x
  | |- respects _ _ => solve [eauto with respects typeclass_instances]
  end.

(** ** Lemmas: the steps on one file *)

Section one_file.
Context {fs : FileSystem} {http : HTTPLib} {run : RunLib} (P : string).

Lemma file_insert (disk : Disk) (n : node) (p : string) : p <> P -> fileAt (<[P := n]> disk) p = fileAt disk p.
Proof. intros Hp. unfold fileAt. by rewrite lookup_insert_ne. Qed.

Lemma stays_disk (s : RunState) (n : node) : stays P s (s <| r_disk ::= <[P := n]> |>).
Proof. split; try done; [|by left]. intros p Hp. cbn. by apply file_insert. Qed.

Lemma stays_onFile (now : Z) (f : bytes -> bytes) : respects (stays P) (onFile P now f).
Proof. apply respects_modify. intros s. destruct (r_disk s !! P) as [[content t|n]|]; [apply stays_disk|done|done]. Qed.

Lemma stays_open (mode : openMode) (outcome : result unit) (now : Z) : respects (stays P) (openFile mode P outcome now).
Proof.
  intros s s' r H. unfold openFile in H. cbv zeta in H.
  repeat case_match; simplify_eq; try done; apply stays_disk.
Qed.

Lemma stays_remove (outcome : result unit) : respects (stays P) (removeFile P outcome).
Proof.
  apply respects_modify. intros s. destruct outcome; [|done]. split; try done; [|by left].
  intros p Hp. cbn. unfold fileAt. by rewrite lookup_delete_ne.
Qed.

Lemma stays_publish (f : Download -> Download) :
  (forall d, d_gid (f d) = d_gid d /\ (d_path (f d) = d_path d \/ d_path (f d) = P)) -> respects (stays P) (publish f).
Proof. intros Hf. apply respects_modify. intros s. destruct (Hf (r_d s)) as [H1 H2]. by split. Qed.

Lemma keep_publish (f : Download -> Download) :
  (forall d, d_gid (f d) = d_gid d /\ d_path (f d) = d_path d) -> respects (stays P) (publish f).
Proof. intros Hf. apply stays_publish. intros d. destruct (Hf d). auto. Qed.

Lemma publish_metadata (meta : remoteMeta) : respects (stays P) (publish (setMetadata meta P)).
Proof. apply stays_publish. intros d. unfold setMetadata. by case_match; cbn; split; auto. Qed.
End one_file.

(** ** Lemmas: progress keeps the name and the path of a download *)

Definition keeps (d d' : Download) : Prop := d_gid d' = d_gid d /\ d_path d' = d_path d.

#[export] Instance keeps_preorder : PreOrder keeps.
Proof. split; [by split|]. intros d1 d2 d3 [A1 A2] [B1 B2]. split; congruence. Qed.

Lemma keeps_reports :
  (forall n d, keeps d (setConnections n d)) /\ (forall n d, keeps d (setDownloadBPS n d))
  /\ (forall n d, keeps d (addCompleted n d)) /\ (forall n d, keeps d (rollbackCompleted n d))
  /\ (forall i d, keeps d (markPieceComplete i d)) /\ (forall t c d, keeps d (resetProgress t c d))
  /\ (forall t c d, keeps d (resetSingleProgress t c d)) /\ (forall u d, keeps d (setURIUsed u d)).
Proof.
  unfold addCompleted, rollbackCompleted, markPieceComplete, resetProgress, resetSingleProgress, recountPieces.
  split_and!; intros; repeat case_match; done.
Qed.

Lemma keeps_fold {X} (f : Download -> X -> Download) (l : list X) (d : Download) :
  (forall d x, keeps d (f d x)) -> keeps d (foldl f d l).
Proof. intros Hf. revert d. induction l as [|x l IH]; intros d; cbn; [done|]. etrans; [apply Hf|apply IH]. Qed.

Lemma keeps_speeds (started : Z) (samples : list (Z * Z)) (d : Download) : keeps d (publishSpeeds started samples d).
Proof. apply keeps_fold. intros d' n. apply keeps_reports. Qed.

(** A relation the reports of a segmented download respect, its loop respects. *)
Section seg_keeps.
Context (fallback : Options) (attempt : segmentedRangeTask -> Options -> list Z * result unit).
Context (K : Download -> Download -> Prop) `{!PreOrder K}.
Context (Hconn : forall n d, K d (setConnections n d)) (Hadd : forall n d, K d (addCompleted n d))
  (Hroll : forall n d, K d (rollbackCompleted n d)) (Hmark : forall i d, K d (markPieceComplete i d))
  (Hopts : forall opts d, K d (d <| d_options := opts |>)).

Lemma start_loop_keeps (fuel : nat) (now : Z) (s : segState) : K (sg_d s) (sg_d (startLoop attempt fuel now s)).
Proof.
  revert s. induction fuel as [|fuel IH]; intros s; cbn [startLoop]; [done|].
  destruct (_ <? _); [|done]. destruct (readySegmentedTaskIndex _ now) as [idx|]; [|done].
  destruct (sg_tasks s !! idx) as [task|]; [|done]. etrans; [|apply IH].
  unfold startTask. cbv zeta. destruct (launchState _). destruct (attempt _ _). apply (Hconn _ (sg_d s)).
Qed.

Lemma start_ready_keeps (now : Z) (s : segState) : K (sg_d s) (sg_d (startReady fallback attempt now s)).
Proof. unfold startReady. destruct (sg_firstErr s); [done|]. etrans; [|apply start_loop_keeps]. done. Qed.

Lemma fail_keeps (err : error) (s : segState) : sg_d (fail err s) = sg_d s.
Proof. unfold fail. by destruct (sg_firstErr s). Qed.

Lemma handle_result_keeps (k : nat) (w : worker) (now : Z) (s : segState) :
  K (sg_d s) (sg_d (handleResult fallback k w now s)).
Proof.
  unfold handleResult. cbv zeta.
  set (s1 := _ <| sg_d ::= setConnections _ |>). assert (K (sg_d s) (sg_d s1)) as H1 by apply (Hconn _ (sg_d s)). clearbody s1.
  destruct (wk_result w) as [[]|err]; [etrans; [exact H1|]; apply (Hmark _ (sg_d s1))|].
  set (s2 := match errors_find _ err with Some _ => _ | None => _ end).
  assert (K (sg_d s) (sg_d s2)) as H2.
  { unfold s2. destruct (errors_find _ err); [|done]. etrans; [exact H1|]. apply (Hroll _ (sg_d s1)). }
  clearbody s2. repeat case_match; rewrite ?fail_keeps; exact H2.
Qed.

Lemma seg_step_keeps (s s' : segState) (ev : segEvent) : segStep fallback attempt s ev = Some s' -> K (sg_d s) (sg_d s').
Proof.
  destruct ev as [k|k now|now|err|now|opts|global]; cbn [segStep]; intros H.
  - repeat case_match; simplify_eq. apply (Hadd _ (sg_d s)).
  - destruct (finished s); [done|]. destruct (sg_active s !! k) as [w|]; [|done]. destruct (wk_flushes w); [|done]. injection H as <-.
    etrans; [apply handle_result_keeps|apply start_ready_keeps].
  - destruct (finished s); [done|]. injection H as <-. apply start_ready_keeps.
  - destruct (sg_ctxErr s); [done|]. by injection H as <-.
  - destruct (_ || _); [done|]. destruct (sg_ctxErr s) as [err|]; [|done]. injection H as <-.
    etrans; [|apply start_ready_keeps]. change (sg_d (fail err s <| sg_ctxSeen := true |>)) with (sg_d (fail err s)).
    by rewrite fail_keeps.
  - injection H as <-. apply (Hopts opts (sg_d s)).
  - by injection H as <-.
Qed.

Lemma seg_run_keeps (s s' : segState) (events : list segEvent) :
  segRun fallback attempt s events = Some s' -> K (sg_d s) (sg_d s').
Proof.
  revert s. induction events as [|ev events IH]; intros s H; cbn in H; [by simplify_eq|].
  destruct (segStep fallback attempt s ev) as [s1|] eqn:E; [|done]. etrans; [by eapply seg_step_keeps|by apply IH].
Qed.

(** From the first wait to the return. *)
Lemma seg_all_keeps (meta : remoteMeta) (chunks : list chunkRange) (global : Options) (now : Z) (d : Download)
    (events : list segEvent) (s : segState) :
  segRun fallback attempt (segStart fallback attempt meta chunks global now d) events = Some s ->
  K (resetProgress (m_Length meta) chunks d) (segReturn s).2.
Proof.
  intros H%seg_run_keeps. unfold segReturn. cbn [snd]. etrans; [|apply Hconn]. etrans; [|exact H].
  unfold segStart. etrans; [|apply start_ready_keeps]. done.
Qed.
End seg_keeps.

(** ** Lemmas: transfers touch only their file *)

Section transfers.
Context {fs : FileSystem} {http : HTTPLib} {run : RunLib} (P : string).

Lemma keeps_publish (f : Download -> Download) : (forall d, keeps d (f d)) -> respects (stays P) (publish f).
Proof. intros Hf. apply keep_publish. intros d. apply Hf. Qed.

Hint Resolve stays_onFile stays_open stays_remove publish_metadata : respects.
Hint Extern 1 (respects _ (publish (setConnections _))) => (apply keeps_publish; intros ?; apply keeps_reports) : respects.
Hint Extern 1 (respects _ (publish (resetSingleProgress _ _))) => (apply keeps_publish; intros ?; apply keeps_reports) : respects.
Hint Extern 1 (respects _ (publish (publishSpeeds _ _))) => (apply keeps_publish; intros ?; apply keeps_speeds) : respects.
Hint Extern 1 (respects _ (publish (fun d => foldl _ _ _))) =>
  (apply keeps_publish; intros ?; apply keeps_fold; intros; apply keeps_reports) : respects.

Lemma stays_truncate (size : Z) (outcome : result unit) (now : Z) : respects (stays P) (truncate P size outcome now).
Proof. unfold truncate. respect. Qed.
Hint Resolve stays_truncate : respects.

Lemma stays_transfer io ex body rangeLength metaLength opts : respects (stays P) (transfer io P ex body rangeLength metaLength opts).
Proof. unfold transfer. cbv zeta. respect. Qed.
Hint Resolve stays_transfer : respects.

Lemma stays_receive io ex start rangeLength metaLength opts : respects (stays P) (receive io P ex start rangeLength metaLength opts).
Proof. unfold receive. respect. Qed.
Hint Resolve stays_receive : respects.

Lemma stays_single io meta opts : respects (stays P) (downloadSingle io meta P opts).
Proof. unfold downloadSingle, singleBody. respect. Qed.

Lemma stays_fill io created meta ex start rangeLength opts : respects (stays P) (fillFile io created meta P ex start rangeLength opts).
Proof. unfold fillFile. respect. Qed.

Lemma stays_finish io meta opts : respects (stays P) (finishFile io P meta opts).
Proof.
  assert (respects (stays P) (checksumOk io P opts)) by by intros s s' r [= <- _].
  unfold finishFile, applyRemoteTime. respect.
Qed.

Lemma stays_segmented io meta opts chunks : respects (stays P) (downloadSegmented io meta P opts chunks).
Proof.
  unfold downloadSegmented. respect. intros s s' r H. unfold segLoop in H. cbv zeta in H.
  destruct (fileRun _ _ _ _ _) as [f|] eqn:E; [|done]. destruct (finished (sf_seg f)); [|done].
  apply file_run_some in E as Hr. cbn [sf_seg] in Hr. destruct keeps_reports as (K1 & _ & K3 & K4 & K5 & K6 & _).
  apply (seg_all_keeps opts (rangeWorker meta io) keeps) in Hr; [|done..].
  destruct (segReturn (sf_seg f)) as [r' d] eqn:Ed. injection H as <- <-.
  assert (keeps (r_d s) d) as Hd by (etrans; [apply K6|exact Hr]).
  assert (keeps (r_d s) (publishSpeeds (sg_now io) (sg_samples io) d)) as [H1 H2] by (etrans; [exact Hd|apply keeps_speeds]).
  split; [|done|exact H1|by left]. intros p Hp. cbn. by apply file_insert.
Qed.

Lemma stays_fetch io meta opts segmented : respects (stays P) (fetch io meta P opts segmented).
Proof. pose proof stays_single. pose proof stays_segmented. unfold fetch. respect. Qed.
End transfers.

(** ** Lemmas: choosing a path *)

(** A step that changes no file, keeps every reservation and leaves the download alone. *)
Record quiet (s s' : RunState) : Prop := {
  qu_files : forall p, fileAt (r_disk s') p = fileAt (r_disk s) p;
  qu_mono : pathReservations (r_paths s) ⊆ pathReservations (r_paths s');
  qu_d : r_d s' = r_d s
}.

#[export] Instance quiet_preorder : PreOrder quiet.
Proof.
  split; [by split|]. intros s1 s2 s3 [A1 A2 A3] [B1 B2 B3]. split; [|by etrans|congruence]. intros p. by rewrite B1, A1.
Qed.

Section choosing.
Context {fs : FileSystem} {http : HTTPLib} {run : RunLib}.

(** The path is reserved for the download. *)
Definition owned (s : RunState) (p : string) : Prop :=
  exists key, outputPathReservationKey p = Ok key /\ pathReservations (r_paths s) !! key = Some (d_gid (r_d s)).

Lemma resolve_on_disk (disk : Disk) (hops : nat) (path absolute : string) (stack suffix : list string) :
  @resolveKey (diskFS fs disk) hops path absolute stack suffix = resolveKey hops path absolute stack suffix.
Proof. reflexivity. Qed.

Lemma key_on_disk (disk : Disk) (p : string) : @outputPathReservationKey (diskFS fs disk) p = outputPathReservationKey p.
Proof.
  unfold outputPathReservationKey. change (@absPath (diskFS fs disk) p) with (absPath p).
  destruct (absPath p) as [absolute|err]; cbn [result_bind]; [apply resolve_on_disk|reflexivity].
Qed.

Lemma stat_disk (disk : Disk) (p : string) :
  @Stat (diskFS fs disk) p
  = match disk !! p with
    | Some (FileNode content _) => Ok (false, fileSize content)
    | Some (DirNode size) => Ok (true, size)
    | None => Err (match Stat p with Err err => err | Ok _ => ENotExist end)
    end.
Proof. reflexivity. Qed.

Lemma stat_absent (disk : Disk) (p : string) (err : error) : @Stat (diskFS fs disk) p = Err err -> fileAt disk p = None.
Proof. unfold fileAt. cbn. by destruct (disk !! p) as [[content t|n]|]. Qed.

Lemma record_mono (key gid : string) (p : Paths) :
  pathReservations p !! key = None \/ pathReservations p !! key = Some gid ->
  pathReservations p ⊆ pathReservations (recordPathReservationLocked key gid p)
  /\ pathReservations (recordPathReservationLocked key gid p) !! key = Some gid.
Proof.
  intros H. cbn. split; [|by rewrite lookup_insert_eq]. apply map_subseteq_spec. intros i x Hi.
  destruct (decide (i = key)) as [->|Hne]; [|by rewrite lookup_insert_ne]. rewrite lookup_insert_eq. destruct H; congruence.
Qed.

Lemma reserve_renamed_spec (disk : Disk) (path gid p : string) (n : nat) (i : Z) (ps ps' : Paths) :
  @reserveRenamed (diskFS fs disk) path gid n i ps = Ok (p, ps') ->
  fileAt disk p = None /\ pathReservations ps ⊆ pathReservations ps'
  /\ exists key, outputPathReservationKey p = Ok key /\ pathReservations ps' !! key = Some gid.
Proof.
  revert i. induction n as [|n IH]; intros i; cbn [reserveRenamed]; [done|]. rewrite key_on_disk. intros H.
  apply result_bind_ok in H as (key & Hk & H). destruct (pathReservations ps !! key) eqn:Ek; [by apply IH in H|].
  destruct (@Stat (diskFS fs disk) (renamed path i)) as [|err] eqn:Es; [by apply IH in H|].
  destruct (isNotExist err); [|done]. injection H as <- <-. destruct (record_mono key gid ps (or_introl Ek)) as [H1 H2].
  split_and!; [by eapply stat_absent|done|]. by exists key.
Qed.

Lemma reserve_output_spec (path : string) (auto : bool) (s s' : RunState) (r : result string) :
  reserveOutput path auto s = Some (s', r) ->
  quiet s s' /\ (forall p, r = Ok p -> owned s' p /\ r_disk s' = r_disk s
                  /\ (p = path \/ (auto = true /\ fileAt (r_disk s) p = None))).
Proof.
  assert (forall err, Some (s, Err err) = Some (s', r) ->
    quiet s s' /\ (forall p, r = Ok p -> owned s' p /\ r_disk s' = r_disk s
                  /\ (p = path \/ (auto = true /\ fileAt (r_disk s) p = None)))) as Hfail.
  { intros err E. injection E as <- <-. split; [reflexivity|discriminate]. }
  unfold reserveOutput, reserveOutputPath. rewrite key_on_disk. intros H.
  destruct (outputPathReservationKey path) as [key|err] eqn:Hk; cbn [result_bind] in H; [|exact (Hfail _ H)].
  assert (pathReservations (r_paths s) !! key = None \/ pathReservations (r_paths s) !! key = Some (d_gid (r_d s)) ->
    Some (s <| r_paths := recordPathReservationLocked key (d_gid (r_d s)) (r_paths s) |>, Ok path) = Some (s', r) ->
    quiet s s' /\ (forall p, r = Ok p -> owned s' p /\ r_disk s' = r_disk s
                  /\ (p = path \/ (auto = true /\ fileAt (r_disk s) p = None)))) as Hrec.
  { intros Hkey E. injection E as <- <-. destruct (record_mono key (d_gid (r_d s)) (r_paths s) Hkey) as [H1 H2].
    split; [split; [reflexivity|exact H1|reflexivity]|]. intros p [= <-]. split_and!; [|reflexivity|by left]. exists key. split; [exact Hk|exact H2]. }
  destruct (pathReservations (r_paths s) !! key) as [owner|] eqn:Ek; [|apply Hrec; auto].
  destruct (String.eqb_spec owner (d_gid (r_d s))) as [->|]; [apply Hrec; auto|].
  destruct auto; cbn [negb] in H; [|exact (Hfail _ H)].
  destruct (reserveRenamed _ _ _ _ _) as [[p ps]|err] eqn:E; [|exact (Hfail _ H)]. injection H as <- <-.
  apply reserve_renamed_spec in E as (H1 & H2 & key' & H3 & H4). split; [split; [reflexivity|exact H2|reflexivity]|]. intros p' [= <-].
  split_and!; [|reflexivity|right; split; [reflexivity|exact H1]]. exists key'. split; [exact H3|exact H4].
Qed.

Lemma mkdir_files (l : list string) (disk : Disk) (p : string) :
  fileAt (foldl (fun disk dir => match disk !! dir with Some _ => disk | None => <[dir := DirNode NewDirSize]> disk end) disk l) p
  = fileAt disk p.
Proof.
  revert disk. induction l as [|b l IH]; intros disk; [done|]. cbn [foldl]. rewrite IH. destruct (disk !! b) eqn:E; [done|].
  unfold fileAt. destruct (decide (p = b)) as [->|]; [by rewrite lookup_insert_eq, E|by rewrite lookup_insert_ne].
Qed.

Lemma quiet_mkdir (dir : string) (outcome : result unit) : respects quiet (ensureDownloadDir dir outcome).
Proof.
  unfold ensureDownloadDir. respect. apply respects_modify. intros s. split; [|done|done]. intros p. apply mkdir_files.
Qed.

Lemma next_absent (disk : Disk) (path p : string) (n : nat) (i : Z) :
  @nextAvailable (diskFS fs disk) path n i = Ok p -> fileAt disk p = None.
Proof.
  revert i. induction n as [|n IH]; intros i; cbn [nextAvailable]; [done|].
  destruct (@Stat (diskFS fs disk) (renamed path i)) as [|err] eqn:E; [by apply IH|].
  destruct (isNotExist err); [|done]. intros [= <-]. by eapply stat_absent.
Qed.

Lemma resolve_existing (disk : Disk) (path p : string) (opts : Options) (reuse : bool) :
  @resolveExistingOutputPath (diskFS fs disk) path opts reuse = Ok p ->
  fileAt disk p = None \/ optionBool opts "allow-overwrite" = true \/ reuse = true.
Proof.
  unfold resolveExistingOutputPath. destruct (@Stat (diskFS fs disk) path) as [[[] size]|err] eqn:E; [done| |].
  - destruct reuse; [auto|]. destruct (optionBool opts "allow-overwrite"); [auto|]. cbn [orb].
    destruct (optionBoolDefault _ _ _); [|done]. intros H%next_absent. by left.
  - destruct (isNotExist err); [|done]. intros [= <-]. left. by eapply stat_absent.
Qed.
End choosing.

(** ** Lemmas: a run keeps the files it may not touch *)

Section safety.
Context {fs : FileSystem} {http : HTTPLib} {run : RunLib} (opts : Options).

(** What a run may write: its own path, a path without a file, and anything when the
    options allow to overwrite or to continue. *)
Definition writable (s : RunState) (p : string) : Prop :=
  p = outputPath (r_d s) \/ fileAt (r_disk s) p = None
  \/ optionBool opts "allow-overwrite" = true \/ optionBool opts "continue" = true.

Record safe (s s' : RunState) : Prop := {
  sf_gid : d_gid (r_d s') = d_gid (r_d s);
  sf_mono : pathReservations (r_paths s) ⊆ pathReservations (r_paths s');
  sf_changed : forall p, fileAt (r_disk s') p <> fileAt (r_disk s) p -> writable s p;
  sf_owned : forall p, contentAt (r_disk s') p <> contentAt (r_disk s) p -> owned s' p
}.

(** The path of the download after a step that may be followed by another attempt. *)
Definition path_ok (s s' : RunState) : Prop :=
  outputPath (r_d s') = outputPath (r_d s) \/ writable s (outputPath (r_d s')).

Lemma quiet_safe (s s' : RunState) : quiet s s' -> safe s s' /\ path_ok s s'.
Proof.
  intros [H1 H2 H3]. split; [split|]; try done; [by rewrite H3| | |by left; rewrite H3].
  - intros p Hp. by rewrite H1 in Hp.
  - intros p Hp. unfold contentAt in Hp. by rewrite H1 in Hp.
Qed.

(** Steps on a path that may be written and is reserved. *)
Lemma stays_safe (P : string) (s s1 s' : RunState) :
  safe s s1 -> path_ok s s1 -> stays P s1 s' -> owned s1 P -> writable s P -> safe s s' /\ path_ok s s'.
Proof.
  intros [Q1 Q2 Q3 Q4] Qp [S1 S2 S3 S4] (key & K1 & K2) Hw. split; [split|].
  - by rewrite S3, Q1.
  - by rewrite S2.
  - intros p Hp. destruct (decide (p = P)) as [->|Hne]; [done|]. rewrite S1 in Hp by done. by apply Q3.
  - intros p Hp. unfold owned. rewrite S2, S3. destruct (decide (p = P)) as [->|Hne]; [by exists key|].
    unfold contentAt in Hp. rewrite S1 in Hp by done. by apply Q4.
  - unfold path_ok in *. destruct S4 as [->| ->]; [done|by right].
Qed.

Lemma settled_safe (P : string) (s s1 s' : RunState) :
  quiet s s1 -> stays P s1 s' -> owned s1 P -> writable s P -> safe s s' /\ path_ok s s'.
Proof. intros [Hs Hp]%quiet_safe. by eapply stays_safe. Qed.

(** The checks at the end change at most the time of the file. *)
Lemma finish_safe (io : uriIO) (P : string) (meta : remoteMeta) (opts' : Options) (s s1 s' : RunState) (r : result unit) :
  safe s s1 -> path_ok s s1 -> writable s P -> finishFile io P meta opts' s1 = Some (s', r) -> safe s s' /\ path_ok s s'.
Proof.
  intros [Q1 Q2 Q3 Q4] Qp Hw H. pose proof (stays_finish P io meta opts' s1 s' r H) as [S1 S2 S3 S4].
  assert (forall p, contentAt (r_disk s') p = contentAt (r_disk s1) p) as Hc.
  { unfold finishFile, checksumOk, applyRemoteTime in H. intros p.
    apply bind_inv in H as [([] & s2 & H1 & H)|(err & H1 & _)]; injection H1 as <- _; [|done].
    destruct (_ || _); [by injection H as <- _|]. destruct (ParseTime _); [|by injection H as <- _].
    apply bind_inv in H as [([] & s3 & H1 & H)|(err & H1 & _)]; injection H1 as <- _; [|done]. injection H as <- _.
    destruct (r_disk s1 !! P) as [[content t'|n]|] eqn:E; [|done|done]. unfold contentAt, fileAt. cbn.
    destruct (decide (p = P)) as [->|Hne]; [by rewrite lookup_insert_eq, E|by rewrite lookup_insert_ne]. }
  split; [split|].
  - by rewrite S3, Q1.
  - by rewrite S2.
  - intros p Hp. destruct (decide (p = P)) as [->|Hne]; [done|]. rewrite S1 in Hp by done. by apply Q3.
  - intros p Hp. unfold owned. rewrite S2, S3. rewrite Hc in Hp. by apply Q4.
  - unfold path_ok in *. destruct S4 as [->| ->]; [done|by right].
Qed.

Lemma destination_spec (io : singleIO) (provisional outOpt : string) (s s' : RunState) (r : result destination) :
  chooseDestination io opts provisional outOpt s = Some (s', r) ->
  match r with
  | Ok dest =>
      de_path dest = provisional
      /\ if de_created dest
         then de_start dest = 0 /\ outOpt <> ""
              /\ exists s1, quiet s s1 /\ stays provisional s1 s' /\ owned s1 provisional /\ fileAt (r_disk s) provisional = None
         else quiet s s' /\ (de_start dest <> 0 -> optionBool opts "continue" = true)
  | Err _ => quiet s s'
  end.
Proof.
  unfold chooseDestination. destruct (canCreateSingleDestinationBeforeGET opts outOpt) eqn:Hcan.
  2:{ destruct (optionBool opts "continue"); intros [= <- <-]; by split_and!. }
  assert (outOpt <> "" /\ optionBool opts "continue" = true) as [Hout Hcont].
  { unfold canCreateSingleDestinationBeforeGET in Hcan. apply andb_true_iff in Hcan as [Hcan _].
    apply andb_true_iff in Hcan as [H1 ->]. split; [|done]. by destruct (String.eqb_spec outOpt ""). }
  intros H. apply bind_inv in H as [([] & s1 & H1 & H)|(err & H1 & ->)]; [|by eapply quiet_mkdir].
  apply quiet_mkdir in H1. apply bind_inv in H as [(path & s2 & H2 & H)|(err & H2 & ->)].
  2:{ apply reserve_output_spec in H2 as [H2 _]. by etrans. }
  apply reserve_output_spec in H2 as [H2 Hp]. destruct (Hp path eq_refl) as (Ho & Ed & [-> |[? _]]); [|done]. clear Hp.
  assert (quiet s s2) as Hq by by etrans. unfold bind at 1, tryOpen in H.
  destruct (openFile Exclusive provisional (si_open io) (si_now io) s2) as [[s3 [[]|err]]|] eqn:Eo; [| |done].
  - injection H as <- <-. split; [done|]. split; [done|]. split; [done|]. exists s2. split_and!; [done| |done|].
    + by eapply stays_open.
    + rewrite <- (qu_files _ _ Hq). unfold openFile in Eo. unfold fileAt. by destruct (r_disk s2 !! provisional).
  - assert (s3 = s2) as -> by (unfold openFile in Eo; repeat case_match; by simplify_eq).
    destruct (isExist err); injection H as <- <-; [|exact Hq]. split; [reflexivity|]. by split.
Qed.

Lemma settle_path_spec (io : singleIO) (outOpt selected outPath : string) (start : Z) (s s' : RunState) (r : result string) :
  selected = outputPath (r_d s) -> (selected <> "" -> outPath = selected) -> (start <> 0 -> optionBool opts "continue" = true) ->
  settlePath io opts outOpt selected outPath start s = Some (s', r) ->
  quiet s s' /\ forall P, r = Ok P -> owned s' P /\ writable s P.
Proof.
  intros Hsel Hout Hstart H. unfold settlePath in H.
  apply bind_inv in H as [(path & s1 & H1 & H)|(err & H1 & ->)].
  2:{ destruct (_ && _) in H1; [|done]. injection H1 as <- _. by split. }
  assert (s1 = s /\ writable s path) as [-> Hw].
  { destruct (String.eqb_spec selected "") as [->|Hne]; cbn [andb] in H1.
    2:{ injection H1 as <- <-. split; [done|]. left. rewrite Hout; done. }
    destruct (Z.eqb_spec start 0) as [->|Hs]; injection H1 as <- H0; [|split; [done|]; by right; right; right; apply Hstart].
    split; [done|]. apply resolve_existing in H0 as [?|[?|Hr]]; [by right; left|by right; right; left|].
    right; right; right. apply andb_true_iff in Hr as [Hr _]. by apply andb_true_iff in Hr as [_ ?]. }
  apply bind_inv in H as [([] & s2 & H2 & H)|(err & H2 & ->)]; [|split; [by eapply quiet_mkdir|done]].
  apply quiet_mkdir in H2. apply reserve_output_spec in H as [H3 Hp]. split; [by etrans|].
  intros P ->. destruct (Hp P eq_refl) as (Ho & _ & [-> |[_ Hn]]); split; try done.
  right. left. by rewrite <- (qu_files _ _ H2).
Qed.

Lemma choose_output_spec (io : uriIO) (meta : remoteMeta) (segmented : bool) (outPath : string) (s s' : RunState) (r : result string) :
  chooseOutput io opts meta segmented outPath s = Some (s', r) ->
  quiet s s' /\ forall P, r = Ok P -> owned s' P /\ writable s P.
Proof.
  intros H. unfold chooseOutput in H. apply bind_inv in H as [(selected & s0 & H0 & H)|(err & H0 & ->)]; [|done].
  injection H0 as <- <-. apply bind_inv in H as [(path & s1 & H1 & H)|(err & H1 & ->)].
  2:{ destruct (negb _) in H1; [done|]. injection H1 as <- _. by split. }
  assert (s1 = s /\ writable s path) as [-> Hw].
  { destruct (String.eqb_spec (outputPath (r_d s)) "") as [E|Hne]; cbn [negb] in H1.
    2:{ injection H1 as <- <-. split; [done|]. by left. }
    injection H1 as <- H0. split; [done|]. apply resolve_existing in H0 as [?|[?|Hr]]; [by right; left|by right; right; left|].
    right; right; right. unfold canResumeExistingOutput in Hr. by destruct segmented, (optionBool opts "continue"). }
  apply bind_inv in H as [([] & s2 & H2 & H)|(err & H2 & ->)]; [|split; [by eapply quiet_mkdir|done]].
  apply quiet_mkdir in H2. apply bind_inv in H as [(auto & s3 & H3 & H)|(err & H3 & ->)]; [|done]. injection H3 as <- <-.
  apply reserve_output_spec in H as [H3 Hp]. split; [by etrans|].
  intros P ->. destruct (Hp P eq_refl) as (Ho & _ & [-> |[_ Hn]]); split; try done.
  right. left. by rewrite <- (qu_files _ _ H2).
Qed.

Lemma set_metadata_path (meta : remoteMeta) (path : string) (d : Download) :
  outputPath (setMetadata meta path d) = path /\ d_gid (setMetadata meta path d) = d_gid d.
Proof. unfold setMetadata, outputPath. by case_match. Qed.

Lemma described_safe (s s1 : RunState) (meta : remoteMeta) (path : string) :
  safe s s1 -> safe s (s1 <| r_d ::= setMetadata meta path |>).
Proof.
  intros [Q1 Q2 Q3 Q4]. destruct (set_metadata_path meta path (r_d s1)) as [_ E].
  split; [exact (eq_trans E Q1)|exact Q2|exact Q3|]. intros p Hp. destruct (Q4 p Hp) as (key & K1 & K2). exists key.
  split; [exact K1|exact (eq_trans K2 (f_equal Some (eq_sym E)))].
Qed.

(** A file the run created: everything happens on it. *)
Lemma created_stays (io : singleIO) (rawURI dirOpt outOpt selected : string) (dest : destination) :
  de_created dest = true -> outOpt <> "" ->
  respects (stays (de_path dest)) (probeAndFill io rawURI opts dirOpt outOpt selected dest)
  /\ forall s s' meta P, probeAndFill io rawURI opts dirOpt outOpt selected dest s = Some (s', Ok (meta, P)) -> P = de_path dest.
Proof.
  intros Hc Hout. pose proof (stays_fill (de_path dest)) as Hfill.
  pose proof (stays_remove (de_path dest)) as Hrem. pose proof (publish_metadata (de_path dest)) as Hpub.
  assert (forall meta, answeredPath meta rawURI dirOpt outOpt selected (de_path dest) = de_path dest) as Hpath.
  { intros meta. unfold answeredPath. destruct (String.eqb_spec outOpt ""); [done|]. by rewrite andb_false_r. }
  unfold probeAndFill, discard. rewrite Hc. split.
  - respect; rewrite Hpath; respect.
  - intros s s' meta P H.
    repeat match goal with
    | H : bind _ _ _ = Some (_, Ok _) |- _ => apply bind_inv in H as [(? & ? & ? & H)|(? & ? & ?)]; [|done]
    | H : match ?x with _ => _ end _ = Some (_, Ok _) |- _ => destruct x
    end; try done; simplify_eq; try done; by injection H as _ _ <-.
Qed.

(** A run by one GET; what follows works on the path it returns. *)
Lemma get_probe_safe (io : singleIO) (rawURI dirOpt outOpt : string) (s s' : RunState) (r : result (remoteMeta * string)) :
  downloadSingleWithGETProbe io rawURI opts dirOpt outOpt s = Some (s', r) ->
  safe s s' /\ match r with
               | Ok (meta, P) => m_NotModified meta = true \/ (path_ok s s' /\ writable s P)
               | Err _ => path_ok s s'
               end.
Proof.
  intros H. unfold downloadSingleWithGETProbe in H.
  apply bind_inv in H as [(selected & s0 & H0 & H)|(err & H0 & ->)]; [|done]. injection H0 as <- <-. cbv zeta in H.
  set (provisional := if String.eqb (outputPath (r_d s)) "" then _ else _) in H.
  apply bind_inv in H as [(dest & s1 & H1 & H)|(err & H1 & ->)].
  2:{ apply destination_spec in H1. by apply quiet_safe. }
  apply destination_spec in H1 as [Hpath H1]. destruct (de_created dest) eqn:Hc.
  - destruct H1 as (_ & Hout & s2 & Hq & Hs & Ho & Hn).
    destruct (created_stays io rawURI dirOpt outOpt (outputPath (r_d s)) dest Hc Hout) as [Hstay HP].
    rewrite Hpath in Hstay. apply Hstay in H as Hs'. assert (writable s provisional) as Hw by by right; left.
    destruct (settled_safe provisional s s2 s' Hq) as [K1 K2]; [by etrans|done|done|]. split; [done|].
    destruct r as [[meta P]|err]; [|done]. right. split; [done|]. apply HP in H. by rewrite H, Hpath.
  - destruct H1 as [Hq Hcont]. pose proof (quiet_safe _ _ Hq) as [Hs1 Hp1]. unfold probeAndFill in H.
    apply bind_inv in H as [(req & s2 & H2 & H)|(err & H2 & ->)]; injection H2 as <- _; [|done].
    apply bind_inv in H as [(disk & s2 & H2 & H)|(err & H2 & ->)]; [|done]. injection H2 as <- <-.
    unfold discard in H. rewrite Hc in H. destruct (si_do io _) as [ex|err]; [|by injection H as <- <-].
    destruct (planProbe dest (ex_resp ex) rawURI opts) as [[|meta|meta rl]|err] eqn:Hplan; [| | |by injection H as <- <-].
    + injection H as <- <-. split; [by apply described_safe|]. left. unfold notModifiedMeta. by case_match.
    + injection H as <- <-. assert (writable s (de_path dest)) as Hw.
      { right; right; right. apply Hcont. unfold planProbe in Hplan. intros E. rewrite E in Hplan.
        change (0 <? 0) with false in Hplan. cbn [andb] in Hplan. unfold httpStatusError, protocolError in Hplan.
        repeat case_match; simplify_eq; done. }
      split; [by apply described_safe|]. right. split; [|done]. right. destruct (set_metadata_path meta (de_path dest) (r_d s1)) as [E _]. change (writable s (outputPath (setMetadata meta (de_path dest) (r_d s1)))). by rewrite E.
    + cbv zeta in H. apply bind_inv in H as [(P & s2 & H2 & H)|(err & H2 & ->)].
      all: apply settle_path_spec in H2 as [H2 HP]; [|by rewrite (qu_d _ _ Hq)| |].
      all: try (intros Hne; destruct (_ || _) in Hne; [done|by apply Hcont]).
      all: try (intros Hne; unfold answeredPath; destruct (String.eqb_spec (outputPath (r_d s)) "") as [|Hn]; [done|];
        rewrite Hpath; unfold provisional; by destruct (String.eqb_spec (outputPath (r_d s)) "")).
      * destruct (HP P eq_refl) as [Ho Hw]. assert (writable s P) as Hws.
        { destruct Hw as [->|[Hn|Hw]]; [left; by rewrite (qu_d _ _ Hq)|right; left; by rewrite <- (qu_files _ _ Hq)|by right; right]. }
        assert (stays P s2 s') as Hst.
        { match type of H with ?m s2 = _ => assert (respects (stays P) m) as Hm end; [|by apply (Hm _ _ _ H)].
          pose proof (stays_fill P). pose proof (stays_open P). respect. }
        destruct (settled_safe P s s2 s') as [K1 K2]; [by etrans|done|done|done|]. split; [done|].
        destruct r as [[meta' P']|err]; [|done]. right. split; [done|].
        repeat (apply bind_inv in H as [(? & ? & ? & H)|(? & ? & ?)]; [|done]). injection H as _ _ <-. done.
      * apply quiet_safe. by etrans.
Qed.

(** One attempt at a URI. *)
Lemma download_uri_safe (io : uriIO) (rawURI : string) (s s' : RunState) (r : result unit) :
  downloadURI io rawURI opts s = Some (s', r) -> safe s s' /\ (is_ok r = false -> path_ok s s').
Proof.
  intros H. unfold downloadURI in H. cbv zeta in H. destruct (canUseSingleGETProbe _ _ _).
  - apply bind_inv in H as [([meta P] & s1 & H1 & H)|(err & H1 & ->)]; apply get_probe_safe in H1 as [H1 H2]; [|by split].
    cbn [fst snd] in H. destruct (m_NotModified meta) eqn:Hn; [injection H as <- <-; by split|].
    destruct H2 as [H2|[H2 H3]]; [congruence|]. by destruct (finish_safe io P meta opts s s1 s' r H1 H2 H3 H).
  - apply bind_inv in H as [(meta & s1 & H1 & H)|(err & H1 & ->)]; injection H1 as <- H1.
    2:{ split; [by apply quiet_safe|]. intros _. by left. }
    set (path := if _ && _ then _ else _) in H. destruct (_ || _).
    { injection H as <- <-. split; [|done]. apply described_safe. by apply quiet_safe. }
    apply bind_inv in H as [(P & s2 & H2 & H)|(err & H2 & ->)]; apply choose_output_spec in H2 as [Hq HP].
    2:{ destruct (quiet_safe _ _ Hq). by split. }
    destruct (HP P eq_refl) as [Ho Hw].
    apply bind_inv in H as [([] & s3 & H3 & H)|(err & H3 & ->)]; [|done].
    apply publish_metadata in H3.
    apply bind_inv in H as [([] & s4 & H4 & H)|(err & H4 & ->)]; apply stays_fetch in H4.
    + destruct (settled_safe P s s2 s4) as [K1 K2]; [done|by etrans|done|done|].
      by destruct (finish_safe io P meta _ s s4 s' r K1 K2 Hw H).
    + destruct (settled_safe P s s2 s') as [K1 K2]; [done|by etrans|done|done|]. by split.
Qed.
End safety.

(** ** Lemmas: the retry loop *)

Section retries.
Context {fs : FileSystem} {http : HTTPLib} {run : RunLib} (limits : retryLimits) (opts : Options) (io : Z -> attemptIO).

Lemma writable_back (s s1 : RunState) (p : string) : safe opts s s1 -> path_ok opts s s1 -> writable opts s1 p -> writable opts s p.
Proof.
  intros [_ _ Hc _] Hp [->|[Hn|Hw]]; [|destruct (fileAt (r_disk s) p) eqn:E; [|by right; left]|by right; right].
  - destruct Hp as [->|Hp]; [by left|done].
  - apply Hc. congruence.
Qed.

Lemma safe_trans (s s1 s2 : RunState) : safe opts s s1 -> path_ok opts s s1 -> safe opts s1 s2 ->
  safe opts s s2 /\ (path_ok opts s1 s2 -> path_ok opts s s2).
Proof.
  intros H1 Hp H2. pose proof H1 as [A1 A2 A3 A4]. pose proof H2 as [B1 B2 B3 B4]. split; [split|].
  - congruence.
  - by etrans.
  - intros p Hne. destruct (decide (fileAt (r_disk s2) p = fileAt (r_disk s1) p)) as [E|E].
    + apply A3. congruence.
    + eapply writable_back; [done..|]. by apply B3.
  - intros p Hne. destruct (decide (contentAt (r_disk s2) p = contentAt (r_disk s1) p)) as [E|E]; [|by apply B4].
    destruct (A4 p ltac:(congruence)) as (key & K1 & K2). exists key. split; [done|]. rewrite B1.
    by eapply lookup_weaken.
  - intros [Hp2|Hp2]; unfold path_ok.
    + rewrite Hp2. exact Hp.
    + right. by eapply writable_back.
Qed.

Lemma keeps_safe (s : RunState) (f : Download -> Download) :
  (forall d, keeps d (f d)) -> safe opts s (s <| r_d ::= f |>) /\ path_ok opts s (s <| r_d ::= f |>).
Proof. intros Hf. destruct (Hf (r_d s)) as [E1 E2]. split; [by split|by left]. Qed.

(** What a round leaves, whether it returns or not: files and reservations are safe; an
    answer comes from an attempt or from the context. *)
Definition answer_from (s' : RunState) (r : result unit) : Prop :=
  match r with
  | Ok _ => exists i u si, downloadURI (at_uri (io i)) u opts si = Some (s', Ok tt)
  | Err err => (exists i u si si', downloadURI (at_uri (io i)) u opts si = Some (si', Err err))
               \/ (exists i, at_ctx (io i) = Some err \/ at_sleep (io i) = Some err)
  end.

Definition last_from (st : retryState) : Prop :=
  match rt_lastErr st with
  | Some err => exists i u si si', downloadURI (at_uri (io i)) u opts si = Some (si', Err err)
  | None => True
  end.

Lemma round_spec (uris : list URIInfo) (st : retryState) (s0 s s' : RunState) (r : result (result unit + retryState)) :
  safe opts s0 s -> path_ok opts s0 s -> last_from st ->
  retryRound limits opts io uris st s = Some (s', r) ->
  safe opts s0 s' /\ match r with
                     | Ok (inl answer) => answer_from s' answer
                     | Ok (inr st') => path_ok opts s0 s' /\ last_from st' /\ (rt_attempt st <= rt_attempt st')
                                       /\ (rt_retryable st' = true -> rt_retryable st = true \/ rt_attempt st < rt_attempt st')
                     | Err _ => False
                     end.
Proof.
  revert st s. induction uris as [|u uris IH]; intros st s Hs Hp Hl H; cbn [retryRound] in H.
  { injection H as <- <-. split; [done|]. split_and!; try done; auto. }
  destruct (at_ctx (io (rt_attempt st))) as [err|] eqn:Hctx.
  { injection H as <- <-. split; [done|]. right. exists (rt_attempt st). by left. }
  destruct (_ && _); [injection H as <- <-; split; [done|]; split_and!; try done; auto|]. cbv zeta in H.
  apply bind_inv in H as [([] & s1 & H1 & H)|(err & H1 & _)]; [|by destruct (rl_many limits)].
  assert (safe opts s s1 /\ path_ok opts s s1) as [Hs1 Hp1].
  { destruct (rl_many limits); injection H1 as <-; [|exact (quiet_safe opts s s (reflexivity s))]. apply keeps_safe. intros d. apply keeps_reports. }
  destruct (safe_trans s0 s s1 Hs Hp Hs1) as [Ks1 Kp1]. specialize (Kp1 Hp1). unfold thenAlways in H.
  unfold bind in H. destruct (downloadURI (at_uri (io (rt_attempt st))) (URI u) opts s1) as [[s2 r2]|] eqn:Ed; [|done].
  pose proof (download_uri_safe opts _ _ _ _ _ Ed) as [Hs2 Hp2]. destruct (safe_trans s0 s1 s2 Ks1 Kp1 Hs2) as [Ks2 Kp2].
  destruct r2 as [[]|err]; cbn in H.
  { injection H as <- <-. split; [done|]. by exists (rt_attempt st), (URI u), s1. }
  specialize (Kp2 (Hp2 eq_refl)). assert (exists i u' si si', downloadURI (at_uri (io i)) u' opts si = Some (si', Err err)) as Hfrom
    by by exists (rt_attempt st), (URI u), s1, s2.
  destruct (_ && _) in H; [injection H as <- <-; split; [done|by left]|].
  destruct (if (_ && _)%bool then at_sleep _ else None) as [err'|] eqn:Hsleep.
  { injection H as <- <-. split; [done|]. right. exists (rt_attempt st). right. by destruct (_ && _) in Hsleep. }
  apply IH in H as [H1' H2']; [|done|done|done]. split; [done|]. destruct r as [[answer|st']|]; [done| |done].
  destruct H2' as (K1 & K2 & K3 & K4). cbn [rt_attempt] in *. split_and!; [done|done|lia|]. intros _. right. lia.
Qed.

Lemma rounds_spec (fuel : nat) (uris : list URIInfo) (st : retryState) (s0 s s' : RunState) (r : result unit) :
  safe opts s0 s -> path_ok opts s0 s -> last_from st ->
  retryRounds limits opts io fuel uris st s = Some (s', r) ->
  safe opts s0 s' /\ (answer_from s' r \/ r = Err (EText "no usable URI")).
Proof.
  revert st s. induction fuel as [|fuel IH]; intros st s Hs Hp Hl H; cbn [retryRounds] in H.
  all: assert (forall st' s2, last_from st' -> safe opts s0 s2 -> lift (lastError st') s2 = Some (s', r) ->
    safe opts s0 s' /\ (answer_from s' r \/ r = Err (EText "no usable URI"))) as Hlast
    by (intros st' s2 Hl' Hs2 E; injection E as <- <-; split; [done|]; unfold lastError, last_from in *;
        destruct (rt_lastErr st'); [left; by left|by right]).
  all: destruct (_ || _); [|by eapply Hlast].
  - done.
  - apply bind_inv in H as [([answer|st'] & s1 & H1 & H)|(err & H1 & ->)].
    + apply (round_spec uris _ s0) in H1 as [H1 H2]; [|done..]. injection H as <- <-. split; [done|by left].
    + apply (round_spec uris _ s0) in H1 as [H1 (H2 & H3 & _)]; [|done..]. destruct (rt_retryable st'); [by eapply IH|by eapply Hlast].
    + by apply (round_spec uris _ s0) in H1 as [_ []].
Qed.
End retries.

(** ** What a run does to the files *)

(** C19: a run of a download, with all its attempts, changes the contents of no file but
    the output it has reserved, and takes no reservation from another download; and
    unless the options allow to overwrite or to continue, a file that was there before
    is changed only if it is the path the download had already chosen. *)
Theorem run_writes_only_its_output {fs : FileSystem} {http : HTTPLib} {run : RunLib} (fuel : nat) (io : Z -> attemptIO)
    (s s' : RunState) (r : result unit) :
  let opts := d_options (r_d s) in
  runDownload fuel io s = Some (s', r) ->
  (forall p, contentAt (r_disk s') p <> contentAt (r_disk s) p ->
     exists key, outputPathReservationKey p = Ok key /\ pathReservations (r_paths s') !! key = Some (d_gid (r_d s)))
  /\ (forall key owner, pathReservations (r_paths s) !! key = Some owner -> pathReservations (r_paths s') !! key = Some owner)
  /\ (optionBool opts "allow-overwrite" = false -> optionBool opts "continue" = false ->
      forall p file, fileAt (r_disk s) p = Some file -> p <> outputPath (r_d s) -> fileAt (r_disk s') p = Some file).
Proof.
  cbv zeta. intros H. unfold runDownload in H. destruct (d_ctx (r_d s)) as [ctx|].
  2:{ injection H as <- <-. by split_and!. }
  apply rounds_spec with (s0 := s) in H as [[H1 H2 H3 H4] _]; [|by apply quiet_safe..|done]. split; [|split].
  - intros p Hp. destruct (H4 p Hp) as (key & K1 & K2). exists key. by rewrite H1 in K2.
  - intros key owner Hk. by eapply lookup_weaken.
  - intros Ho Hc p file Hf Hne. destruct (decide (fileAt (r_disk s') p = fileAt (r_disk s) p)) as [->|E]; [done|].
    apply H3 in E as [?|[?|[?|?]]]; congruence.
Qed.

(** ** The retry loop ends *)

Section ends.
Context {fs : FileSystem} {http : HTTPLib} {run : RunLib} (limits : retryLimits) (opts : Options) (io : Z -> attemptIO).
Context (Hmax : 0 < rl_maxTries limits)
  (Htotal : forall i u s, 0 <= i < rl_maxTries limits -> is_Some (downloadURI (at_uri (io i)) u opts s)).

Lemma used_ok (u : URIInfo) (s : RunState) :
  exists s1, (if rl_many limits then publish (setURIUsed (URI u)) else ret tt) s = Some (s1, Ok tt).
Proof. destruct (rl_many limits); by eexists. Qed.

Lemma round_total (uris : list URIInfo) (st : retryState) (s : RunState) :
  0 <= rt_attempt st <= rl_maxTries limits ->
  exists s' x, retryRound limits opts io uris st s = Some (s', Ok x)
    /\ match x with
       | inl _ => True
       | inr st' => rt_attempt st <= rt_attempt st' <= rl_maxTries limits
                    /\ (rt_retryable st' = true -> rt_retryable st = true \/ rt_attempt st < rt_attempt st')
       end.
Proof.
  revert st s. induction uris as [|u uris IH]; intros st s Hst; cbn [retryRound].
  { exists s, (inr st). split; [done|]. split; [lia|auto]. }
  destruct (at_ctx _) as [err|]; [by exists s, (inl (Err err))|].
  destruct (_ && _) eqn:Hlast; [exists s, (inr st); split; [done|]; split; [lia|auto]|].
  assert (rt_attempt st < rl_maxTries limits) as Hlt.
  { apply andb_false_iff in Hlast as [H%Z.ltb_ge|H%Z.leb_gt]; lia. }
  cbv zeta. destruct (used_ok u s) as [s1 E1]. unfold bind at 1. rewrite E1.
  unfold thenAlways, bind. destruct (Htotal (rt_attempt st) (URI u) s1 ltac:(lia)) as [[s2 r] Ed]. rewrite Ed.
  destruct r as [[]|err]; [by exists s2, (inl (Ok tt))|].
  match goal with |- context [if ?c then ret (inl (Err err)) else _] => destruct c end; [by exists s2, (inl (Err err))|].
  destruct (if (_ && _)%bool then at_sleep _ else None) as [err'|]; [by exists s2, (inl (Err err'))|].
  set (st1 := mkRetry _ _ _ _). destruct (IH st1 s2) as (s' & x & E & Hx); [cbn; lia|]. exists s', x. split; [exact E|].
  destruct x as [|st']; [done|]. cbn [rt_attempt st1] in Hx. destruct Hx as [Hx _]. split; [lia|]. intros _. right. lia.
Qed.

Lemma rounds_total (fuel : nat) (uris : list URIInfo) (st : retryState) (s : RunState) :
  0 <= rt_attempt st <= rl_maxTries limits -> rl_maxTries limits - rt_attempt st <= Z.of_nat fuel ->
  is_Some (retryRounds limits opts io fuel uris st s).
Proof.
  revert st s. induction fuel as [|fuel IH]; intros st s Hst Hf; cbn [retryRounds].
  all: destruct (Z.eqb_spec (rl_maxTries limits) 0); [lia|]; cbn [orb].
  all: destruct (Z.ltb_spec (rt_attempt st) (rl_maxTries limits)); [|by eexists].
  - lia.
  - unfold bind. set (st0 := mkRetry _ _ _ false).
    destruct (round_total uris st0 s) as (s' & x & E & Hx); [cbn; lia|]. rewrite E. destruct x as [|st']; [by eexists|].
    cbn [rt_attempt rt_retryable st0] in Hx. destruct (rt_retryable st'); [|by eexists].
    destruct Hx as [Hx Hp]. destruct (Hp eq_refl) as [|Hp']; [done|]. apply IH; lia.
Qed.

Context (io' : Z -> attemptIO) (Hctx : forall i, at_ctx (io' i) = at_ctx (io i))
  (Hio : forall i, 0 <= i < rl_maxTries limits -> io' i = io i).

Lemma round_ext (uris : list URIInfo) (st : retryState) (s : RunState) :
  0 <= rt_attempt st -> retryRound limits opts io' uris st s = retryRound limits opts io uris st s.
Proof.
  revert st s. induction uris as [|u uris IH]; intros st s Hst; cbn [retryRound]; [done|]. rewrite Hctx.
  destruct (at_ctx _); [done|]. destruct (_ && _) eqn:Hlast; [done|].
  assert (rt_attempt st < rl_maxTries limits) as Hlt.
  { apply andb_false_iff in Hlast as [H%Z.ltb_ge|H%Z.leb_gt]; lia. }
  rewrite Hio by lia. cbv zeta. destruct (used_ok u s) as [s1 E1]. unfold bind at 1 3. rewrite E1.
  unfold thenAlways. destruct (bind _ _ s1) as [[s2 [answer|err]]|]; [done| |done]. clear E1.
  match goal with |- context [if ?c then ret (inl (Err err)) else _] => destruct c end; [done|].
  destruct (if (_ && _)%bool then at_sleep _ else None); [done|]. apply IH. cbn. lia.
Qed.

Lemma rounds_ext (fuel : nat) (uris : list URIInfo) (st : retryState) (s : RunState) :
  0 <= rt_attempt st <= rl_maxTries limits ->
  retryRounds limits opts io' fuel uris st s = retryRounds limits opts io fuel uris st s.
Proof.
  revert st s. induction fuel as [|fuel IH]; intros st s Hst; cbn [retryRounds]; [done|].
  destruct (_ || _); [|done]. set (st0 := mkRetry _ _ _ false). unfold bind.
  rewrite round_ext by (cbn; lia). destruct (round_total uris st0 s) as (s' & x & -> & Hx); [cbn; lia|].
  destruct x as [|st']; [done|]. destruct (rt_retryable st'); [|done]. apply IH. cbn [rt_attempt st0] in Hx. lia.
Qed.
End ends.

(** C21: with a bounded number of tries the retry loop ends after at most that many rounds,
    and what any attempt after the last permitted one would meet has no influence: no
    such attempt is made. *)
Theorem run_download_ends {fs : FileSystem} {http : HTTPLib} {run : RunLib} (io : Z -> attemptIO) (s : RunState) :
  let opts := d_options (r_d s) in
  let tries := rl_maxTries (limitsOf opts (d_uris (r_d s))) in
  tries <> 0 ->
  (forall i u s, 0 <= i < tries -> is_Some (downloadURI (at_uri (io i)) u opts s)) ->
  is_Some (runDownload (Z.to_nat tries) io s)
  /\ forall fuel io', (forall i, at_ctx (io' i) = at_ctx (io i)) -> (forall i, 0 <= i < tries -> io' i = io i) ->
       runDownload fuel io' s = runDownload fuel io s.
Proof.
  cbv zeta. set (opts := d_options (r_d s)). set (limits := limitsOf opts (d_uris (r_d s))). intros Hne Htotal.
  assert (0 < rl_maxTries limits) as Hmax.
  { unfold limits, limitsOf in *. cbn [rl_maxTries] in *. destruct (Z.ltb_spec (optionInt opts "max-tries" 5) 0); lia. }
  unfold runDownload. fold opts. fold limits. split.
  - destruct (d_ctx (r_d s)); [|by eexists]. apply rounds_total; [done|done|cbn [rt_attempt]; lia|cbn [rt_attempt]; lia].
  - intros fuel io' Hctx Hio. destruct (d_ctx (r_d s)); [|done]. apply rounds_ext; try done. cbn [rt_attempt]. lia.
Qed.

(** ** Lemmas: only a segmented download can wait for its events *)

Definition returns {A} (m : M A) : Prop := forall s, is_Some (m s).

Lemma returns_bind {A B} (m : M A) (k : A -> M B) : returns m -> (forall a, returns (k a)) -> returns (bind m k).
Proof. intros Hm Hk s. unfold bind. destruct (Hm s) as [[s1 [a|err]] ->]; [apply Hk|by eexists]. Qed.

Lemma returns_always {A} (m : M A) (k : result A -> M A) : returns m -> (forall r, returns (k r)) -> returns (thenAlways m k).
Proof. intros Hm Hk s. unfold thenAlways. destruct (Hm s) as [[s1 r] ->]. apply Hk. Qed.

Ltac returning :=
  repeat match goal with
  | |- returns (bind _ _) => apply returns_bind; [|intros ?]
  | |- returns (thenAlways _ _) => apply returns_always; [|intros ?]
  | |- returns (match ?x with _ => _ end) => destruct x
  | |- returns (if ?x then _ else _) => destruct x
  | |- returns _ => solve [eauto | intros ?; by eexists]
  end.

Section returning.
Context {fs : FileSystem} {http : HTTPLib} {run : RunLib}.

Lemma open_returns mode path outcome now : returns (openFile mode path outcome now).
Proof. intros s. unfold openFile. repeat case_match; by eexists. Qed.

Lemma reserve_returns path auto : returns (reserveOutput path auto).
Proof. intros s. unfold reserveOutput. destruct (reserveOutputPath _ _ _ _) as [[p ps]|err]; by eexists. Qed.

Lemma receive_returns io path ex start rangeLength metaLength opts : returns (receive io path ex start rangeLength metaLength opts).
Proof. unfold receive, transfer. cbv zeta. returning. Qed.

Lemma get_probe_returns io rawURI opts dirOpt outOpt : returns (downloadSingleWithGETProbe io rawURI opts dirOpt outOpt).
Proof.
  pose proof open_returns. pose proof reserve_returns. pose proof receive_returns.
  assert (forall mode path outcome now, returns (tryOpen mode path outcome now)).
  { intros mode path outcome now s. unfold tryOpen. destruct (open_returns mode path outcome now s) as [[s' r] ->]. by eexists. }
  unfold downloadSingleWithGETProbe, chooseDestination, probeAndFill, discard, settlePath, fillFile, ensureDownloadDir.
  cbv zeta. returning.
Qed.

(** A download that needs no probe always returns. *)
Lemma single_route_returns io rawURI opts :
  canUseSingleGETProbe opts (1 <? splitOf opts) (initialConcurrency opts) = true -> returns (downloadURI io rawURI opts).
Proof.
  intros E. unfold downloadURI. cbv zeta. rewrite E. pose proof get_probe_returns.
  unfold finishFile, checksumOk, applyRemoteTime. returning.
Qed.
End returning.

(** ** An example

    A download whose first try is answered 503 and whose second finds the file; a file of
    its name exists. *)

Definition demoBody : bytes := String.list_ascii_of_string "0123456789".
Definition demoOptions : Options :=
  PlainOptions {["dir" := VStr "/d"; "checksum" := VStr "md5=0123456789"; "retry-wait" := VStr "1"]}.
Definition demoDownload : Download :=
  newDownload "0123456789abcdef" ["http://h/f"] demoOptions 0 <| d_status := StatusActive |> <| d_ctx := Some 1%positive |>.
Definition demoDisk : Disk := {["/d" := DirNode 4096; "/d/f" := FileNode (String.list_ascii_of_string "old") 1]}.
Definition demoState : RunState := mkRun demoDisk noPaths demoDownload.

Definition demoSingle (answer : Request -> result exchange) : singleIO :=
  mkSingleIO answer (Ok tt) (Ok tt) (Ok tt) (Ok tt) (Ok tt) (Ok tt) 5 [(6, 10)].
Definition demoSegments : segIO :=
  mkSegIO (Ok tt) (Ok tt) (Ok tt) 5 (fun _ => mkRangeEnv (fun _ => Err EEOF) (Ok tt) (Ok tt) (Ok tt) []) [] noOptions [].
Definition demoUri (answer : Request -> result exchange) : uriIO :=
  mkUriIO (demoSingle answer) (mkProbeIO (fun _ => Err EEOF) (fun _ => Err EEOF)) demoSegments (Ok tt) (Ok tt) (Ok tt).
Definition demoUnavailable (req : Request) : result exchange :=
  Ok (mkExchange (mkResponse ∅ 503 "503 Service Unavailable" 0 None) [] (Ok [])).
Definition demoFound (req : Request) : result exchange :=
  Ok (mkExchange (mkResponse ∅ 200 "200 OK" 10 None) [mkBody demoBody None (Some EEOF) None 10 None 1] (Ok [])).
Definition demoAttempts (i : Z) : attemptIO :=
  mkAttempt None (demoUri (if i =? 0 then demoUnavailable else demoFound)) None.
Abbreviation demoResult := (@runDownload exampleFS demoHTTP demoRun 2 demoAttempts demoState).

Lemma run_writes_only_its_output_witness :
  exists s', demoResult = Some (s', Ok tt)
    /\ fileAt (r_disk s') "/d/f" = Some (String.list_ascii_of_string "old", 1)
    /\ contentAt (r_disk s') "/d/f.1" = Some demoBody.
Proof.
  assert (optionBool (d_options (r_d demoState)) "allow-overwrite" = false) as Ho by (vm_compute; reflexivity).
  assert (optionBool (d_options (r_d demoState)) "continue" = false) as Hc by (vm_compute; reflexivity).
  assert (fileAt (r_disk demoState) "/d/f" = Some (String.list_ascii_of_string "old", 1)) as Hf by (vm_compute; reflexivity).
  assert ("/d/f" <> outputPath (r_d demoState)) as Hne by (vm_compute; discriminate).
  assert (match demoResult with
          | Some (s', Ok _) => bool_decide (contentAt (r_disk s') "/d/f.1" = Some demoBody)
          | _ => false end = true) as H by (vm_compute; reflexivity).
  destruct demoResult as [[s' [[]|err]]|] eqn:E; [|discriminate H..]. unfold demoResult in E. apply bool_decide_eq_true in H.
  exists s'. split; [reflexivity|]. split; [|exact H].
  destruct (@run_writes_only_its_output exampleFS demoHTTP demoRun 2 demoAttempts demoState s' (Ok tt) E) as (_ & _ & T).
  exact (T Ho Hc "/d/f" _ Hf Hne).
Defined.

Lemma run_download_ends_witness : is_Some (@runDownload exampleFS demoHTTP demoRun 5 demoAttempts demoState).
Proof.
  assert (canUseSingleGETProbe demoOptions (1 <? splitOf demoOptions) (initialConcurrency demoOptions) = true) as Hroute
    by (vm_compute; reflexivity).
  assert (rl_maxTries (limitsOf (d_options (r_d demoState)) (d_uris (r_d demoState))) = 5) as Ht by (vm_compute; reflexivity).
  pose proof (@run_download_ends exampleFS demoHTTP demoRun demoAttempts demoState) as T. cbv zeta in T. rewrite Ht in T.
  refine (proj1 (T _ _)); [discriminate|]. intros i u s _. exact (@single_route_returns exampleFS demoHTTP demoRun _ u demoOptions Hroute s).
Defined.
