(* ===== verification/CompletionSpec.v ===== *)
(** * What a successful run leaves ([downloader.go])

    When a run returns without an error the output file has the length the download
    reports, and the digest the options asked for. *)
From S2P Require Import Prelude GoStrings GoPath GoURL Pieces Options Http Reservations Filename Torrent State Engine Progress Downloader DownloaderSpec Runner AssemblySpec RunnerSpec.

(** ** Vocabulary *)

(** The length a finished download reports: [finishDownload] takes the total when it is
    known and the bytes received otherwise. *)
Definition reportedLength (d : Download) : Z := if 0 <? d_totalLength d then d_totalLength d else d_completedLen d.

Definition measured (size : Z) (d : Download) : Prop := 0 <= d_totalLength d /\ size = reportedLength d.

(** The output is a file of the reported length; a directory in its place stays one. *)
Definition whole (P : string) (s : RunState) : Prop :=
  outputPath (r_d s) = P
  /\ ((exists size, r_disk s !! P = Some (DirNode size)) \/ measured (fileSize (contentOf (r_disk s) P)) (r_d s)).

(** Answers as the network gives them: lengths and offsets of bytes fit an [int64], and
    nothing is answered with 304. *)
Definition answer_ok (resp : Response) : Prop :=
  rs_StatusCode resp <> 304 /\ rs_ContentLength resp <= max_int64
  /\ forall cr, parseByteContentRange (hGet (rs_Header resp) "Content-Range") = Some cr -> cr_end cr < max_int64.

Record network_ok (io : uriIO) : Prop := {
  no_single : forall req ex, si_do (ui_single io) req = Ok ex ->
    answer_ok (ex_resp ex) /\ fileSize (bodyBytesOf (ex_body ex)) <= max_int64;
  no_head : forall req resp, pb_head (ui_probe io) req = Ok resp -> answer_ok resp;
  no_get : forall req resp, pb_get (ui_probe io) req = Ok resp -> answer_ok resp
}.

Definition meta_ok (meta : remoteMeta) : Prop := 0 <= m_Length meta <= max_int64 /\ m_NotModified meta = false.

(** ** Lemmas: progress of a transfer *)

Lemma add_fold_unknown (fl : list Z) (d : Download) :
  Forall (fun n => 0 < n) fl -> d_totalLength d = 0 -> 0 <= d_completedLen d -> d_completedLen d + sumZ fl <= max_int64 ->
  let d' := foldl (fun d n => addCompleted n d) d fl in
  d_totalLength d' = 0 /\ d_completedLen d' = d_completedLen d + sumZ fl.
Proof.
  cbv zeta. revert d. induction fl as [|n fl IH]; intros d Hf Ht Hc Hs; cbn [foldl].
  { unfold sumZ. cbn. split; [done|lia]. }
  apply Forall_cons in Hf as [Hn Hf]. pose proof (sumZ_pos fl Hf). assert (sumZ (n :: fl) = n + sumZ fl) as E by done. rewrite E in *.
  assert (d_totalLength (addCompleted n d) = 0 /\ d_completedLen (addCompleted n d) = d_completedLen d + n) as [E1 E2].
  { unfold addCompleted. destruct (Z.leb_spec n 0); [lia|]. cbv zeta. unfold addInt64. simpl. rewrite Ht.
    rewrite !wrap64_id by (unfold in_int64, min_int64, max_int64 in *; lia). unfold recountPieces.
    repeat case_match; simpl; rewrite ?Ht, ?wrap64_id by (unfold in_int64, min_int64, max_int64 in *; lia); split; done || lia. }
  destruct (IH (addCompleted n d)) as [K1 K2]; [done|done|lia|lia|]. split; [done|]. rewrite K2. lia.
Qed.

Definition sameTotal (d d' : Download) : Prop := d_totalLength d' = d_totalLength d /\ d_path d' = d_path d.

#[export] Instance sameTotal_preorder : PreOrder sameTotal.
Proof. split; [by split|]. intros d1 d2 d3 [A1 A2] [B1 B2]. split; congruence. Qed.

Lemma total_reports :
  (forall n d, sameTotal d (setConnections n d)) /\ (forall n d, sameTotal d (addCompleted n d))
  /\ (forall n d, sameTotal d (rollbackCompleted n d)) /\ (forall i d, sameTotal d (markPieceComplete i d)).
Proof.
  unfold addCompleted, rollbackCompleted, markPieceComplete, recountPieces. split_and!; intros; repeat case_match; done.
Qed.

Lemma total_fold (fl : list Z) (d : Download) : sameTotal d (foldl (fun d n => addCompleted n d) d fl).
Proof. revert d. induction fl as [|n fl IH]; intros d; cbn; [done|].
  etrans; [apply (proj1 (proj2 total_reports))|apply IH].
Qed.

Lemma speeds_same (started : Z) (samples : list (Z * Z)) (d : Download) :
  d_totalLength (publishSpeeds started samples d) = d_totalLength d
  /\ d_completedLen (publishSpeeds started samples d) = d_completedLen d /\ d_path (publishSpeeds started samples d) = d_path d.
Proof.
  unfold publishSpeeds. generalize (trackerRun started samples) as l. intros l. revert d.
  induction l as [|n l IH]; intros d; cbn; [done|]. destruct (IH (setDownloadBPS n d)) as (-> & -> & ->). done.
Qed.

Lemma reset_single (total completed : Z) (d : Download) :
  0 <= total -> 0 <= completed ->
  let d' := resetSingleProgress total completed d in
  d_totalLength d' = total /\ d_completedLen d' = completed /\ d_path d' = d_path d.
Proof.
  intros Ht Hc. cbv zeta. unfold resetSingleProgress, nonNegativeLength. cbv zeta.
  destruct (Z.ltb_spec total 0), (Z.ltb_spec completed 0); try lia. by destruct (0 <? total).
Qed.

Lemma content_insert (disk : Disk) (P : string) (content : bytes) (t : Z) :
  contentOf (<[P := FileNode content t]> disk) P = content.
Proof. unfold contentOf. by rewrite lookup_insert_eq. Qed.

(** ** Lemmas: one transfer *)

Section completion.
Context {fs : FileSystem} {http : HTTPLib} {run : RunLib} (opts : Options) (P : string).
Context (Hgzip : optionBool opts "http-accept-gzip" = false).

Lemma not_decoded (resp : Response) : responseBodyDecoded resp opts = false.
Proof. unfold responseBodyDecoded. by rewrite Hgzip. Qed.

(** The copy [transfer] makes. *)
Definition copyOf (body : list bodyStep) (rangeLength : Z) : copyResult :=
  let lowestSpeed := optionBytes opts "lowest-speed-limit" 0 in
  if 0 <=? rangeLength then copyExactWithProgressCount lowestSpeed (map stepOf body) rangeLength
  else copyLoop lowestSpeed (map stepOf body) None 0 0 [].

Lemma transfer_eq (io : singleIO) (ex : exchange) (body : list bodyStep) (rangeLength metaLength : Z) (content : bytes) (t : Z) (s : RunState) :
  r_disk s !! P = Some (FileNode content t) ->
  transfer io P ex body rangeLength metaLength opts s
  = let c := copyOf body rangeLength in
    Some (mkRun (<[P := FileNode (content ++ copied body c) (si_now io)]> (r_disk s)) (r_paths s)
            (setConnections 0 (publishSpeeds (si_now io) (si_samples io)
              (foldl (fun d n => addCompleted n d) (r_d s) (cp_flushes c)))),
          let! _copied := cp_result c in
          if (rangeLength <? 0) && (0 <? metaLength) && negb (cp_count c =? metaLength)
          then Err (bodyLengthMismatchError (cp_count c) metaLength) else Ok tt).
Proof.
  intros H. unfold transfer, bind, onFile, publish, modify, lift. rewrite H, not_decoded. cbn [negb]. rewrite andb_true_r. by destruct s.
Qed.

(** What a successful copy is. *)
Lemma copy_done (body : list bodyStep) (rangeLength : Z) :
  fileSize (bodyBytesOf body) <= max_int64 -> rangeLength <= max_int64 -> cp_result (copyOf body rangeLength) = Ok tt ->
  let c := copyOf body rangeLength in
  Forall (fun n => 0 < n) (cp_flushes c) /\ sumZ (cp_flushes c) = cp_count c /\ fileSize (copied body c) = cp_count c
  /\ 0 <= cp_count c <= max_int64 /\ (0 <= rangeLength -> cp_count c = rangeLength).
Proof.
  intros Hb Hrl. unfold copyOf. cbv zeta. destruct (Z.leb_spec 0 rangeLength) as [H0|H0]; intros Hr.
  - unfold copyExactWithProgressCount in *. set (lowest := optionBytes _ _ _) in *.
    pose proof (copyLoop_reads lowest (map stepOf body) (Some rangeLength) 0 0 []) as Hc.
    destruct Hc as (Hf & Hc & Hle); [done|lia|done|lia|lia|]. rewrite reads_of_body in Hle.
    set (c := copyLoop _ _ _ _ _ _) in *. destruct (cp_result c) as [[]|err] eqn:Ec; [|congruence].
    destruct (Z.eqb_spec (cp_count c) rangeLength) as [E|]; cbn [negb] in *; [|done].
    split_and!; try done; try lia. eapply copied_length; [lia|reflexivity|lia].
  - set (lowest := optionBytes _ _ _) in *.
    pose proof (copyLoop_reads lowest (map stepOf body) None 0 0 []) as Hc.
    destruct Hc as (Hf & Hc & Hle); [done|lia|done|lia|rewrite reads_of_body; lia|]. rewrite reads_of_body in Hle.
    split_and!; try done; try lia. eapply copied_length; [lia|reflexivity|lia].
Qed.

(** A body received from [start] on completes the file. *)
Lemma receive_whole (io : singleIO) (ex : exchange) (start rangeLength metaLength : Z) (content : bytes) (t : Z) (s s' : RunState) :
  r_disk s !! P = Some (FileNode content t) -> fileSize content = start -> outputPath (r_d s) = P ->
  0 <= metaLength <= max_int64 -> fileSize (bodyBytesOf (ex_body ex)) <= max_int64 ->
  (if 0 <=? rangeLength then 0 < metaLength /\ rangeLength <= max_int64 /\ start + rangeLength = metaLength else start = 0) ->
  receive io P ex start rangeLength metaLength opts s = Some (s', Ok tt) -> whole P s'.
Proof.
  intros Hfile Hsize Hpath Hm Hbody Hr H. unfold receive, responseReader in H. rewrite not_decoded in H.
  assert (0 <= start) as Hstart by (unfold fileSize in Hsize; lia).
  destruct (reset_single metaLength start (r_d s)) as (R1 & R2 & R3); [lia|done|].
  assert ((if rangeLength <? 0 then Ok (ex_body ex) else Ok (ex_body ex)) = @Ok (list bodyStep) (ex_body ex)) as E
    by by destruct (rangeLength <? 0). rewrite E in H. clear E.
  unfold bind, publish, modify in H.
  erewrite transfer_eq in H; [|exact Hfile]. cbv zeta in H. set (c := copyOf (ex_body ex) rangeLength) in *.
  injection H as <- H. destruct (cp_result c) as [[]|err] eqn:Ec; cbn [result_bind] in H; [|done].
  destruct (copy_done (ex_body ex) rangeLength) as (Hf & Hsum & Hlen & Hle & Hex);
    [done|destruct (Z.leb_spec 0 rangeLength); lia|done|]. fold c in Hf, Hsum, Hlen, Hle, Hex.
  set (d0 := setConnections 1 (resetSingleProgress metaLength start (r_d s))).
  set (d1 := foldl _ d0 (cp_flushes c)). destruct (speeds_same (si_now io) (si_samples io) d1) as (S1 & S2 & S3).
  destruct (total_fold (cp_flushes c) d0) as [T1 T2]. fold d1 in T1, T2.
  assert (d_totalLength d0 = metaLength /\ d_completedLen d0 = start /\ d_path d0 = outputPath (r_d s)) as (D1 & D2 & D3) by done.
  split; cbn [r_disk r_d].
  { unfold outputPath in *. cbn. congruence. }
  right. rewrite content_insert. unfold measured, reportedLength. cbn [setConnections d_totalLength d_completedLen set].
  change (d_totalLength (setConnections 0 ?d)) with (d_totalLength d). change (d_completedLen (setConnections 0 ?d)) with (d_completedLen d).
  rewrite S1, S2, T1, D1. assert (fileSize (content ++ copied (ex_body ex) c) = start + cp_count c) as ->
    by (unfold fileSize in *; rewrite length_app; lia). split; [lia|].
  destruct (Z.ltb_spec 0 metaLength) as [Hpos|Hz].
  - destruct (Z.leb_spec 0 rangeLength); [destruct Hr as (_ & _ & Hr); specialize (Hex ltac:(done)); lia|].
    destruct (Z.ltb_spec rangeLength 0); [|lia]. cbn [andb] in H. destruct (Z.eqb_spec (cp_count c) metaLength); [lia|done].
  - destruct (Z.leb_spec 0 rangeLength); [lia|].
    destruct (add_fold_unknown (cp_flushes c) d0) as [_ K]; [done|lia|lia|lia|]. fold d1 in K. lia.
Qed.

(** ** Lemmas: the routes of one URI *)

Lemma resume_offset (disk : Disk) (meta : remoteMeta) :
  0 <= resumeOffset disk P opts meta
  /\ (0 < resumeOffset disk P opts meta -> 0 < m_Length meta
      /\ match disk !! P with
         | Some (FileNode content _) => fileSize content = resumeOffset disk P opts meta
         | Some (DirNode _) => True
         | None => False
         end).
Proof.
  unfold resumeOffset. destruct (optionBool opts "continue" && (0 <? m_Length meta)) eqn:E; [|split; [done|lia]].
  apply andb_true_iff in E as [_ E%Z.ltb_lt]. rewrite !stat_disk.
  destruct (disk !! P) as [[content t|size]|]; [| |split; [done|lia]].
  - assert (0 <= fileSize content) by (unfold fileSize; lia). destruct (_ && _); (split; [lia|]); [done|lia].
  - destruct (Z.ltb_spec 0 size); cbn [andb]; [|split; [done|lia]]. destruct (_ && _); (split; [lia|done]).
Qed.

Lemma open_spec (mode : openMode) (outcome : result unit) (now : Z) (s s' : RunState) :
  openFile mode P outcome now s = Some (s', Ok tt) ->
  r_d s' = r_d s
  /\ exists t, r_disk s' !! P = Some (FileNode (match mode with Truncating | Exclusive => [] | _ => contentOf (r_disk s) P end) t)
      /\ (forall n, r_disk s !! P <> Some (DirNode n)).
Proof.
  unfold openFile, contentOf. destruct (r_disk s !! P) as [[content t|n]|] eqn:E; destruct mode; try done;
    destruct outcome; try done; intros [= <-]; (split; [done|]); cbn; rewrite lookup_insert_eq; eexists; (split; [done|]); intros n'; done.
Qed.

(** What a validated open range announces. *)
Lemma open_range_length (resp : Response) (start total : Z) (cr : byteContentRange) :
  validateOpenRangeResponse resp start total = Ok cr -> total <= max_int64 ->
  parseByteContentRange (hGet (rs_Header resp) "Content-Range") = Some cr
  /\ cr_start cr = start /\ 0 <= cr_start cr <= cr_end cr /\ cr_end cr <= max_int64
  /\ (0 < total -> cr_end cr = total - 1) /\ (cr_totalKnown cr = true -> cr_end cr = cr_total cr - 1 /\ cr_total cr <= max_int64).
Proof.
  intros H Ht. unfold validateOpenRangeResponse in H. apply result_bind_ok in H as (cr' & Hp & H).
  apply partial_accepted in Hp as (Hparse & Hu & _). apply parse_valid in Hparse as Hv. unfold valid_range in Hv. rewrite Hu in Hv.
  destruct (Z.eqb_spec (cr_start cr') start) as [E|]; [|done]. cbn [negb] in H.
  destruct (totalMismatch cr' total); [done|].
  destruct ((0 <=? total) && _) eqn:He; [done|]. destruct (cr_totalKnown cr' && _) eqn:Hk; [done|].
  apply result_bind_ok in H as ([] & _ & H). injection H as <-. destruct Hv as (H1 & H2 & H3). split_and!; try done; try lia.
  - intros H0. destruct (Z.leb_spec 0 total); [|lia]. cbn [andb] in He. apply negb_false_iff, Z.eqb_eq in He.
    rewrite wrap64_id in He by (unfold in_int64, min_int64, max_int64 in *; lia). done.
  - intros Hkn. rewrite Hkn in *. cbn [andb] in Hk. apply negb_false_iff, Z.eqb_eq in Hk. rewrite wrap64_id in Hk by (unfold in_int64, min_int64, max_int64 in *; lia). lia.
Qed.

(** The length of the rest of a file. *)
Lemma rest_length (start stop : Z) :
  0 <= start <= stop -> stop <= max_int64 ->
  let n := addInt64 (wrap64 (stop - start)) 1 in
  (0 < start -> n = stop - start + 1 /\ 0 <= n).
Proof.
  intros H H'. cbv zeta. intros H0. unfold addInt64. rewrite (wrap64_id (stop - start)), wrap64_id
    by (unfold in_int64, min_int64, max_int64 in *; lia). lia.
Qed.

Lemma meta_length (resp : Response) (original : string) (o : Options) :
  answer_ok resp -> meta_ok (metaFromResponse resp original o).
Proof.
  intros (_ & H & _). unfold meta_ok, metaFromResponse, nonNegativeLength. cbn. split; [|done].
  destruct (responseBodyDecoded _ _); [unfold max_int64; lia|]. destruct (Z.ltb_spec (rs_ContentLength resp) 0); unfold max_int64 in *; lia.
Qed.

Lemma closed_ok {A} (m : M A) (closed : result unit) (s s' : RunState) (a : A) :
  thenAlways m (fun r => lift (joinResult r closed)) s = Some (s', Ok a) -> m s = Some (s', Ok a).
Proof.
  unfold thenAlways. destruct (m s) as [[s1 r]|]; [|done]. intros [= <- H]. f_equal. f_equal.
  destruct r as [b|err], closed as [[]|e]; cbn in H; congruence.
Qed.

Definition answers_ok (io : singleIO) : Prop :=
  forall req ex, si_do io req = Ok ex -> answer_ok (ex_resp ex) /\ fileSize (bodyBytesOf (ex_body ex)) <= max_int64.

Lemma single_whole (io : singleIO) (meta : remoteMeta) (s s' : RunState) :
  answers_ok io -> meta_ok meta -> outputPath (r_d s) = P ->
  downloadSingle io meta P opts s = Some (s', Ok tt) -> whole P s'.
Proof.
  intros Hio [Hm Hn] Hpath H. unfold downloadSingle in H.
  apply bind_inv in H as [(start & s0 & H0 & H)|(? & ? & ?)]; [|done]. injection H0 as <- <-.
  destruct (resume_offset (r_disk s) meta) as [Hpos Hres]. set (start := resumeOffset _ _ _ _) in *.
  apply bind_inv in H as [([] & s1 & H1 & H)|(? & ? & ?)]; [|done]. apply open_spec in H1 as (Ed & t & Hfile & Hdir).
  apply closed_ok in H. set (content := match _ with Truncating | Exclusive => [] | _ => _ end) in Hfile.
  assert (fileSize content = start) as Hsize.
  { unfold content. destruct (Z.ltb_spec 0 start); [|unfold fileSize; cbn; lia]. destruct (Hres ltac:(done)) as [_ Hr].
    unfold contentOf. destruct (r_disk s !! P) as [[c t'|n]|]; [done|by destruct (Hdir n)|done]. }
  assert (outputPath (r_d s1) = P) as Hpath1 by by rewrite Ed.
  unfold singleBody in H. apply bind_inv in H as [(req & s2 & H2 & H)|(? & ? & ?)]; [|done]. injection H2 as <- _.
  apply bind_inv in H as [(ex & s2 & H2 & H)|(? & ? & ?)]; [|done]. injection H2 as <- Hdo.
  destruct (Hio _ _ Hdo) as [Hans Hbody].
  apply bind_inv in H as [(plan & s2 & H2 & H)|(? & ? & ?)]; [|done]. injection H2 as <- Hplan.
  assert (Hstart : 0 < start -> 0 < m_Length meta) by (intros Hp; by apply Hres).
  unfold planSingle in Hplan. set (complete := match (if _ && _ then _ else None) with Some _ => _ | None => _ end) in Hplan.
  destruct complete eqn:Hc.
  { injection Hplan as <-. injection H as <-. assert (0 < start) as Hp.
    { unfold complete in Hc. destruct (Z.ltb_spec 0 start); [done|]. cbn [andb] in Hc. done. }
    destruct (reset_single start start (r_d s1)) as (R1 & R2 & R3); [lia..|].
    split; [exact (eq_trans R3 Hpath1)|right]. cbn [r_disk r_d set]. unfold contentOf at 1.
    change (r_disk (s1 <| r_d ::= _ |>)) with (r_disk s1). rewrite Hfile, Hsize. unfold measured, reportedLength.
    change (r_d (s1 <| r_d ::= ?f |>)) with (f (r_d s1)). rewrite R1, R2. split; [lia|]. by destruct (0 <? start). }
  destruct (_ || _) in Hplan; [done|]. destruct (Z.ltb_spec 0 start) as [Hp|Hp].
  - specialize (Hstart Hp). destruct (rs_StatusCode (ex_resp ex) =? 206); cbn [negb] in Hplan.
    + apply result_bind_ok in Hplan as (cr & Hcr & Hplan). injection Hplan as <-.
      apply open_range_length in Hcr as (_ & E1 & E2 & E3 & E4 & _); [|lia]. specialize (E4 Hstart).
      destruct (rest_length (cr_start cr) (cr_end cr) E2 E3) as [E5 E6]; [lia|].
      eapply receive_whole; [exact Hfile|done|done| |exact Hbody| |exact H]; [lia|]. rewrite E5. destruct (Z.leb_spec 0 (cr_end cr - cr_start cr + 1)); lia.
    + injection Hplan as <-. apply bind_inv in H as [([] & s2 & H2 & H)|(? & ? & ?)]; [|done].
      unfold truncate in H2. apply bind_inv in H2 as [([] & s3 & H3 & H2)|(? & ? & ?)]; [|done]. injection H3 as <- _.
      unfold onFile, modify in H2. rewrite Hfile in H2. injection H2 as <-.
      apply bind_inv in H as [([] & s3 & H3 & H)|(? & ? & ?)]; [|done]. injection H3 as <- _.
      assert (resizeTo 0 content = []) as E0 by apply resize_0. rewrite E0 in H.
      set (s2 := s1 <| r_disk ::= _ |>) in H. assert (r_disk s2 !! P = Some (FileNode [] (si_now io))) as Hf2 by apply lookup_insert_eq.
      assert (outputPath (r_d s2) = P) as Hp2 by exact Hpath1.
      exact (receive_whole io ex 0 (-1) (m_Length meta) [] (si_now io) s2 s' Hf2 eq_refl Hp2 Hm Hbody eq_refl H).
  - assert (content = []) as -> by (unfold content; destruct (Z.ltb_spec 0 start); [lia|done]).
    destruct (rs_StatusCode (ex_resp ex) =? 206); [done|]. injection Hplan as <-.
    apply bind_inv in H as [([] & s2 & H2 & H)|(? & ? & ?)]; [|done]. injection H2 as <-.
    set (meta' := meta <| m_Length := _ |> <| m_LastModified := _ |> <| m_FinalURI := _ |> <| m_AcceptRange := _ |>) in *.
    set (s2 := s1 <| r_d ::= _ |>) in H. assert (r_disk s2 !! P = Some (FileNode [] t)) as Hf2 by exact Hfile.
    assert (outputPath (r_d s2) = P) as Hp2 by apply set_metadata_path.
    assert (0 <= m_Length meta' <= max_int64) as Hm'.
    { unfold meta'. cbn [m_Length set]. pose proof (meta_length (ex_resp ex) (m_FinalURI meta) opts Hans) as [K _].
      change (m_Length (?a <| m_LastModified := _ |> <| m_FinalURI := _ |> <| m_AcceptRange := _ |>)) with (m_Length a). cbn.
      destruct (_ || _); [exact K|exact Hm]. }
    exact (receive_whole io ex 0 (-1) (m_Length meta') [] t s2 s' Hf2 eq_refl Hp2 Hm' Hbody eq_refl H).
Qed.

Lemma fill_whole (io : singleIO) (created : bool) (meta : remoteMeta) (ex : exchange) (start rangeLength : Z)
    (content : bytes) (t : Z) (s s' : RunState) :
  r_disk s !! P = Some (FileNode content t) -> fileSize content = start -> 0 <= m_Length meta <= max_int64 ->
  fileSize (bodyBytesOf (ex_body ex)) <= max_int64 ->
  (if 0 <=? rangeLength then 0 < m_Length meta /\ rangeLength <= max_int64 /\ start + rangeLength = m_Length meta else start = 0) ->
  fillFile io created meta P ex start rangeLength opts s = Some (s', Ok tt) -> whole P s'.
Proof.
  intros Hfile Hsize Hm Hbody Hr H. unfold fillFile in H.
  apply bind_inv in H as [([] & s1 & H1 & H)|(? & ? & ?)]; [|done]. injection H1 as <-.
  assert (is_ok (responseReader ex opts) = true) as E by (unfold responseReader; by rewrite not_decoded).
  rewrite E, andb_false_r in H. apply closed_ok in H.
  set (s2 := s <| r_d ::= _ |>) in H. assert (r_disk s2 !! P = Some (FileNode content t)) as Hf2 by exact Hfile.
  assert (outputPath (r_d s2) = P) as Hp2 by apply set_metadata_path.
  exact (receive_whole io ex start rangeLength (m_Length meta) content t s2 s' Hf2 Hsize Hp2 Hm Hbody Hr H).
Qed.

(** The destination of a GET that is its own probe, on the disk it was chosen on. *)
Definition destination_ok (dest : destination) (disk : Disk) : Prop :=
  if de_created dest then de_start dest = 0 /\ exists t, disk !! de_path dest = Some (FileNode [] t)
  else 0 <= de_start dest
       /\ (0 < de_start dest -> (exists n, disk !! de_path dest = Some (DirNode n))
            \/ exists content t, disk !! de_path dest = Some (FileNode content t) /\ fileSize content = de_start dest).

(** What the plan for a body says. *)
Lemma plan_body (dest : destination) (resp : Response) (rawURI : string) (meta : remoteMeta) (rangeLength : Z) :
  answer_ok resp -> 0 <= de_start dest -> planProbe dest resp rawURI opts = Ok (ProbeBody meta rangeLength) ->
  0 <= m_Length meta <= max_int64
  /\ if 0 <=? rangeLength
     then rs_StatusCode resp = 206 /\ 0 < de_start dest /\ 0 < m_Length meta /\ rangeLength <= max_int64
          /\ de_start dest + rangeLength = m_Length meta
     else rs_StatusCode resp <> 206.
Proof.
  intros Hans Hstart H. pose proof (meta_length resp rawURI opts Hans) as [Hm _]. destruct Hans as (Hst & Hcl & Hcr).
  unfold planProbe in H. destruct (Z.eqb_spec (rs_StatusCode resp) 304); [done|].
  destruct (match (if _ && _ then _ else None) with Some _ => _ | None => false end) in H; [done|].
  destruct (_ || _) in H; [done|]. destruct (Z.eqb_spec (rs_StatusCode resp) 206) as [E206|]; [|by injection H as <- <-].
  destruct (Z.eqb_spec (de_start dest) 0); [done|]. apply result_bind_ok in H as (cr & Hv & H).
  apply open_range_length in Hv as (Hp & E1 & E2 & E3 & _ & E5); [|unfold max_int64; lia]. specialize (Hcr cr Hp).
  destruct (rest_length (cr_start cr) (cr_end cr) E2 E3) as [E6 E7]; [lia|]. rewrite E6 in H.
  assert (0 <= cr_end cr - cr_start cr + 1) as Hnn by lia. injection H as <- <-.
  destruct (Z.leb_spec 0 (cr_end cr - cr_start cr + 1)); [|lia].
  destruct (cr_totalKnown cr) eqn:Hk; [destruct (E5 eq_refl)|destruct (Z.ltb_spec (cr_end cr) max_int64); [|lia]]; cbn [m_Length set];
    (split; [|split; [done|]]); cbn; lia.
Qed.
End completion.

(** ** Lemmas: a GET that is its own probe *)

Section get_probe.
Context {fs : FileSystem} {http : HTTPLib} {run : RunLib} (opts : Options).
Context (Hgzip : optionBool opts "http-accept-gzip" = false).

Lemma existing_size (disk : Disk) (path : string) :
  0 <= existingSize disk path
  /\ (0 < existingSize disk path -> (exists n, disk !! path = Some (DirNode n))
      \/ exists content t, disk !! path = Some (FileNode content t) /\ fileSize content = existingSize disk path).
Proof.
  unfold existingSize. rewrite !stat_disk. destruct (disk !! path) as [[content t|n]|]; [| |split; lia].
  - destruct (Z.ltb_spec 0 (fileSize content)); (split; [lia|]); [|lia]. intros _. right. by exists content, t.
  - split; [destruct (Z.ltb_spec 0 n); lia|]. intros _. left. by exists n.
Qed.

Lemma destination_on_disk (io : singleIO) (provisional outOpt : string) (s s' : RunState) (dest : destination) :
  chooseDestination io opts provisional outOpt s = Some (s', Ok dest) -> destination_ok dest (r_disk s').
Proof.
  assert (forall s path, destination_ok (mkDestination path (existingSize (r_disk s) path) false) (r_disk s)) as Hex
    by (intros s0 path; unfold destination_ok; cbn; apply existing_size).
  unfold chooseDestination. destruct (canCreateSingleDestinationBeforeGET opts outOpt).
  2:{ destruct (optionBool opts "continue"); intros [= <- <-]; [apply Hex|]. unfold destination_ok. cbn. split; lia. }
  intros H. apply bind_inv in H as [([] & s1 & _ & H)|(? & ? & ?)]; [|done].
  apply bind_inv in H as [(path & s2 & _ & H)|(? & ? & ?)]; [|done].
  unfold bind at 1, tryOpen in H. destruct (openFile Exclusive path (si_open io) (si_now io) s2) as [[s3 [[]|err]]|] eqn:Eo; [| |done].
  - injection H as <- <-. apply open_spec in Eo as (_ & t & Hf & _). unfold destination_ok. cbn. split; [done|]. by exists t.
  - destruct (isExist err); [|done]. injection H as <- <-. apply Hex.
Qed.

Lemma quiet_file (s s' : RunState) (p : string) (content : bytes) (t : Z) :
  quiet s s' -> r_disk s !! p = Some (FileNode content t) -> r_disk s' !! p = Some (FileNode content t).
Proof.
  intros Hq H. pose proof (qu_files _ _ Hq p) as E. unfold fileAt in E. rewrite H in E.
  by destruct (r_disk s' !! p) as [[]|]; simplify_eq.
Qed.

Lemma mkdir_node (l : list string) (disk : Disk) (p : string) (n : node) :
  disk !! p = Some n ->
  foldl (fun disk dir => match disk !! dir with Some _ => disk | None => <[dir := DirNode NewDirSize]> disk end) disk l !! p = Some n.
Proof.
  revert disk. induction l as [|b l IH]; intros disk Hd; [done|]. cbn [foldl]. apply IH.
  destruct (disk !! b) eqn:E; [done|]. rewrite lookup_insert_ne; [done|]. intros ->. by rewrite E in Hd.
Qed.

Lemma mkdir_dir (dir p : string) (outcome : result unit) (s s' : RunState) (n : Z) (r : result unit) :
  ensureDownloadDir dir outcome s = Some (s', r) -> r_disk s !! p = Some (DirNode n) -> r_disk s' !! p = Some (DirNode n).
Proof.
  intros H Hd. unfold ensureDownloadDir in H. apply bind_inv in H as [(? & s1 & H1 & H)|(? & H1 & _)]; injection H1 as <- _; [|done].
  apply modify_inv in H as ->. exact (mkdir_node _ _ _ _ Hd).
Qed.

(** The path kept for the rest of a file. *)
Lemma settle_resume (io : singleIO) (outOpt selected outPath P : string) (start : Z) (s s' : RunState) :
  start <> 0 -> settlePath io opts outOpt selected outPath start s = Some (s', Ok P) ->
  P = outPath /\ quiet s s' /\ forall n, r_disk s !! P = Some (DirNode n) -> r_disk s' !! P = Some (DirNode n).
Proof.
  intros Hs H. unfold settlePath in H. destruct (Z.eqb_spec start 0); [done|]. rewrite andb_false_r in H.
  apply bind_inv in H as [(path & s1 & H1 & H)|(? & ? & ?)]; [|done]. injection H1 as <- <-.
  apply bind_inv in H as [([] & s2 & H2 & H)|(? & ? & ?)]; [|done]. pose proof (quiet_mkdir _ _ _ _ _ H2) as Hq.
  apply reserve_output_spec in H as [H3 Hp]. destruct (Hp P eq_refl) as (_ & Ed & [-> |[? _]]); [|done].
  split; [done|]. split; [by etrans|]. intros size Hsize. rewrite Ed. by eapply mkdir_dir.
Qed.

Lemma set_metadata_total (meta : remoteMeta) (path : string) (d : Download) :
  d_totalLength (setMetadata meta path d) = nonNegativeLength (m_Length meta).
Proof. unfold setMetadata. by case_match. Qed.

Lemma reported_total (size : Z) (d : Download) (n : Z) : 0 < n -> size = n -> d_totalLength d = n -> measured size d.
Proof. intros Hn -> E. unfold measured, reportedLength. rewrite E. destruct (Z.ltb_spec 0 n); lia. Qed.

(** The outcomes of a plan. *)
Ltac plan_cases H :=
  unfold httpStatusError, protocolError in H; repeat case_match; simplify_eq; try done;
  try (apply result_bind_ok in H as (? & _ & H); repeat case_match; simplify_eq; done).

Lemma discard_throw {A} (io : singleIO) (dest : destination) (err : error) (s s' : RunState) (a : A) :
  bind (discard io dest) (fun _ => throw err) s = Some (s', Ok a) -> False.
Proof. unfold discard, bind, removeFile, modify, ret, throw. destruct (de_created dest); intros H; discriminate H. Qed.

Lemma probe_and_fill_whole (io : singleIO) (rawURI dirOpt outOpt selected : string) (dest : destination) (s s' : RunState)
    (meta : remoteMeta) (P : string) :
  answers_ok io -> destination_ok dest (r_disk s) -> (outOpt <> "" \/ de_start dest = 0) -> (de_created dest = true -> outOpt <> "") ->
  probeAndFill io rawURI opts dirOpt outOpt selected dest s = Some (s', Ok (meta, P)) ->
  m_NotModified meta = false /\ whole P s'.
Proof.
  intros Hio Hdest Hroute Hout H. unfold probeAndFill in H.
  apply bind_inv in H as [(req & s1 & H1 & H)|(? & ? & ?)]; [|done]. injection H1 as <- _.
  apply bind_inv in H as [(disk & s1 & H1 & H)|(? & ? & ?)]; [|done]. injection H1 as <- <-.
  destruct (si_do io _) as [ex|err] eqn:Hdo.
  2:{ by apply discard_throw in H. }
  destruct (Hio _ _ Hdo) as [Hans Hbody].
  assert (0 <= de_start dest) as Hstart by (unfold destination_ok in Hdest; destruct (de_created dest); lia).
  destruct (planProbe dest (ex_resp ex) rawURI opts) as [[|meta0|meta0 rl]|err] eqn:Hplan.
  - unfold planProbe in Hplan. destruct Hans as (Hst & _). destruct (Z.eqb_spec (rs_StatusCode (ex_resp ex)) 304); [done|].
    plan_cases Hplan.
  - assert (0 < de_start dest /\ meta0 = metaFromResponse (ex_resp ex) rawURI opts <| m_Length := de_start dest |> <| m_AcceptRange := true |>)
      as [Hp ->].
    { unfold planProbe in Hplan. destruct (Z.eqb_spec (rs_StatusCode (ex_resp ex)) 304); [done|].
      destruct (Z.ltb_spec 0 (de_start dest)); cbn [andb] in Hplan; plan_cases Hplan. }
    unfold discard in H. unfold destination_ok in Hdest. destruct (de_created dest); [lia|]. injection H as <- <- <-.
    destruct (set_metadata_path (metaFromResponse (ex_resp ex) rawURI opts <| m_Length := de_start dest |> <| m_AcceptRange := true |>)
      (de_path dest) (r_d s)) as [Epath _]. split; [done|]. split; [exact Epath|].
    destruct Hdest as [_ Hd]. destruct (Hd Hp) as [Hdir|(content & t & Hf & Hsize)]; [by left|right].
    apply (reported_total _ _ (de_start dest)); [lia| |].
    + unfold contentOf. cbn [r_disk set]. by rewrite Hf.
    + etrans; [apply set_metadata_total|]. unfold nonNegativeLength. cbn. destruct (Z.ltb_spec (de_start dest) 0); lia.
  - apply plan_body in Hplan as Hpl; [|done|done]. destruct Hpl as [Hm Hrl]. cbv zeta in H.
    assert (m_NotModified meta0 = false) as Hnm.
    { unfold planProbe in Hplan. plan_cases Hplan. }
    assert (outOpt <> "" -> forall m, answeredPath m rawURI dirOpt outOpt selected (de_path dest) = de_path dest) as Hans_path.
    { intros Ho m. unfold answeredPath. destruct (String.eqb_spec outOpt ""); [done|]. by rewrite andb_false_r. }
    unfold destination_ok in Hdest. destruct (de_created dest) eqn:Hc.
    + destruct Hdest as [E0 [t Hf]]. rewrite Hans_path in H by auto.
      apply bind_inv in H as [([] & s1 & H1 & H)|(? & ? & ?)]; [|done]. injection H as <- <- <-. split; [done|].
      assert ((0 <=? rl) = false) as Erl by (destruct (0 <=? rl); [lia|done]).
      refine (fill_whole opts (de_path dest) Hgzip io true meta0 ex 0 rl [] t s s1 Hf eq_refl Hm Hbody _ H1). by rewrite Erl.
    + destruct Hdest as [_ Hd]. set (start := if _ || _ then 0 else de_start dest) in H.
      apply bind_inv in H as [(P' & s1 & H1 & H)|(? & ? & ?)]; [|done].
      apply bind_inv in H as [([] & s2 & H2 & H)|(? & ? & ?)]; [|done].
      apply bind_inv in H as [([] & s3 & H3 & H)|(? & ? & ?)]; [|done]. injection H as <- <- <-. split; [done|].
      apply open_spec in H2 as (_ & t & Hf & Hnd).
      destruct (Z.leb_spec 0 rl) as [Hrl0|Hrl0].
      * destruct Hrl as (Hst & Hp & Hml & Hmax & Hsum). assert (outOpt <> "") as Ho by (destruct Hroute; [done|lia]).
        assert (start = de_start dest) as Es.
        { unfold start. rewrite Hans_path, String.eqb_refl, Hst by done. done. }
        rewrite Hans_path in H1 by done. apply settle_resume in H1 as (-> & Hq & Hdir); [|lia].
        rewrite Es in Hf, H3. destruct (Z.ltb_spec 0 (de_start dest)); [|lia].
        assert (fileSize (contentOf (r_disk s1) (de_path dest)) = de_start dest) as Hsize.
        { destruct (Hd Hp) as [[n Hn]|(content & t' & Hc' & Hs)]; [by destruct (Hnd n); apply Hdir|].
          unfold contentOf. by rewrite (quiet_file _ _ _ _ _ Hq Hc'). }
        refine (fill_whole opts (de_path dest) Hgzip io false meta0 ex (de_start dest) rl _ t s2 s3 Hf Hsize Hm Hbody _ H3).
        destruct (Z.leb_spec 0 rl); [by split_and!|lia].
      * assert (start = 0) as Es.
        { unfold start. destruct (Z.eqb_spec (rs_StatusCode (ex_resp ex)) 206); [done|]. by rewrite orb_true_r. }
        rewrite Es in Hf, H3. refine (fill_whole opts P' Hgzip io false meta0 ex 0 rl [] t s2 s3 Hf eq_refl Hm Hbody _ H3).
        destruct (Z.leb_spec 0 rl); [lia|done].
  - by apply discard_throw in H.
Qed.
End get_probe.

(** ** Lemmas: a whole URI *)

Lemma transport_value (opts : Options) (key : string) :
  key <> "http-version" -> optionValue (transportOptionsForSegmented opts) key = optionValue opts key.
Proof.
  intros Hk. unfold transportOptionsForSegmented. destruct (negb _); [done|]. unfold setOption, cloneOptions, optionValue.
  destruct opts; cbn; by rewrite lookup_insert_ne.
Qed.

Lemma transport_bool (opts : Options) (key : string) :
  key <> "http-version" -> optionBool (transportOptionsForSegmented opts) key = optionBool opts key.
Proof. intros Hk. unfold optionBool, optionString. by rewrite transport_value. Qed.

Lemma transport_string (opts : Options) (key : string) :
  key <> "http-version" -> optionString (transportOptionsForSegmented opts) key = optionString opts key.
Proof. intros Hk. unfold optionString. by rewrite transport_value. Qed.

Section whole_uri.
Context {fs : FileSystem} {http : HTTPLib} {run : RunLib} (opts : Options).
Context (Hgzip : optionBool opts "http-accept-gzip" = false).

Lemma segmented_whole (io : segIO) (meta : remoteMeta) (P : string) (opts' : Options) (chunkSize : Z) (s s' : RunState) :
  0 < m_Length meta <= max_int64 -> outputPath (r_d s) = P ->
  downloadSegmented io meta P opts' (makeChunks (m_Length meta) chunkSize) s = Some (s', Ok tt) -> whole P s'.
Proof.
  intros Hm Hpath H. unfold downloadSegmented in H.
  apply bind_inv in H as [([] & s1 & H1 & H)|(? & ? & ?)]; [|done]. apply open_spec in H1 as (Ed & t & Hf & _).
  apply bind_inv in H as [([] & s2 & H2 & H)|(? & ? & ?)]; [|done].
  unfold truncate in H2. apply bind_inv in H2 as [([] & s3 & H3 & H2)|(? & ? & ?)]; [|done]. injection H3 as <- _.
  apply modify_inv in H2. rewrite Hf in H2.
  apply bind_inv in H as [([] & s3 & H3 & H)|(? & ? & ?)]; [|done]. injection H3 as <- _.
  unfold segLoop in H. cbv zeta in H.
  destruct (fileRun _ _ _ _ _) as [f|] eqn:E; [|done]. destruct (finished (sf_seg f)) eqn:Hfin; [|done].
  assert (fileSize (contentOf (r_disk s2) P) = m_Length meta) as Hsize.
  { rewrite H2. cbn [r_disk set]. rewrite content_insert. unfold resizeTo, fileSize. rewrite length_resize. lia. }
  apply file_run_some in E as Hr. cbn [sf_seg] in Hr. destruct total_reports as (K1 & K3 & K4 & K5).
  apply (seg_all_keeps opts' (rangeWorker meta io) sameTotal) in Hr; [|done..].
  destruct (segReturn (sf_seg f)) as [r d] eqn:Er. injection H as <- ->.
  destruct (segmented_result meta io chunkSize opts' (sg_globalOptions io) (sg_now io) (r_d s2) _ _ f Hm Hsize E Hfin) as [Hlen _];
    [by rewrite Er|].
  destruct Hr as [Ht Hp]. cbn [snd] in Ht, Hp. destruct (speeds_same (sg_now io) (sg_samples io) d) as (S1 & S2 & S3).
  destruct (keeps_reports) as (_ & _ & _ & _ & _ & Kreset & _).
  destruct (Kreset (m_Length meta) (makeChunks (m_Length meta) chunkSize) (r_d s2)) as [_ Kp].
  split.
  - change (d_path (publishSpeeds (sg_now io) (sg_samples io) d) = P). rewrite S3, Hp, Kp, H2. cbn. by rewrite Ed.
  - right. change (measured (fileSize (contentOf (<[P:=FileNode (sf_content f) (sg_now io)]> (r_disk s2)) P))
      (publishSpeeds (sg_now io) (sg_samples io) d)).
    rewrite content_insert. apply (reported_total _ _ (m_Length meta)); [lia|done|]. rewrite S1, Ht.
    unfold resetProgress, nonNegativeLength. destruct (Z.ltb_spec (m_Length meta) 0); [lia|].
    by destruct (makeChunks (m_Length meta) chunkSize).
Qed.

Lemma fetch_whole (io : uriIO) (meta : remoteMeta) (P : string) (s s' : RunState) :
  answers_ok (ui_single io) -> meta_ok meta -> outputPath (r_d s) = P ->
  fetch io meta P opts (segmentedFor meta opts) s = Some (s', Ok tt) -> whole P s'.
Proof.
  intros Hio Hm Hpath H. unfold fetch in H. destruct (segmentedFor meta opts) eqn:Hseg; [|by eapply single_whole].
  assert (0 < m_Length meta <= max_int64) as Hlen.
  { unfold segmentedFor in Hseg. destruct Hm. destruct (Z.ltb_spec 0 (m_Length meta)); [lia|done]. }
  cbv zeta in H. unfold thenAlways in H. destruct (downloadSegmented _ _ _ _ _ s) as [[s1 r]|] eqn:E; [|done].
  destruct (shouldDowngradeSegmentedDownload _) eqn:Hd.
  - destruct r as [|err]; [done|]. pose proof (stays_segmented P _ _ _ _ _ _ _ E) as [_ _ _ Hp].
    eapply (single_whole (transportOptionsForSegmented opts)); [by rewrite transport_bool|exact Hio| | |exact H].
    + destruct Hm as [H1 H2]. by split.
    + destruct Hp as [-> |]; done.
  - injection H as <- ->. by eapply segmented_whole.
Qed.

Lemma finish_done (io : uriIO) (P : string) (meta : remoteMeta) (opts' : Options) (s s' : RunState) :
  finishFile io P meta opts' s = Some (s', Ok tt) ->
  r_d s' = r_d s /\ contentOf (r_disk s') P = contentOf (r_disk s) P
  /\ (forall n, r_disk s !! P = Some (DirNode n) -> r_disk s' !! P = Some (DirNode n))
  /\ @verifyChecksum (diskHTTP http (r_disk s) (ui_readable io)) P opts' = Ok tt.
Proof.
  intros H. unfold finishFile, checksumOk, applyRemoteTime in H.
  apply bind_inv in H as [([] & s2 & H1 & H)|(err & _ & ?)]; [|done]. injection H1 as <- Hv.
  destruct (_ || _); [injection H as <-; by split_and!|]. destruct (ParseTime _) as [t|]; [|injection H as <-; by split_and!].
  apply bind_inv in H as [([] & s3 & H1 & H)|(err & _ & ?)]; [|done]. injection H1 as <- _. apply modify_inv in H as ->.
  destruct (r_disk s !! P) as [[content t'|n]|] eqn:E; [|by (split_and!; try done; intros n' <-)|by split_and!]. split_and!; try done.
  cbn [r_disk set]. rewrite content_insert. unfold contentOf. by rewrite E.
Qed.

(** The digest the options ask for, of the contents of a file. *)
Definition checked (opts' : Options) (content : bytes) : Prop :=
  optionString opts' "checksum" <> "" ->
  exists algo expected, Cut (optionString opts' "checksum") "=" = Some (algo, expected)
    /\ Digest (ToLower (dropDashes algo)) (String.string_of_list_ascii content) = ToLower (TrimSpace expected).

Lemma verified (disk : Disk) (readable : result unit) (P : string) (opts' : Options) :
  @verifyChecksum (diskHTTP http disk readable) P opts' = Ok tt -> checked opts' (contentOf disk P).
Proof.
  unfold verifyChecksum, checked. intros H Hne. destruct (String.eqb_spec (optionString opts' "checksum") ""); [done|].
  destruct (Cut _ "=") as [[algo expected]|]; [|done]. exists algo, expected. split; [done|].
  destruct (negb _); [done|]. apply result_bind_ok in H as (contents & Hread & H). cbv zeta in H.
  destruct (String.eqb_spec (@Digest (diskHTTP http disk readable) (ToLower (dropDashes algo)) contents) (ToLower (TrimSpace expected)))
    as [Heq|]; [|done]. rewrite <- Heq. change (@Digest (diskHTTP http disk readable)) with (@Digest http). f_equal.
  cbn in Hread. apply result_bind_ok in Hread as (_ & _ & Hread). unfold contentOf.
  destruct (disk !! P) as [[content t|size]|]; by simplify_eq.
Qed.

Definition finished_whole (s : RunState) : Prop :=
  whole (outputPath (r_d s)) s /\ checked opts (contentOf (r_disk s) (outputPath (r_d s))).

Lemma finish_whole (io : uriIO) (P : string) (meta : remoteMeta) (opts' : Options) (s s' : RunState) :
  optionString opts' "checksum" = optionString opts "checksum" ->
  whole P s -> finishFile io P meta opts' s = Some (s', Ok tt) -> finished_whole s'.
Proof.
  intros Hopts [Hp Hw] H. apply finish_done in H as (Ed & Ec & Hdir & Hv). apply verified in Hv.
  unfold finished_whole. rewrite Ed, Hp. split.
  - split; [by rewrite Ed|]. rewrite Ec, Ed. destruct Hw as [[n Hn]|Hw]; [left; exists n; by apply Hdir|by right].
  - rewrite Ec. unfold checked in *. by rewrite <- Hopts.
Qed.

Lemma probe_meta (io : probeIO) (rawURI path : string) (opts' : Options) (disk : Disk) (meta : remoteMeta) :
  (forall req resp, pb_head io req = Ok resp -> answer_ok resp) -> (forall req resp, pb_get io req = Ok resp -> answer_ok resp) ->
  probe io rawURI opts' path disk = Ok meta -> meta_ok meta.
Proof.
  intros Hhead Hget H. unfold probe in H.
  assert (match probeHead io rawURI opts' path disk with
          | inl (Ok m) => meta_ok m | inr (Some m) => meta_ok m | _ => True end) as Hh.
  { unfold probeHead. destruct (negb _); [done|]. destruct (NewRequest "HEAD" rawURI) as [req|]; [|done]. cbv zeta.
    destruct (pb_head io _) as [resp|] eqn:E; [|done]. apply Hhead in E as Ha. pose proof Ha as (Hst & _).
    destruct (Z.eqb_spec (rs_StatusCode resp) 304); [done|]. destruct (isHTTPTransferSuccess _).
    - destruct (0 <=? rs_ContentLength resp); by apply meta_length.
    - by destruct (negb _). }
  destruct (probeHead io rawURI opts' path disk) as [r|head]; [by subst|].
  apply result_bind_ok in H as (req & _ & H). cbv zeta in H.
  assert (forall err, orHead head err = Ok meta -> meta_ok meta) as Hor
    by (unfold orHead; destruct head; intros err ?; by simplify_eq).
  destruct (pb_get io _) as [resp|err] eqn:E; [|by eapply Hor]. apply Hget in E as Ha. pose proof Ha as (Hst & _ & Hcr).
  destruct (Z.eqb_spec (rs_StatusCode resp) 304); [done|]. unfold probeAnswer in H. cbv zeta in H.
  pose proof (meta_length resp rawURI opts' Ha) as [Hm Hn].
  assert (forall s cr, parseByteContentRange s = Some cr -> 0 <= cr_total cr <= max_int64 \/ cr_totalKnown cr = false) as Htotal.
  { intros st cr Hp. apply parse_valid in Hp. unfold valid_range in Hp. destruct (cr_unsatisfied cr), (cr_totalKnown cr); auto; left; lia. }
  destruct (if rs_StatusCode resp =? 416 then completeLengthFromUnsatisfiedRange resp else None) as [total|] eqn:Eu.
  { injection H as <-. split; [|done]. cbn. destruct (rs_StatusCode resp =? 416); [|done].
    unfold completeLengthFromUnsatisfiedRange in Eu. destruct (parseByteContentRange _) as [cr|] eqn:Ep; [|done].
    destruct (cr_unsatisfied cr && cr_totalKnown cr) eqn:Ek; [|done]. injection Eu as <-. apply andb_true_iff in Ek as [_ Ek].
    destruct (Htotal _ _ Ep); [done|congruence]. }
  destruct (negb _); [destruct head; by simplify_eq|].
  destruct (rs_StatusCode resp =? 206); [|by injection H as <-].
  destruct (validateProbeRangeResponse resp 0 metadataProbeRangeEnd) as [cr|err] eqn:Ev; [|by eapply Hor].
  injection H as <-. split; [|done]. cbn. destruct (cr_totalKnown cr) eqn:Ek; [|unfold max_int64; lia].
  unfold validateProbeRangeResponse in Ev. apply result_bind_ok in Ev as (cr' & Hp & Ev). apply partial_accepted in Hp as (Hparse & _).
  destruct (_ || _) in Ev; [done|]. apply result_bind_ok in Ev as (_ & _ & Ev). injection Ev as <-.
  destruct (Htotal _ _ Hparse); [done|congruence].
Qed.
End whole_uri.

(** ** A completed download *)

Section runs.
Context {fs : FileSystem} {http : HTTPLib} {run : RunLib} (opts : Options).
Context (Hgzip : optionBool opts "http-accept-gzip" = false) (Hdry : optionBool opts "dry-run" = false).

Lemma single_get_route (requested : bool) (concurrency : Z) :
  canUseSingleGETProbe opts requested concurrency = true ->
  optionString opts "out" <> "" \/ optionBool opts "continue" = false.
Proof.
  unfold canUseSingleGETProbe. rewrite Hdry, Hgzip. destruct (String.eqb_spec (optionString opts "out") ""); [|auto].
  destruct (optionBool opts "continue"); [|auto]. by destruct requested, (1 <? concurrency).
Qed.

Lemma download_uri_whole (io : uriIO) (rawURI : string) (s s' : RunState) :
  network_ok io -> downloadURI io rawURI opts s = Some (s', Ok tt) -> finished_whole opts s'.
Proof.
  intros [Hs Hh Hg] H. unfold downloadURI in H. cbv zeta in H. destruct (canUseSingleGETProbe _ _ _) eqn:Hroute.
  - apply bind_inv in H as [([meta P] & s1 & H1 & H)|(? & ? & ?)]; [|done]. cbn [fst snd] in H.
    unfold downloadSingleWithGETProbe in H1.
    apply bind_inv in H1 as [(selected & s0 & H0 & H1)|(? & ? & ?)]; [|done]. injection H0 as <- <-. cbv zeta in H1.
    apply bind_inv in H1 as [(dest & s2 & H2 & H1)|(? & ? & ?)]; [|done].
    pose proof (destination_on_disk opts _ _ _ _ _ _ H2) as Hdest. apply destination_spec in H2 as [_ H2].
    apply single_get_route in Hroute.
    apply (probe_and_fill_whole opts Hgzip) in H1 as [Hn Hw]; [|done|done|..].
    + rewrite Hn in H. by eapply finish_whole.
    + destruct (de_created dest); [right; by destruct H2|]. destruct H2 as [_ Hcont].
      destruct Hroute as [?|Hc]; [by left|]. right. destruct (Z.eqb_spec (de_start dest) 0) as [|Hne]; [done|].
      rewrite Hcont in Hc by done. done.
    + intros Hc. rewrite Hc in H2. by destruct H2 as (_ & ? & _).
  - apply bind_inv in H as [(meta & s1 & H1 & H)|(? & ? & ?)]; [|done]. injection H1 as <- Hp.
    apply probe_meta in Hp as Hm; [|done|done]. rewrite Hdry, (proj2 Hm) in H. cbn [orb] in H.
    apply bind_inv in H as [(P & s2 & H2 & H)|(? & ? & ?)]; [|done].
    apply bind_inv in H as [([] & s3 & H3 & H)|(? & ? & ?)]; [|done]. injection H3 as <-.
    apply bind_inv in H as [([] & s4 & H4 & H)|(? & ? & ?)]; [|done].
    eapply fetch_whole in H4; [|done|done|done|apply set_metadata_path].
    eapply finish_whole; [|done|exact H]. destruct (segmentedFor meta opts); [by rewrite transport_string|done].
Qed.
End runs.

(** What finishing makes of the lengths. *)
Lemma finish_lengths (shutdown : bool) (now : Z) (d : Download) :
  d_kind d = downloadKindURI -> optionBool (d_options d) "dry-run" = false ->
  let d' := (finishActive None shutdown now d).1 in
  d_status d' = StatusComplete /\ (0 <= d_totalLength d -> 0 <= reportedLength d -> d_totalLength d' = reportedLength d)
  /\ d_completedLen d' = reportedLength d.
Proof.
  intros Hkind Hdry. cbv zeta. unfold finishActive, reportedLength.
  set (d1 := d <| d_cancel := None |> <| d_connections := 0 |> <| d_downloadBPS := 0 |> <| d_stoppedAt := Some now |> <| d_status := StatusComplete |>).
  assert (metadataOnly d1 = false) as ->.
  { unfold metadataOnly. change (d_kind d1) with (d_kind d). change (d_options d1) with (d_options d). by rewrite Hkind, Hdry. }
  change (d_totalLength d1) with (d_totalLength d). change (d_completedLen d1) with (d_completedLen d).
  destruct (Z.ltb_spec 0 (d_totalLength d)); [done|]. cbn [andb]. destruct (Z.ltb_spec 0 (d_completedLen d)); [done|].
  split; [done|]. split; [|done]. intros K0 K1. change (d_totalLength d = d_completedLen d). lia.
Qed.


Lemma demo_network (i : Z) : network_ok (at_uri (demoAttempts i)).
Proof.
  unfold demoAttempts. cbn [at_uri]. split; [|intros req resp H; discriminate H..].
  intros req ex. cbn [demoUri demoSingle ui_single si_do]. destruct (i =? 0); intros [= <-].
  all: split; [split_and!; [cbn; lia|cbn; unfold max_int64; lia|intros cr H; vm_compute in H; discriminate H]|].
  all: vm_compute; discriminate.
Qed.

