(* ===== verification/Notifications.v ===== *)
(** * Notifications ([notifications.go])

    The engine's subscribers: channels with a buffer each.  Publishing never waits: a
    channel whose buffer is full misses the notification.  What a subscriber receives is
    in the order of publication, and complete as long as its buffer suffices. *)
From S2P Require Import Prelude.

(** ** State and operations *)

Record Notification := mkNotification { nt_Method : string; nt_GID : string; nt_Time : Z }.

(** A channel: its buffer, what it holds, and whether it is closed. *)
Record channel := mkChannel { ch_cap : nat; ch_queue : list Notification; ch_closed : bool }.

(** The channels made so far, which their receivers keep, and those subscribed. *)
Record Hub := mkHub { hb_channels : gmap nat channel; hb_subscribers : gset nat }.
#[global] Instance eta_Hub : Eta Hub := fun h => mkHub (hb_channels h) (hb_subscribers h).

Definition noHub : Hub := mkHub ∅ ∅.

Definition maxNotificationBuffer : Z := 4096.

Definition bufferSize (buffer : Z) : nat :=
  Z.to_nat (if buffer <=? 0 then 32 else if maxNotificationBuffer <? buffer then maxNotificationBuffer else buffer).

(** [Subscribe]: the new channel is [c]; on an engine that has shut down it is closed. *)
Definition Subscribe (c : nat) (buffer : Z) (done : bool) (h : Hub) : Hub :=
  let ch := mkChannel (bufferSize buffer) [] done in
  let h := h <| hb_channels ::= <[c := ch]> |> in
  if done then h else h <| hb_subscribers ::= fun subs => subs ∪ {[c]} |>.

Definition closeChannel (ch : channel) : channel := mkChannel (ch_cap ch) (ch_queue ch) true.

(** The [cancel] function of a subscription. *)
Definition cancelSubscription (c : nat) (h : Hub) : Hub :=
  if bool_decide (c ∈ hb_subscribers h) then
    mkHub (alter closeChannel c (hb_channels h)) (hb_subscribers h ∖ {[c]})
  else h.

Definition closeSubscribers (h : Hub) : Hub :=
  mkHub (map_imap (fun c ch => Some (if bool_decide (c ∈ hb_subscribers h) then closeChannel ch else ch)) (hb_channels h)) ∅.

(** A send that does not wait. *)
Definition offer (n : Notification) (ch : channel) : channel :=
  if (length (ch_queue ch) <? ch_cap ch)%nat then mkChannel (ch_cap ch) (ch_queue ch ++ [n]) (ch_closed ch) else ch.

Definition notify (n : Notification) (h : Hub) : Hub :=
  h <| hb_channels ::= map_imap (fun c ch => Some (if bool_decide (c ∈ hb_subscribers h) then offer n ch else ch)) |>.

(** A receive: the next notification, if there is one. *)
Definition receiveFrom (c : nat) (h : Hub) : option (Notification * Hub) :=
  match hb_channels h !! c with
  | Some (mkChannel cap (n :: rest) closed) => Some (n, h <| hb_channels ::= <[c := mkChannel cap rest closed]> |>)
  | _ => None
  end.

(** The channel is closed and empty: its receiver ends. *)
Definition drained (c : nat) (h : Hub) : bool :=
  match hb_channels h !! c with Some ch => ch_closed ch && bool_decide (ch_queue ch = []) | None => false end.

(** ** Histories *)

Inductive hubEvent :=
| HubSubscribe (c : nat) (buffer : Z) (done : bool)
| HubCancel (c : nat)
| HubCloseAll
| HubNotify (n : Notification)
| HubReceive (c : nat).

(** The hub and what each receiver has received. *)
Record HubRun := mkHubRun { hr_hub : Hub; hr_received : gmap nat (list Notification) }.

Definition hubStep (ev : hubEvent) (r : HubRun) : HubRun :=
  let '(mkHubRun h got) := r in
  match ev with
  | HubSubscribe c buffer done => mkHubRun (Subscribe c buffer done h) got
  | HubCancel c => mkHubRun (cancelSubscription c h) got
  | HubCloseAll => mkHubRun (closeSubscribers h) got
  | HubNotify n => mkHubRun (notify n h) got
  | HubReceive c =>
      match receiveFrom c h with
      | Some (n, h) => mkHubRun h (<[c := default [] (got !! c) ++ [n]]> got)
      | None => r
      end
  end.

Definition hubRun (evs : list hubEvent) (r : HubRun) : HubRun := foldl (fun r ev => hubStep ev r) r evs.

(** What is published while [c] is subscribed: [subscribed] says whether it is at the
    start. *)
Fixpoint publishedTo (c : nat) (subscribed : bool) (evs : list hubEvent) : list Notification :=
  match evs with
  | [] => []
  | HubNotify n :: rest => (if subscribed then [n] else []) ++ publishedTo c subscribed rest
  | HubCancel c' :: rest => publishedTo c (subscribed && negb (c' =? c)%nat) rest
  | HubCloseAll :: rest => publishedTo c false rest
  | (HubSubscribe _ _ _ | HubReceive _) :: rest => publishedTo c subscribed rest
  end.

(** ** Lemmas: one channel under each event *)

#[local] Arguments Nat.ltb : simpl never.

Definition received (c : nat) (r : HubRun) : list Notification := default [] (hr_received r !! c).
Definition subscribed (c : nat) (h : Hub) : bool := bool_decide (c ∈ hb_subscribers h).

(** No other channel takes the identity of [c]. *)
Definition not_renewed (c : nat) (ev : hubEvent) : Prop := match ev with HubSubscribe c' _ _ => c' <> c | _ => True end.

(** What one event adds to the channel of [c]. *)
Definition addedTo (c : nat) (ev : hubEvent) (h : Hub) (ch : channel) : list Notification :=
  match ev with
  | HubNotify n => if subscribed c h && (length (ch_queue ch) <? ch_cap ch)%nat then [n] else []
  | _ => []
  end.

Lemma hub_step_channel (c : nat) (ev : hubEvent) (r : HubRun) (ch : channel) :
  not_renewed c ev -> hb_channels (hr_hub r) !! c = Some ch ->
  exists ch', hb_channels (hr_hub (hubStep ev r)) !! c = Some ch' /\ ch_cap ch' = ch_cap ch
    /\ received c (hubStep ev r) ++ ch_queue ch' = received c r ++ ch_queue ch ++ addedTo c ev (hr_hub r) ch
    /\ subscribed c (hr_hub (hubStep ev r))
       = match ev with HubCancel c' => subscribed c (hr_hub r) && negb (c' =? c)%nat | HubCloseAll => false
                     | _ => subscribed c (hr_hub r) end.
Proof.
  destruct r as [[chans subs] got]. unfold received, subscribed. cbn [hr_hub hr_received hb_channels hb_subscribers].
  intros Hn Hc. destruct ev as [c' buffer done|c'| |n|c']; cbn [hubStep hr_hub hr_received addedTo not_renewed] in *; rewrite ?app_nil_r.
  - exists ch. unfold Subscribe. destruct done; cbn; rewrite lookup_insert_ne by done; split_and!; try done.
    apply bool_decide_ext. set_solver.
  - unfold cancelSubscription. cbn [hb_subscribers hb_channels]. destruct (bool_decide_reflect (c' ∈ subs)) as [Hs|Hs].
    + cbn. destruct (Nat.eqb_spec c' c) as [->|Hne].
      * rewrite lookup_alter_eq, Hc. exists (closeChannel ch). split_and!; try done. rewrite andb_false_r. apply bool_decide_eq_false. set_solver.
      * rewrite lookup_alter_ne by done. exists ch. split_and!; try done. rewrite andb_true_r. apply bool_decide_ext. set_solver.
    + exists ch. split_and!; try done. cbn. destruct (Nat.eqb_spec c' c) as [->|]; [|by rewrite andb_true_r].
      rewrite andb_false_r. by apply bool_decide_eq_false.
  - cbn. rewrite map_lookup_imap, Hc. cbn. eexists. split; [done|]. split_and!; [by destruct (bool_decide _)..|].
    apply bool_decide_eq_false. set_solver.
  - cbn. rewrite map_lookup_imap, Hc. cbn. eexists. split; [done|]. unfold offer, subscribed. cbn.
    destruct (bool_decide (c ∈ subs)), (Nat.ltb (length (ch_queue ch)) (ch_cap ch)); cbn; rewrite ?app_nil_r; split_and!; done.
  - unfold receiveFrom. cbn [hb_channels]. destruct (decide (c' = c)) as [->|Hne].
    + rewrite Hc. destruct ch as [cap [|n rest] closed]; [by exists (mkChannel cap [] closed)|].
      exists (mkChannel cap rest closed). cbn. rewrite !lookup_insert_eq. cbn. split_and!; try done. by rewrite <- app_assoc.
    + exists ch. destruct (chans !! c') as [[cap [|n rest] closed]|]; cbn; try done.
      rewrite !lookup_insert_ne by done. done.
Qed.

Lemma published_step (c : nat) (b : bool) (ev : hubEvent) (rest : list hubEvent) :
  publishedTo c b (ev :: rest)
  = match ev with HubNotify n => if b then [n] else [] | _ => [] end
    ++ publishedTo c (match ev with HubCancel c' => b && negb (c' =? c)%nat | HubCloseAll => false | _ => b end) rest.
Proof. by destruct ev. Qed.

Lemma hub_delivery (c : nat) (evs : list hubEvent) (r : HubRun) (ch : channel) :
  Forall (not_renewed c) evs -> hb_channels (hr_hub r) !! c = Some ch ->
  exists ch' l, hb_channels (hr_hub (hubRun evs r)) !! c = Some ch'
    /\ received c (hubRun evs r) ++ ch_queue ch' = received c r ++ ch_queue ch ++ l
    /\ l `sublist_of` publishedTo c (subscribed c (hr_hub r)) evs
    /\ ((forall before after, evs = before ++ after ->
           (length (received c r ++ ch_queue ch) + length (publishedTo c (subscribed c (hr_hub r)) before)
            <= ch_cap ch + length (received c (hubRun before r)))%nat) ->
        l = publishedTo c (subscribed c (hr_hub r)) evs).
Proof.
  revert r ch. induction evs as [|ev evs IH]; intros r ch Hf Hc.
  { exists ch, []. rewrite app_nil_r. split_and!; done. }
  apply Forall_cons in Hf as [Hev Hf]. destruct (hub_step_channel c ev r ch Hev Hc) as (ch1 & Hc1 & Hcap & Hq & Hs).
  destruct (IH _ _ Hf Hc1) as (ch' & l & Hc' & Hq' & Hl & Hall). rewrite Hs in *. rewrite published_step.
  change (hubRun (ev :: evs) r) with (hubRun evs (hubStep ev r)).
  exists ch', (addedTo c ev (hr_hub r) ch ++ l). split_and!; [done|by rewrite Hq', app_assoc, Hq, <- !app_assoc| |].
  - apply sublist_app; [|done]. destruct ev as [| | |n|]; try done. cbn. destruct (subscribed c (hr_hub r)); [|done]. cbn.
    destruct (_ <? _)%nat; [done|apply sublist_nil_l].
  - intros Hroom.
    assert (addedTo c ev (hr_hub r) ch = match ev with HubNotify n => if subscribed c (hr_hub r) then [n] else [] | _ => [] end) as Hadd.
    { destruct ev as [| | |n|]; try done. cbn. destruct (subscribed c (hr_hub r)) eqn:Es; [|done]. cbn.
      destruct (Nat.ltb_spec (length (ch_queue ch)) (ch_cap ch)); [done|].
      specialize (Hroom [HubNotify n] evs eq_refl). rewrite published_step, !length_app in Hroom. cbn in Hroom.
      assert (received c (hubStep (HubNotify n) r) = received c r) as E by by destruct r. rewrite E in Hroom. lia. }
    rewrite Hadd. f_equal. apply Hall. intros before after ->.
    specialize (Hroom (ev :: before) after eq_refl). rewrite published_step in Hroom.
    change (hubRun (ev :: before) r) with (hubRun before (hubStep ev r)) in Hroom.
    rewrite Hcap, Hq, Hadd. rewrite !length_app in *. lia.
Qed.

(** C39: a subscriber receives notifications in the order of their publication: what it
    has received and what waits in its channel are a subsequence of what was published
    while it was subscribed, and nothing is missing if it was never more than its buffer
    behind. *)
Theorem notifications_in_order (c : nat) (buffer : Z) (evs : list hubEvent) (h : Hub) (got : gmap nat (list Notification)) :
  got !! c = None -> Forall (not_renewed c) evs ->
  let r := hubRun evs (mkHubRun (Subscribe c buffer false h) got) in
  exists ch, hb_channels (hr_hub r) !! c = Some ch
    /\ (received c r ++ ch_queue ch) `sublist_of` publishedTo c true evs
    /\ ((forall before after, evs = before ++ after ->
           (length (publishedTo c true before)
            <= bufferSize buffer + length (received c (hubRun before (mkHubRun (Subscribe c buffer false h) got))))%nat) ->
        received c r ++ ch_queue ch = publishedTo c true evs).
Proof.
  cbv zeta. intros Hgot Hf. set (r0 := mkHubRun (Subscribe c buffer false h) got).
  assert (hb_channels (hr_hub r0) !! c = Some (mkChannel (bufferSize buffer) [] false)) as Hc by (cbn; apply lookup_insert_eq).
  assert (subscribed c (hr_hub r0) = true) as Hs by (apply bool_decide_eq_true; cbn; set_solver).
  assert (received c r0 = []) as Hr by (unfold received; cbn [r0 hr_received]; by rewrite Hgot).
  destruct (hub_delivery c evs r0 _ Hf Hc) as (ch & l & Hc' & Hq & Hl & Hall). rewrite Hs, Hr in *. cbn in Hq.
  exists ch. rewrite Hq. split_and!; [done|done|]. intros Hroom. apply Hall. intros before after E. cbn [app length]. by apply (Hroom before after).
Qed.

Lemma notifications_in_order_witness :
  let n k := mkNotification "aria2.onDownloadStart" "g" k in
  let evs := [HubNotify (n 1); HubSubscribe 8 0 false; HubReceive 7; HubNotify (n 2); HubCancel 7; HubNotify (n 3); HubReceive 7] in
  received 7 (hubRun evs (mkHubRun (Subscribe 7 1 false noHub) ∅)) = [n 1; n 2].
Proof.
  cbv zeta. set (n := fun k => mkNotification "aria2.onDownloadStart" "g" k).
  set (evs := [HubNotify (n 1); HubSubscribe 8 0 false; HubReceive 7; HubNotify (n 2); HubCancel 7; HubNotify (n 3); HubReceive 7]).
  assert (Forall (not_renewed 7) evs) as Hf by (repeat constructor; discriminate).
  destruct (notifications_in_order 7 1 evs noHub ∅ (lookup_empty 7%nat) Hf) as (ch & Hc & _ & T).
  vm_compute in Hc. injection Hc as <-. rewrite app_nil_r in T. apply T.
  intros before after E. assert (before = take (length before) evs) as -> by (rewrite E, take_app_length; reflexivity).
  assert (length before <= 7)%nat as Hk by (apply (f_equal (@length _)) in E; rewrite length_app in E; cbn in E; lia).
  revert Hk. generalize (length before) as k. clear. intros k Hk. do 8 (destruct k as [|k]; [vm_compute; lia|]). lia.
Defined.
