(* ===== verification/Server.v ===== *)
(** * The HTTP server of the RPC layer ([jsonrpc/server.go])

    The decisions of the endpoint: what a request carries (the body of a POST, the query
    of a GET), its size limits, JSONP callbacks, and the answer; and the check of a
    WebSocket's origin.  The marshalling of replies is a parameter; the sessions of
    WebSockets are in [WebSocket]. *)
From S2P Require Import Prelude GoStrings GoURL GoNet Text Base64 Json JsonRaw State Rpc.

(** ** Configuration *)

Definition DefaultAddr : string := "127.0.0.1:6800".
Definition DefaultPath : string := "/jsonrpc".
Definition DefaultMaxRequestSize : Z := 2097152.
Definition maxJSONPCallbackSize : Z := 256.
Definition maxWebSocketConnections : Z := 256.

Record Config := mkConfig { cf_Addr : string; cf_Path : string; cf_MaxRequestSize : Z; cf_Secret : string }.

Definition normalizePath (path : string) : string :=
  if String.eqb path "" then DefaultPath
  else if negb (HasPrefix path "/") then "/" +:+ path
  else path.

(** [NewServer]: the address, path and limit it serves with. *)
Record ServerConfig := mkServerConfig { sc_addr : string; sc_path : string; sc_maxBody : Z; sc_secret : string }.

Definition NewServer (cfg : Config) : ServerConfig :=
  mkServerConfig
    (if String.eqb (cf_Addr cfg) "" then DefaultAddr else cf_Addr cfg)
    (normalizePath (cf_Path cfg))
    (if cf_MaxRequestSize cfg <=? 0 then DefaultMaxRequestSize else cf_MaxRequestSize cfg)
    (cf_Secret cfg).

(** ** Limits *)

Definition requestQueryLimit (maxBody : Z) : Z :=
  let overhead := 65536 in
  if Z.quot (max_int64 - overhead) 4 <? maxBody then max_int64 else maxBody * 4 + overhead.

(** An [int] has 64 bits. *)
Definition requestHeaderLimit (maxBody : Z) : Z :=
  let limit := requestQueryLimit maxBody in
  if max_int64 <? limit then max_int64
  else if limit <? 1048576 then 1048576
  else limit.

(** ** JSONP callbacks *)

Definition identStart (a : ascii) : bool := is_alpha a || Ascii.eqb a "_" || Ascii.eqb a "$".
Definition identPart (a : ascii) : bool := is_alpha a || is_digit a || Ascii.eqb a "_" || Ascii.eqb a "$".

(** A rune that is no ASCII byte is refused at any place, and so is each of its bytes. *)
Definition validJSIdentifier (s : string) : bool :=
  match s with
  | "" => false
  | String a s' => identStart a && forall_byte identPart s'
  end.

Definition validJSONPCallback (callback : string) : bool := forallb validJSIdentifier (Split callback ".").

(** ** GET payloads *)

(** What the standard library says of a text it cannot encode or decode. *)
Class ErrorTexts := { MarshalError : string -> error; CorruptInputError : string -> error }.

Definition JSONValid (s : string) : bool :=
  match rawValue s with Some (_, rest) => requireJSONEOF rest | None => false end.

(** [json.Marshal] of a raw message: valid JSON without its spaces; the angle brackets,
    ampersands and line separators of its strings are escaped.  [inString] and [escaped]
    say where the text starts. *)
Fixpoint compactJSON (inString escaped : bool) (s : string) : string :=
  match s with
  | "" => ""
  | String a s' =>
      if ContainsByte "<>&" a then
        String "\" ("u00" +:+ String (hex_lower (byteZ a / 16)) (String (hex_lower (byteZ a mod 16)) (compactJSON inString false s')))
      else
        let plain :=
          if inString then
            if escaped then String a (compactJSON true false s')
            else if Ascii.eqb a "\" then String a (compactJSON true true s')
            else String a (compactJSON (negb (Ascii.eqb a quote_char)) false s')
          else if json_space a then compactJSON false false s'
          else String a (compactJSON (Ascii.eqb a quote_char) false s') in
        match s' with
        | String b (String c s'') =>
            if (byteZ a =? 226) && (byteZ b =? 128) && ((byteZ c =? 168) || (byteZ c =? 169)) then
              "\u202" +:+ String (hex_lower (byteZ c mod 16)) (compactJSON inString false s'')
            else plain
        | _ => plain
        end
  end.

Definition marshalRaw `{ErrorTexts} (raw : RawMessage) : result string :=
  if JSONValid raw then Ok (compactJSON false false raw) else Err (MarshalError raw).

Definition decodeGETParams `{ErrorTexts} (params : string) : result string :=
  let trimmed := TrimSpace params in
  if JSONValid trimmed then Ok trimmed
  else match DecodeString StdEncoding params with Some s => Ok s | None => Err (CorruptInputError params) end.

(** [json.Marshal] of the call: the keys of a map come in order. *)
Definition callText (id : option string) (method params : string) : string :=
  let field key v := json_quote key +:+ ":" +:+ v in
  "{" +:+ Join (match id with Some id => [field "id" (json_quote id)] | None => [] end
                ++ [field "jsonrpc" (json_quote "2.0"); field "method" (json_quote method); field "params" params]) ","
      +:+ "}".

Definition buildGETPayload `{ErrorTexts} (rawQuery : string) : result string :=
  let q := ParseQuery rawQuery in
  let encoded := queryGet "params" q in
  let! decoded := if String.eqb encoded "" then Ok "" else decodeGETParams encoded in
  let method := queryGet "method" q in
  if String.eqb method "" then
    if String.eqb decoded "" then Err (EText "missing method or params") else Ok decoded
  else
    let params := if String.eqb decoded "" then "[]" else decoded in
    let! compacted := marshalRaw params in
    if startsWith "[" params then Ok (callText (queryFirst "id" q) method compacted)
    else Err (EText "params must be a JSON array").

(** ** The endpoint *)

(** A request: [hr_Upgrade] is [websocket.IsWebSocketUpgrade]; the body it delivers, and
    what its reading ends with when that is no end of file. *)
Record HTTPRequest := mkHTTPRequest {
  hr_Upgrade : bool; hr_Method : string; hr_RawQuery : string;
  hr_Body : string; hr_BodyErr : option error;
  hr_Origin : string; hr_Host : string; hr_TLS : bool
}.

Record HTTPAnswer := mkHTTPAnswer { an_Status : Z; an_Type : string; an_Allow : string; an_Body : string }.

Definition newline : string := String (ascii_of_N 10) "".
Definition httpError (msg : string) (status : Z) : HTTPAnswer :=
  mkHTTPAnswer status "text/plain; charset=utf-8" "" (msg +:+ newline).

Definition tooLarge : HTTPAnswer := httpError "request too large" 413.

(** The payload a request carries, or the answer that refuses it. *)
Definition receivePayload `{ErrorTexts} (maxBody : Z) (r : HTTPRequest) : HTTPAnswer + string :=
  if String.eqb (hr_Method r) "POST" then
    if maxBody <? len (hr_Body r) then inl tooLarge
    else match hr_BodyErr r with Some err => inl (httpError (errorText err) 400) | None => inr (hr_Body r) end
  else if String.eqb (hr_Method r) "GET" then
    if requestQueryLimit maxBody <? len (hr_RawQuery r) then inl tooLarge
    else match buildGETPayload (hr_RawQuery r) with
         | Err err => inl (httpError (errorText err) 400)
         | Ok payload => if maxBody <? len payload then inl tooLarge else inr payload
         end
  else inl (mkHTTPAnswer 405 "text/plain; charset=utf-8" "GET, POST" ("method not allowed" +:+ newline)).

Section endpoint.
Context {texts : ErrorTexts} {St : Type} {api : RPCEngine St} (encode : reply -> string).

(** [handleJSONRPC] of a request that is no upgrade. *)
Definition handleJSONRPC (cfg : ServerConfig) (r : HTTPRequest) (st : St) : HTTPAnswer * St :=
  let callback := queryGet "jsoncallback" (ParseQuery (hr_RawQuery r)) in
  if maxJSONPCallbackSize <? len callback then (httpError "jsoncallback too large" 413, st)
  else if negb (String.eqb callback "") && negb (validJSONPCallback callback) then (httpError "invalid jsoncallback" 400, st)
  else match receivePayload (sc_maxBody cfg) r with
  | inl refused => (refused, st)
  | inr payload =>
      match HandlePayload (sc_secret cfg) payload st with
      | (None, st) => (mkHTTPAnswer 204 "" "" "", st)
      | (Some response, st) =>
          (if negb (String.eqb callback "") then
             mkHTTPAnswer 200 "application/javascript; charset=utf-8" "" (callback +:+ "(" +:+ encode response +:+ ");")
           else mkHTTPAnswer 200 "application/json; charset=utf-8" "" (encode response), st)
      end
  end.
End endpoint.

(** ** Origins *)

Definition canonicalOriginHost (rawHost scheme : string) : option string :=
  let host := Hostname rawHost in
  if String.eqb host "" then None
  else
    let port := Port rawHost in
    let port := if String.eqb port "" then if String.eqb scheme "https" then "443" else "80" else port in
    Some (JoinHostPort (ToLower host) port).

Definition sameWebSocketOrigin (r : HTTPRequest) : bool :=
  if String.eqb (hr_Origin r) "" then true
  else match parse (hr_Origin r) with
  | None => false
  | Some u =>
      if String.eqb (u_Host u) "" then false
      else
        let expectedScheme := if hr_TLS r then "https" else "http" in
        if negb (EqualFold (u_Scheme u) expectedScheme) then false
        else match canonicalOriginHost (u_Host u) expectedScheme, canonicalOriginHost (hr_Host r) expectedScheme with
        | Some originHost, Some requestHost => EqualFold originHost requestHost
        | _, _ => false
        end
  end.

(** The check of the upgrader. *)
Definition CheckOrigin (cfg : ServerConfig) (r : HTTPRequest) : bool :=
  negb (String.eqb (sc_secret cfg) "") || sameWebSocketOrigin r.
