(* ===== verification/ServerSpec.v ===== *)
(** * What the HTTP endpoint promises ([jsonrpc/server.go])

    A refused request leaves the engine alone; a GET request is the POST of the call it
    spells, and every payload the limit allows can be sent by GET; a script answer calls
    nothing but the callback. *)
From S2P Require Import Prelude GoStrings GoPath GoURL GoNet Text Base64 Json JsonRaw State Rpc RpcSpec Server.

(** ** Lemmas: queries *)

Lemma pair_no (c : ascii) (kv : string * string) :
  c = "&"%char \/ c = ";"%char -> ContainsByte (QueryEscape kv.1 +:+ "=" +:+ QueryEscape kv.2) c = false.
Proof.
  intros Hc. rewrite !ContainsByte_app, !QueryEscape_no by (cbn; naive_solver). by destruct Hc as [-> | ->].
Qed.

Lemma queryPair_escape (kv : string * string) :
  queryPair (QueryEscape kv.1 +:+ "=" +:+ QueryEscape kv.2) = Some kv.
Proof.
  unfold queryPair. rewrite pair_no by by right. cbn [orb].
  assert (String.eqb (QueryEscape kv.1 +:+ "=" +:+ QueryEscape kv.2) "" = false) as -> by by destruct (QueryEscape kv.1).
  change ("=" +:+ QueryEscape kv.2) with (String "=" (QueryEscape kv.2)).
  rewrite Cut_app by (apply QueryEscape_no; cbn; auto).
  rewrite !QueryUnescape_Escape. by destruct kv.
Qed.

Lemma ParseQuery_text (pairs : list (string * string)) :
  pairs <> [] -> (length pairs <= 10000)%nat -> ParseQuery (queryText pairs) = pairs.
Proof.
  intros Hne Hn. unfold ParseQuery, queryText.
  rewrite Split_Join; [|by destruct pairs|apply Forall_fmap, Forall_true; intros kv; apply pair_no; by left].
  rewrite length_map. unfold maxQueryParams. destruct (Nat.ltb_spec 10000 (length pairs)); [lia|].
  clear. induction pairs as [|kv pairs IH]; [done|]. cbn [map omap list_omap]. by rewrite queryPair_escape, IH.
Qed.

(** ** Lemmas: payloads of a GET *)

Lemma encode_length (m : b64mode) (s : string) : padded m = true -> len (b64encode m s) = EncodedLen (len s).
Proof.
  intros Hm. unfold len, EncodedLen. induction s as [|a|a b|a b c s IH] using three_ind.
  1-3: cbn [b64encode]; unfold pad_if; rewrite ?Hm; reflexivity.
  cbn [b64encode]. cbn [String.length] in *. rewrite !Nat2Z.inj_succ in *. rewrite IH.
  replace (Z.succ (Z.succ (Z.succ (Z.of_nat (String.length s)))) + 2) with (Z.of_nat (String.length s) + 2 + 1 * 3) by lia.
  rewrite Z.div_add by lia. lia.
Qed.

(** The first byte of a base64 text is that of six bits. *)
Lemma encode_first (m : b64mode) (a : ascii) (s : string) : exists t, b64encode m (String a s) = String (b64_char m (byteZ a / 4)) t.
Proof. destruct s as [|b [|c s]]; cbn [b64encode]; by eexists. Qed.

Lemma encoded_not_json (p : string) :
  HasPrefix p "{" || HasPrefix p "[" = true -> JSONValid (EncodeToString StdEncoding p) = false.
Proof.
  destruct p as [|a p]; [done|]. intros Hp. unfold EncodeToString. destruct (encode_first StdEncoding a p) as [t ->].
  assert (a = "{"%char \/ a = "["%char) as [-> | ->].
  { apply orb_true_iff in Hp as [Hp|Hp]; cbn [HasPrefix] in Hp; apply andb_true_iff in Hp as [Hp _]; apply Ascii.eqb_eq in Hp as <-; auto. }
  all: reflexivity.
Qed.

Lemma decode_encoded {texts : ErrorTexts} (p : string) :
  HasPrefix p "{" || HasPrefix p "[" = true -> decodeGETParams (EncodeToString StdEncoding p) = Ok p.
Proof.
  intros Hp. unfold decodeGETParams. rewrite TrimSpace_plain by apply EncodeToString_plain.
  rewrite encoded_not_json by done. by rewrite DecodeString_EncodeToString.
Qed.

Lemma encode_nonempty (m : b64mode) (p : string) : p <> "" -> EncodeToString m p <> "".
Proof. destruct p as [|a p]; [done|]. intros _. unfold EncodeToString. by destruct (encode_first m a p) as [t ->]. Qed.

Lemma query_limit (maxBody n : Z) : 0 <= n <= max_int64 -> n <= 4 * maxBody + 65536 -> n <= requestQueryLimit maxBody.
Proof. intros Hn Hm. unfold requestQueryLimit. destruct (Z.ltb_spec (Z.quot (max_int64 - 65536) 4) maxBody); lia. Qed.

Definition paramsQuery (payload : string) : string := queryText [("params", EncodeToString StdEncoding payload)].

Lemma params_query_length (p : string) : len (paramsQuery p) <= 4 * len p + 15.
Proof.
  assert (paramsQuery p = "params=" +:+ QueryEscape (EncodeToString StdEncoding p)) as -> by reflexivity.
  unfold len at 1. rewrite str_app_length. change (String.length "params=") with 7%nat.
  pose proof (QueryEscape_length (EncodeToString StdEncoding p)) as H. unfold EncodeToString in *.
  rewrite (encode_length StdEncoding) in H by done. unfold EncodedLen, len in *.
  pose proof (Z.mul_div_le (Z.of_nat (String.length p) + 2) 3 ltac:(lia)). lia.
Qed.

(** The limit on a GET query leaves room for every payload the limit on bodies
    allows: sent in base64 as [params], escaped for the URL, a JSON object or array of
    up to that many bytes reaches the handler as it is. *)
Theorem get_payload_reachable {texts : ErrorTexts} (maxBody : Z) (payload : string) (r : HTTPRequest) :
  HasPrefix payload "{" || HasPrefix payload "[" = true -> len payload <= maxBody ->
  hr_Method r = "GET" -> hr_RawQuery r = paramsQuery payload -> len (hr_RawQuery r) <= max_int64 ->
  receivePayload maxBody r = inr payload.
Proof.
  intros Hp Hlen Hm Hq Hint. unfold receivePayload. rewrite Hm, Hq in *. cbn [String.eqb Ascii.eqb Bool.eqb].
  pose proof (params_query_length payload).
  assert (requestQueryLimit maxBody <? len (paramsQuery payload) = false) as ->.
  { apply Z.ltb_ge, query_limit; [|lia]. unfold len in *. lia. }
  assert (buildGETPayload (paramsQuery payload) = Ok payload) as ->.
  { unfold buildGETPayload, paramsQuery. rewrite ParseQuery_text by (done || (cbn; lia)).
    change (queryGet "params" [("params", ?v)]) with v. change (queryGet "method" [("params", ?v)]) with "".
    assert (payload <> "") as Hne by by intros ->.
    rewrite (eqb_empty (EncodeToString _ _)) by by apply encode_nonempty. rewrite decode_encoded by done.
    cbn [result_bind String.eqb]. by rewrite eqb_empty. }
  by destruct (Z.ltb_spec maxBody (len payload)); [lia|].
Qed.

(** ** Lemmas: encoded values are compact *)

Lemma compact_byte (inString escaped : bool) (a : ascii) (s : string) :
  ascii_byte a = true -> ContainsByte "<>&" a = false ->
  compactJSON inString escaped (String a s)
  = if inString then
      if escaped then String a (compactJSON true false s)
      else if Ascii.eqb a "\" then String a (compactJSON true true s)
      else String a (compactJSON (negb (Ascii.eqb a quote_char)) false s)
    else if json_space a then compactJSON false false s
    else String a (compactJSON (Ascii.eqb a quote_char) false s).
Proof.
  intros Ha Hh. cbn [compactJSON]. rewrite Hh.
  assert (byteZ a =? 226 = false) as ->.
  { apply Z.eqb_neq. unfold ascii_byte in Ha. apply N.ltb_lt in Ha. unfold byteZ. lia. }
  by destruct s as [|b [|c s]].
Qed.

Ltac compact_bytes := repeat (rewrite compact_byte by reflexivity; cbv iota; repeat match goal with
  |- context [Ascii.eqb ?x ?y] => let v := eval vm_compute in (Ascii.eqb x y) in change (Ascii.eqb x y) with v end; cbv iota; cbn [negb]).

Lemma compact_escape (a : ascii) (t : string) :
  ascii_byte a = true -> compactJSON true false (json_escape a +:+ t) = json_escape a +:+ compactJSON true false t.
Proof.
  intros Ha. destruct a as [[] [] [] [] [] [] [] []]; try discriminate Ha; clear Ha.
  all: match goal with |- context [json_escape ?a] => let v := eval vm_compute in (json_escape a) in change (json_escape a) with v end.
  all: rewrite !str_app_cons, !str_app_nil_l; compact_bytes; reflexivity.
Qed.

Lemma compact_body (s t : string) :
  ascii_text s = true ->
  compactJSON true false (json_body (String.length s) s +:+ t) = json_body (String.length s) s +:+ compactJSON true false t.
Proof.
  unfold ascii_text. induction s as [|a s IH]; [done|]. cbn [forall_byte]. intros [Ha Hs]%andb_true_iff.
  cbn [String.length json_body]. assert (byteZ a <? 128 = true) as ->.
  { apply Z.ltb_lt. unfold ascii_byte in Ha. apply N.ltb_lt in Ha. unfold byteZ. lia. }
  by rewrite str_app_assoc, compact_escape, IH, str_app_assoc by done.
Qed.

(** A value that compaction leaves as it is, whatever follows it. *)
Definition compact_value (v : string) : Prop :=
  forall t, compactJSON false false (v +:+ t) = v +:+ compactJSON false false t.

Lemma compact_quote (s : string) : ascii_text s = true -> compact_value (json_quote s).
Proof.
  intros Hs t. unfold json_quote. rewrite !str_app_cons, compact_byte by reflexivity.
  change (json_space quote_char) with false. change (Ascii.eqb quote_char quote_char) with true. cbv iota. f_equal.
  rewrite !str_app_assoc, compact_body by done. f_equal. rewrite !str_app_cons, !str_app_nil_l, compact_byte by reflexivity.
  by change (Ascii.eqb quote_char quote_char) with true.
Qed.

Lemma compact_join (vs : list string) : Forall compact_value vs -> compact_value (Join vs ",").
Proof.
  intros Hv. induction Hv as [|v vs Hv Hvs IH]; [done|]. destruct vs as [|w vs]; [exact Hv|]. intros t.
  change (Join (v :: w :: vs) ",") with (v +:+ "," +:+ Join (w :: vs) ","). rewrite !str_app_assoc, Hv. f_equal.
  rewrite !str_app_cons, !str_app_nil_l, compact_byte by reflexivity.
  change (json_space ",") with false. change (Ascii.eqb "," quote_char) with false. cbv iota. f_equal. apply IH.
Qed.

Lemma compact_array (vs : list string) : Forall compact_value vs -> compact_value (arrayText vs).
Proof.
  intros Hv t. unfold arrayText. rewrite !str_app_assoc, !str_app_cons, !str_app_nil_l, compact_byte by reflexivity.
  change (json_space "[") with false. change (Ascii.eqb "[" quote_char) with false. cbv iota. f_equal.
  rewrite (compact_join vs Hv). f_equal. rewrite compact_byte by reflexivity. reflexivity.
Qed.

(** A value as a client writes it: ASCII, of nesting depth at most [k], without spaces
    between its tokens. *)
Definition client_value (k : Z) (v : string) : Prop := ascii_text v = true /\ scans k v /\ compact_value v.

Lemma client_quote (s : string) : ascii_text s = true -> client_value 0 (json_quote s).
Proof. intros Hs. split_and!; [by apply json_quote_ascii|by apply scans_quote|by apply compact_quote]. Qed.

Lemma arrayText_ascii (vs : list string) : Forall (fun v => ascii_text v = true) vs -> ascii_text (arrayText vs) = true.
Proof.
  intros Hv. unfold arrayText, ascii_text. rewrite !forall_byte_app. repeat (apply andb_true_iff; split); try done. by apply Join_ascii.
Qed.

Lemma client_array (k : Z) (vs : list string) : 0 <= k -> Forall (client_value k) vs -> client_value (k + 1) (arrayText vs).
Proof.
  intros Hk Hv. split_and!.
  - apply arrayText_ascii. eapply Forall_impl; [exact Hv|]. by intros v (? & _).
  - apply scans_array; [done|]. eapply Forall_impl; [exact Hv|]. by intros v (_ & ? & _).
  - apply compact_array. eapply Forall_impl; [exact Hv|]. by intros v (_ & _ & ?).
Qed.

Lemma client_deeper (k l : Z) (v : string) : k <= l -> client_value k v -> client_value l v.
Proof. intros Hk (H1 & [H2 H3] & H4). split_and!; try done. split; [done|]. intros fuel d t Hf Hd. apply H3; [done|lia]. Qed.

Lemma marshal_client {texts : ErrorTexts} (k : Z) (v : string) : client_value k v -> k <= maxNestingDepth -> marshalRaw v = Ok v.
Proof.
  intros (_ & Hs & Hc) Hk. unfold marshalRaw, JSONValid. pose proof (rawValue_scans k v "" Hs Hk) as H. rewrite str_app_nil_r in H.
  rewrite H. change (requireJSONEOF "") with true. cbv iota. specialize (Hc ""). by rewrite !str_app_nil_r in Hc; rewrite Hc.
Qed.

Lemma array_trim (vs : list string) : Forall (fun v => ascii_text v = true) vs -> TrimSpace (arrayText vs) = arrayText vs.
Proof.
  intros Hv. unfold TrimSpace, arrayText. rewrite !str_app_cons, str_app_nil_l. rewrite trim_left_id by by apply lead_space_plain.
  rewrite <- str_app_cons. apply trim_right_ascii_app; [|done]. cbn [forall_byte]. by apply Join_ascii.
Qed.

Lemma HasPrefix_empty (s : string) : HasPrefix s "" = true.
Proof. by destruct s. Qed.

Lemma array_starts (vs : list string) : Forall (fun v => ascii_text v = true) vs -> startsWith "[" (arrayText vs) = true.
Proof. intros Hv. unfold startsWith. rewrite array_trim by done. apply HasPrefix_empty. Qed.

Lemma parse_call_text (k : Z) (id method : string) (params : list string) :
  ascii_text id = true -> len id <= 64 -> ascii_text method = true -> Forall (client_value k) params -> 0 <= k ->
  k + 1 <= maxNestingDepth -> (length params <= 8)%nat ->
  parseCall (callText (Some id) method (arrayText params)) = (mkCall "2.0" method params (Some (json_quote id)), None).
Proof.
  intros Hi Hil Hm Hp Hk Hk' Hn.
  assert (Forall (scans k) params) as Hs by (eapply Forall_impl; [exact Hp|]; by intros v (_ & ? & _)).
  eapply (parse_object k _ _ _ _ (<["params" := arrayText params]> (<["method" := json_quote method]>
            (<["jsonrpc" := json_quote "2.0"]> (<["id" := json_quote id]> ∅))))); try done.
  { eapply Forall_impl; [exact Hp|]. by intros v (? & _). }
  unfold decodeRawObjectLimited, callText, maxRPCObjectFields. cbn [Join app].
  change (CutPrefix (skip_space ("{" +:+ ?x)) "{") with (CutPrefix x "").
  rewrite CutPrefix_empty. fold (fieldText "id" (json_quote id)). fold (fieldText "jsonrpc" (json_quote "2.0")).
  fold (fieldText "method" (json_quote method)). fold (fieldText "params" (arrayText params)). rewrite !str_app_assoc.
  assert (forall t, objectFields 16 true ∅ (fieldText "id" (json_quote id) +:+ t)
            = objectFields 15 false (<["id" := json_quote id]> ∅) t) as ->.
  { intros t. apply (objectFields_step 0 15 true); first [done | by apply scans_quote]. }
  rewrite (objectFields_step 0 14 false) by first [done | by apply scans_quote].
  rewrite (objectFields_step 0 13 false) by first [done | by apply scans_quote].
  rewrite (objectFields_step (k + 1) 12 false) by first [done | by apply scans_array]. done.
Qed.

Lemma call_text_trim (id method : string) (params : list string) :
  ascii_text id = true -> ascii_text method = true -> Forall (fun s => ascii_text s = true) params ->
  TrimSpace (callText (Some id) method (arrayText params)) = callText (Some id) method (arrayText params).
Proof.
  intros Hi Hm Hp. unfold TrimSpace, callText. rewrite !str_app_cons, str_app_nil_l.
  rewrite trim_left_id by by apply lead_space_plain. rewrite <- str_app_cons. apply trim_right_ascii_app; [|done].
  cbn [forall_byte andb]. change (ascii_byte "{") with true. cbn [andb]. apply Join_ascii; [|done].
  repeat constructor; unfold ascii_text; rewrite !forall_byte_app;
    repeat (apply andb_true_iff; split); try done; try by apply json_quote_ascii. by apply arrayText_ascii.
Qed.

(** Two texts of the same call are handled alike. *)
Lemma handled_alike {St : Type} {api : RPCEngine St} (secret text text' : string) (st : St) :
  TrimSpace text = text -> TrimSpace text' = text' -> HasPrefix text "{" = true -> HasPrefix text' "{" = true ->
  parseCall text = parseCall text' -> HandlePayload secret text st = HandlePayload secret text' st.
Proof.
  intros Ht Ht' Hp Hp' E. unfold HandlePayload. cbv zeta. rewrite Ht, Ht'.
  assert (forall s, HasPrefix s "{" = true -> String.eqb s "" = false /\ HasPrefix s "[" = false) as H.
  { intros [|a s]; [done|]. cbn [HasPrefix]. intros [Ha _]%andb_true_iff. by apply Ascii.eqb_eq in Ha as <-. }
  destruct (H text Hp) as [-> ->], (H text' Hp') as [-> ->]. unfold handleOne. by rewrite E.
Qed.

(** C37: a call spelled in a query is the call a client would POST: with the method, the
    id and the parameters, as JSON or in base64, escaped for the URL, the engine makes
    the same step and the answer is the same. *)
Theorem get_request_answers_as_post {texts : ErrorTexts} {St : Type} {api : RPCEngine St} (k : Z)
    (secret id method encoded : string) (params : list string) (st : St) :
  ascii_text id = true -> len id <= 64 -> ascii_text method = true -> method <> "" ->
  Forall (client_value k) params -> 0 <= k -> k + 1 <= maxNestingDepth -> (length params <= 8)%nat ->
  encoded = arrayText params \/ encoded = EncodeToString StdEncoding (arrayText params) ->
  exists payload, buildGETPayload (queryText [("id", id); ("method", method); ("params", encoded)]) = Ok payload
    /\ HandlePayload secret payload st = HandlePayload secret (requestText id method params) st.
Proof.
  intros Hi Hil Hm Hne Hp Hk Hk' Hn Henc.
  assert (Forall (fun v => ascii_text v = true) params) as Ha by (eapply Forall_impl; [exact Hp|]; by intros v (? & _)).
  assert (Forall (scans k) params) as Hs by (eapply Forall_impl; [exact Hp|]; by intros v (_ & ? & _)).
  pose proof (client_array k params Hk Hp) as Harr.
  assert (decodeGETParams encoded = Ok (arrayText params)) as Hdec.
  { destruct Henc as [-> | ->].
    - unfold decodeGETParams. rewrite array_trim by done. destruct Harr as (_ & Hsc & _).
      unfold JSONValid. pose proof (rawValue_scans _ _ "" Hsc Hk') as H. rewrite str_app_nil_r in H. by rewrite H.
    - apply decode_encoded. change (HasPrefix (arrayText params) "[") with (HasPrefix (Join params "," +:+ "]") "").
      by rewrite HasPrefix_empty. }
  exists (callText (Some id) method (arrayText params)). split.
  - unfold buildGETPayload. rewrite ParseQuery_text by (done || (cbn; lia)).
    set (q := [_; _; _]). change (queryGet "params" q) with encoded. change (queryGet "method" q) with method.
    change (queryFirst "id" q) with (Some id).
    assert (encoded <> "") as Hne'.
    { destruct Henc as [-> | ->]; [done|]. by apply encode_nonempty. }
    rewrite (eqb_empty encoded), Hdec by done. cbn [result_bind]. rewrite (eqb_empty method) by done.
    change (String.eqb (arrayText params) "") with false. cbv iota. rewrite (marshal_client (k + 1)) by done.
    cbn [result_bind]. by rewrite array_starts.
  - apply handled_alike; [by apply call_text_trim|by apply requestText_ascii|done..|].
    by rewrite (parse_call_text k), (parse_request k).
Qed.

(** ** The grammar of callbacks *)

Definition identifier (s : string) : Prop := exists a s', s = String a s' /\ identStart a = true /\ forall_byte identPart s' = true.

(** Identifiers with dots between them. *)
Inductive callbackName : string -> Prop :=
| CbName s : identifier s -> callbackName s
| CbMember s t : identifier s -> callbackName t -> callbackName (s +:+ "." +:+ t).

Lemma valid_identifier (s : string) : validJSIdentifier s = true <-> identifier s.
Proof.
  destruct s as [|a s]; cbn [validJSIdentifier].
  - split; [done|]. by intros (? & ? & ? & _).
  - split; [intros [H1 H2]%andb_true_iff; by exists a, s|]. intros (? & ? & [= <- <-] & H1 & H2). by rewrite H1, H2.
Qed.

Lemma ident_start_part (a : ascii) : identStart a = true -> identPart a = true.
Proof. unfold identStart, identPart. destruct (is_alpha a), (is_digit a); cbn; auto. Qed.

Lemma identifier_part (s : string) : identifier s -> forall_byte identPart s = true.
Proof. intros (a & s' & -> & H1 & H2). cbn [forall_byte]. by rewrite H2, ident_start_part. Qed.

Lemma identifier_no_dot (s : string) : identifier s -> ContainsByte s "." = false.
Proof.
  intros H%identifier_part. unfold ContainsByte, exists_byte. apply negb_false_iff. eapply forall_byte_impl; [|exact H].
  intros a Ha. apply negb_true_iff. destruct (Ascii.eqb_spec "." a) as [<-|]; [discriminate Ha|done].
Qed.

(** The check accepts exactly the names of the grammar. *)
Lemma valid_callback (s : string) : validJSONPCallback s = true <-> callbackName s.
Proof.
  unfold validJSONPCallback. split.
  - rewrite <- (Join_Split s ".") at 2. destruct (Split s ".") as [|x l] eqn:E.
    { destruct s as [|a s]; [done|]. cbn [Split] in E. destruct (Ascii.eqb a "."); [done|]. by destruct (Split s "."). }
    clear E. intros H. revert x H. induction l as [|y l IH]; intros x; cbn [forallb]; rewrite andb_true_iff, valid_identifier.
    { intros [H _]. by apply CbName. }
    intros [Hx Hl]. change (Join (x :: y :: l) ".") with (x +:+ "." +:+ Join (y :: l) "."). apply CbMember; [done|]. by apply IH.
  - induction 1 as [s Hs|s t Hs Ht IH].
    + rewrite Split_plain by by apply identifier_no_dot. cbn [forallb]. rewrite andb_true_r. by apply valid_identifier.
    + change ("." +:+ t) with (String "." t). rewrite Split_app by by apply identifier_no_dot. cbn [forallb].
      rewrite IH, andb_true_r. by apply valid_identifier.
Qed.

Lemma callback_bytes (s : string) : callbackName s -> forall_byte (fun a => identPart a || Ascii.eqb a ".") s = true.
Proof.
  assert (forall s, identifier s -> forall_byte (fun a => identPart a || Ascii.eqb a ".") s = true) as H.
  { intros x Hx%identifier_part. eapply forall_byte_impl; [|exact Hx]. by intros a ->. }
  induction 1 as [s Hs|s t Hs Ht IH]; [by apply H|]. rewrite !forall_byte_app, IH, H by done. done.
Qed.

(** ** The endpoint *)

Definition refusals : list Z := [400; 405; 413].

(** What is received is within the limit; what is not is refused. *)
Lemma receive_bounded {texts : ErrorTexts} (maxBody : Z) (r : HTTPRequest) :
  match receivePayload maxBody r with
  | inl a => an_Status a ∈ refusals /\ an_Type a = "text/plain; charset=utf-8"
  | inr payload => len payload <= maxBody
  end.
Proof.
  unfold receivePayload, tooLarge, httpError, refusals.
  repeat case_match; simplify_eq; cbn; try (split; [set_solver|done]); zbool; lia.
Qed.

(** The endpoint either refuses a request, with status 400, 405 or 413 and without
    touching the engine, or hands a payload within the limit to the RPC handler, whose
    step is the only effect; it then answers 204 when there is no response and 200 with
    the response otherwise, and as a script the response is the argument of one call of
    the callback, a dotted name of at most 256 bytes. *)
Theorem rpc_endpoint_answers {texts : ErrorTexts} {St : Type} {api : RPCEngine St} (encode : reply -> string)
    (cfg : ServerConfig) (r : HTTPRequest) (st : St) :
  let '(a, st') := handleJSONRPC encode cfg r st in
  (an_Status a ∈ refusals /\ an_Type a = "text/plain; charset=utf-8" /\ st' = st)
  \/ exists payload, receivePayload (sc_maxBody cfg) r = inr payload /\ len payload <= sc_maxBody cfg
       /\ st' = (HandlePayload (sc_secret cfg) payload st).2
       /\ match (HandlePayload (sc_secret cfg) payload st).1 with
          | None => an_Status a = 204 /\ an_Body a = ""
          | Some response =>
              an_Status a = 200
              /\ ((an_Type a = "application/json; charset=utf-8" /\ an_Body a = encode response)
                  \/ (an_Type a = "application/javascript; charset=utf-8"
                      /\ exists callback, callbackName callback /\ len callback <= 256
                         /\ an_Body a = callback +:+ "(" +:+ encode response +:+ ");"))
          end.
Proof.
  unfold handleJSONRPC, maxJSONPCallbackSize. set (callback := queryGet _ _).
  destruct (Z.ltb_spec 256 (len callback)) as [_|Hlen]; [cbv beta iota; left; split_and!; [cbn; set_solver|done..]|].
  destruct (negb (String.eqb callback "") && negb (validJSONPCallback callback)) eqn:Hcb; [cbv beta iota; left; split_and!; [cbn; set_solver|done..]|].
  pose proof (receive_bounded (sc_maxBody cfg) r) as Hr. destruct (receivePayload (sc_maxBody cfg) r) as [a|payload]; [cbv beta iota; left; by destruct Hr|].
  destruct (HandlePayload (sc_secret cfg) payload st) as [[response|] st'] eqn:E; cbv beta iota; right; exists payload; rewrite E; [|by split_and!].
  destruct (String.eqb callback "") eqn:Ec; cbn [negb andb fst snd] in *; split_and!; try done; [by left|right].
  apply negb_false_iff, valid_callback in Hcb. split; [done|]. by exists callback.
Qed.

(** ** An example *)

Definition demoTexts : ErrorTexts := {| MarshalError := fun _ => EText "marshal"; CorruptInputError := fun _ => EText "base64" |}.
Definition demoPayload : string := requestText "1" "aria2.getVersion" [].
Definition demoGet : HTTPRequest := mkHTTPRequest false "GET" (paramsQuery demoPayload) "" None "" "localhost:6800" false.

Lemma get_payload_reachable_witness : @receivePayload demoTexts 100 demoGet = inr demoPayload.
Proof.
  apply (@get_payload_reachable demoTexts 100 demoPayload demoGet);
    [vm_compute; reflexivity|vm_compute; discriminate|vm_compute; reflexivity|vm_compute; reflexivity|vm_compute; discriminate].
Defined.

Lemma get_request_answers_as_post_witness :
  exists payload, @buildGETPayload demoTexts (queryText [("id", "7"); ("method", "aria2.tellStatus");
      ("params", EncodeToString StdEncoding (arrayText [json_quote "0123456789abcdef"]))]) = Ok payload
    /\ @HandlePayload _ demoEngine "" payload []
       = @HandlePayload _ demoEngine "" (requestText "7" "aria2.tellStatus" [json_quote "0123456789abcdef"]) [].
Proof.
  assert (ascii_text "7" = true /\ ascii_text "aria2.tellStatus" = true /\ ascii_text "0123456789abcdef" = true) as (Hi & Hm & Hg)
    by (vm_compute; auto).
  assert (len "7" <= 64) as Hl by (vm_compute; discriminate).
  assert (0 + 1 <= maxNestingDepth) as Hd by (vm_compute; discriminate).
  assert (Forall (client_value 0) [json_quote "0123456789abcdef"]) as Hp by (constructor; [exact (client_quote _ Hg)|constructor]).
  refine (@get_request_answers_as_post demoTexts _ demoEngine 0 "" "7" "aria2.tellStatus" _ [json_quote "0123456789abcdef"] []
    Hi Hl Hm _ Hp _ Hd _ (or_intror eq_refl)); [discriminate|lia|cbn [length]; lia].
Defined.
