(* ===== verification/WebSocket.v ===== *)
(** * WebSocket sessions ([jsonrpc/server.go])

    The sessions of the server as a state machine: every critical section of the registry
    and of a connection, every step of a session's reader and of its notification writer
    is one event, and events interleave in any order.  What the network does (an upgrade
    or a write that fails, a message that arrives) is part of the event. *)
From S2P Require Import Prelude GoStrings State Rpc Notifications Server.

(** ** State *)

(** [webSocketState]. *)
Record wsFlags := mkFlags { ws_handling : bool; ws_closing : bool }.

(** Where the goroutine of a connection stands in [handleWebSocket]; [auth] is
    [authenticated]. *)
Inductive phase :=
| PUpgrading                                     (* [beginWebSocket] allowed it *)
| PUpgraded                                      (* [trackWebSocket] is next *)
| PTracked                                       (* notifications or the read deadline *)
| PReading (auth : bool)                         (* in [ReadMessage] *)
| PReceived (auth : bool) (msg : string)         (* [beginRPC] is next *)
| PHandling (auth : bool) (msg : string)         (* [HandlePayload] is next *)
| PAnswering (auth : bool) (response : option reply)
| PAnswered (auth : bool) (failed : bool)        (* [endRPC] is next *)
| PStopping                                      (* the loop has returned: [stop] *)
| PStopped                                       (* [unsubscribe] *)
| PUnsubscribed                                  (* [writerWG.Wait], [untrackWebSocket] *)
| PEnding.                                       (* [endWebSocket] *)

Inductive frame := FReply (r : reply) | FNotify (n : Notification).

(** The registry, the goroutines by connection, the connections closed and stopped, the
    connections [initiateWebSocketClose] has still to mark, the engine's subscribers with
    the writers that serve them, the engine, and the frames sent. *)
Record Sessions (St : Type) := mkSessions {
  sv_closing : bool; sv_active : Z; sv_tracked : gset nat;
  sv_handlers : gmap nat phase; sv_flags : gmap nat wsFlags;
  sv_closed : gset nat; sv_done : gset nat; sv_marking : list nat;
  sv_hub : Hub; sv_writers : gset nat; sv_engine : St; sv_sent : list (nat * frame)
}.
Arguments mkSessions {St} _ _ _ _ _ _ _ _ _ _ _ _.
Arguments sv_closing {St} _. Arguments sv_active {St} _. Arguments sv_tracked {St} _. Arguments sv_handlers {St} _.
Arguments sv_flags {St} _. Arguments sv_closed {St} _. Arguments sv_done {St} _. Arguments sv_marking {St} _.
Arguments sv_hub {St} _. Arguments sv_writers {St} _. Arguments sv_engine {St} _. Arguments sv_sent {St} _.
#[global] Instance eta_Sessions {St} : Eta (Sessions St) := fun s =>
  mkSessions (sv_closing s) (sv_active s) (sv_tracked s) (sv_handlers s) (sv_flags s) (sv_closed s) (sv_done s)
    (sv_marking s) (sv_hub s) (sv_writers s) (sv_engine s) (sv_sent s).

Definition initialSessions {St} (st : St) : Sessions St := mkSessions false 0 ∅ ∅ ∅ ∅ ∅ [] noHub ∅ st [].

(** ** Events *)

Inductive wsEvent (St : Type) :=
| EvBegin (c : nat)
| EvUpgrade (c : nat) (r : HTTPRequest) (ok : bool)
| EvTrack (c : nat)
| EvStart (c : nat) (deadlineSet : bool)
| EvMessage (c : nat) (msg : string) (deadlineCleared : bool)
| EvReadFails (c : nat)
| EvBeginRPC (c : nat)
| EvHandle (c : nat)
| EvAnswer (c : nat) (ok : bool)
| EvEndRPC (c : nat)
| EvStop (c : nat)
| EvUnsubscribe (c : nat)
| EvUntrack (c : nat)
| EvEnd (c : nat)
| EvInitiate (order : list nat)
| EvMark
| EvForce
| EvWrite (c : nat) (ok : bool)
| EvWriterExits (c : nat)
| EvPublish (n : Notification)
| EvEngine (st : St).
Arguments EvBegin {St} _. Arguments EvUpgrade {St} _ _ _. Arguments EvTrack {St} _. Arguments EvStart {St} _ _.
Arguments EvMessage {St} _ _ _. Arguments EvReadFails {St} _. Arguments EvBeginRPC {St} _. Arguments EvHandle {St} _.
Arguments EvAnswer {St} _ _. Arguments EvEndRPC {St} _. Arguments EvStop {St} _. Arguments EvUnsubscribe {St} _.
Arguments EvUntrack {St} _. Arguments EvEnd {St} _. Arguments EvInitiate {St} _. Arguments EvMark {St}.
Arguments EvForce {St}. Arguments EvWrite {St} _ _. Arguments EvWriterExits {St} _. Arguments EvPublish {St} _.
Arguments EvEngine {St} _.

Section sessions.
Context {St : Type} {api : RPCEngine St} (cfg : ServerConfig).

Definition goto (c : nat) (p : phase) (s : Sessions St) : Sessions St := s <| sv_handlers ::= <[c := p]> |>.

(** [conn.Close] *)
Definition closeConn (c : nat) (s : Sessions St) : Sessions St := s <| sv_closed ::= fun cs => cs ∪ {[c]} |>.
(** [stop] *)
Definition stopConn (c : nat) (s : Sessions St) : Sessions St := closeConn c (s <| sv_done ::= fun cs => cs ∪ {[c]} |>).

Definition flagsOf (c : nat) (s : Sessions St) : wsFlags := default (mkFlags false false) (sv_flags s !! c).
Definition setFlags (c : nat) (f : wsFlags) (s : Sessions St) : Sessions St := s <| sv_flags ::= <[c := f]> |>.

(** [beginWebSocket] *)
Definition beginWebSocket (c : nat) (s : Sessions St) : Sessions St :=
  if sv_closing s || (maxWebSocketConnections <=? sv_active s) then s
  else goto c PUpgrading (s <| sv_active ::= Z.add 1 |>).

(** [endWebSocket] *)
Definition endWebSocket (c : nat) (s : Sessions St) : Sessions St :=
  s <| sv_active ::= fun n => n - 1 |> <| sv_handlers ::= delete c |>.

(** [trackWebSocket], with the return that follows when it refuses. *)
Definition trackWebSocket (c : nat) (s : Sessions St) : Sessions St :=
  if sv_closing s then goto c PEnding (closeConn c s)
  else goto c PTracked (s <| sv_tracked ::= fun cs => cs ∪ {[c]} |>).

Definition untrackWebSocket (c : nat) (s : Sessions St) : Sessions St := s <| sv_tracked ::= fun cs => cs ∖ {[c]} |>.

(** [startNotifications]: the subscription and the goroutine that writes it. *)
Definition startNotifications (c : nat) (s : Sessions St) : Sessions St :=
  s <| sv_hub ::= Subscribe c 64 false |> <| sv_writers ::= fun ws => ws ∪ {[c]} |>.

Definition beginRPC (c : nat) (auth : bool) (msg : string) (s : Sessions St) : Sessions St :=
  if ws_closing (flagsOf c s) then goto c PStopping s
  else goto c (PHandling auth msg) (setFlags c (mkFlags true false) s).

Definition endRPC (c : nat) (auth failed : bool) (s : Sessions St) : Sessions St :=
  let closing := ws_closing (flagsOf c s) in
  let s := setFlags c (mkFlags false closing) s in
  let s := if closing then closeConn c s else s in
  goto c (if failed || closing then PStopping else PReading auth) s.

(** The first section of [initiateWebSocketClose], with the order its map gives. *)
Definition initiateWebSocketClose (order : list nat) (s : Sessions St) : option (Sessions St) :=
  if sv_closing s then Some s
  else if bool_decide (order ≡ₚ elements (sv_tracked s)) then Some (s <| sv_closing := true |> <| sv_marking := order |>)
  else None.

(** One round of its loop. *)
Definition markClosing (c : nat) (s : Sessions St) : Sessions St :=
  let handling := ws_handling (flagsOf c s) in
  let s := setFlags c (mkFlags handling true) s in
  if handling then s else closeConn c s.

Definition forceCloseWebSockets (s : Sessions St) : Sessions St := s <| sv_closed ::= fun cs => cs ∪ sv_tracked s |>.

(** A message that has been read: the secret is looked for until it is found, and then
    the notifications start before the call. *)
Definition receiveMessage (c : nat) (auth : bool) (msg : string) (deadlineCleared : bool) (s : Sessions St) : Sessions St :=
  if negb auth && payloadProvesSecret (sc_secret cfg) msg then
    if deadlineCleared then goto c (PReceived true msg) (startNotifications c s) else goto c PStopping s
  else goto c (PReceived auth msg) s.

(** The write of a response. *)
Definition writeResponse (c : nat) (auth : bool) (response : option reply) (ok : bool) (s : Sessions St) : Sessions St :=
  match response with
  | None => goto c (PAnswered auth false) s
  | Some r =>
      if ok && bool_decide (c ∉ sv_closed s)
      then goto c (PAnswered auth false) (s <| sv_sent ::= fun sent => sent ++ [(c, FReply r)] |>)
      else goto c (PAnswered auth true) s
  end.

(** One round of the writer of [c]. *)
Definition writeNotification (c : nat) (ok : bool) (s : Sessions St) : option (Sessions St) :=
  match receiveFrom c (sv_hub s) with
  | None => None
  | Some (n, hub) =>
      let s := s <| sv_hub := hub |> in
      Some (if ok && bool_decide (c ∉ sv_closed s) then s <| sv_sent ::= fun sent => sent ++ [(c, FNotify n)] |>
            else stopConn c s <| sv_writers ::= fun ws => ws ∖ {[c]} |>)
  end.

(** One step of the goroutine of [c], by its phase. *)
Definition handlerStep (p : phase) (ev : wsEvent St) (s : Sessions St) : option (Sessions St) :=
  match ev, p with
  | EvUpgrade c r ok, PUpgrading =>
      Some (if ok && CheckOrigin cfg r then goto c PUpgraded (setFlags c (mkFlags false false) s) else goto c PEnding s)
  | EvTrack c, PUpgraded => Some (trackWebSocket c s)
  | EvStart c deadlineSet, PTracked =>
      Some (if String.eqb (sc_secret cfg) "" then goto c (PReading true) (startNotifications c s)
            else if deadlineSet then goto c (PReading false) s else goto c PEnding s)
  | EvMessage c msg deadlineCleared, PReading auth =>
      if sc_maxBody cfg <? len msg then None else Some (receiveMessage c auth msg deadlineCleared s)
  | EvReadFails c, PReading _ => Some (goto c PStopping s)
  | EvBeginRPC c, PReceived auth msg => Some (beginRPC c auth msg s)
  | EvHandle c, PHandling auth msg =>
      let '(response, st) := HandlePayload (sc_secret cfg) msg (sv_engine s) in
      Some (goto c (PAnswering auth response) (s <| sv_engine := st |>))
  | EvAnswer c ok, PAnswering auth response => Some (writeResponse c auth response ok s)
  | EvEndRPC c, PAnswered auth failed => Some (endRPC c auth failed s)
  | EvStop c, PStopping => Some (goto c PStopped (stopConn c s))
  | EvUnsubscribe c, PStopped => Some (goto c PUnsubscribed (s <| sv_hub ::= cancelSubscription c |>))
  | EvUntrack c, PUnsubscribed =>
      if bool_decide (c ∈ sv_writers s) then None else Some (goto c PEnding (untrackWebSocket c s))
  | EvEnd c, PEnding => Some (endWebSocket c s)
  | _, _ => None
  end.

(** The connection whose goroutine an event belongs to. *)
Definition handlerOf (ev : wsEvent St) : option nat :=
  match ev with
  | EvUpgrade c _ _ | EvTrack c | EvStart c _ | EvMessage c _ _ | EvReadFails c | EvBeginRPC c | EvHandle c
  | EvAnswer c _ | EvEndRPC c | EvStop c | EvUnsubscribe c | EvUntrack c | EvEnd c => Some c
  | _ => None
  end.

(** A step of the whole; [None] when the event cannot happen. *)
Definition wsStep (s : Sessions St) (ev : wsEvent St) : option (Sessions St) :=
  match handlerOf ev with
  | Some c => match sv_handlers s !! c with Some p => handlerStep p ev s | None => None end
  | None =>
      match ev with
      | EvBegin c =>
          match sv_handlers s !! c, sv_flags s !! c with
          | None, None => Some (beginWebSocket c s)
          | _, _ => None
          end
      | EvInitiate order => initiateWebSocketClose order s
      | EvMark => match sv_marking s with c :: rest => Some (markClosing c (s <| sv_marking := rest |>)) | [] => None end
      | EvForce => Some (forceCloseWebSockets s)
      | EvWrite c ok => if bool_decide (c ∈ sv_writers s) then writeNotification c ok s else None
      | EvWriterExits c =>
          if bool_decide (c ∈ sv_writers s) && (bool_decide (c ∈ sv_done s) || drained c (sv_hub s))
          then Some (s <| sv_writers ::= fun ws => ws ∖ {[c]} |>) else None
      | EvPublish n => Some (s <| sv_hub ::= notify n |>)
      | EvEngine st => Some (s <| sv_engine := st |>)
      | _ => None
      end
  end.

Fixpoint wsRun (s : Sessions St) (evs : list (wsEvent St)) : option (Sessions St) :=
  match evs with
  | [] => Some s
  | ev :: rest => match wsStep s ev with Some s' => wsRun s' rest | None => None end
  end.
End sessions.
