(* ===== verification/WebSocketSpec.v ===== *)
(** * What WebSocket sessions promise

    The registry counts the running sessions and never exceeds its limit; notifications
    go only to connections that have proved the secret; closing lets the calls that have
    begun end, begins no other, and lets every session end after a bounded number of
    steps. *)
From S2P Require Import Prelude GoStrings Text Json State Rpc RpcSpec Notifications Server WebSocket.

(** ** The invariant *)

(** The phases in which the connection is in the registry, has shown the secret, runs a
    call, may have a subscription, and may have a writer. *)
Definition tracking (p : phase) : bool :=
  match p with PUpgrading | PUpgraded | PEnding => false | _ => true end.
Definition authed (p : phase) : bool :=
  match p with
  | PReading auth | PReceived auth _ | PHandling auth _ | PAnswering auth _ | PAnswered auth _ => auth
  | _ => false
  end.
Definition calling (p : phase) : bool :=
  match p with PHandling _ _ | PAnswering _ _ | PAnswered _ _ => true | _ => false end.
Definition subscribing (p : phase) : bool := authed p || match p with PStopping | PStopped => true | _ => false end.
Definition writing (p : phase) : bool := subscribing p || match p with PUnsubscribed => true | _ => false end.

Section invariant.
Context {St : Type} {api : RPCEngine St} (cfg : ServerConfig) (P : nat -> Prop).

(** What holds of a connection; [P] says that it may be notified. *)
Record conn_ok (s : Sessions St) (c : nat) : Prop := {
  ok_tracked : forall p, sv_handlers s !! c = Some p -> tracking p = true -> c ∈ sv_tracked s;
  ok_authed : forall p, sv_handlers s !! c = Some p -> authed p = true -> P c;
  ok_handling : forall p, sv_handlers s !! c = Some p -> ws_handling (flagsOf c s) = calling p;
  ok_marked : forall p, sv_handlers s !! c = Some p -> tracking p = true -> sv_closing s = true ->
    ws_closing (flagsOf c s) = true \/ c ∈ sv_marking s;
  ok_subscribed : c ∈ hb_subscribers (sv_hub s) ->
    P c /\ exists p, sv_handlers s !! c = Some p /\ subscribing p = true;
  ok_writer : c ∈ sv_writers s -> P c /\ exists p, sv_handlers s !! c = Some p /\ writing p = true;
  ok_closed : ws_closing (flagsOf c s) = true -> ws_handling (flagsOf c s) = true \/ c ∈ sv_closed s;
  ok_done : forall p, sv_handlers s !! c = Some p -> p = PStopped \/ p = PUnsubscribed -> c ∈ sv_done s
}.

Record sessions_ok (s : Sessions St) : Prop := {
  ok_count : sv_active s = Z.of_nat (size (sv_handlers s));
  ok_limit : 0 <= sv_active s <= maxWebSocketConnections;
  ok_conns : forall c, conn_ok s c;
  ok_sent : forall c n, (c, FNotify n) ∈ sv_sent s -> P c
}.

Lemma initial_ok (st : St) : sessions_ok (initialSessions st).
Proof.
  split; [done|cbn; unfold maxWebSocketConnections; lia| |].
  - intros c. split; cbn; intros; try done; try set_solver.
  - intros c n. cbn. set_solver.
Qed.

(** A connection keeps what holds of it when a step leaves its parts alone. *)
Lemma conn_frame (s s' : Sessions St) (c : nat) :
  sv_handlers s' !! c = sv_handlers s !! c -> flagsOf c s' = flagsOf c s -> (c ∈ sv_tracked s -> c ∈ sv_tracked s') ->
  (sv_closing s' = true -> sv_closing s = true \/ c ∈ sv_marking s') -> 
  (c ∈ sv_marking s -> c ∈ sv_marking s') ->
  (c ∈ hb_subscribers (sv_hub s') -> c ∈ hb_subscribers (sv_hub s)) -> (c ∈ sv_writers s' -> c ∈ sv_writers s) ->
  (c ∈ sv_closed s -> c ∈ sv_closed s') -> (c ∈ sv_done s -> c ∈ sv_done s') ->
  conn_ok s c -> conn_ok s' c.
Proof.
  intros E1 E2 H1 H2 H3 H4 H5 H6 H7 [I1 I2 I3 I4 I5 I6 I7 I8]. split; rewrite ?E1, ?E2; [eauto|eauto|eauto| |auto|auto| |eauto].
  - intros p Hp Ht Hc. destruct (H2 Hc) as [Hc'|]; [|by right]. destruct (I4 p Hp Ht Hc'); auto.
  - intros Hc. destruct (I7 Hc); auto.
Qed.

(** What a step of the goroutine of [c] leaves alone. *)
Record local_step (c : nat) (p' : phase) (s s' : Sessions St) : Prop := {
  ls_handlers : sv_handlers s' = <[c := p']> (sv_handlers s);
  ls_active : sv_active s' = sv_active s;
  ls_closing : sv_closing s' = sv_closing s;
  ls_marking : sv_marking s' = sv_marking s;
  ls_flags : forall c', c' <> c -> flagsOf c' s' = flagsOf c' s;
  ls_tracked : forall c', c' <> c -> c' ∈ sv_tracked s -> c' ∈ sv_tracked s';
  ls_subs : forall c', c' <> c -> c' ∈ hb_subscribers (sv_hub s') -> c' ∈ hb_subscribers (sv_hub s);
  ls_writers : forall c', c' <> c -> c' ∈ sv_writers s' -> c' ∈ sv_writers s;
  ls_closed : sv_closed s ⊆ sv_closed s';
  ls_done : sv_done s ⊆ sv_done s';
  ls_sent : forall c' n, (c', FNotify n) ∈ sv_sent s' -> (c', FNotify n) ∈ sv_sent s
}.

Lemma local_ok (c : nat) (p' : phase) (s s' : Sessions St) :
  local_step c p' s s' -> is_Some (sv_handlers s !! c) -> sessions_ok s -> conn_ok s' c -> sessions_ok s'.
Proof.
  intros [L1 L2 L3 L4 L5 L6 L7 L8 L9 L10 L11] [p Hp] [I1 I2 I3 I4] Hc. split.
  - rewrite L1, L2, I1. by rewrite map_size_insert_Some by by exists p.
  - by rewrite L2.
  - intros c'. destruct (decide (c' = c)) as [->|Hne]; [done|]. apply (conn_frame s); auto.
    + rewrite L1. by apply lookup_insert_ne.
    + rewrite L3. auto.
    + by rewrite L4.
  - intros c' n H. eapply I4, L11, H.
Qed.

Lemma flags_set (c : nat) (f : wsFlags) (s : Sessions St) : flagsOf c (setFlags c f s) = f.
Proof. unfold flagsOf. cbn. by rewrite lookup_insert_eq. Qed.

Lemma flags_set_ne (c c' : nat) (f : wsFlags) (s : Sessions St) : c' <> c -> flagsOf c' (setFlags c f s) = flagsOf c' s.
Proof. intros Hne. unfold flagsOf. cbn. by rewrite lookup_insert_ne by done. Qed.

Ltac local_step := split; cbn; intros; rewrite ?lookup_insert_ne in * by done; first [done | set_solver].

(** A change that moves no goroutine. *)
Lemma sessions_frame (s s' : Sessions St) :
  sv_handlers s' = sv_handlers s -> sv_active s' = sv_active s -> sv_flags s' = sv_flags s ->
  sv_closing s' = sv_closing s -> sv_marking s' = sv_marking s ->
  (forall c p, sv_handlers s !! c = Some p -> tracking p = true -> c ∈ sv_tracked s -> c ∈ sv_tracked s') ->
  hb_subscribers (sv_hub s') ⊆ hb_subscribers (sv_hub s) -> sv_writers s' ⊆ sv_writers s ->
  sv_closed s ⊆ sv_closed s' -> sv_done s ⊆ sv_done s' ->
  (forall c n, (c, FNotify n) ∈ sv_sent s' -> (c, FNotify n) ∈ sv_sent s) ->
  sessions_ok s -> sessions_ok s'.
Proof.
  intros E1 E2 E3 E4 E5 H1 H2 H3 H4 H5 H6 [I1 I2 I3 I4]. split; rewrite ?E1, ?E2; [done|done| |eauto].
  intros c. destruct (I3 c) as [J1 J2 J3 J4 J5 J6 J7 J8].
  assert (flagsOf c s' = flagsOf c s) as E by (unfold flagsOf; by rewrite E3).
  split; rewrite ?E, ?E1, ?E4, ?E5; eauto. intros Hc. destruct (J7 Hc); auto.
Qed.

Ltac frame s := apply (sessions_frame s); first [done | cbn; set_solver | idtac].

(** The goroutine of [c] moves, with its flags. *)
Lemma moved_ok (c : nat) (p p' : phase) (f : wsFlags) (s : Sessions St) :
  sv_handlers s !! c = Some p -> sessions_ok s ->
  (tracking p' = true -> c ∈ sv_tracked s /\ (sv_closing s = true -> ws_closing f = true \/ c ∈ sv_marking s)) ->
  (authed p' = true -> P c) -> ws_handling f = calling p' ->
  (subscribing p = true -> subscribing p' = true \/ c ∉ hb_subscribers (sv_hub s)) ->
  (writing p = true -> writing p' = true \/ c ∉ sv_writers s) ->
  (ws_closing f = true -> ws_handling f = true \/ c ∈ sv_closed s) ->
  (p' = PStopped \/ p' = PUnsubscribed -> c ∈ sv_done s) -> sessions_ok (goto c p' (setFlags c f s)).
Proof.
  intros Hp HI H1 H2 H3 H4 H5 H6 H7. apply (local_ok c p' s); [|by exists p|done|].
  { split; cbn; intros; try done. by apply flags_set_ne. }
  destruct (ok_conns _ HI c) as [I1 I2 I3 I4 I5 I6 I7 I8].
  split; change (flagsOf c (goto c p' (setFlags c f s))) with (flagsOf c (setFlags c f s)); rewrite ?flags_set; cbn;
    rewrite ?lookup_insert_eq; try (intros q [= <-]); try naive_solver.
Qed.

Lemma flags_same (c : nat) (s : Sessions St) (p : phase) :
  sessions_ok (goto c p (setFlags c (flagsOf c s) s)) -> sessions_ok (goto c p s).
Proof.
  intros [I1 I2 I3 I4]. split; [exact I1|exact I2| |exact I4]. intros c'.
  apply (conn_frame (goto c p (setFlags c (flagsOf c s) s))); auto. unfold flagsOf at 1 2. cbn.
  destruct (decide (c' = c)) as [->|Hne]; [by rewrite lookup_insert_eq|by rewrite lookup_insert_ne].
Qed.

Lemma goto_ok (c : nat) (p p' : phase) (s : Sessions St) :
  sv_handlers s !! c = Some p -> sessions_ok s ->
  (tracking p' = true -> tracking p = true \/ c ∈ sv_tracked s /\ sv_closing s = false) ->
  (authed p' = true -> P c) -> calling p' = calling p ->
  (subscribing p = true -> subscribing p' = true \/ c ∉ hb_subscribers (sv_hub s)) ->
  (writing p = true -> writing p' = true \/ c ∉ sv_writers s) ->
  (p' = PStopped \/ p' = PUnsubscribed -> c ∈ sv_done s) -> sessions_ok (goto c p' s).
Proof.
  intros Hp HI H1 H2 H3 H4 H5 H6. apply flags_same. destruct (ok_conns _ HI c) as [I1 I2 I3 I4 I5 I6 I7 I8].
  apply (moved_ok c p); auto.
  - intros Ht. destruct (H1 Ht) as [Hpt|[Hc Hn]]; [by eauto|]. split; [done|]. by rewrite Hn.
  - by rewrite H3, (I3 p).
Qed.

Lemma start_ok (c : nat) (p : phase) (s : Sessions St) :
  sv_handlers s !! c = Some p -> subscribing p = true -> P c -> sessions_ok s -> sessions_ok (startNotifications c s).
Proof.
  intros Hp Hs HP [I1 I2 I3 I4]. split; [exact I1|exact I2| |exact I4]. intros c'.
  destruct (decide (c' = c)) as [->|Hne].
  - destruct (I3 c) as [J1 J2 J3 J4 J5 J6 J7 J8].
    split; cbn; auto; intros _; (split; [done|]); exists p; (split; [done|]); [done|]. unfold writing. by rewrite Hs.
  - apply (conn_frame s); auto; cbn; set_solver.
Qed.

Ltac side := cbn; auto; try done; try (by intros [|]).

Lemma close_ok (c : nat) (s : Sessions St) : sessions_ok s -> sessions_ok (closeConn c s).
Proof. frame s. Qed.

Lemma stop_ok (c : nat) (s : Sessions St) : sessions_ok s -> sessions_ok (stopConn c s).
Proof. frame s. Qed.

(** A subscription that ends. *)
Lemma cancel_subs (c : nat) (h : Hub) : hb_subscribers (cancelSubscription c h) = hb_subscribers h ∖ {[c]}.
Proof. unfold cancelSubscription. case_bool_decide; [done|set_solver]. Qed.

Lemma begin_rpc_ok (c : nat) (auth : bool) (msg : string) (s : Sessions St) :
  sv_handlers s !! c = Some (PReceived auth msg) -> sessions_ok s -> sessions_ok (beginRPC c auth msg s).
Proof.
  intros Hp HI. unfold beginRPC. destruct (ok_conns _ HI c) as [I1 I2 I3 I4 I5 I6 I7 I8]. destruct (ws_closing (flagsOf c s)) eqn:Ec.
  - apply (goto_ok c (PReceived auth msg)); side.
  - apply (moved_ok c (PReceived auth msg)); side.
    + intros _. split; [by eauto|]. intros Hc. destruct (I4 _ Hp eq_refl Hc); [congruence|auto].
    + eauto.
Qed.

Lemma end_rpc_ok (c : nat) (auth failed : bool) (s : Sessions St) :
  sv_handlers s !! c = Some (PAnswered auth failed) -> sessions_ok s -> sessions_ok (endRPC c auth failed s).
Proof.
  intros Hp HI. unfold endRPC. destruct (ok_conns _ HI c) as [I1 I2 I3 I4 I5 I6 I7 I8].
  destruct (ws_closing (flagsOf c s)) eqn:Ec; rewrite ?orb_true_r, ?orb_false_r.
  - change (sessions_ok (goto c PStopping (setFlags c (mkFlags false true) (closeConn c s)))).
    apply (moved_ok c (PAnswered auth failed)); side; [by apply close_ok|split; [by eauto|by left]|right; set_solver].
  - apply (moved_ok c (PAnswered auth failed)); try (by cbn; auto); cbn.
    + intros _. split; [by eauto|]. intros Hc. destruct (I4 _ Hp eq_refl Hc); [congruence|auto].
    + destruct failed; [done|eauto].
    + by destruct failed.
    + unfold subscribing. destruct failed; cbn; auto.
    + unfold writing, subscribing. destruct failed; cbn; auto.
    + destruct failed; by intros [|].
Qed.

Lemma receive_ok (c : nat) (auth ok : bool) (msg : string) (s : Sessions St) :
  sv_handlers s !! c = Some (PReading auth) -> (payloadProvesSecret (sc_secret cfg) msg = true -> P c) -> sessions_ok s ->
  sessions_ok (receiveMessage cfg c auth msg ok s).
Proof.
  intros Hp HP HI. pose proof (ok_authed _ _ (ok_conns _ HI c) _ Hp) as Ha. cbn in Ha. unfold receiveMessage.
  destruct (negb auth && payloadProvesSecret (sc_secret cfg) msg) eqn:E.
  - apply andb_true_iff in E as [->%negb_true_iff Hs]. destruct ok.
    + change (sessions_ok (startNotifications c (goto c (PReceived true msg) s))).
      apply (start_ok c (PReceived true msg)); [cbn; by rewrite lookup_insert_eq|done|auto|].
      apply (goto_ok c (PReading false)); side.
    + apply (goto_ok c (PReading false)); side.
  - apply (goto_ok c (PReading auth)); side.
Qed.

Lemma end_ok (c : nat) (s : Sessions St) :
  sv_handlers s !! c = Some PEnding -> sessions_ok s -> sessions_ok (endWebSocket c s).
Proof.
  intros Hp [I1 I2 I3 I4].
  assert (0 < Z.of_nat (size (sv_handlers s))) as Hpos.
  { destruct (decide (sv_handlers s = ∅)) as [E|E]; [rewrite E in Hp; done|]. apply map_size_ne_0_lookup_2 in E || idtac.
    assert (size (sv_handlers s) <> 0%nat) by (intros E0; apply map_size_empty_inv in E0; congruence). lia. }
  split; [| |intros c'|exact I4].
  - cbn. rewrite map_size_delete_Some by by exists PEnding. lia.
  - cbn. lia.
  - destruct (decide (c' = c)) as [->|Hne].
    + destruct (I3 c) as [J1 J2 J3 J4 J5 J6 J7 J8]. split; cbn; rewrite ?lookup_delete_eq; try done.
      * intros Hs. destruct (J5 Hs) as (_ & q & Hq & E). rewrite Hp in Hq. by injection Hq as <-.
      * intros Hs. destruct (J6 Hs) as (_ & q & Hq & E). rewrite Hp in Hq. by injection Hq as <-.
    + apply (conn_frame s); auto. cbn. by apply lookup_delete_ne.
Qed.

Lemma handler_step_ok (ev : wsEvent St) (c : nat) (p : phase) (s s' : Sessions St) :
  handlerOf ev = Some c -> sv_handlers s !! c = Some p -> handlerStep cfg p ev s = Some s' ->
  (sc_secret cfg = "" -> P c) ->
  (forall msg ok, ev = EvMessage c msg ok -> payloadProvesSecret (sc_secret cfg) msg = true -> P c) ->
  sessions_ok s -> sessions_ok s'.
Proof.
  intros Hev Hp H Hno Hmsg HI. pose proof (ok_conns _ HI c) as [I1 I2 I3 I4 I5 I6 I7 I8].
  destruct ev, p; cbn in Hev, H; try done; injection Hev as ->.
  - destruct (ok && CheckOrigin cfg r); injection H as <-.
    + apply (moved_ok c PUpgrading); side.
    + apply (goto_ok c PUpgrading); side.
  - injection H as <-. unfold trackWebSocket. destruct (sv_closing s) eqn:Ec.
    + apply (goto_ok c PUpgraded); side; by apply close_ok.
    + apply (goto_ok c PUpgraded); side; [frame s|intros _; right; split; [set_solver|done]].
  - destruct (String.eqb_spec (sc_secret cfg) "") as [E|_]; [|destruct deadlineSet]; injection H as <-.
    + change (sessions_ok (startNotifications c (goto c (PReading true) s))).
      apply (start_ok c (PReading true)); [cbn; by rewrite lookup_insert_eq|done|auto|].
      apply (goto_ok c PTracked); side.
    + apply (goto_ok c PTracked); side.
    + apply (goto_ok c PTracked); side.
  - destruct (_ <? _); [done|]. injection H as <-. apply receive_ok; auto. eauto.
  - injection H as <-. apply (goto_ok c (PReading auth)); side.
  - injection H as <-. by apply begin_rpc_ok.
  - destruct (HandlePayload _ _ _) as [response st]. injection H as <-.
    apply (goto_ok c (PHandling auth msg)); side; [frame s|eauto].
  - injection H as <-. unfold writeResponse. destruct response as [r|].
    + destruct (ok && _); apply (goto_ok c (PAnswering auth (Some r))); side; first [frame s|eauto].
    + apply (goto_ok c (PAnswering auth None)); side; eauto.
  - injection H as <-. by apply end_rpc_ok.
  - injection H as <-. apply (goto_ok c PStopping); side; [by apply stop_ok|set_solver].
  - injection H as <-. apply (goto_ok c PStopped); side; [apply (sessions_frame s); cbn; try done; rewrite cancel_subs; set_solver| |].
    + intros _. right. rewrite cancel_subs. set_solver.
    + intros _. by apply (I8 PStopped); auto.
  - case_bool_decide as Hw; [done|]. injection H as <-.
    change (sessions_ok (untrackWebSocket c (goto c PEnding s))).
    assert (sessions_ok (goto c PEnding s)) as HG.
    { apply (goto_ok c PUnsubscribed); side. }
    apply (sessions_frame (goto c PEnding s)); try done; cbn.
    intros c' q Hq Ht Hc'. destruct (decide (c' = c)) as [->|Hne]; [|set_solver]. rewrite lookup_insert_eq in Hq. by injection Hq as <-.
  - injection H as <-. by apply end_ok.
Qed.

Lemma begin_ok (c : nat) (s : Sessions St) :
  sv_handlers s !! c = None -> sv_flags s !! c = None -> sessions_ok s -> sessions_ok (beginWebSocket c s).
Proof.
  intros Hh Hf HI. unfold beginWebSocket. destruct (sv_closing s) eqn:Ec; [done|]. cbn [orb].
  destruct (Z.leb_spec maxWebSocketConnections (sv_active s)); [done|]. destruct HI as [I1 I2 I3 I4].
  split; [| |intros c'|exact I4].
  - cbn. rewrite map_size_insert_None by done. lia.
  - cbn. lia.
  - destruct (decide (c' = c)) as [->|Hne].
    + destruct (I3 c) as [J1 J2 J3 J4 J5 J6 J7 J8].
      assert (flagsOf c (goto c PUpgrading (s <| sv_active ::= Z.add 1 |>)) = mkFlags false false) as E
        by (unfold flagsOf; cbn; by rewrite Hf).
      split; rewrite ?E; cbn; rewrite ?lookup_insert_eq; try (by intros p [= <-]); try done.
      * intros Hs. destruct (J5 Hs) as (_ & q & Hq & _). congruence.
      * intros Hs. destruct (J6 Hs) as (_ & q & Hq & _). congruence.
      * intros p [= <-]. by intros [|].
    + apply (conn_frame s); auto. cbn. by apply lookup_insert_ne.
Qed.

Lemma initiate_ok (order : list nat) (s s' : Sessions St) :
  initiateWebSocketClose order s = Some s' -> sessions_ok s -> sessions_ok s'.
Proof.
  unfold initiateWebSocketClose. destruct (sv_closing s) eqn:Ec; [by intros [= <-]|]. case_bool_decide as Ho; [|done].
  intros [= <-] [I1 I2 I3 I4]. split; [exact I1|exact I2| |exact I4]. intros c. destruct (I3 c) as [J1 J2 J3 J4 J5 J6 J7 J8].
  split; auto. intros p Hp Ht _. right. cbn. rewrite Ho. apply elem_of_elements. by apply (J1 p).
Qed.

Lemma mark_ok (c : nat) (rest : list nat) (s : Sessions St) :
  sv_marking s = c :: rest -> sessions_ok s -> sessions_ok (markClosing c (s <| sv_marking := rest |>)).
Proof.
  intros Hm [I1 I2 I3 I4]. set (s0 := s <| sv_marking := rest |>). unfold markClosing.
  change (flagsOf c s0) with (flagsOf c s). set (handling := ws_handling (flagsOf c s)). set (s1 := setFlags c _ s0).
  assert (sessions_ok (if handling then s1 else closeConn c s1)) as H; [|exact H].
  split; [by destruct handling|by destruct handling| |by destruct handling]. intros c'.
  destruct (decide (c' = c)) as [->|Hne].
  - destruct (I3 c) as [J1 J2 J3 J4 J5 J6 J7 J8].
    assert (forall b : bool, flagsOf c (if b then s1 else closeConn c s1) = mkFlags handling true) as E.
    { intros b. transitivity (flagsOf c s1); [by destruct b|apply flags_set]. }
    split; rewrite ?E; cbn; destruct handling eqn:Eh; cbn; auto; try set_solver.
    all: intros p Hp; rewrite <- (J3 p Hp); by fold handling.
  - assert (forall b : bool, flagsOf c' (if b then s1 else closeConn c s1) = flagsOf c' s) as E.
    { intros b. transitivity (flagsOf c' s1); [by destruct b|exact (flags_set_ne c c' _ s0 Hne)]. }
    assert (forall (A : Type) (f : Sessions St -> A) (b : bool), f (closeConn c s1) = f s1 -> f (if b then s1 else closeConn c s1) = f s1) as Eb
      by (by intros A f [] ?).
    apply (conn_frame s); rewrite ?E; try done; destruct handling; cbn; auto; rewrite ?Hm; set_solver.
Qed.

Lemma notify_subs (n : Notification) (h : Hub) : hb_subscribers (notify n h) = hb_subscribers h.
Proof. done. Qed.

Lemma receive_subs (c : nat) (h h' : Hub) (n : Notification) :
  receiveFrom c h = Some (n, h') -> hb_subscribers h' = hb_subscribers h.
Proof. unfold receiveFrom. destruct (_ !! c) as [[cap [|n' rest] cl]|]; [done| |done]. by intros [= _ <-]. Qed.

Lemma write_ok (c : nat) (ok : bool) (s s' : Sessions St) :
  c ∈ sv_writers s -> writeNotification c ok s = Some s' -> sessions_ok s -> sessions_ok s'.
Proof.
  unfold writeNotification. destruct (receiveFrom c (sv_hub s)) as [[n hub]|] eqn:E; [|done].
  intros Hw [= <-] HI. apply receive_subs in E. destruct (ok && _).
  - pose proof (ok_writer _ _ (ok_conns _ HI c) Hw) as [HP _].
    assert (sessions_ok (s <| sv_hub := hub |>)) as [I1 I2 I3 I4] by (apply (sessions_frame s); cbn; try done; by rewrite E).
    split; [exact I1|exact I2| |].
    + intros c'. apply (conn_frame (s <| sv_hub := hub |>)); auto.
    + cbn. intros c' m. rewrite elem_of_app. intros [Hin|Hin]; [by eapply I4|]. apply list_elem_of_singleton in Hin. by injection Hin as -> _.
  - apply (sessions_frame s); cbn; try done; [by rewrite E|set_solver..].
Qed.

Lemma step_ok (ev : wsEvent St) (s s' : Sessions St) :
  wsStep cfg s ev = Some s' ->
  (forall c, sc_secret cfg = "" -> P c) ->
  (forall c msg ok, ev = EvMessage c msg ok -> payloadProvesSecret (sc_secret cfg) msg = true -> P c) ->
  sessions_ok s -> sessions_ok s'.
Proof.
  unfold wsStep. intros H Hno Hmsg HI. destruct (handlerOf ev) as [c|] eqn:Ec.
  { destruct (sv_handlers s !! c) as [p|] eqn:Hp; [|done]. eapply (handler_step_ok ev c p s s'); eauto. }
  destruct ev; cbn in Ec; try done.
  - destruct (sv_handlers s !! c) eqn:Hh; [done|]. destruct (sv_flags s !! c) eqn:Hf; [done|]. injection H as <-. by apply begin_ok.
  - by eapply initiate_ok.
  - destruct (sv_marking s) as [|c rest] eqn:Hm; [done|]. injection H as <-. by apply mark_ok.
  - injection H as <-. frame s.
  - case_bool_decide as Hw; [|done]. by eapply write_ok.
  - destruct (_ && _); [|done]. injection H as <-. apply (sessions_frame s); cbn; try done. set_solver.
  - injection H as <-. by apply (sessions_frame s).
  - injection H as <-. by apply (sessions_frame s).
Qed.
End invariant.

Lemma sessions_weaken {St} (P Q : nat -> Prop) (s : Sessions St) :
  (forall c, P c -> Q c) -> sessions_ok P s -> sessions_ok Q s.
Proof.
  intros HPQ [I1 I2 I3 I4]. split; [done|done| |eauto]. intros c. destruct (I3 c) as [J1 J2 J3 J4 J5 J6 J7 J8]. split; eauto.
  - intros Hs. destruct (J5 Hs); auto.
  - intros Hs. destruct (J6 Hs); auto.
Qed.

(** ** Who may be notified *)

(** The phases of a connection that has been upgraded. *)
Definition upgraded (p : phase) : bool := match p with PUpgrading | PEnding => false | _ => true end.

(** A connection may be notified after these events: its request had an allowed origin,
    and no secret is asked for or a message of the connection has proved it. *)
Definition allowed {St} (cfg : ServerConfig) (evs : list (wsEvent St)) (c : nat) : Prop :=
  exists r, EvUpgrade c r true ∈ evs /\ CheckOrigin cfg r = true.
Definition entitled {St} (cfg : ServerConfig) (evs : list (wsEvent St)) (c : nat) : Prop :=
  sc_secret cfg = "" \/ exists msg ok, EvMessage c msg ok ∈ evs /\ payloadProvesSecret (sc_secret cfg) msg = true.

Section traces.
Context {St : Type} {api : RPCEngine St} (cfg : ServerConfig).

Lemma run_app (s : Sessions St) (evs evs' : list (wsEvent St)) :
  wsRun cfg s (evs ++ evs') = match wsRun cfg s evs with Some s' => wsRun cfg s' evs' | None => None end.
Proof. revert s. induction evs as [|ev evs IH]; intros s; cbn [wsRun app]; [done|]. destruct (wsStep cfg s ev); auto. Qed.

(** An invariant of a run that may look at the events so far. *)
Lemma run_invariant (I : list (wsEvent St) -> Sessions St -> Prop) (s0 : Sessions St) :
  I [] s0 -> (forall evs s ev s', I evs s -> wsStep cfg s ev = Some s' -> I (evs ++ [ev]) s') ->
  forall evs s, wsRun cfg s0 evs = Some s -> I evs s.
Proof.
  intros H0 Hstep evs. induction evs as [|ev evs IH] using rev_ind; intros s; [by intros [= <-]|].
  rewrite run_app. destruct (wsRun cfg s0 evs) as [s1|]; [|done]. cbn [wsRun].
  destruct (wsStep cfg s1 ev) as [s2|] eqn:E; [|done]. intros [= <-]. eapply Hstep; [by apply IH|done].
Qed.

Lemma run_step_ok (evs : list (wsEvent St)) (s : Sessions St) (ev : wsEvent St) (s' : Sessions St) :
  sessions_ok (entitled cfg evs) s -> wsStep cfg s ev = Some s' -> sessions_ok (entitled cfg (evs ++ [ev])) s'.
Proof.
  intros HI H. apply (step_ok cfg (entitled cfg (evs ++ [ev])) ev s); [done|by left| |].
  - intros c msg ok -> Hp. right. exists msg, ok. split; [set_solver|done].
  - apply (sessions_weaken (entitled cfg evs)); [|done]. intros c [?|(msg & ok & Hin & Hp)]; [by left|right].
    exists msg, ok. split; [set_solver|done].
Qed.

Lemma run_ok (st : St) (evs : list (wsEvent St)) (s : Sessions St) :
  wsRun cfg (initialSessions st) evs = Some s -> sessions_ok (entitled cfg evs) s.
Proof.
  apply (run_invariant (fun evs s => sessions_ok (entitled cfg evs) s)); [apply initial_ok|]. clear. apply run_step_ok.
Qed.

(** What a step of the goroutine of [c] does to the phases and to the frames. *)
Lemma handler_effect (ev : wsEvent St) (c : nat) (p : phase) (s s' : Sessions St) :
  handlerOf ev = Some c -> handlerStep cfg p ev s = Some s' ->
  (sv_handlers s' = delete c (sv_handlers s) /\ p = PEnding
   \/ exists p', sv_handlers s' = <[c := p']> (sv_handlers s)
       /\ (upgraded p' = true -> upgraded p = true \/ exists r, ev = EvUpgrade c r true /\ CheckOrigin cfg r = true))
  /\ (forall c' n, (c', FNotify n) ∈ sv_sent s' -> (c', FNotify n) ∈ sv_sent s).
Proof.
  intros Hev H. destruct ev, p; cbn in Hev, H; try done; injection Hev as ->;
    unfold trackWebSocket, receiveMessage, beginRPC, writeResponse, endRPC in H; repeat case_match; simplify_eq;
    (split; [first [left; split; reflexivity | right; eexists; split; [reflexivity|cbn; eauto]]|cbn; set_solver]).
  intros _. right. eexists. split; [|by apply andb_true_iff in H0 as [_ ?]]. by apply andb_true_iff in H0 as [-> _].
Qed.

Record origins_ok (evs : list (wsEvent St)) (s : Sessions St) : Prop := {
  or_phase : forall c p, sv_handlers s !! c = Some p -> upgraded p = true -> allowed cfg evs c;
  or_sent : forall c n, (c, FNotify n) ∈ sv_sent s -> allowed cfg evs c
}.

Lemma allowed_more (evs : list (wsEvent St)) (ev : wsEvent St) (c : nat) : allowed cfg evs c -> allowed cfg (evs ++ [ev]) c.
Proof. intros (r & Hin & Hc). exists r. split; [set_solver|done]. Qed.

Lemma origins_frame (evs : list (wsEvent St)) (ev : wsEvent St) (s s' : Sessions St) :
  origins_ok evs s -> (forall c p, sv_handlers s' !! c = Some p -> upgraded p = true -> sv_handlers s !! c = Some p) ->
  (forall c n, (c, FNotify n) ∈ sv_sent s' -> (c, FNotify n) ∈ sv_sent s \/ exists p, sv_handlers s !! c = Some p /\ upgraded p = true) ->
  origins_ok (evs ++ [ev]) s'.
Proof.
  intros [I1 I2] H1 H2. split.
  - intros c p Hp Hu. eapply allowed_more, I1; eauto.
  - intros c n Hin. apply allowed_more. destruct (H2 c n Hin) as [?|(p & Hp & Hu)]; eauto.
Qed.

Lemma writing_upgraded (p : phase) : writing p = true -> upgraded p = true.
Proof. by destruct p. Qed.

Lemma origins_run (st : St) (evs : list (wsEvent St)) (s : Sessions St) :
  wsRun cfg (initialSessions st) evs = Some s -> sessions_ok (entitled cfg evs) s /\ origins_ok evs s.
Proof.
  revert evs s. apply (run_invariant (fun evs s => sessions_ok (entitled cfg evs) s /\ origins_ok evs s)).
  { split; [apply initial_ok|]. split; cbn; [done|]. intros c n. set_solver. }
  intros evs s ev s' [HI HO] E. split.
  { by eapply run_step_ok. }
  unfold wsStep in E. destruct (handlerOf ev) as [c|] eqn:Ec.
  { destruct (sv_handlers s !! c) as [p|] eqn:Hp; [|done]. destruct (handler_effect ev c p s s' Ec E) as [Hh Hs]. split.
    - intros c' q Hq Hu. destruct Hh as [[Hh _]|(p' & Hh & Hup)]; rewrite Hh in Hq.
      + apply lookup_delete_Some in Hq as [_ Hq]. eapply allowed_more, (or_phase _ _ HO); eauto.
      + destruct (decide (c' = c)) as [->|Hne]; [|rewrite lookup_insert_ne in Hq by done; eapply allowed_more, (or_phase _ _ HO); eauto].
        rewrite lookup_insert_eq in Hq. injection Hq as <-. destruct (Hup Hu) as [Hu'|(r & -> & Hr)].
        * eapply allowed_more, (or_phase _ _ HO); eauto.
        * exists r. split; [set_solver|done].
    - intros c' n Hin. eapply allowed_more, (or_sent _ _ HO), Hs, Hin. }
  destruct ev; cbn in Ec; try done.
  - destruct (sv_handlers s !! c) eqn:Hh; [done|]. destruct (sv_flags s !! c) eqn:Hf; [done|]. injection E as <-.
    unfold beginWebSocket. destruct (_ || _); apply (origins_frame _ _ s); cbn; auto. intros c' p Hp Hu.
    destruct (decide (c' = c)) as [->|Hne]; [rewrite lookup_insert_eq in Hp; by injection Hp as <-|by rewrite lookup_insert_ne in Hp].
  - unfold initiateWebSocketClose in E. destruct (sv_closing s); [|case_bool_decide; [|done]]; injection E as <-; by apply (origins_frame _ _ s); auto.
  - destruct (sv_marking s) as [|c rest]; [done|]. injection E as <-. unfold markClosing. destruct (ws_handling _); by apply (origins_frame _ _ s); auto.
  - injection E as <-. by apply (origins_frame _ _ s); auto.
  - case_bool_decide as Hw; [|done]. unfold writeNotification in E. destruct (receiveFrom _ _) as [[n hub]|]; [|done].
    injection E as <-. destruct (ok && _); apply (origins_frame _ _ s); cbn; auto. intros c' m.
    rewrite elem_of_app. intros [?|Hin]; [by left|right]. apply list_elem_of_singleton in Hin. injection Hin as -> _.
    destruct (ok_writer _ _ _ (ok_conns _ _ HI c) Hw) as (_ & p & Hp & Hwr). exists p. split; [done|]. by apply writing_upgraded.
  - destruct (_ && _); [|done]. injection E as <-. by apply (origins_frame _ _ s); auto.
  - injection E as <-. by apply (origins_frame _ _ s); auto.
  - injection E as <-. by apply (origins_frame _ _ s); auto.
Qed.
End traces.

(** C33: in every reachable state the server counts its running sessions exactly and never
    has more than 256; a session that reads, handles or answers is in the registry, and
    subscriptions and their writers belong to running sessions, so none is left when the
    count is zero, which is what [Close] waits for. *)
Theorem websocket_registry_exact {St : Type} {api : RPCEngine St} (cfg : ServerConfig) (st : St) (evs : list (wsEvent St))
    (s : Sessions St) :
  wsRun cfg (initialSessions st) evs = Some s ->
  sv_active s = Z.of_nat (size (sv_handlers s)) /\ 0 <= sv_active s <= 256
  /\ (forall c p, sv_handlers s !! c = Some p -> tracking p = true -> c ∈ sv_tracked s)
  /\ (forall c, c ∈ hb_subscribers (sv_hub s) \/ c ∈ sv_writers s -> exists p, sv_handlers s !! c = Some p /\ writing p = true)
  /\ (sv_active s = 0 -> hb_subscribers (sv_hub s) = ∅ /\ sv_writers s = ∅).
Proof.
  intros H. apply run_ok in H as HI. destruct HI as [I1 I2 I3 I4].
  assert (forall c, c ∈ hb_subscribers (sv_hub s) \/ c ∈ sv_writers s -> exists p, sv_handlers s !! c = Some p /\ writing p = true) as Hlive.
  { intros c [Hc|Hc].
    - destruct (ok_subscribed _ _ _ (I3 c) Hc) as (_ & p & Hp & Hs). exists p. split; [done|]. unfold writing. by rewrite Hs.
    - by destruct (ok_writer _ _ _ (I3 c) Hc) as (_ & p & Hp & Hs); eauto. }
  split_and!; [done|apply I2|apply I2| |done|].
  - intros c p. apply (ok_tracked _ _ _ (I3 c)).
  - intros H0. assert (sv_handlers s = ∅) as E by (apply map_size_empty_inv; lia).
    split; apply set_eq; intros c; (split; [|set_solver]); intros Hc; exfalso.
    + destruct (Hlive c (or_introl Hc)) as (p & Hp & _). by rewrite E in Hp.
    + destruct (Hlive c (or_intror Hc)) as (p & Hp & _). by rewrite E in Hp.
Qed.

(** C34: a notification is only ever written to a connection whose upgrade request the
    origin check allowed, and which, when the server has a secret, has sent a message that
    proves it; without a secret the request came from the same origin. *)
Theorem notifications_need_secret {St : Type} {api : RPCEngine St} (cfg : ServerConfig) (st : St) (evs : list (wsEvent St))
    (s : Sessions St) (c : nat) (n : Notification) :
  wsRun cfg (initialSessions st) evs = Some s -> (c, FNotify n) ∈ sv_sent s ->
  (exists r, EvUpgrade c r true ∈ evs /\ (sc_secret cfg = "" -> sameWebSocketOrigin r = true))
  /\ (sc_secret cfg = "" \/ exists msg ok, EvMessage c msg ok ∈ evs /\ payloadProvesSecret (sc_secret cfg) msg = true).
Proof.
  intros H Hin. apply origins_run in H as [HI HO]. split; [|by apply (ok_sent _ _ HI c n)].
  destruct (or_sent _ _ _ HO c n Hin) as (r & Hr & Ho). exists r. split; [done|].
  intros E. unfold CheckOrigin in Ho. by rewrite E in Ho.
Qed.

(** ** Closing *)

(** How far a goroutine is from its end, a started writer included. *)
Definition rank (p : phase) : nat :=
  match p with
  | PUpgrading => 24 | PUpgraded => 22 | PTracked => 20 | PReading _ => 17 | PReceived _ _ => 14 | PHandling _ _ => 13
  | PAnswering _ _ => 12 | PAnswered _ _ => 11 | PStopping => 8 | PStopped => 6 | PUnsubscribed => 4 | PEnding => 2
  end.

Definition totalRank (handlers : gmap nat phase) : nat := map_fold (fun _ p n => rank p + n)%nat 0%nat handlers.
Definition weight {St} (s : Sessions St) : nat := (totalRank (sv_handlers s) + size (sv_writers s))%nat.

Lemma rank_delete (h : gmap nat phase) (c : nat) (p : phase) :
  h !! c = Some p -> totalRank h = (rank p + totalRank (delete c h))%nat.
Proof. intros Hp. unfold totalRank. rewrite (map_fold_delete_L _ _ c p); [done|intros; lia|done]. Qed.

Lemma rank_insert (h : gmap nat phase) (c : nat) (p p' : phase) :
  h !! c = Some p -> (totalRank (<[c := p']> h) + rank p = totalRank h + rank p')%nat.
Proof.
  intros Hp. rewrite (rank_delete h c p Hp), (rank_delete (<[c := p']> h) c p') by apply lookup_insert_eq.
  rewrite delete_insert_eq. lia.
Qed.

Lemma rank_bound (h : gmap nat phase) : (totalRank h <= 24 * size h)%nat.
Proof.
  unfold totalRank. induction h as [|c p h Hc IH] using map_ind; [done|].
  rewrite map_fold_insert_L by (done || (intros; lia)). rewrite map_size_insert_None by done. destruct p; cbn [rank]; lia.
Qed.

(** An event of a session: a step of its goroutine, or the end of its writer. *)
Definition sessionEvent {St} (ev : wsEvent St) : bool :=
  match handlerOf ev with Some _ => true | None => match ev with EvWriterExits _ => true | _ => false end end.

Section closing.
Context {St : Type} {api : RPCEngine St} (cfg : ServerConfig) (P : nat -> Prop).

(** Closing has been announced to every connection. *)
Definition closed_down (s : Sessions St) : Prop := sv_closing s = true /\ sv_marking s = [].

Lemma closed_flag (s : Sessions St) (c : nat) (p : phase) :
  sessions_ok P s -> closed_down s -> sv_handlers s !! c = Some p -> tracking p = true -> ws_closing (flagsOf c s) = true.
Proof.
  intros HI [H1 H2] Hp Ht. destruct (ok_marked _ _ _ (ok_conns _ _ HI c) p Hp Ht H1) as [?|Hm]; [done|]. rewrite H2 in Hm. set_solver.
Qed.

Lemma size_writer (ws : gset nat) (c : nat) : (size (ws ∪ {[c]}) <= size ws + 1)%nat.
Proof. rewrite size_union_alt. pose proof (subseteq_size ({[c]} ∖ ws) {[c]} ltac:(set_solver)). rewrite size_singleton in *. lia. Qed.

(** What one step does then: the state stays closed down, no call begins, and the
    sessions get nearer to their end. *)
Record closing_step (ev : wsEvent St) (s s' : Sessions St) : Prop := {
  cs_closed : closed_down s';
  cs_calls : forall c auth msg, sv_handlers s' !! c = Some (PHandling auth msg) -> sv_handlers s !! c = Some (PHandling auth msg);
  cs_weight : (weight s' + (if sessionEvent ev then 1 else 0) <= weight s)%nat
}.

Lemma goto_closing (ev : wsEvent St) (c : nat) (p p' : phase) (s s' : Sessions St) :
  closed_down s -> sv_handlers s !! c = Some p -> sv_handlers s' = <[c := p']> (sv_handlers s) ->
  sv_closing s' = sv_closing s -> sv_marking s' = sv_marking s -> (size (sv_writers s') <= size (sv_writers s) + 1)%nat ->
  (forall auth msg, p' <> PHandling auth msg) -> (rank p' + 2 <= rank p \/ sv_writers s' = sv_writers s /\ rank p' + 1 <= rank p)%nat ->
  closing_step ev s s'.
Proof.
  intros [C1 C2] Hp Hh E1 E2 Hw Hn Hr. split.
  - split; congruence.
  - intros c' auth msg. rewrite Hh. destruct (decide (c' = c)) as [->|Hne]; [|by rewrite lookup_insert_ne].
    rewrite lookup_insert_eq. intros [= E]. by destruct (Hn auth msg).
  - unfold weight. rewrite Hh. pose proof (rank_insert (sv_handlers s) c p p' Hp).
    destruct Hr as [Hr|[-> Hr]]; destruct (sessionEvent ev); lia.
Qed.

Lemma handler_closing (ev : wsEvent St) (c : nat) (p : phase) (s s' : Sessions St) :
  sessions_ok P s -> closed_down s -> handlerOf ev = Some c -> sv_handlers s !! c = Some p -> handlerStep cfg p ev s = Some s' ->
  closing_step ev s s'.
Proof.
  intros HI HC Hev Hp H. pose proof (closed_flag s c p HI HC Hp) as Hflag.
  destruct ev, p; cbn in Hev, H; try done; injection Hev as ->;
    unfold trackWebSocket, receiveMessage, beginRPC, writeResponse, endRPC in H; rewrite ?Hflag in H by done;
    try (rewrite (proj1 HC) in H); repeat case_match; simplify_eq;
    try (eapply (goto_closing _ c); [done|exact Hp|reflexivity|reflexivity|reflexivity|cbn; first [apply size_writer | lia]|done|
         cbn; first [lia | right; split; [reflexivity|lia]]]).
  - destruct HC as [C1 C2]. split; [done| |].
    + intros c' auth msg Hc'. cbn in Hc'. by apply lookup_delete_Some in Hc' as [_ ?].
    + unfold weight. cbn. rewrite (rank_delete (sv_handlers s) c PEnding Hp). cbn. lia.
Qed.

Lemma remove_writer (ws : gset nat) (c : nat) : (size (ws ∖ {[c]}) <= size ws)%nat.
Proof. apply subseteq_size. set_solver. Qed.

Lemma still_closing (ev : wsEvent St) (s s' : Sessions St) :
  closed_down s -> sv_handlers s' = sv_handlers s -> sv_closing s' = sv_closing s -> sv_marking s' = sv_marking s ->
  (size (sv_writers s') + (if sessionEvent ev then 1 else 0) <= size (sv_writers s))%nat -> closing_step ev s s'.
Proof.
  intros [C1 C2] Hh E1 E2 Hw. split; [split; congruence|by rewrite Hh|]. unfold weight. rewrite Hh. lia.
Qed.

Lemma step_closing (ev : wsEvent St) (s s' : Sessions St) :
  sessions_ok P s -> closed_down s -> wsStep cfg s ev = Some s' -> closing_step ev s s'.
Proof.
  intros HI HC H. unfold wsStep in H. destruct (handlerOf ev) as [c|] eqn:Ec.
  { destruct (sv_handlers s !! c) as [p|] eqn:Hp; [|done]. by eapply handler_closing. }
  destruct ev; cbn in Ec; try done.
  - destruct (sv_handlers s !! c); [done|]. destruct (sv_flags s !! c); [done|]. injection H as <-.
    unfold beginWebSocket. rewrite (proj1 HC). cbn [orb]. apply still_closing; cbn; auto; lia.
  - unfold initiateWebSocketClose in H. rewrite (proj1 HC) in H. injection H as <-. apply still_closing; cbn; auto; lia.
  - by rewrite (proj2 HC) in H.
  - injection H as <-. apply still_closing; cbn; auto; lia.
  - case_bool_decide; [|done]. unfold writeNotification in H. destruct (receiveFrom _ _) as [[n hub]|]; [|done]. injection H as <-.
    destruct (ok && _); apply still_closing; cbn; auto; [lia|]. pose proof (remove_writer (sv_writers s) c). lia.
  - case_bool_decide as Hw; [|done]. destruct (_ || _); [|done]. injection H as <-. apply still_closing; cbn; auto.
    rewrite size_difference, size_singleton by set_solver.
    assert (size (sv_writers s) <> 0%nat); [|lia]. intros E. apply size_empty_inv in E. set_solver.
  - injection H as <-. apply still_closing; cbn; auto; lia.
  - injection H as <-. apply still_closing; cbn; auto; lia.
Qed.

(** The steps of a session that can happen, whatever the network does. *)
Lemma session_enabled (s : Sessions St) :
  sessions_ok P s -> sv_active s <> 0 -> exists ev s', sessionEvent ev = true /\ wsStep cfg s ev = Some s'.
Proof.
  intros HI Ha. destruct (map_choose (sv_handlers s)) as (c & p & Hp).
  { intros E. apply Ha. rewrite (ok_count _ _ HI), E. done. }
  assert (forall ev, handlerOf ev = Some c -> is_Some (handlerStep cfg p ev s) ->
    exists ev s', sessionEvent ev = true /\ wsStep cfg s ev = Some s') as Hstep.
  { intros ev Hev [s' Hs']. exists ev, s'. unfold sessionEvent, wsStep. rewrite Hev, Hp. auto. }
  destruct p.
  - apply (Hstep (EvUpgrade c (mkHTTPRequest true "" "" "" None "" "" false) false)); [done|by eexists].
  - apply (Hstep (EvTrack c)); [done|by eexists].
  - apply (Hstep (EvStart c true)); [done|by eexists].
  - apply (Hstep (EvReadFails c)); [done|by eexists].
  - apply (Hstep (EvBeginRPC c)); [done|by eexists].
  - apply (Hstep (EvHandle c)); [done|]. cbn. destruct (HandlePayload _ _ _). by eexists.
  - apply (Hstep (EvAnswer c true)); [done|by eexists].
  - apply (Hstep (EvEndRPC c)); [done|by eexists].
  - apply (Hstep (EvStop c)); [done|by eexists].
  - apply (Hstep (EvUnsubscribe c)); [done|by eexists].
  - destruct (bool_decide (c ∈ sv_writers s)) eqn:Hw; [|apply (Hstep (EvUntrack c)); [done|]; cbn; rewrite Hw; by eexists].
    eexists (EvWriterExits c), _. split; [done|]. unfold wsStep. cbn [handlerOf]. rewrite Hw.
    assert (c ∈ sv_done s) as Hd by (eapply (ok_done _ _ _ (ok_conns _ _ HI c)); [exact Hp|by right]).
    by rewrite (bool_decide_eq_true_2 _ Hd).
  - apply (Hstep (EvEnd c)); [done|by eexists].
Qed.
End closing.

Lemma run_closing {St : Type} {api : RPCEngine St} (cfg : ServerConfig) (pre : list (wsEvent St)) (s : Sessions St)
    (evs : list (wsEvent St)) (s' : Sessions St) :
  sessions_ok (entitled cfg pre) s -> closed_down s -> wsRun cfg s evs = Some s' ->
  sessions_ok (entitled cfg (pre ++ evs)) s' /\ closed_down s'
  /\ (weight s' + length (filter (fun ev => sessionEvent ev = true) evs) <= weight s)%nat
  /\ (forall c, EvHandle c ∈ evs -> exists auth msg, sv_handlers s !! c = Some (PHandling auth msg)).
Proof.
  revert pre s. induction evs as [|ev evs IH]; intros pre s HI HC H; cbn [wsRun] in H.
  { injection H as <-. rewrite app_nil_r. split_and!; [done|done|cbn; lia|]. intros c Hin. set_solver. }
  destruct (wsStep cfg s ev) as [s1|] eqn:E; [|done].
  pose proof (run_step_ok cfg pre s ev s1 HI E) as HI1. destruct (step_closing cfg _ ev s s1 HI HC E) as [HC1 Hcalls Hw].
  destruct (IH (pre ++ [ev]) s1 HI1 HC1 H) as (HI' & HC' & Hw' & Hc'). rewrite <- app_assoc in HI'. split_and!; [done|done| |].
  - rewrite filter_cons. destruct (decide (sessionEvent ev = true)) as [Ev|Ev].
    + rewrite Ev in Hw. cbn [length]. lia.
    + destruct (sessionEvent ev); [done|]. lia.
  - intros c. rewrite elem_of_cons. intros [Heq|Hin].
    + subst ev. unfold wsStep in E. cbn [handlerOf] in E. destruct (sv_handlers s !! c) as [p|] eqn:Hp; [|done].
      destruct p; try done. by eexists _, _.
    + destruct (Hc' c Hin) as (auth & msg & Hh). eauto.
Qed.

(** Once closing has been announced to every connection, no call begins: whatever is
    still handed to the RPC handler is the message of a call that had begun before, so
    the engine sees nothing new from WebSockets. *)
Theorem no_call_after_close {St : Type} {api : RPCEngine St} (cfg : ServerConfig) (st : St) (before after : list (wsEvent St))
    (s s' : Sessions St) (c : nat) :
  wsRun cfg (initialSessions st) before = Some s -> closed_down s -> wsRun cfg s after = Some s' ->
  EvHandle c ∈ after -> exists auth msg, sv_handlers s !! c = Some (PHandling auth msg).
Proof.
  intros Hb HC Ha Hin. apply run_ok in Hb as HI. destruct (run_closing cfg before s after s' HI HC Ha) as (_ & _ & _ & H). by apply H.
Qed.

(** C35: once closing has been announced, the sessions end: they take at most 25 more steps
    each, until all have ended one of them can take a step whatever the network does, and
    one that waits for a message has its connection closed. *)
Theorem closing_sessions_end {St : Type} {api : RPCEngine St} (cfg : ServerConfig) (st : St) (before after : list (wsEvent St))
    (s s' : Sessions St) :
  wsRun cfg (initialSessions st) before = Some s -> closed_down s -> wsRun cfg s after = Some s' ->
  Z.of_nat (length (filter (fun ev => sessionEvent ev = true) after)) <= 25 * sv_active s
  /\ (sv_active s' <> 0 -> exists ev s2, sessionEvent ev = true /\ wsStep cfg s' ev = Some s2)
  /\ (forall c auth, sv_handlers s' !! c = Some (PReading auth) -> c ∈ sv_closed s').
Proof.
  intros Hb HC Ha. apply run_ok in Hb as HI. destruct (run_closing cfg before s after s' HI HC Ha) as (HI' & HC' & Hw & _).
  split_and!.
  - assert (size (sv_writers s) <= size (sv_handlers s))%nat as Hws.
    { rewrite <- size_dom. apply subseteq_size. intros c Hc. apply elem_of_dom.
      destruct (ok_writer _ _ _ (ok_conns _ _ HI c) Hc) as (_ & p & Hp & _). by exists p. }
    pose proof (rank_bound (sv_handlers s)). unfold weight in Hw. rewrite (ok_count _ _ HI). lia.
  - by apply (session_enabled cfg (entitled cfg (before ++ after))).
  - intros c auth Hp. pose proof (ok_conns _ _ HI' c) as Hc.
    destruct (ok_closed _ _ _ Hc (closed_flag _ s' c _ HI' HC' Hp eq_refl)) as [Hh|]; [|done].
    rewrite (ok_handling _ _ _ Hc _ Hp) in Hh. done.
Qed.

(** ** A registered connection without a session

    [handleWebSocket] returns when the read deadline cannot be set, before the deferred
    function that stops and untracks the connection is installed. *)
Theorem failed_deadline_leaves_connection {St : Type} {api : RPCEngine St} (cfg : ServerConfig) (st : St) (c : nat) (r : HTTPRequest) :
  sc_secret cfg <> "" ->
  exists s, wsRun cfg (initialSessions st) [EvBegin c; EvUpgrade c r true; EvTrack c; EvStart c false; EvEnd c] = Some s
    /\ sv_active s = 0 /\ c ∈ sv_tracked s /\ c ∉ sv_closed s.
Proof.
  intros Hs. assert (CheckOrigin cfg r = true) as Ho by (unfold CheckOrigin; by rewrite (eqb_empty _ Hs)).
  pose proof (eqb_empty _ Hs) as Es. cbn [wsRun wsStep handlerOf initialSessions sv_handlers sv_flags]. rewrite !lookup_empty.
  unfold beginWebSocket, goto. cbn -[CheckOrigin]. rewrite lookup_insert_eq. cbn -[CheckOrigin]. rewrite Ho.
  unfold trackWebSocket, goto. cbn -[CheckOrigin]. rewrite lookup_insert_eq. cbn -[CheckOrigin]. rewrite lookup_insert_eq. cbn -[CheckOrigin].
  rewrite Es. cbn -[CheckOrigin]. rewrite lookup_insert_eq. cbn -[CheckOrigin]. eexists. split; [done|]. cbn. split_and!; [done|set_solver..].
Qed.

(** ** An example: a call, a notification, and a close during a second call *)

Definition demoServer : ServerConfig := mkServerConfig DefaultAddr DefaultPath 1000 "s".
Definition demoMessage : string := requestText "1" "aria2.getVersion" [json_quote "token:s"].
Definition demoUpgrade : HTTPRequest := mkHTTPRequest true "GET" "" "" None "http://other" "localhost:6800" false.
Definition demoNotification : Notification := mkNotification "aria2.onDownloadStart" "0123456789abcdef" 7.
Definition demoSession : list (wsEvent (list apiCall)) :=
  [EvBegin 1; EvUpgrade 1 demoUpgrade true; EvTrack 1; EvStart 1 true; EvMessage 1 demoMessage true; EvBeginRPC 1;
   EvHandle 1; EvAnswer 1 true; EvEndRPC 1; EvPublish demoNotification; EvWrite 1 true; EvMessage 1 demoMessage true;
   EvBeginRPC 1; EvInitiate [1%nat]; EvMark].
Definition demoClosing : list (wsEvent (list apiCall)) :=
  [EvHandle 1; EvAnswer 1 true; EvEndRPC 1; EvStop 1; EvUnsubscribe 1; EvWriterExits 1; EvUntrack 1; EvEnd 1].
Abbreviation demoStart := (@initialSessions (list apiCall) []).

Lemma websocket_registry_exact_witness :
  exists s, @wsRun _ demoEngine demoServer demoStart (demoSession ++ demoClosing) = Some s /\ hb_subscribers (sv_hub s) = ∅.
Proof.
  assert (match @wsRun _ demoEngine demoServer demoStart (demoSession ++ demoClosing) with
          | Some s => sv_active s =? 0 | None => false end = true) as H by (vm_compute; reflexivity).
  destruct (@wsRun _ demoEngine demoServer demoStart (demoSession ++ demoClosing)) as [s|] eqn:E; [|discriminate H].
  apply Z.eqb_eq in H. exists s. split; [reflexivity|].
  exact (proj1 (proj2 (proj2 (proj2 (proj2 (@websocket_registry_exact _ demoEngine demoServer [] (demoSession ++ demoClosing) s E)))) H)).
Defined.

Definition demoHeard (s : Sessions (list apiCall)) : bool :=
  existsb (fun cf => (cf.1 =? 1)%nat && match cf.2 with FNotify n => String.eqb (nt_GID n) "0123456789abcdef" | _ => false end) (sv_sent s).

Lemma notifications_need_secret_witness :
  exists s n, @wsRun _ demoEngine demoServer demoStart demoSession = Some s /\ (1%nat, FNotify n) ∈ sv_sent s
    /\ exists msg ok, EvMessage 1 msg ok ∈ demoSession /\ payloadProvesSecret "s" msg = true.
Proof.
  assert (match @wsRun _ demoEngine demoServer demoStart demoSession with Some s => demoHeard s | None => false end = true) as H
    by (vm_compute; reflexivity).
  destruct (@wsRun _ demoEngine demoServer demoStart demoSession) as [s|] eqn:E; [|discriminate H].
  unfold demoHeard in H. apply existsb_exists in H as ([c f] & Hin & Hc). apply andb_true_iff in Hc as [Hc Hf].
  apply Nat.eqb_eq in Hc. cbn [fst snd] in Hc, Hf. subst c. destruct f as [|n]; [discriminate Hf|].
  apply list_elem_of_In in Hin. exists s, n. split; [reflexivity|]. split; [exact Hin|].
  destruct (@notifications_need_secret _ demoEngine demoServer [] demoSession s 1 n E Hin) as [_ [T|T]]; [discriminate T|exact T].
Defined.

Lemma demo_closed_down :
  match @wsRun _ demoEngine demoServer demoStart demoSession with
  | Some s => sv_closing s && bool_decide (sv_marking s = []) && (sv_active s =? 1) | None => false end = true.
Proof. vm_compute. reflexivity. Qed.

Lemma no_call_after_close_witness :
  exists s s' auth msg, @wsRun _ demoEngine demoServer demoStart demoSession = Some s
    /\ @wsRun _ demoEngine demoServer s demoClosing = Some s' /\ sv_handlers s !! 1%nat = Some (PHandling auth msg).
Proof.
  pose proof demo_closed_down as H.
  assert (match @wsRun _ demoEngine demoServer demoStart (demoSession ++ demoClosing) with Some _ => true | None => false end = true) as H'
    by (vm_compute; reflexivity).
  rewrite run_app in H'. destruct (@wsRun _ demoEngine demoServer demoStart demoSession) as [s|] eqn:E; [|discriminate H].
  destruct (@wsRun _ demoEngine demoServer s demoClosing) as [s'|] eqn:E'; [|discriminate H'].
  apply andb_true_iff in H as [H _]. apply andb_true_iff in H as [H1 H2]. apply bool_decide_eq_true in H2.
  assert (EvHandle 1 ∈ demoClosing) as Hin by (constructor 1).
  destruct (@no_call_after_close _ demoEngine demoServer [] demoSession demoClosing s s' 1 E (conj H1 H2) E' Hin) as (auth & msg & T).
  exists s, s', auth, msg. split; [reflexivity|]. split; [exact E'|exact T].
Defined.

Lemma closing_sessions_end_witness :
  exists s s', @wsRun _ demoEngine demoServer demoStart demoSession = Some s
    /\ @wsRun _ demoEngine demoServer s demoClosing = Some s' /\ sv_active s = 1
    /\ Z.of_nat (length (filter (fun ev => sessionEvent ev = true) demoClosing)) <= 25.
Proof.
  pose proof demo_closed_down as H.
  assert (match @wsRun _ demoEngine demoServer demoStart (demoSession ++ demoClosing) with Some _ => true | None => false end = true) as H'
    by (vm_compute; reflexivity).
  rewrite run_app in H'. destruct (@wsRun _ demoEngine demoServer demoStart demoSession) as [s|] eqn:E; [|discriminate H].
  destruct (@wsRun _ demoEngine demoServer s demoClosing) as [s'|] eqn:E'; [|discriminate H'].
  apply andb_true_iff in H as [H H3]. apply andb_true_iff in H as [H1 H2]. apply bool_decide_eq_true in H2. apply Z.eqb_eq in H3.
  destruct (@closing_sessions_end _ demoEngine demoServer [] demoSession demoClosing s s' E (conj H1 H2) E') as [T _].
  exists s, s'. split; [reflexivity|]. split; [exact E'|]. split; [exact H3|]. rewrite H3 in T. exact T.
Defined.
