(* ===== verification/Serve.v ===== *)
(** * Serving and shutting down ([jsonrpc/server.go])

    [Server.ListenAndServe] as a state machine: what its selects receive (the end of the
    context, a shutdown request from the engine's channel, the return of the HTTP server,
    of its [Shutdown] or of the wait for the WebSocket sessions, a timer) is one event,
    and requests arrive between any two of them.  The HTTP server is the library's: what
    its methods return is part of the event. *)
From S2P Require Import Prelude GoStrings Options Reservations State Engine Server.

(** ** State *)

(** Where [ListenAndServe] stands. *)
Inductive servePhase :=
| SpServing                                  (* the first select *)
| SpGraceful                                 (* [Shutdown] runs, requests are received *)
| SpGrace                                    (* an escalation: the grace period *)
| SpClosed (closeErr : option error)         (* [Close] was called, [Shutdown] has yet to return *)
| SpForced                                   (* [forceShutdownHTTP] *)
| SpWaiting (shutdownErr : option error)     (* [waitWebSockets] *)
| SpJoining (shutdownErr : option error)     (* the return of the HTTP server *)
| SpReturned (err : option error).

(** What it does to the HTTP server and to the WebSocket sessions, in order. *)
Inductive serverEffect := HTTPShutdown | HTTPClose | WSInitiate | WSForce.
#[export] Instance serverEffect_eq : EqDecision serverEffect.
Proof. solve_decision. Defined.

Record serveState := mkServe { ss_phase : servePhase; ss_engine : Engine; ss_effects : list serverEffect }.
#[global] Instance eta_serveState : Eta serveState := fun s => mkServe (ss_phase s) (ss_engine s) (ss_effects s).

Definition startServing (e : Engine) : serveState := mkServe SpServing e [].

(** ** Errors *)

Definition isServerClosed (err : error) : bool := errors_is (fun e => match e with EServerClosed => true | _ => false end) err.
Definition isDeadlineExceeded (err : error) : bool := errors_is (fun e => match e with EDeadlineExceeded => true | _ => false end) err.

(** An error, unless it says that the server is closed. *)
Definition unlessClosed (err : option error) : option error :=
  match err with Some e => if isServerClosed e then None else Some e | None => None end.

(** [errors.Join] *)
Definition joinErrors (err1 err2 : option error) : option error :=
  match err1, err2 with
  | Some e1, Some e2 => Some (EJoin e1 e2)
  | Some e, None | None, Some e => Some e
  | None, None => None
  end.

(** ** Operations *)

(** [forceShutdownHTTP]: what [Shutdown] within the grace period and, if it is called,
    [Close] return. *)
Definition forceShutdownHTTP (shutdown close : option error) : option error * list serverEffect :=
  match unlessClosed shutdown with
  | None => (None, [HTTPShutdown])
  | Some err => (joinErrors (if isDeadlineExceeded err then None else Some err) close, [HTTPShutdown; HTTPClose])
  end.

(** [Server.Close]: [waited] is how the wait for the sessions ends. *)
Definition closeServer (waited : option error) : option error * list serverEffect :=
  match waited with Some err => (Some err, [WSInitiate; WSForce]) | None => (None, [WSInitiate]) end.

(** The code at [shutdownComplete], up to the wait for the sessions. *)
Definition shutdownComplete (shutdownErr : option error) (s : serveState) : serveState :=
  s <| ss_phase := SpWaiting (unlessClosed shutdownErr) |> <| ss_effects ::= fun l => l ++ [WSInitiate] |>.

Inductive serveEvent :=
| SvAsk (force : bool)                             (* somebody calls [RequestShutdown] *)
| SvContextDone
| SvReceive                                        (* from [ShutdownRequests] *)
| SvServeEnds (err : option error)                 (* the HTTP server returns while it serves *)
| SvForced (shutdown close : option error)         (* the calls of [forceShutdownHTTP] *)
| SvShutdownReturns (err : option error)
| SvGraceEnds (closeErr : option error)            (* the timer, and what [Close] returns *)
| SvWaited (err : option error)                    (* the end of [waitWebSockets] *)
| SvServeReturns (err : option error).             (* the result of the HTTP server *)

(** What the select that receives requests does with one. *)
Definition receiveRequest (force : bool) (s : serveState) : option serveState :=
  let s := s <| ss_engine ::= fun e => e <| e_shutdownReq := None |> |> in
  match ss_phase s with
  | SpServing =>
      Some (if force then s <| ss_phase := SpForced |>
            else s <| ss_phase := SpGraceful |> <| ss_effects ::= fun l => l ++ [HTTPShutdown] |>)
  | SpGraceful => Some (if force then s <| ss_phase := SpGrace |> else s)
  | _ => None
  end.

(** [ListenAndServe], one event; [None] when it cannot happen. *)
Definition serveStep (s : serveState) (ev : serveEvent) : option serveState :=
  match ev, ss_phase s with
  | SvAsk force, _ => Some (s <| ss_engine ::= RequestShutdown force |>)
  | SvContextDone, SpServing => Some (s <| ss_phase := SpGraceful |> <| ss_effects ::= fun l => l ++ [HTTPShutdown] |>)
  | SvReceive, _ => match e_shutdownReq (ss_engine s) with Some force => receiveRequest force s | None => None end
  | SvServeEnds err, SpServing =>
      Some (s <| ss_effects ::= fun l => l ++ [WSInitiate] |> <| ss_phase := SpReturned (unlessClosed err) |>)
  | SvForced shutdown close, SpForced =>
      let '(err, effects) := forceShutdownHTTP shutdown close in
      Some (shutdownComplete err (s <| ss_effects ::= fun l => l ++ effects |>))
  | SvShutdownReturns err, SpGraceful => Some (shutdownComplete err s)
  | SvShutdownReturns err, SpGrace => Some (shutdownComplete (joinErrors None (unlessClosed err)) s)
  | SvGraceEnds closeErr, SpGrace => Some (s <| ss_phase := SpClosed closeErr |> <| ss_effects ::= fun l => l ++ [HTTPClose] |>)
  | SvShutdownReturns err, SpClosed closeErr => Some (shutdownComplete (joinErrors closeErr (unlessClosed err)) s)
  | SvWaited None, SpWaiting shutdownErr => Some (s <| ss_phase := SpJoining shutdownErr |>)
  | SvWaited (Some err), SpWaiting shutdownErr =>
      Some (s <| ss_phase := SpJoining (joinErrors shutdownErr (Some err)) |> <| ss_effects ::= fun l => l ++ [WSForce] |>)
  | SvServeReturns err, SpJoining shutdownErr =>
      let closed := match err with Some e => isServerClosed e | None => false end in
      Some (s <| ss_phase := SpReturned (if closed then shutdownErr else joinErrors shutdownErr err) |>)
  | _, _ => None
  end.

Fixpoint serveRun (s : serveState) (events : list serveEvent) : option serveState :=
  match events with
  | [] => Some s
  | ev :: events => match serveStep s ev with Some s => serveRun s events | None => None end
  end.

(** ** Lemmas *)

(** Events that are steps of [ListenAndServe] itself. *)
Definition serverEvent (ev : serveEvent) : bool := match ev with SvAsk _ => false | _ => true end.
Definition serverEvents (events : list serveEvent) : nat := length (List.filter serverEvent events).

(** The steps still to come, as long as no request is received in vain. *)
Definition stepsLeft (p : servePhase) : nat :=
  match p with
  | SpServing => 6 | SpGraceful => 5 | SpGrace => 4 | SpClosed _ | SpForced => 3
  | SpWaiting _ => 2 | SpJoining _ => 1 | SpReturned _ => 0
  end.
Lemma stepsLeft_le (p : servePhase) : (stepsLeft p <= 6)%nat.
Proof. destruct p; cbn; lia. Qed.

Definition listens (p : servePhase) : bool := match p with SpServing | SpGraceful => true | _ => false end.

Ltac serve_cases s ev H :=
  destruct s as [phase e effects]; destruct ev; destruct phase; cbn in H; try discriminate H;
  repeat match type of H with
  | context [match e_shutdownReq ?e with _ => _ end] => destruct (e_shutdownReq e) as [[|]|] eqn:?; cbn in H; try discriminate H
  | context [let '(_, _) := forceShutdownHTTP ?a ?b in _] => destruct (forceShutdownHTTP a b) as [? ?] eqn:?; cbn in H
  | context [match ?x with Some _ => _ | None => _ end] => is_var x; destruct x; cbn in H
  end;
  try discriminate H; injection H as <-; cbn.

Lemma serveStep_left (s : serveState) (ev : serveEvent) (s' : serveState) :
  serveStep s ev = Some s' ->
  (stepsLeft (ss_phase s') + (if e_shutdownReq (ss_engine s') then 1 else 0) + (if serverEvent ev then 1 else 0)
   <= stepsLeft (ss_phase s) + (if e_shutdownReq (ss_engine s) then 1 else 0) + (if serverEvent ev then 0 else 1))%nat.
Proof.
  intros H. serve_cases s ev H; rewrite ?Heqo; cbn; try lia.
  all: repeat match goal with |- context [match ?x with Some _ => _ | None => _ end] => destruct x end; lia.
Qed.

Lemma serveStep_forced (s : serveState) (ev : serveEvent) (s' : serveState) :
  serveStep s ev = Some s' -> (listens (ss_phase s) = true -> e_shutdownReq (ss_engine s) = Some true) ->
  (listens (ss_phase s') = true -> e_shutdownReq (ss_engine s') = Some true)
  /\ (stepsLeft (ss_phase s') + (if serverEvent ev then 1 else 0) <= stepsLeft (ss_phase s))%nat.
Proof.
  intros H Hf. serve_cases s ev H; cbn in Hf; try (split; [done|lia]).
  all: try (specialize (Hf eq_refl); try congruence; split; [|lia]; intros _; unfold RequestShutdown; rewrite ?Hf; by destruct force).
  all: by rewrite Hf in Heqo by done.
Qed.

Lemma serveRun_ind (P : serveState -> Prop) :
  (forall s ev s', P s -> serveStep s ev = Some s' -> P s') ->
  forall events s s', P s -> serveRun s events = Some s' -> P s'.
Proof.
  intros Hstep. induction events as [|ev events IH]; intros s s' Hs H; cbn in H; [by injection H as <-|].
  destruct (serveStep s ev) as [s1|] eqn:E; [|done]. by eapply IH; [eapply Hstep|].
Qed.

Lemma serveRun_left (events : list serveEvent) (s s' : serveState) :
  serveRun s events = Some s' ->
  (stepsLeft (ss_phase s') + serverEvents events
   <= stepsLeft (ss_phase s) + (if e_shutdownReq (ss_engine s) then 1 else 0) + (length events - serverEvents events))%nat.
Proof.
  assert (forall l, serverEvents l <= length l)%nat as Hle by (intros l; apply filter_length_le).
  revert s. induction events as [|ev events IH]; intros s H; cbn in H; [injection H as <-; cbn; lia|].
  destruct (serveStep s ev) as [s1|] eqn:E; [|done]. pose proof (serveStep_left _ _ _ E) as Hl.
  specialize (IH s1 H). specialize (Hle events). unfold serverEvents in *. cbn.
  destruct (serverEvent ev) eqn:Ev; cbn; lia.
Qed.

Lemma serveRun_forced (events : list serveEvent) (s s' : serveState) :
  (listens (ss_phase s) = true -> e_shutdownReq (ss_engine s) = Some true) -> serveRun s events = Some s' ->
  (listens (ss_phase s') = true -> e_shutdownReq (ss_engine s') = Some true)
  /\ (stepsLeft (ss_phase s') + serverEvents events <= stepsLeft (ss_phase s))%nat.
Proof.
  revert s. induction events as [|ev events IH]; intros s Hs H; cbn in H; [injection H as <-; split; [done|cbn; lia]|].
  destruct (serveStep s ev) as [s1|] eqn:E; [|done]. destruct (serveStep_forced _ _ _ E Hs) as [Hs1 Hl].
  destruct (IH s1 Hs1 H) as [H1 H2]. split; [done|]. unfold serverEvents in *. cbn. destruct (serverEvent ev); cbn; lia.
Qed.

(** What is done so far, by phase: the sessions are told to close when the HTTP server has
    stopped, and dropped only when the wait for them failed. *)
Definition http (ef : serverEffect) : bool := match ef with HTTPShutdown | HTTPClose => true | _ => false end.

Definition effects_ok (s : serveState) : Prop :=
  match ss_phase s with
  | SpServing | SpForced => ss_effects s = []
  | SpGraceful | SpGrace => ss_effects s = [HTTPShutdown]
  | SpClosed _ => ss_effects s = [HTTPShutdown; HTTPClose]
  | SpWaiting _ => exists l, forallb http l = true /\ In HTTPShutdown l /\ ss_effects s = l ++ [WSInitiate]
  | SpJoining err =>
      exists l, forallb http l = true /\ In HTTPShutdown l
        /\ (ss_effects s = l ++ [WSInitiate] \/ (ss_effects s = l ++ [WSInitiate; WSForce] /\ err <> None))
  | SpReturned err =>
      ss_effects s = [WSInitiate]
      \/ exists l, forallb http l = true /\ In HTTPShutdown l
           /\ (ss_effects s = l ++ [WSInitiate] \/ (ss_effects s = l ++ [WSInitiate; WSForce] /\ err <> None))
  end.

Lemma serveStep_effects (s : serveState) (ev : serveEvent) (s' : serveState) :
  effects_ok s -> serveStep s ev = Some s' -> effects_ok s'.
Proof.
  intros Hs H. serve_cases s ev H; unfold effects_ok in *; cbn in *; try done; try (subst effects; by eauto 6 || (exists [HTTPShutdown]; cbn; auto)).
  - unfold forceShutdownHTTP in Heqp. destruct (unlessClosed shutdown); injection Heqp as <- <-; subst effects; cbn;
      [exists [HTTPShutdown; HTTPClose]|exists [HTTPShutdown]]; cbn; auto.
  - subst effects. exists [HTTPShutdown; HTTPClose]. cbn; auto.
  - destruct Hs as (l & Hl & Hin & ->). exists l. split_and!; [done|done|]. right. rewrite <- app_assoc. split; [done|].
    by destruct shutdownErr.
  - destruct Hs as (l & Hl & Hin & E). exists l. auto.
  - destruct Hs as (l & Hl & Hin & [E|[E Hn]]); right; exists l; split_and!; auto. right. split; [done|].
    destruct (isServerClosed e0); [done|]. by destruct shutdownErr.
  - destruct Hs as (l & Hl & Hin & [E|[E Hn]]); right; exists l; split_and!; auto. right. split; [done|]. by destruct shutdownErr.
Qed.


Abbreviation demoServed := (mkEngine 1 1 false ∅ ∅ [] ∅ [] ∅ 0 noOptions false None noPaths ∅ 1 []).


(** Whenever [ListenAndServe] returns, the WebSocket sessions have been told to close,
    after the HTTP server was shut down unless that had ended by itself; and a run that
    returns no error did not have to drop a session. *)
Theorem return_closes_sessions (events : list serveEvent) (e : Engine) (s : serveState) (err : option error) :
  serveRun (startServing e) events = Some s -> ss_phase s = SpReturned err ->
  ss_effects s = [WSInitiate]
  \/ exists l, forallb http l = true /\ In HTTPShutdown l
       /\ (ss_effects s = l ++ [WSInitiate] \/ (ss_effects s = l ++ [WSInitiate; WSForce] /\ err <> None)).
Proof.
  intros H E. assert (effects_ok s) as Hs.
  { refine (serveRun_ind effects_ok _ events (startServing e) s eq_refl H). intros s0 ev s1 H0 H1. by apply (serveStep_effects s0 ev). }
  unfold effects_ok in Hs. by rewrite E in Hs.
Qed.

Lemma return_closes_sessions_witness :
  ss_effects (mkServe (SpReturned (Some EDeadlineExceeded)) demoServed [HTTPShutdown; WSInitiate; WSForce]) = [WSInitiate]
  \/ exists l, forallb http l = true /\ In HTTPShutdown l
       /\ (ss_effects (mkServe (SpReturned (Some EDeadlineExceeded)) demoServed [HTTPShutdown; WSInitiate; WSForce]) = l ++ [WSInitiate]
           \/ (ss_effects (mkServe (SpReturned (Some EDeadlineExceeded)) demoServed [HTTPShutdown; WSInitiate; WSForce])
               = l ++ [WSInitiate; WSForce] /\ Some EDeadlineExceeded <> None)).
Proof.
  apply (@return_closes_sessions
    [SvContextDone; SvShutdownReturns None; SvWaited (Some EDeadlineExceeded); SvServeReturns (Some EServerClosed)] demoServed).
  - vm_compute. reflexivity.
  - vm_compute. reflexivity.
Defined.
