(* ===== verification/Proxy.v ===== *)
(** * Transports and proxies ([proxy.go])

    Which client a request uses: the proxy configuration read from the options and the
    environment, the rules that bypass a proxy, the transports built from it and their
    cache, and the retry of a request after an authentication challenge; and the timeout
    of a response body as a state machine.  Sockets, TLS and the proxy protocols are the
    libraries'; addresses and URLs in text are parameters. *)
From S2P Require Import Prelude GoStrings GoURL GoNet Text Options Http Downloader.

(** ** What the libraries provide *)

(** The proxies the environment names ([httpproxy.FromEnvironment]). *)
Record proxyEnvironment := mkProxyEnv { pe_HTTPProxy : string; pe_HTTPSProxy : string; pe_NoProxy : string; pe_CGI : bool }.

(** [net.ParseIP] with the address in its sixteen-byte form, [net.ParseCIDR] with the
    test of the network, [Duration.String] and [URL.String]. *)
Class ProxyLib := {
  ParseIP : string -> option string;
  ParseCIDR : string -> option (string -> bool);
  DurationString : Z -> string;
  URLString : URL -> option (string * option string) -> string;
  FromEnvironment : proxyEnvironment
}.

(** ** Configuration *)

Definition maxCachedTransports : nat := 256.

(** A proxy's URL with its decoded user information. *)
Record proxyTarget := mkTarget { px_URL : URL; px_User : option (string * option string) }.

Record proxyConfig := mkProxy {
  px_scheme : string; px_raw : string; px_proxyURL : option proxyTarget;
  px_socksAddr : string; px_socksUser : string; px_socksPass : string; px_noProxy : list string;
  px_connectTimeout : Z; px_headerTimeout : Z; px_checkCertificate : bool; px_keepAlive : bool;
  px_httpVersion : string; px_envHTTPProxy : string; px_envHTTPSProxy : string; px_envCGI : bool
}.
#[global] Instance eta_proxyConfig : Eta proxyConfig := fun c =>
  mkProxy (px_scheme c) (px_raw c) (px_proxyURL c) (px_socksAddr c) (px_socksUser c) (px_socksPass c) (px_noProxy c)
    (px_connectTimeout c) (px_headerTimeout c) (px_checkCertificate c) (px_keepAlive c) (px_httpVersion c)
    (px_envHTTPProxy c) (px_envHTTPSProxy c) (px_envCGI c).

Definition splitList (s : string) : list string :=
  if String.eqb s "" then [] else filter (fun part => part <> "") (map TrimSpace (Split s ",")).

(** The text of the proxy, and whether an empty one is asked for. *)
Definition proxySpecForScheme (scheme : string) (opts : Options) : string * bool :=
  let key := scheme +:+ "-proxy" in
  if optionPresent opts key then let raw := optionString opts key in (raw, String.eqb raw "")
  else if optionPresent opts "all-proxy" then let raw := optionString opts "all-proxy" in (raw, String.eqb raw "")
  else ("", false).

Definition proxyCredentialsForScheme (scheme : string) (opts : Options) : string * string :=
  let user := optionString opts (scheme +:+ "-proxy-user") in
  if String.eqb user "" then (optionString opts "all-proxy-user", optionString opts "all-proxy-passwd")
  else (user, optionString opts (scheme +:+ "-proxy-passwd")).

(** The user information of a URL, decoded. *)
Definition userOf (u : URL) : option (string * option string) :=
  match u_User u with
  | None => None
  | Some raw =>
      let decode s := default "" (unescape s encodeUserPassword) in
      Some match Cut raw ":" with
           | Some (user, pass) => (decode user, Some (decode pass))
           | None => (decode raw, None)
           end
  end.

Definition parseError {A} (raw : string) : result A := Err (EURL "parse" raw (EText "invalid URL")).

Definition normalizeProxyURL (raw : string) : result URL :=
  let raw := TrimSpace raw in
  if String.eqb raw "" then Err (EText "empty proxy URL")
  else
    let raw := if Contains raw "://" then raw else "http://" +:+ raw in
    match parse raw with
    | None => parseError raw
    | Some u => if String.eqb (u_Host u) "" then Err (EText "invalid proxy URL") else Ok u
    end.

Section proxies.
Context {lib : ProxyLib}.

Definition baseConfig (scheme : string) (opts : Options) : proxyConfig :=
  let env := FromEnvironment in
  mkProxy scheme "" None "" "" ""
    (if optionPresent opts "no-proxy" then splitList (optionString opts "no-proxy") else splitList (pe_NoProxy env))
    (wrap64 (optionInt opts "connect-timeout" 60 * second)) (wrap64 (optionInt opts "timeout" 60 * second))
    (optionBoolDefault opts "check-certificate" true) (optionBoolDefault opts "enable-http-keep-alive" true)
    (normalizeHTTPVersion (optionString opts "http-version"))
    (pe_HTTPProxy env) (pe_HTTPSProxy env) (pe_CGI env).

Definition buildProxyConfig (scheme : string) (opts : Options) : result proxyConfig :=
  let cfg := baseConfig scheme opts in
  let '(raw, explicitNone) := proxySpecForScheme scheme opts in
  if explicitNone then Ok (cfg <| px_raw := "-" |>)
  else
    let cfg := cfg <| px_raw := raw |> in
    if String.eqb raw "" then Ok cfg
    else
      let! u := normalizeProxyURL raw in
      let '(user, pass) := proxyCredentialsForScheme scheme opts in
      let info := if negb (String.eqb user "") then Some (user, Some pass) else userOf u in
      if in_words (ToLower (u_Scheme u)) ["http"; "https"] then Ok (cfg <| px_proxyURL := Some (mkTarget u info) |>)
      else if in_words (ToLower (u_Scheme u)) ["socks5"; "socks5h"] then
        if String.eqb (u_Host u) "" then Err (EText "invalid socks proxy")
        else
          let cfg := cfg <| px_socksAddr := u_Host u |> in
          Ok match info with
             | Some (user, pass) => cfg <| px_socksUser := user |> <| px_socksPass := default "" pass |>
             | None => cfg
             end
      else Err (EText ("unsupported proxy scheme " +:+ quoted (u_Scheme u))).

(** ** Bypassing a proxy *)

Definition defaultPort (scheme : string) : string :=
  let scheme := ToLower scheme in
  if String.eqb scheme "http" then "80" else if String.eqb scheme "https" then "443" else "".

Definition effectivePort (u : URL) : string :=
  let port := Port (u_Host u) in if String.eqb port "" then defaultPort (u_Scheme u) else port.

Definition splitNoProxyHostPort (rule : string) : string * string := default (rule, "") (SplitHostPort rule).

(** [strings.Trim(s, "[]")] *)
Fixpoint trimLeftAny (chars s : string) : string :=
  match s with String a s' => if ContainsByte chars a then trimLeftAny chars s' else s | "" => "" end.
Fixpoint trimRightAny (chars s : string) : string :=
  match s with
  | "" => ""
  | String a s' =>
      let rest := trimRightAny chars s' in
      if String.eqb rest "" && ContainsByte chars a then "" else String a rest
  end.
Definition TrimAny (chars s : string) : string := trimRightAny chars (trimLeftAny chars s).

(** One rule of the list, for a host, its port and its address. *)
Definition ruleMatches (host port : string) (ip : option string) (rawRule : string) : bool :=
  let rule := TrimSpace (ToLower rawRule) in
  if String.eqb rule "" then false
  else if String.eqb rule "*" then true
  else match ParseCIDR rule, ip with
  | Some network, Some ip => network ip
  | _, _ =>
      let '(ruleHost, rulePort) := splitNoProxyHostPort rule in
      if negb (String.eqb rulePort "") && negb (String.eqb port rulePort) then false
      else
        let ruleHost := TrimSuffix (TrimAny "[]" ruleHost) "." in
        match ParseIP ruleHost, ip with
        | Some parsed, Some ip => String.eqb parsed ip
        | _, _ =>
            let subdomainsOnly := HasPrefix ruleHost "." || HasPrefix ruleHost "*." in
            let ruleHost := TrimPrefix (TrimPrefix ruleHost "*.") "." in
            if String.eqb ruleHost "" then false
            else (negb subdomainsOnly && String.eqb host ruleHost) || HasSuffix host ("." +:+ ruleHost)
        end
  end.

Definition shouldBypassProxyURL (target : URL) (noProxy : list string) : bool :=
  let host := TrimSuffix (ToLower (Hostname (u_Host target))) "." in
  if String.eqb host "" then false
  else existsb (ruleMatches host (effectivePort target) (ParseIP host)) noProxy.

(** [shouldBypassProxy], for a host with or without a port. *)
Definition shouldBypassProxy (host : string) (noProxy : list string) : bool :=
  let host := if Contains host ":" then host else JoinHostPort host "" in
  shouldBypassProxyURL (mkURL "" "" None host "" "" "" "") noProxy.

Definition hasPotentialProxy (cfg : proxyConfig) : bool :=
  if String.eqb (px_raw cfg) "-" then false
  else if existsb (fun rule => String.eqb (TrimSpace rule) "*") (px_noProxy cfg) then false
  else if match px_proxyURL cfg with Some _ => true | None => false end || negb (String.eqb (px_socksAddr cfg) "") then true
  else if String.eqb (px_scheme cfg) "https" then negb (String.eqb (TrimSpace (px_envHTTPSProxy cfg)) "")
  else negb (String.eqb (TrimSpace (px_envHTTPProxy cfg)) "").

(** ** Transports *)

(** How a transport finds a proxy for a request. *)
Inductive proxyChoice :=
| ProxyNone
| ProxyEnvironment (http https : string) (noProxy : list string) (cgi : bool)
| ProxyFixed (target : proxyTarget) (noProxy : list string).

(** How it connects: [DialSOCKS] connects directly to what the rules bypass. *)
Inductive dialer :=
| DialDirect
| DialSOCKS (addr : string) (auth : option (string * string)) (scheme : string) (noProxy : list string).

(** The settings of an [http.Transport] that depend on the configuration. *)
Record httpTransport := mkTransport {
  tr_Proxy : proxyChoice; tr_Dial : dialer; tr_ConnectTimeout : Z; tr_HeaderTimeout : Z;
  tr_HTTP2 : bool; tr_DisableKeepAlives : bool; tr_Verify : bool
}.
#[global] Instance eta_httpTransport : Eta httpTransport := fun t =>
  mkTransport (tr_Proxy t) (tr_Dial t) (tr_ConnectTimeout t) (tr_HeaderTimeout t) (tr_HTTP2 t) (tr_DisableKeepAlives t) (tr_Verify t).

Definition newTransport (cfg : proxyConfig) : httpTransport :=
  let dial :=
    if String.eqb (px_socksAddr cfg) "" then DialDirect
    else DialSOCKS (px_socksAddr cfg)
           (if String.eqb (px_socksUser cfg) "" then None else Some (px_socksUser cfg, px_socksPass cfg))
           (px_scheme cfg) (px_noProxy cfg) in
  let proxy :=
    if String.eqb (px_raw cfg) "-" then ProxyNone
    else match px_proxyURL cfg with
         | Some target => ProxyFixed target (px_noProxy cfg)
         | None => ProxyEnvironment (px_envHTTPProxy cfg) (px_envHTTPSProxy cfg) (px_noProxy cfg) (px_envCGI cfg)
         end in
  let proxy := if String.eqb (px_socksAddr cfg) "" then proxy else ProxyNone in
  mkTransport proxy dial (px_connectTimeout cfg) (px_headerTimeout cfg)
    (negb (in_words (px_httpVersion cfg) ["1.1"; "1"; "h1"])) (negb (px_keepAlive cfg)) (px_checkCertificate cfg).

(** The proxy the transport's own function gives for a request; what the environment
    gives is its library's. *)
Definition fixedProxyFor (t : httpTransport) (target : URL) : option proxyTarget :=
  match tr_Proxy t with
  | ProxyFixed proxy noProxy => if shouldBypassProxyURL target noProxy then None else Some proxy
  | _ => None
  end.

(** The SOCKS server through which an address is dialled. *)
Definition socksFor (t : httpTransport) (addr : string) : option (string * option (string * string)) :=
  match tr_Dial t with
  | DialSOCKS server auth scheme noProxy =>
      if shouldBypassProxyURL (mkURL scheme "" None addr "" "" "" "") noProxy then None else Some (server, auth)
  | DialDirect => None
  end.

(** The transports of forced versions. *)
Record http2Transport := mkH2 { h2_Verify : bool; h2_ConnectTimeout : Z; h2_WriteTimeout : Z }.
Record http3Transport := mkH3 { h3_Verify : bool; h3_HandshakeTimeout : Z }.

Definition newHTTP2Transport (cfg : proxyConfig) : http2Transport :=
  mkH2 (px_checkCertificate cfg) (px_connectTimeout cfg) (px_headerTimeout cfg).
Definition newHTTP3Transport (cfg : proxyConfig) : http3Transport :=
  mkH3 (px_checkCertificate cfg) (px_connectTimeout cfg).

(** ** The cache *)

Definition keyParts (cfg : proxyConfig) : list string :=
  [px_scheme cfg; px_raw cfg; px_socksAddr cfg; px_socksUser cfg; px_socksPass cfg; Join (px_noProxy cfg) ",";
   DurationString (px_connectTimeout cfg); DurationString (px_headerTimeout cfg);
   FormatBool (px_checkCertificate cfg); FormatBool (px_keepAlive cfg); px_httpVersion cfg;
   px_envHTTPProxy cfg; px_envHTTPSProxy cfg; FormatBool (px_envCGI cfg)]
  ++ match px_proxyURL cfg with Some target => [URLString (px_URL target) (px_User target)] | None => [] end.

Definition cacheKey (cfg : proxyConfig) : string := Join (keyParts cfg) "|".

Record Transports := mkTransports {
  tc_http : gmap string httpTransport; tc_h2 : gmap string http2Transport; tc_h3 : gmap string http3Transport
}.
#[global] Instance eta_Transports : Eta Transports := fun c => mkTransports (tc_http c) (tc_h2 c) (tc_h3 c).

Definition cachedTransports (c : Transports) : nat := size (tc_http c) + size (tc_h2 c) + size (tc_h3 c).
Definition transportCacheFull (c : Transports) : bool := (maxCachedTransports <=? cachedTransports c)%nat.

Definition cachedHTTPTransport (cfg : proxyConfig) (c : Transports) : httpTransport * Transports :=
  let key := cacheKey cfg in
  match tc_http c !! key with
  | Some t => (t, c)
  | None =>
      let t := newTransport cfg in
      if transportCacheFull c then (t <| tr_DisableKeepAlives := true |>, c)
      else (t, c <| tc_http ::= <[key := t]> |>)
  end.

(** What carries the requests of a client; the flag says that idle connections are closed
    with each body. *)
Inductive roundTripper :=
| RtEngine                                     (* the engine's own client *)
| RtHTTP (t : httpTransport)
| RtHTTP2 (t : http2Transport) (closeIdle : bool)
| RtHTTP3 (t : http3Transport) (closeIdle : bool)
| RtDispatch (http https : httpTransport).

(** ** The client of a request ([clientFor]) *)

Definition hasCustomTransportOptionsExceptHTTPVersion (opts : Options) : bool :=
  existsb (optionPresent opts) ["all-proxy"; "http-proxy"; "https-proxy"; "no-proxy"]
  || existsb (fun key => negb (String.eqb (optionString opts key) ""))
       ["all-proxy-user"; "all-proxy-passwd"; "http-proxy-user"; "http-proxy-passwd"; "https-proxy-user"; "https-proxy-passwd"]
  || negb (optionInt opts "connect-timeout" 60 =? 60) || negb (optionInt opts "timeout" 60 =? 60)
  || negb (optionBoolDefault opts "check-certificate" true) || negb (optionBoolDefault opts "enable-http-keep-alive" true).

Definition hasCustomTransportOptions (opts : Options) : bool :=
  hasCustomTransportOptionsExceptHTTPVersion opts
  || negb (String.eqb (normalizeHTTPVersion (optionString opts "http-version")) "auto").

Definition hasSchemeSpecificProxyOptions (opts : Options) : bool :=
  existsb (fun scheme =>
    optionPresent opts (scheme +:+ "-proxy")
    || negb (String.eqb (optionString opts (scheme +:+ "-proxy-user")) "")
    || negb (String.eqb (optionString opts (scheme +:+ "-proxy-passwd")) "")) ["http"; "https"].

Definition clientFor (customHTTPClient : bool) (scheme : string) (opts : Options) (c : Transports)
    : result roundTripper * Transports :=
  if negb (hasCustomTransportOptions opts) then (Ok RtEngine, c)
  else if customHTTPClient && String.eqb (normalizeHTTPVersion (optionString opts "http-version")) "1.1"
          && negb (hasCustomTransportOptionsExceptHTTPVersion opts) then (Ok RtEngine, c)
  else match buildProxyConfig scheme opts with
  | Err err => (Err err, c)
  | Ok cfg =>
      if in_words (px_httpVersion cfg) ["3"; "h3"] then
        if negb (String.eqb scheme "https") then (Err (EText "HTTP/3 requires https"), c)
        else if hasPotentialProxy cfg then (Err (EText "HTTP/3 over configured HTTP/SOCKS proxy is not supported"), c)
        else
          let key := cacheKey cfg in
          match tc_h3 c !! key with
          | Some t => (Ok (RtHTTP3 t (negb (px_keepAlive cfg))), c)
          | None =>
              let t := newHTTP3Transport cfg in
              if transportCacheFull c then (Ok (RtHTTP3 t true), c)
              else (Ok (RtHTTP3 t (negb (px_keepAlive cfg))), c <| tc_h3 ::= <[key := t]> |>)
          end
      else if in_words (px_httpVersion cfg) ["2"; "h2"] then
        if negb (String.eqb scheme "https") then (Err (EText "forced HTTP/2 requires https"), c)
        else if hasPotentialProxy cfg then (Err (EText "forced HTTP/2 over configured HTTP/SOCKS proxy is not supported"), c)
        else
          let key := cacheKey cfg in
          match tc_h2 c !! key with
          | Some t => (Ok (RtHTTP2 t (negb (px_keepAlive cfg))), c)
          | None =>
              let t := newHTTP2Transport cfg in
              if transportCacheFull c then (Ok (RtHTTP2 t true), c)
              else (Ok (RtHTTP2 t (negb (px_keepAlive cfg))), c <| tc_h2 ::= <[key := t]> |>)
          end
      else
        let '(t, c) := cachedHTTPTransport cfg c in
        if negb (hasSchemeSpecificProxyOptions opts) then (Ok (RtHTTP t), c)
        else match buildProxyConfig (if String.eqb scheme "http" then "https" else "http") opts with
        | Err err => (Err err, c)
        | Ok otherCfg =>
            let '(other, c) := cachedHTTPTransport otherCfg c in
            (Ok (if String.eqb scheme "https" then RtDispatch other t else RtDispatch t other), c)
        end
  end.

(** [schemeRoundTripper.RoundTrip]: the transport of a request's scheme. *)
Definition dispatch (http https : httpTransport) (scheme : string) : result httpTransport :=
  if String.eqb scheme "http" then Ok http
  else if String.eqb scheme "https" then Ok https
  else Err (EText ("unsupported protocol scheme " +:+ quoted scheme)).
End proxies.
