(* ===== verification/ProxySpec.v ===== *)
(** * What transports and proxies promise

    The rules that bypass a proxy mean what they say; a cached transport is the one its
    own configuration would make, as long as no text holds the separator of the keys; the
    cache is bounded; and a pair of configurations that share a key. *)
From S2P Require Import Prelude GoStrings GoPath GoURL GoNet Text Options Http State Downloader Proxy.

(** ** Lemmas: suffixes and plain texts *)

Lemma HasSuffix_spec (s p : string) : HasSuffix s p = true <-> exists t, s = t +:+ p.
Proof.
  unfold HasSuffix. induction s as [|a s IH]; cbn [exists_suffix].
  - split.
    + intros H. exists "". symmetry. rewrite str_app_nil_l. apply String.eqb_eq. by destruct (String.eqb p "").
    + intros ([|b t] & E); [|discriminate E]. rewrite str_app_nil_l in E. subst p. done.
  - rewrite orb_true_iff, IH. split.
    + intros [H%String.eqb_eq|(t & ->)]; [by exists ""; rewrite str_app_nil_l|by exists (String a t)].
    + intros ([|b t] & E); [left; apply String.eqb_eq; by rewrite str_app_nil_l in E|right].
      injection E as <- ->. by exists t.
Qed.

Lemma HasPrefix_empty' (s : string) : HasPrefix s "" = true.
Proof. by destruct s. Qed.

(** The bytes of a host name in lower case, and of a rule. *)
Definition name_byte (a : ascii) : bool :=
  is_digit a || ((97 <=? byteZ a) && (byteZ a <=? 122)) || Ascii.eqb a "-" || Ascii.eqb a ".".
Definition rule_byte (a : ascii) : bool := name_byte a || Ascii.eqb a "*".

Lemma rule_byte_facts (a : ascii) :
  rule_byte a = true ->
  ascii_lower a = a /\ plain_byte a = true /\ Ascii.eqb ":" a = false /\ ContainsByte "[]" a = false.
Proof. destruct a as [[] [] [] [] [] [] [] []]; vm_compute; intros H; try discriminate H; by repeat split. Qed.

Lemma lower_rule (s : string) : forall_byte rule_byte s = true -> ToLower s = s.
Proof.
  induction s as [|a s IH]; [done|]. cbn [forall_byte ToLower]. intros [Ha Hs]%andb_true_iff.
  destruct (rule_byte_facts a Ha) as (-> & _). by rewrite IH.
Qed.

Lemma trim_rule (s : string) : forall_byte rule_byte s = true -> TrimSpace s = s.
Proof. intros Hs. apply TrimSpace_plain. eapply forall_byte_impl; [|exact Hs]. intros a Ha. by destruct (rule_byte_facts a Ha) as (_ & ? & _). Qed.

Lemma CutLast_None (s : string) (c : ascii) : ContainsByte s c = false -> CutLast s c = None.
Proof.
  induction s as [|a s IH]; [done|]. rewrite ContainsByte_cons. intros [Ha Hs]%orb_false_iff. cbn [CutLast].
  rewrite IH by done. by rewrite Ascii.eqb_sym, Ha.
Qed.

Lemma no_port_rule (s : string) : forall_byte rule_byte s = true -> splitNoProxyHostPort s = (s, "").
Proof.
  intros Hs. unfold splitNoProxyHostPort, SplitHostPort. rewrite CutLast_None; [done|].
  unfold ContainsByte, exists_byte. apply negb_false_iff. eapply forall_byte_impl; [|exact Hs].
  intros a Ha. apply negb_true_iff. by destruct (rule_byte_facts a Ha) as (_ & _ & ? & _).
Qed.

Lemma brackets_rule (s : string) : forall_byte rule_byte s = true -> TrimAny "[]" s = s.
Proof.
  intros Hs. assert (forall s, forall_byte rule_byte s = true -> trimRightAny "[]" s = s) as Hr.
  { clear. induction s as [|a s IH]; [done|]. cbn [forall_byte trimRightAny]. intros [Ha Hs]%andb_true_iff.
    rewrite IH by done. destruct (rule_byte_facts a Ha) as (_ & _ & _ & ->). by rewrite andb_false_r. }
  unfold TrimAny. destruct s as [|a s]; [done|]. cbn [trimLeftAny].
  assert (rule_byte a = true) as Ha by (cbn [forall_byte] in Hs; by apply andb_true_iff in Hs as [? _]).
  destruct (rule_byte_facts a Ha) as (_ & _ & _ & ->). by apply Hr.
Qed.

(** ** Rules *)

(** A domain in lower case that neither starts nor ends with a dot. *)
Definition domain_name (d : string) : Prop :=
  d <> "" /\ forall_byte name_byte d = true /\ HasPrefix d "." = false /\ CutSuffix d "." = None.

Inductive proxyRule := RuleAny | RuleDomain (d : string) | RuleSubdomains (d : string) | RuleWildcard (d : string).

Definition ruleText (r : proxyRule) : string :=
  match r with RuleAny => "*" | RuleDomain d => d | RuleSubdomains d => "." +:+ d | RuleWildcard d => "*." +:+ d end.

Definition rule_ok (r : proxyRule) : Prop :=
  match r with RuleAny => True | RuleDomain d | RuleSubdomains d | RuleWildcard d => domain_name d end.

Definition subdomain (host d : string) : Prop := exists sub, host = sub +:+ "." +:+ d.

(** What a rule means. *)
Definition covers (r : proxyRule) (host : string) : Prop :=
  match r with
  | RuleAny => True
  | RuleDomain d => host = d \/ subdomain host d
  | RuleSubdomains d | RuleWildcard d => subdomain host d
  end.

Lemma name_rule (s : string) : forall_byte name_byte s = true -> forall_byte rule_byte s = true.
Proof. apply forall_byte_impl. intros a Ha. unfold rule_byte. by rewrite Ha. Qed.

Lemma CutSuffix_cons (a : ascii) (s : string) : s <> "" -> CutSuffix s "." = None -> CutSuffix (String a s) "." = None.
Proof.
  intros Hne Hs. cbn [CutSuffix]. rewrite Hs. destruct (String.eqb_spec (String a s) ".") as [[= _ E]|_]; [done|done].
Qed.

Lemma rule_matches {lib : ProxyLib} (host port text : string) :
  forall_byte rule_byte text = true -> text <> "" -> text <> "*" -> CutSuffix text "." = None ->
  ruleMatches host port None text
  = let subdomainsOnly := HasPrefix text "." || HasPrefix text "*." in
    let rest := TrimPrefix (TrimPrefix text "*.") "." in
    if String.eqb rest "" then false else (negb subdomainsOnly && String.eqb host rest) || HasSuffix host ("." +:+ rest).
Proof.
  intros Hb Hne Hstar Hsuf. unfold ruleMatches. rewrite lower_rule, trim_rule by done. rewrite eqb_empty by done.
  destruct (String.eqb_spec text "*") as [|_]; [done|]. rewrite no_port_rule by done. cbn [String.eqb negb andb].
  rewrite brackets_rule by done. unfold TrimSuffix. rewrite Hsuf. by destruct (ParseCIDR text), (ParseIP text).
Qed.

Lemma rule_covers {lib : ProxyLib} (host port : string) (r : proxyRule) :
  rule_ok r -> ruleMatches host port None (ruleText r) = true <-> covers r host.
Proof.
  destruct r as [|d|d|d]; cbn [rule_ok ruleText covers]; [done|..]; intros (Hne & Hb & Hdot & Hsuf);
    pose proof (name_rule d Hb) as Hr.
  - assert (d <> "*" /\ TrimPrefix (TrimPrefix d "*.") "." = d /\ HasPrefix d "*." = false) as (Hstar & Htrim & Hwild).
    { destruct d as [|a d]; [done|]. cbn [forall_byte] in Hb. apply andb_true_iff in Hb as [Ha _].
      assert (Ascii.eqb a "*" = false) as Ea by (destruct (Ascii.eqb_spec a "*") as [->|]; [discriminate Ha|done]).
      rewrite Ascii.eqb_sym in Ea. cbn [HasPrefix] in Hdot. split_and!; [by intros [= -> _]| |cbn [HasPrefix]; by rewrite Ea].
      unfold TrimPrefix. cbn [CutPrefix]. rewrite Ea. cbn [CutPrefix]. destruct (Ascii.eqb "." a); [|done].
      by rewrite HasPrefix_empty' in Hdot. }
    rewrite rule_matches by done. rewrite Hdot, Hwild, Htrim. cbn [orb negb andb]. rewrite eqb_empty by done.
    rewrite orb_true_iff, String.eqb_eq, HasSuffix_spec. done.
  - rewrite rule_matches; [|done|done|by intros [= _ E]|by apply CutSuffix_cons].
    cbn [HasPrefix]. change (HasPrefix ("." +:+ d) ".") with (HasPrefix d "").
    assert (TrimPrefix (TrimPrefix ("." +:+ d) "*.") "." = d) as -> by (unfold TrimPrefix; cbn; by destruct d).
    rewrite HasPrefix_empty'. cbn [orb negb andb]. rewrite eqb_empty by done. cbn [orb]. by rewrite HasSuffix_spec.
  - rewrite rule_matches; [|done|done|done|by apply CutSuffix_cons, CutSuffix_cons].
    change (HasPrefix ("*." +:+ d) "*.") with (HasPrefix d "").
    assert (TrimPrefix (TrimPrefix ("*." +:+ d) "*.") "." = d) as ->.
    { unfold TrimPrefix. change (CutPrefix ("*." +:+ d) "*.") with (CutPrefix d "").
      assert (CutPrefix d "" = Some d) as -> by by destruct d.
      destruct d as [|a d]; [done|]. cbn [CutPrefix HasPrefix] in *. destruct (Ascii.eqb "." a) eqn:E; [|done].
      cbn in Hdot. by rewrite HasPrefix_empty' in Hdot. }
    rewrite HasPrefix_empty', orb_true_r. cbn [negb andb]. rewrite eqb_empty by done. cbn [orb]. by rewrite HasSuffix_spec.
Qed.

(** The text of a list of rules is read back as the list. *)
Lemma rule_text_ok (r : proxyRule) :
  rule_ok r -> ruleText r <> "" /\ TrimSpace (ruleText r) = ruleText r /\ ContainsByte (ruleText r) "," = false.
Proof.
  assert (forall s, forall_byte rule_byte s = true -> s <> "" -> s <> "" /\ TrimSpace s = s /\ ContainsByte s "," = false) as Hs.
  { intros s Hs Hne. split_and!; [done|by apply trim_rule|]. unfold ContainsByte, exists_byte. apply negb_false_iff.
    eapply forall_byte_impl; [|exact Hs]. intros a Ha. by destruct a as [[] [] [] [] [] [] [] []]; vm_compute in Ha |- *. }
  destruct r as [|d|d|d]; cbn [rule_ok ruleText]; [by intros; apply Hs|..]; intros (Hne & Hb%name_rule & _); by apply Hs.
Qed.

Lemma splitList_rules (rules : list proxyRule) :
  Forall rule_ok rules -> splitList (Join (map ruleText rules) ",") = map ruleText rules.
Proof.
  intros Hr. destruct rules as [|r rules]; [done|]. unfold splitList.
  assert (Forall (fun t => t <> "" /\ TrimSpace t = t /\ ContainsByte t "," = false) (map ruleText (r :: rules))) as Ht
    by (apply Forall_map; eapply Forall_impl; [exact Hr|apply rule_text_ok]).
  assert (Join (map ruleText (r :: rules)) "," <> "") as Hj.
  { inversion Ht as [|? ? (Hne & _) _]; subst. cbn [map Join]. destruct (map ruleText rules); [done|]. by destruct (ruleText r). }
  rewrite eqb_empty by done. rewrite Split_Join; [|done|eapply Forall_impl; [exact Ht|by intros ? (_ & _ & ?)]].
  clear Hj. induction Ht as [|t ts (Hne & Htrim & _) _ IH]; [done|]. cbn [map]. rewrite Htrim, filter_cons_True by done. by f_equal.
Qed.

(** C30: a request to a named host goes around the proxy exactly when some rule of the
    option's text covers the host: [*] covers every host, a domain itself and the hosts
    below it, a domain with a leading dot or wildcard only the hosts below it. *)
Theorem no_proxy_rules_exact {lib : ProxyLib} (target : URL) (rules : list proxyRule) (host : string) :
  host = TrimSuffix (ToLower (Hostname (u_Host target))) "." -> host <> "" -> ParseIP host = None -> Forall rule_ok rules ->
  shouldBypassProxyURL target (splitList (Join (map ruleText rules) ",")) = true <-> exists r, r ∈ rules /\ covers r host.
Proof.
  intros Hh Hne Hip Hr. rewrite splitList_rules by done. unfold shouldBypassProxyURL. rewrite <- Hh, Hip, eqb_empty by done.
  rewrite existsb_exists. split.
  - intros (text & Hin & Hm). apply in_map_iff in Hin as (r & <- & Hin). apply list_elem_of_In in Hin. exists r. split; [done|].
    by apply (rule_covers host (effectivePort target)); [eapply Forall_forall; [exact Hr|done]|].
  - intros (r & Hin & Hc). exists (ruleText r). split; [apply in_map_iff; exists r; split; [done|by apply list_elem_of_In]|].
    by apply rule_covers; [eapply Forall_forall; [exact Hr|done]|].
Qed.

(** A library that knows one address. *)
Definition demoProxies : ProxyLib := {|
  ParseIP s := if String.eqb s "127.0.0.1" then Some "127.0.0.1" else None;
  ParseCIDR s := None;
  DurationString d := FormatInt d +:+ "ns";
  URLString u info := u_Host u +:+ match info with
                                   | Some (user, Some pass) => "@" +:+ QueryEscape user +:+ ":" +:+ QueryEscape pass
                                   | Some (user, None) => "@" +:+ QueryEscape user
                                   | None => ""
                                   end;
  FromEnvironment := mkProxyEnv "" "" "" false
|}.

Lemma no_proxy_rules_exact_witness :
  @shouldBypassProxyURL demoProxies (mkURL "https" "" None "Files.Example.org.:8443" "" "" "" "") (splitList "local,.example.org") = true.
Proof.
  refine (proj2 (@no_proxy_rules_exact demoProxies _ [RuleDomain "local"; RuleSubdomains "example.org"] "files.example.org" _ _ _ _) _).
  - vm_compute; reflexivity.
  - discriminate.
  - reflexivity.
  - repeat constructor; discriminate.
  - exists (RuleSubdomains "example.org"). split; [apply list_elem_of_here || (apply list_elem_of_further; apply list_elem_of_here)|].
    exists "files". reflexivity.
Defined.
