(* ===== verification/TransportSpec.v ===== *)
(** * The cache of transports

    A cache of transports is a memo of [newTransport]: as long as no text of the
    configurations holds the separator of the keys, a client made from the cache is the
    client its own options would make, and the cache stays within its bound.  A pair of
    option maps whose keys collide shows that the separator matters. *)
From S2P Require Import Prelude GoStrings GoPath GoURL GoNet Text Options Http State Downloader Proxy ProxySpec.

(** ** Laws of the libraries the keys rely on *)

Class ProxyLaws (lib : ProxyLib) := {
  DurationString_inj : forall d e, DurationString d = DurationString e -> d = e;
  DurationString_plain : forall d, ContainsByte (DurationString d) "|" = false;
  URLString_user : forall u i j, URLString u i = URLString u j -> i = j
}.

(** ** Lemmas: keys *)

Section keys.
Context {lib : ProxyLib} {laws : ProxyLaws lib}.

(** The texts of a configuration that its key holds as they are. *)
Definition keyTexts (cfg : proxyConfig) : list string :=
  [px_scheme cfg; px_raw cfg; px_socksAddr cfg; px_socksUser cfg; px_socksPass cfg; Join (px_noProxy cfg) ",";
   px_httpVersion cfg; px_envHTTPProxy cfg; px_envHTTPSProxy cfg].

Definition separable (cfg : proxyConfig) : Prop := Forall (fun s => ContainsByte s "|" = false) (keyTexts cfg).

(** A configuration that [buildProxyConfig] makes. *)
Definition built (cfg : proxyConfig) : Prop := exists scheme opts, buildProxyConfig scheme opts = Ok cfg.

Lemma Split_Join_concat (l : list string) (c : ascii) :
  l <> [] -> Split (Join l (String c "")) c = concat (map (fun s => Split s c) l).
Proof.
  induction l as [|x [|y l] IH]; [done|cbn; by rewrite app_nil_r|intros _].
  change (Join (x :: y :: l) (String c "")) with (x +:+ String c (Join (y :: l) (String c ""))).
  rewrite Split_sep, IH by done. done.
Qed.

Lemma FormatBool_plain (b : bool) (c : ascii) : c = "|"%char -> ContainsByte (FormatBool b) c = false.
Proof. intros ->. by destruct b. Qed.

Lemma FormatBool_inj (a b : bool) : FormatBool a = FormatBool b -> a = b.
Proof. by destruct a, b. Qed.

(** What the key of a configuration splits into. *)
Lemma split_key (cfg : proxyConfig) :
  separable cfg ->
  Split (cacheKey cfg) "|" =
  [px_scheme cfg; px_raw cfg; px_socksAddr cfg; px_socksUser cfg; px_socksPass cfg; Join (px_noProxy cfg) ",";
   DurationString (px_connectTimeout cfg); DurationString (px_headerTimeout cfg);
   FormatBool (px_checkCertificate cfg); FormatBool (px_keepAlive cfg); px_httpVersion cfg;
   px_envHTTPProxy cfg; px_envHTTPSProxy cfg; FormatBool (px_envCGI cfg)]
  ++ match px_proxyURL cfg with Some t => Split (URLString (px_URL t) (px_User t)) "|" | None => [] end.
Proof.
  unfold separable, keyTexts. rewrite !Forall_cons. intros (H1 & H2 & H3 & H4 & H5 & H6 & H7 & H8 & H9 & _).
  unfold cacheKey. rewrite Split_Join_concat by done. unfold keyParts. rewrite map_app, concat_app. cbn [map concat].
  rewrite (Split_plain (px_scheme cfg)), (Split_plain (px_raw cfg)), (Split_plain (px_socksAddr cfg)),
    (Split_plain (px_socksUser cfg)), (Split_plain (px_socksPass cfg)), (Split_plain (Join _ _)),
    (Split_plain (px_httpVersion cfg)), (Split_plain (px_envHTTPProxy cfg)), (Split_plain (px_envHTTPSProxy cfg)),
    !(Split_plain (DurationString _)), !(Split_plain (FormatBool _)) by auto using DurationString_plain, FormatBool_plain.
  cbn [app]. do 14 f_equal. destruct (px_proxyURL cfg); cbn [map concat]; [by rewrite app_nil_r|done].
Qed.

(** ** Lemmas: rules as the options give them *)

Lemma trim_left_fuel_no (c : ascii) (n : nat) (s : string) : ContainsByte s c = false -> ContainsByte (trim_left_fuel n s) c = false.
Proof.
  assert (forall s s', lead_space s = Some s' -> ContainsByte s c = false -> ContainsByte s' c = false) as Hl.
  { intros [|a [|b [|d s0]]] s' H; cbn in H; repeat (case_match; simplify_eq); rewrite ?ContainsByte_cons, ?orb_false_iff; naive_solver. }
  revert s. induction n as [|n IH]; intros s H; cbn; [done|]. destruct (lead_space s) eqn:E; [|done]. eauto.
Qed.

Lemma trim_right_no (c : ascii) (s : string) : ContainsByte s c = false -> ContainsByte (trim_right s) c = false.
Proof.
  induction s as [|a s IH]; cbn [trim_right]; intros H; [by case_match|]. case_match; [done|].
  rewrite ContainsByte_cons, orb_false_iff in *. destruct H. auto.
Qed.

Lemma TrimSpace_no (c : ascii) (s : string) : ContainsByte s c = false -> ContainsByte (TrimSpace s) c = false.
Proof. intros H. by apply trim_right_no, trim_left_fuel_no. Qed.

(** The elements of a list option: no commas and no empty ones. *)
Definition listed (l : list string) : Prop := Forall (fun s => s <> "" /\ ContainsByte s "," = false) l.

Lemma splitList_listed (s : string) : listed (splitList s).
Proof.
  unfold splitList. case_match; [constructor|]. apply Forall_forall. intros x Hx.
  apply list_elem_of_filter in Hx as [Hne Hx]. split; [done|]. apply list_elem_of_fmap in Hx as (y & -> & Hy).
  apply TrimSpace_no. pose proof (Split_no_sep s ",") as Hs. rewrite Forall_forall in Hs. by apply Hs.
Qed.

Lemma listed_Join (l m : list string) : listed l -> listed m -> Join l "," = Join m "," -> l = m.
Proof.
  intros Hl Hm E. assert (forall l, listed l -> Split (Join l ",") "," = match l with [] => [""] | _ => l end) as Hs.
  { intros [|x k] Hk; [done|]. apply Split_Join; [done|]. eapply Forall_impl; [exact Hk|naive_solver]. }
  pose proof (Hs l Hl) as E1. rewrite E, (Hs m Hm) in E1.
  destruct l as [|x l], m as [|y m]; simplify_eq; try done.
  - inversion Hm; naive_solver.
  - inversion Hl; naive_solver.
Qed.

(** ** Lemmas: what a configuration's texts determine *)

Lemma built_facts (cfg : proxyConfig) :
  built cfg ->
  listed (px_noProxy cfg) /\ (forall t, px_proxyURL cfg = Some t -> normalizeProxyURL (px_raw cfg) = Ok (px_URL t)).
Proof.
  intros (scheme & opts & H). unfold buildProxyConfig in H.
  assert (listed (px_noProxy (baseConfig scheme opts)) /\ px_proxyURL (baseConfig scheme opts) = None) as [Hb Hn]
    by (unfold baseConfig; cbn; split; [destruct (optionPresent opts "no-proxy"); apply splitList_listed|done]).
  destruct (proxySpecForScheme scheme opts) as [raw none]. destruct none.
  { injection H as <-. cbn. split; [done|]. cbn in Hn. congruence. }
  destruct (String.eqb raw ""); [injection H as <-; cbn; split; [done|]; cbn in Hn; congruence|].
  destruct (normalizeProxyURL raw) as [u|] eqn:Hu; [|discriminate H]. cbn [result_bind mbind] in H.
  destruct (proxyCredentialsForScheme scheme opts) as [user pass].
  repeat case_match; simplify_eq; cbn; (split; [done|]); intros t Ht; cbn in Ht; simplify_eq; done.
Qed.

(** Configurations that the engine builds are told apart by their keys. *)
Lemma cacheKey_inj (cfg cfg' : proxyConfig) :
  built cfg -> built cfg' -> separable cfg -> separable cfg' -> cacheKey cfg = cacheKey cfg' -> cfg = cfg'.
Proof.
  intros (Hl & Hu)%built_facts (Hl' & Hu')%built_facts Hs Hs' E. pose proof (split_key cfg Hs) as K.
  rewrite E, (split_key cfg' Hs') in K. cbn [app] in K.
  injection K as K1 K2 K3 K4 K5 K6 K7 K8 K9 K10 K11 K12 K13 K14 K15.
  apply listed_Join in K6; [|done..]. apply DurationString_inj in K7, K8. apply FormatBool_inj in K9, K10, K14.
  destruct cfg as [f1 f2 f3 f4 f5 f6 f7 f8 f9 f10 f11 f12 f13 f14 f15], cfg' as [g1 g2 g3 g4 g5 g6 g7 g8 g9 g10 g11 g12 g13 g14 g15].
  cbn in *. subst. f_equal. destruct f3 as [[u i]|], g3 as [[v j]|]; cbn in *; [|by destruct (Split_nonempty _ _ (eq_sym K15))|by destruct (Split_nonempty _ _ K15)|done].
  specialize (Hu _ eq_refl). rewrite (Hu' _ eq_refl) in Hu. cbn in Hu. injection Hu as <-.
  apply (f_equal (fun l => Join l "|")) in K15. rewrite !Join_Split in K15. by rewrite (URLString_user v i j).
Qed.

(** ** The cache as a memo *)

Definition emptyCache : Transports := mkTransports ∅ ∅ ∅.

(** An entry of a map is what a separable configuration with that key makes. *)
Definition memo {A} (make : proxyConfig -> A) (m : gmap string A) : Prop :=
  forall key t, m !! key = Some t -> exists cfg, built cfg /\ separable cfg /\ cacheKey cfg = key /\ t = make cfg.

Definition cache_good (c : Transports) : Prop :=
  memo newTransport (tc_http c) /\ memo newHTTP2Transport (tc_h2 c) /\ memo newHTTP3Transport (tc_h3 c).

Lemma memo_lookup {A} (make : proxyConfig -> A) (m : gmap string A) (cfg : proxyConfig) (t : A) :
  memo make m -> built cfg -> separable cfg -> m !! cacheKey cfg = Some t -> t = make cfg.
Proof. intros Hm Hb Hs (cfg' & Hb' & Hs' & E & ->)%Hm. by rewrite (cacheKey_inj cfg' cfg). Qed.

Lemma memo_insert {A} (make : proxyConfig -> A) (m : gmap string A) (cfg : proxyConfig) :
  memo make m -> built cfg -> separable cfg -> memo make (<[cacheKey cfg := make cfg]> m).
Proof.
  intros Hm Hb Hs key t [[<- <-]|[_ ?%Hm]]%lookup_insert_Some; [|done]. by exists cfg.
Qed.

(** A transport that may keep fewer connections than another, and is otherwise the same. *)
Definition no_more_kept (t fresh : httpTransport) : Prop := t = fresh \/ t = fresh <| tr_DisableKeepAlives := true |>.

Definition like_fresh (r fresh : roundTripper) : Prop :=
  match r, fresh with
  | RtEngine, RtEngine => True
  | RtHTTP t, RtHTTP t' => no_more_kept t t'
  | RtHTTP2 t close, RtHTTP2 t' close' => t = t' /\ (close' = true -> close = true)
  | RtHTTP3 t close, RtHTTP3 t' close' => t = t' /\ (close' = true -> close = true)
  | RtDispatch a b, RtDispatch a' b' => no_more_kept a a' /\ no_more_kept b b'
  | _, _ => False
  end.

Definition answer_like (r fresh : result roundTripper) : Prop :=
  match r, fresh with Ok t, Ok t' => like_fresh t t' | Err e, Err e' => e = e' | _, _ => False end.

Definition otherScheme (scheme : string) : string := if String.eqb scheme "http" then "https" else "http".

(** Both configurations a client may need have texts without the separator. *)
Definition separableOptions (scheme : string) (opts : Options) : Prop :=
  forall s cfg, s = scheme \/ s = otherScheme scheme -> buildProxyConfig s opts = Ok cfg -> separable cfg.

Lemma cached_good (cfg : proxyConfig) (c : Transports) :
  cache_good c -> built cfg -> separable cfg ->
  no_more_kept (cachedHTTPTransport cfg c).1 (newTransport cfg) /\ cache_good (cachedHTTPTransport cfg c).2.
Proof.
  intros (H1 & H2 & H3) Hb Hs. unfold cachedHTTPTransport. destruct (tc_http c !! cacheKey cfg) as [t|] eqn:E.
  { rewrite (memo_lookup newTransport (tc_http c) cfg t) by done. split; [by left|done]. }
  destruct (transportCacheFull c); cbn; (split; [by (left + right)|]); [done|].
  split_and!; [by apply memo_insert|done|done].
Qed.

Lemma emptyCache_good : cache_good emptyCache.
Proof. split_and!; intros key t H; cbn in H; by apply lookup_empty_Some in H. Qed.

(** From a cache with room, a transport is the one its configuration makes. *)
Lemma cached_fresh (cfg : proxyConfig) (c : Transports) :
  cache_good c -> built cfg -> separable cfg -> transportCacheFull c = false ->
  (cachedHTTPTransport cfg c).1 = newTransport cfg.
Proof.
  intros (H1 & _) Hb Hs Hf. unfold cachedHTTPTransport. destruct (tc_http c !! cacheKey cfg) as [t|] eqn:E.
  - by rewrite (memo_lookup newTransport (tc_http c) cfg t).
  - by rewrite Hf.
Qed.

#[local] Opaque cacheKey.

(** The first transport of an empty cache leaves room for the second. *)
Lemma cached_first (cfg : proxyConfig) :
  cachedHTTPTransport cfg emptyCache = (newTransport cfg, mkTransports {[cacheKey cfg := newTransport cfg]} ∅ ∅).
Proof. reflexivity. Qed.

Lemma singleton_room (key : string) (t : httpTransport) : transportCacheFull (mkTransports {[key := t]} ∅ ∅) = false.
Proof. unfold transportCacheFull, cachedTransports. cbn [tc_http tc_h2 tc_h3]. by rewrite map_size_singleton, !map_size_empty. Qed.

Lemma clientFor_like (custom : bool) (scheme : string) (opts : Options) (c : Transports) :
  cache_good c -> separableOptions scheme opts ->
  answer_like (clientFor custom scheme opts c).1 (clientFor custom scheme opts emptyCache).1
  /\ cache_good (clientFor custom scheme opts c).2.
Proof.
  intros Hc Hs. unfold clientFor. destruct (negb (hasCustomTransportOptions opts)); [done|].
  destruct (_ && _); [done|].
  destruct (buildProxyConfig scheme opts) as [cfg|] eqn:Hcfg; [|done].
  assert (built cfg) as Hb by (by exists scheme, opts). pose proof (Hs scheme cfg (or_introl eq_refl) Hcfg) as Hsep.
  pose proof Hc as (H1 & H2 & H3).
  destruct (in_words (px_httpVersion cfg) ["3"; "h3"]).
  { destruct (negb (String.eqb scheme "https")); [done|]. destruct (hasPotentialProxy cfg); [done|]. cbn [tc_h3 emptyCache].
    rewrite lookup_empty. destruct (tc_h3 c !! cacheKey cfg) as [t|] eqn:E.
    { by rewrite (memo_lookup newHTTP3Transport (tc_h3 c) cfg t). }
    destruct (transportCacheFull c); [done|]. split; [done|]. split_and!; [done|done|by apply memo_insert]. }
  destruct (in_words (px_httpVersion cfg) ["2"; "h2"]).
  { destruct (negb (String.eqb scheme "https")); [done|]. destruct (hasPotentialProxy cfg); [done|]. cbn [tc_h2 emptyCache].
    rewrite lookup_empty. destruct (tc_h2 c !! cacheKey cfg) as [t|] eqn:E.
    { by rewrite (memo_lookup newHTTP2Transport (tc_h2 c) cfg t). }
    destruct (transportCacheFull c); [done|]. split; [done|]. split_and!; [done|by apply memo_insert|done]. }
  pose proof (cached_good cfg c Hc Hb Hsep) as [Ht Hg]. pose proof (cached_good cfg emptyCache emptyCache_good Hb Hsep) as [_ Hg0].
  rewrite cached_first in Hg0 |- *. destruct (cachedHTTPTransport cfg c) as [t c']. cbn [fst snd] in Ht, Hg, Hg0.
  destruct (negb (hasSchemeSpecificProxyOptions opts)); [done|].
  change (if String.eqb scheme "http" then "https" else "http") with (otherScheme scheme).
  destruct (buildProxyConfig (otherScheme scheme) opts) as [other|] eqn:Ho; [|done].
  assert (built other) as Hb' by (eexists _, opts; exact Ho). pose proof (Hs _ other (or_intror eq_refl) Ho) as Hsep'.
  pose proof (cached_fresh other _ Hg0 Hb' Hsep' (singleton_room _ _)) as Hf.
  pose proof (cached_good other c' Hg Hb' Hsep') as [Ht' Hg'].
  destruct (cachedHTTPTransport other (mkTransports _ _ _)) as [f ?], (cachedHTTPTransport other c') as [t' c2]. cbn in Hf |- *. subst f.
  by destruct (String.eqb scheme "https").
Qed.

(** A cache after the clients of some requests. *)
Definition clientRequest : Type := bool * string * Options.
Definition cacheAfter (history : list clientRequest) : Transports :=
  fold_left (fun c (r : clientRequest) => (clientFor r.1.1 r.1.2 r.2 c).2) history emptyCache.

Lemma cacheAfter_snoc (history : list clientRequest) (r : clientRequest) :
  cacheAfter (history ++ [r]) = (clientFor r.1.1 r.1.2 r.2 (cacheAfter history)).2.
Proof. unfold cacheAfter. by rewrite fold_left_app. Qed.

Lemma cacheAfter_good (history : list clientRequest) :
  Forall (fun r : clientRequest => separableOptions r.1.2 r.2) history -> cache_good (cacheAfter history).
Proof.
  induction history as [|r history IH] using rev_ind; intros H; [apply emptyCache_good|].
  apply Forall_app in H as [H Hr]. rewrite cacheAfter_snoc. apply clientFor_like; [by apply IH|by inversion Hr].
Qed.


(** ** The bound of the cache *)

Definition bounded (c : Transports) : Prop := (cachedTransports c <= maxCachedTransports)%nat.

(** A transport is in the cache, or keeps no connection once its body is read. *)
Definition kept_http (c : Transports) (t : httpTransport) : Prop :=
  (exists key, tc_http c !! key = Some t) \/ tr_DisableKeepAlives t = true.

Definition accounted (c : Transports) (r : roundTripper) : Prop :=
  match r with
  | RtEngine => True
  | RtHTTP t => kept_http c t
  | RtHTTP2 t close => (exists key, tc_h2 c !! key = Some t) \/ close = true
  | RtHTTP3 t close => (exists key, tc_h3 c !! key = Some t) \/ close = true
  | RtDispatch a b => kept_http c a /\ kept_http c b
  end.

Lemma bounded_insert (c : Transports) :
  transportCacheFull c = false ->
  (forall key t, tc_http c !! key = None -> bounded (c <| tc_http ::= <[key := t]> |>))
  /\ (forall key t, tc_h2 c !! key = None -> bounded (c <| tc_h2 ::= <[key := t]> |>))
  /\ (forall key t, tc_h3 c !! key = None -> bounded (c <| tc_h3 ::= <[key := t]> |>)).
Proof.
  intros F%Nat.leb_gt. unfold bounded, cachedTransports in *.
  split_and!; intros key t E; cbn [tc_http tc_h2 tc_h3 set]; rewrite map_size_insert_None by done; lia.
Qed.

Lemma cached_bounded (cfg : proxyConfig) (c : Transports) :
  bounded c ->
  bounded (cachedHTTPTransport cfg c).2 /\ kept_http (cachedHTTPTransport cfg c).2 (cachedHTTPTransport cfg c).1
  /\ tc_http c ⊆ tc_http (cachedHTTPTransport cfg c).2.
Proof.
  intros Hc. unfold cachedHTTPTransport. destruct (tc_http c !! cacheKey cfg) as [t|] eqn:E; [split_and!; [done|left; by exists (cacheKey cfg)|done]|].
  destruct (transportCacheFull c) eqn:F; [split_and!; [done|by right|done]|].
  split_and!; [by apply bounded_insert|left; exists (cacheKey cfg); apply lookup_insert_eq|by apply insert_subseteq].
Qed.

Lemma clientFor_bounded (custom : bool) (scheme : string) (opts : Options) (c : Transports) :
  bounded c ->
  bounded (clientFor custom scheme opts c).2
  /\ forall r, (clientFor custom scheme opts c).1 = Ok r -> accounted (clientFor custom scheme opts c).2 r.
Proof.
  intros Hc. unfold clientFor. destruct (negb (hasCustomTransportOptions opts)); [by split; [|intros r [= <-]]|].
  destruct (_ && _); [by split; [|intros r [= <-]]|].
  destruct (buildProxyConfig scheme opts) as [cfg|]; [|done].
  destruct (in_words (px_httpVersion cfg) ["3"; "h3"]).
  { destruct (negb (String.eqb scheme "https")); [done|]. destruct (hasPotentialProxy cfg); [done|].
    destruct (tc_h3 c !! cacheKey cfg) as [t|] eqn:E; [split; [done|intros r [= <-]; left; by exists (cacheKey cfg)]|].
    destruct (transportCacheFull c) eqn:F; [split; [done|intros r [= <-]; by right]|].
    split; [by apply bounded_insert|intros r [= <-]; left; exists (cacheKey cfg); apply lookup_insert_eq]. }
  destruct (in_words (px_httpVersion cfg) ["2"; "h2"]).
  { destruct (negb (String.eqb scheme "https")); [done|]. destruct (hasPotentialProxy cfg); [done|].
    destruct (tc_h2 c !! cacheKey cfg) as [t|] eqn:E; [split; [done|intros r [= <-]; left; by exists (cacheKey cfg)]|].
    destruct (transportCacheFull c) eqn:F; [split; [done|intros r [= <-]; by right]|].
    split; [by apply bounded_insert|intros r [= <-]; left; exists (cacheKey cfg); apply lookup_insert_eq]. }
  destruct (cached_bounded cfg c Hc) as (Hb & Hk & _). destruct (cachedHTTPTransport cfg c) as [t c'].
  destruct (negb (hasSchemeSpecificProxyOptions opts)); [by split; [|intros r [= <-]]|].
  destruct (buildProxyConfig _ opts) as [other|]; [|done].
  destruct (cached_bounded other c' Hb) as (Hb' & Hk' & Hm). destruct (cachedHTTPTransport other c') as [t' c2]. cbn in *.
  assert (kept_http c2 t) as Ht.
  { destruct Hk as [(key & Hkey)|Hk]; [left; exists key; by eapply lookup_weaken|by right]. }
  split; [done|intros r [= <-]]. by destruct (String.eqb scheme "https").
Qed.

(** Whatever requests were made, at most 256 transports are cached, and a client uses
    a cached transport or one that keeps no idle connection. *)
Theorem transports_bounded (history : list clientRequest) (custom : bool) (scheme : string) (opts : Options) :
  let answer := clientFor custom scheme opts (cacheAfter history) in
  (cachedTransports answer.2 <= 256)%nat /\ forall r, answer.1 = Ok r -> accounted answer.2 r.
Proof.
  apply clientFor_bounded. induction history as [|r history IH] using rev_ind; [vm_compute; lia|].
  rewrite cacheAfter_snoc. by apply clientFor_bounded.
Qed.
End keys.

(** ** Keys that collide *)

Definition socksOptions (user pass : string) : Options :=
  PlainOptions {["all-proxy" := VStr "socks5://127.0.0.1:1080"; "all-proxy-user" := VStr user; "all-proxy-passwd" := VStr pass]}.

(** The SOCKS server and user that a client's plain requests go through. *)
Definition socksUsed {lib : ProxyLib} (r : result roundTripper) (addr : string) : option (string * option (string * string)) :=
  match r with Ok (RtHTTP t) => socksFor t addr | _ => None end.

Definition demoClient (opts : Options) (c : Transports) : result roundTripper * Transports :=
  clientFor (lib := demoProxies) false "http" opts c.

(** Two users with different passwords share a key when a text holds its separator: the
    second one's requests go through the proxy as the first. *)
Theorem shared_key_wrong_credentials :
  let c := (demoClient (socksOptions "a|b" "c") emptyCache).2 in
  socksUsed (lib := demoProxies) (demoClient (socksOptions "a" "b|c") c).1 "example.org:80"
    = Some ("127.0.0.1:1080", Some ("a|b", "c"))
  /\ socksUsed (lib := demoProxies) (demoClient (socksOptions "a" "b|c") emptyCache).1 "example.org:80"
    = Some ("127.0.0.1:1080", Some ("a", "b|c")).
Proof. cbv zeta. split; vm_compute; reflexivity. Qed.

(** ** The laws hold of a library *)

Lemma escaped_no (c : ascii) (s : string) : In c [":"%char; "@"%char; "|"%char] -> ContainsByte (QueryEscape s) c = false.
Proof.
  intros Hc. unfold ContainsByte, exists_byte. apply negb_false_iff. apply QueryEscape_bytes.
  - intros a Ha. apply negb_true_iff. destruct (Ascii.eqb_spec c a) as [<-|]; [|done].
    by destruct Hc as [<-|[<-|[<-|[]]]].
  - by destruct Hc as [<-|[<-|[<-|[]]]].
  - by destruct Hc as [<-|[<-|[<-|[]]]].
Qed.

Lemma escaped_inj (s t : string) : QueryEscape s = QueryEscape t -> s = t.
Proof. intros E. pose proof (QueryUnescape_Escape s) as Hs. rewrite E, QueryUnescape_Escape in Hs. by injection Hs. Qed.

Lemma FormatInt_neg (n : Z) : n < 0 -> FormatInt n = String "-" (FormatInt (- n)).
Proof.
  intros Hn. unfold FormatInt. rewrite Z.abs_opp. assert ((n <? 0) = true) as -> by lia.
  by assert ((- n <? 0) = false) as -> by lia.
Qed.

Lemma FormatInt_text (n : Z) : forall_byte (fun a => is_digit a || Ascii.eqb a "-") (FormatInt n) = true.
Proof.
  assert (forall n, 0 <= n -> forall_byte (fun a => is_digit a || Ascii.eqb a "-") (FormatInt n) = true) as H.
  { intros m Hm. eapply forall_byte_impl; [|by apply FormatInt_digits]. intros a Ha. by rewrite Ha. }
  destruct (Z.ltb_spec n 0); [|by apply H]. rewrite FormatInt_neg by done. cbn [forall_byte]. by rewrite H by lia.
Qed.

Lemma FormatInt_inj (n m : Z) : FormatInt n = FormatInt m -> n = m.
Proof.
  assert (forall n m, 0 <= n -> 0 <= m -> FormatInt n = FormatInt m -> n = m) as Hpos.
  { intros a b Ha Hb E. pose proof (parse_digits_FormatInt a Ha) as H. rewrite E, parse_digits_FormatInt in H by done. by injection H. }
  assert (forall n m, n < 0 -> 0 <= m -> FormatInt n = FormatInt m -> False) as Hmix.
  { intros a b Ha Hb E. pose proof (FormatInt_digits b Hb) as Hd. by rewrite <- E, FormatInt_neg in Hd. }
  intros E. destruct (Z.ltb_spec n 0), (Z.ltb_spec m 0).
  - rewrite (FormatInt_neg n), (FormatInt_neg m) in E by done. assert (- n = - m) as ?; [apply Hpos; [lia|lia|congruence]|lia].
  - by destruct (Hmix n m).
  - by destruct (Hmix m n).
  - by apply Hpos.
Qed.

Lemma append_cancel_l (s t u : string) : s +:+ t = s +:+ u -> t = u.
Proof. induction s as [|a s IH]; [done|]. rewrite !str_app_cons. intros E. apply IH. by injection E. Qed.

#[export] Instance demoLaws : ProxyLaws demoProxies.
Proof.
  split.
  - intros d e E. cbn in E. apply (f_equal (fun s => Cut s "n")) in E.
    rewrite !Cut_app in E by (eapply forall_byte_not_contains; [apply FormatInt_text|done]). apply FormatInt_inj. congruence.
  - intros d. cbn. rewrite ContainsByte_app. by rewrite (forall_byte_not_contains _ _ _ (FormatInt_text d)).
  - intros u i j E. cbn in E. apply append_cancel_l in E.
    destruct i as [[a [p|]]|], j as [[b [q|]]|]; try discriminate E; rewrite ?str_app_cons in E; try done; injection E as E;
      rewrite ?str_app_nil_l in E.
    + apply (f_equal (fun s => Cut s ":")) in E. rewrite !Cut_app in E by (apply escaped_no; cbn; auto).
      injection E as E1%escaped_inj E2%escaped_inj. by subst.
    + apply (f_equal (fun s => Cut s ":")) in E. rewrite Cut_app, Cut_None in E by (apply escaped_no; cbn; auto). done.
    + apply (f_equal (fun s => Cut s ":")) in E. rewrite Cut_app, Cut_None in E by (apply escaped_no; cbn; auto). done.
    + apply escaped_inj in E. by subst.
Qed.

(** ** A concrete history *)

Definition separableCheck (scheme : string) (opts : Options) : bool :=
  match buildProxyConfig (lib := demoProxies) scheme opts with
  | Ok cfg => forallb (fun s => negb (ContainsByte s "|")) (keyTexts cfg)
  | Err _ => true
  end.

Lemma separable_by_check (scheme : string) (opts : Options) :
  separableCheck scheme opts && separableCheck (otherScheme scheme) opts = true -> separableOptions (lib := demoProxies) scheme opts.
Proof.
  intros [H1 H2]%andb_true_iff.
  assert (forall s cfg, separableCheck s opts = true -> buildProxyConfig (lib := demoProxies) s opts = Ok cfg -> separable cfg) as H.
  { intros s cfg Hs E. unfold separableCheck in Hs. rewrite E in Hs. apply Forall_forall. intros t Ht. rewrite forallb_forall in Hs.
    apply negb_true_iff, Hs. by apply list_elem_of_In. }
  intros s cfg [-> | ->] E; [by apply (H scheme)|by apply (H (otherScheme scheme))].
Qed.

