(* ===== verification/Client.v ===== *)
(** * One exchange through a client ([proxy.go])

    [Engine.do]: the client of a request with its wrappers, the request that is sent, the
    retry after an authentication challenge, and the bodies that time out, cancel their
    context or close idle connections.  The client itself ([http.Client.Do] with its
    redirects) is a parameter.  Schemes and hosts are compared as ASCII texts. *)
From S2P Require Import Prelude GoStrings GoURL GoNet Text Options Http State Downloader Proxy.

(** ** Origins *)

Definition canonicalURLHost (u : URL) : string := JoinHostPort (ToLower (Hostname (u_Host u))) (effectivePort u).

Definition sameURLOrigin (a b : URL) : bool :=
  EqualFold (u_Scheme a) (u_Scheme b) && EqualFold (canonicalURLHost a) (canonicalURLHost b).

(** ** Clients *)

(** What [Engine.do] sets of an [http.Client]: its transport, the file of its cookies,
    the timeout that both wrappers of the transport use ([responseHeaderTimeoutRoundTripper]
    below [responseBodyTimeoutRoundTripper]; zero without them), and the host its
    redirects keep. *)
Record httpClient := mkClient { cl_Transport : roundTripper; cl_Cookies : string; cl_Timeout : Z; cl_RedirectHost : string }.
#[global] Instance eta_httpClient : Eta httpClient := fun c =>
  mkClient (cl_Transport c) (cl_Cookies c) (cl_Timeout c) (cl_RedirectHost c).

Definition clientWithLoadedCookies (client : httpClient) (path : string) : httpClient :=
  if String.eqb path "" then client else client <| cl_Cookies := path |>.

Definition clientWithResponseTimeouts (client : httpClient) (timeout : Z) : httpClient :=
  if timeout <=? 0 then client else client <| cl_Timeout := timeout |>.

Definition clientWithRedirectHost (client : httpClient) (host : string) : httpClient :=
  if String.eqb host "" then client else client <| cl_RedirectHost := host |>.

(** [CheckRedirect] of a client with a redirect host: the host of the next request, or the
    error that ends the redirects; [base] is the check of the engine's own client. *)
Definition checkRedirect (host : string) (base : option (string -> nat -> result unit)) (via : nat) : result string :=
  match base with
  | Some check => let! _allowed := check host via in Ok host
  | None => if (10 <=? via)%nat then Err (EText "stopped after 10 redirects") else Ok host
  end.

Definition responseBodyTimeout (opts : Options) : Z :=
  let seconds := optionInt opts "timeout" 60 in
  if seconds <=? 0 then 0
  else if Z.quot max_int64 second <? seconds then max_int64
  else seconds * second.

(** ** Exchanges *)

(** What can be done with a request's body a second time. *)
Inductive bodyState := NoBody | Unrepeatable | Repeatable (ok : bool).

(** A request as the client gets it: the user information of its URL is [rq_User]. *)
Record WebRequest := mkWebRequest { wq_req : Request; wq_URL : URL; wq_body : bodyState }.

(** [client.Do]: the response, and the last request of its redirects, if it says. *)
Definition ClientDo := WebRequest -> result (Response * option WebRequest).

Definition hasAuthorization (r : Request) : bool := negb (String.eqb (hGet (rq_Header r) "Authorization") "").

Definition shouldRetryBasicAuthChallenge (resp : Response) (final : option WebRequest) (opts : Options) (hasAuth : bool) : bool :=
  if negb (rs_StatusCode resp =? 401) || negb (optionBool opts "http-auth-challenge") then false
  else if match final with Some f => hasAuthorization (wq_req f) | None => false end then false
  else if negb hasAuth then false
  else hasBasicAuthChallenge resp.

(** The request without the user information of its URL, when the challenge is waited for. *)
Definition withholdUser (opts : Options) (r : WebRequest) : WebRequest :=
  if optionBool opts "http-auth-challenge" && match rq_User (wq_req r) with Some _ => true | None => false end
     && negb (hasAuthorization (wq_req r))
  then mkWebRequest (mkRequest (rq_Header (wq_req r)) (rq_Host (wq_req r)) None (rq_URLWithoutUser (wq_req r))) (wq_URL r) (wq_body r)
  else r.

(** One exchange with a client: the requests sent, and the answer. *)
Definition exchangeWith (first again : ClientDo) (opts : Options) (r : WebRequest) : list WebRequest * result Response :=
  let credentials := basicAuthCredentials (wq_req r) opts in
  let sent := withholdUser opts r in
  match first sent with
  | Err err => ([sent], Err err)
  | Ok (resp, final) =>
      match credentials with
      | Some (user, pass) =>
          if negb (shouldRetryBasicAuthChallenge resp final opts true) then ([sent], Ok resp)
          else
            let challenged := default sent final in
            if negb (sameURLOrigin (wq_URL r) (wq_URL challenged)) then ([sent], Ok resp)
            else match wq_body challenged with
            | Unrepeatable | Repeatable false => ([sent], Ok resp)
            | NoBody | Repeatable true =>
                let retry := mkWebRequest (SetBasicAuth user pass (wq_req challenged)) (wq_URL challenged) (wq_body challenged) in
                ([sent; retry], let! answer := again retry in Ok answer.1)
            end
      | None => ([sent], Ok resp)
      end
  end.

(** [Engine.do]: [first] and [again] are what a client's [Do] returns. *)
Definition do {lib : ProxyLib} (customHTTPClient : bool) (first again : httpClient -> ClientDo) (opts : Options) (r : WebRequest)
    (c : Transports) : list WebRequest * result Response * Transports :=
  match clientFor customHTTPClient (u_Scheme (wq_URL r)) opts c with
  | (Err err, c) => ([], Err err, c)
  | (Ok transport, c) =>
      let client := clientWithLoadedCookies (mkClient transport "" 0 "") (optionString opts "load-cookies") in
      let client := clientWithResponseTimeouts client (responseBodyTimeout opts) in
      let client := clientWithRedirectHost client (rq_Host (wq_req r)) in
      (exchangeWith (first client) (again client) opts r, c)
  end.

(** ** Headers that time out *)

(** [responseHeaderTimeoutRoundTripper.RoundTrip]: [fired] says that the timer has run;
    the flag of the result, that the request's context is cancelled at once (a response
    with a body keeps it until the body ends). *)
Definition headerRoundTrip {lib : ProxyLib} {A} (timeout : Z) (fired : bool) (hasBody : bool) (r : result A) : result A * bool :=
  if fired then (Err (ENet ("response header timeout after " +:+ DurationString timeout)), true)
  else match r with Err err => (Err err, true) | Ok resp => (Ok resp, negb hasBody) end.

(** [cancelContextBody]: the cause its request's context was cancelled with, if it was. *)
Definition cancelCause := option (option error).

Definition onceCancel (cause : option error) (b : cancelCause) : cancelCause :=
  match b with Some _ => b | None => Some cause end.

Definition cancelBodyRead (err : option error) (b : cancelCause) : cancelCause :=
  match err with Some _ => onceCancel err b | None => b end.
Definition cancelBodyClose (err : option error) (b : cancelCause) : cancelCause := onceCancel err b.

(** [closeIdleBody]: how often the idle connections were closed. *)
Definition onceIdle (closed : nat) : nat := match closed with O => 1%nat | S _ => closed end.
Definition idleConnRead (err : option error) (closed : nat) : nat :=
  match err with Some _ => onceIdle closed | None => closed end.
Definition idleConnClose (closed : nat) : nat := onceIdle closed.

(** [closeIdleRoundTripper.RoundTrip]: what the response's body starts with; without a
    body the connections are closed at once. *)
Definition closeIdleRoundTrip (hasBody : bool) : nat := if hasBody then 0%nat else 1%nat.

(** ** Bodies that time out ([idleTimeoutBody]) *)

Record idleBody := mkIdle {
  ib_generation : N; ib_timer : option N; ib_reading : bool; ib_closed : bool; ib_timedOut : bool;
  ib_closes : nat                               (* how often the body below was closed *)
}.
#[global] Instance eta_idleBody : Eta idleBody := fun b =>
  mkIdle (ib_generation b) (ib_timer b) (ib_reading b) (ib_closed b) (ib_timedOut b) (ib_closes b).

Definition newIdleTimeoutBody : idleBody := mkIdle 0 None false false false 0.

(** What [Read] does before the read below: an error, or the generation it reads for. *)
Inductive readStart := ReadTimedOut | ReadClosed | ReadBody (generation : N).

Definition idleTimeoutError {lib : ProxyLib} (timeout : Z) : error :=
  ENet ("response body idle timeout after " +:+ DurationString timeout).

Definition beginRead (b : idleBody) : readStart * idleBody :=
  if ib_timedOut b then (ReadTimedOut, b)
  else if ib_closed b then (ReadClosed, b)
  else
    let generation := ((ib_generation b + 1) mod 2 ^ 64)%N in
    (ReadBody generation, mkIdle generation (Some generation) true (ib_closed b) (ib_timedOut b) (ib_closes b)).

(** And after it: what the read reports. *)
Definition endRead {lib : ProxyLib} (timeout : Z) (generation : N) (n : Z) (err : option error) (b : idleBody)
    : (Z * option error) * idleBody :=
  let b := if (generation =? ib_generation b)%N then b <| ib_reading := false |> <| ib_timer := None |> else b in
  (if ib_timedOut b then (n, Some (idleTimeoutError timeout)) else (n, err), b).

(** [closeBody] closes the body below once. *)
Definition closeBody (b : idleBody) : idleBody := b <| ib_closes ::= fun n => match n with O => 1%nat | S _ => n end |>.

Definition closeIdleBody (b : idleBody) : idleBody :=
  closeBody (if ib_closed b then b
             else mkIdle ((ib_generation b + 1) mod 2 ^ 64) None false true (ib_timedOut b) (ib_closes b)).

(** The timer started for a generation. *)
Definition expire (generation : N) (b : idleBody) : idleBody :=
  if ib_closed b || negb (ib_reading b) || negb (generation =? ib_generation b)%N then b
  else closeBody (mkIdle (ib_generation b) None false true true (ib_closes b)).
