(* ===== verification/ClientSpec.v ===== *)
(** * What an exchange promises

    Credentials go only to the origin they were given for and only when asked for; an
    origin is a scheme, a host and a port; the timeout of a body fires only while a read
    is under way, and the body below is closed once. *)
From S2P Require Import Prelude GoStrings GoPath GoURL GoNet Text Base64 Options Http State Downloader Proxy ProxySpec TransportSpec Client.

(** ** Lemmas: origins *)

Definition ascii_text (s : string) : bool := forall_byte (fun a => (byte_val a <? 128)%N) s.

Lemma ascii_fold (a b : ascii) :
  (byte_val a <? 128)%N = true -> Ascii.eqb (ascii_lower a) (ascii_lower b) = false ->
  (byte_val a =? 197)%N = false /\ (byte_val a =? 226)%N = false.
Proof. intros Ha _. split; apply N.eqb_neq; apply N.ltb_lt in Ha; lia. Qed.

Lemma EqualFold_ascii (s t : string) : ascii_text s = true -> EqualFold s t = String.eqb (ToLower s) (ToLower t).
Proof.
  revert t. induction s as [|a s IH]; intros [|b t] Hs; cbn [EqualFold ToLower String.eqb]; try done.
  cbn [ascii_text forall_byte] in Hs. apply andb_true_iff in Hs as [Ha Hs].
  destruct (Ascii.eqb (ascii_lower a) (ascii_lower b)) eqn:E; [by apply IH|].
  destruct (ascii_fold a b Ha E) as [-> ->]. rewrite !andb_false_r. cbn [andb].
  destruct s as [|c [|d s]]; rewrite ?andb_false_r; done.
Qed.

Lemma CutLast_app (s t : string) (c : ascii) : ContainsByte t c = false -> CutLast (s +:+ String c t) c = Some (s, t).
Proof.
  intros Ht. induction s as [|a s IH].
  - rewrite str_app_nil_l. cbn [CutLast]. rewrite CutLast_None by done. by rewrite Ascii.eqb_refl.
  - rewrite str_app_cons. cbn [CutLast]. by rewrite IH.
Qed.

Lemma digits_no_colon (s : string) : forall_byte is_digit s = true -> ContainsByte s ":" = false.
Proof. intros H. by eapply forall_byte_not_contains. Qed.

Lemma Port_digits (host : string) : forall_byte is_digit (Port host) = true.
Proof. unfold Port, splitHostPort. destruct (CutLast host ":") as [[h p]|]; [|done]. by destruct (forall_byte is_digit p) eqn:E. Qed.

Lemma effectivePort_digits (u : URL) : forall_byte is_digit (effectivePort u) = true.
Proof.
  unfold effectivePort. destruct (String.eqb (Port (u_Host u)) ""); [|apply Port_digits].
  unfold defaultPort. by repeat case_match.
Qed.

Lemma JoinHostPort_inj (h h' p p' : string) :
  forall_byte is_digit p = true -> forall_byte is_digit p' = true -> JoinHostPort h p = JoinHostPort h' p' -> h = h' /\ p = p'.
Proof.
  intros Hp%digits_no_colon Hp'%digits_no_colon. unfold JoinHostPort.
  assert (forall h p, "[" +:+ h +:+ "]:" +:+ p = ("[" +:+ h +:+ "]") +:+ String ":" p) as Hb
    by (intros; rewrite !str_app_assoc; done).
  assert (forall h p, h +:+ ":" +:+ p = h +:+ String ":" p) as Hn by done.
  rewrite !Hb, !Hn. destruct (ContainsByte h ":") eqn:E, (ContainsByte h' ":") eqn:E'; intros H;
    apply (f_equal (fun s => CutLast s ":")) in H; rewrite !CutLast_app in H by done; injection H as H ->; (split; [|done]).
  - apply append_cancel_l in H. apply (f_equal (fun s => CutLast s "]")) in H. rewrite !CutLast_app in H by done. congruence.
  - rewrite <- H in E'. by rewrite !ContainsByte_app, E, orb_true_r in E'.
  - rewrite H in E. by rewrite !ContainsByte_app, E', orb_true_r in E.
  - done.
Qed.

Lemma ToLower_app (s t : string) : ToLower (s +:+ t) = ToLower s +:+ ToLower t.
Proof. induction s as [|a s IH]; [done|]. rewrite !str_app_cons. cbn [ToLower]. by rewrite IH. Qed.

Lemma ToLower_idem (s : string) : ToLower (ToLower s) = ToLower s.
Proof.
  induction s as [|a s IH]; [done|]. cbn [ToLower]. rewrite IH. f_equal.
  by destruct a as [[] [] [] [] [] [] [] []].
Qed.

Lemma ToLower_digits (s : string) : forall_byte is_digit s = true -> ToLower s = s.
Proof.
  induction s as [|a s IH]; [done|]. cbn [forall_byte ToLower]. intros [Ha Hs]%andb_true_iff. rewrite IH by done.
  f_equal. by destruct a as [[] [] [] [] [] [] [] []]; vm_compute in Ha |- *.
Qed.

Lemma canonical_lower (u : URL) : ToLower (canonicalURLHost u) = canonicalURLHost u.
Proof.
  unfold canonicalURLHost, JoinHostPort. destruct (ContainsByte _ _); rewrite !ToLower_app, ToLower_idem, (ToLower_digits (effectivePort u)); try done; apply effectivePort_digits.
Qed.

Lemma ascii_lower_text (s : string) : ascii_text s = true -> ascii_text (ToLower s) = true.
Proof.
  unfold ascii_text. induction s as [|a s IH]; [done|]. cbn [forall_byte ToLower]. intros [Ha Hs]%andb_true_iff. rewrite IH by done.
  rewrite andb_true_r. by destruct a as [[] [] [] [] [] [] [] []].
Qed.

(** An origin is a scheme, a host and a port, the default ports included. *)
Lemma same_origin_exact (a b : URL) :
  ascii_text (u_Scheme a) = true -> ascii_text (Hostname (u_Host a)) = true ->
  sameURLOrigin a b = true <->
  ToLower (u_Scheme a) = ToLower (u_Scheme b) /\ ToLower (Hostname (u_Host a)) = ToLower (Hostname (u_Host b))
  /\ effectivePort a = effectivePort b.
Proof.
  intros Hs Hh. unfold sameURLOrigin. rewrite andb_true_iff, EqualFold_ascii by done.
  assert (ascii_text (canonicalURLHost a) = true) as Hc.
  { unfold canonicalURLHost, JoinHostPort, ascii_text in *.
    assert (forall_byte (fun a => (byte_val a <? 128)%N) (effectivePort a) = true) as Hp.
    { eapply forall_byte_impl; [|apply effectivePort_digits]. intros x Hx. by destruct x as [[] [] [] [] [] [] [] []]; vm_compute in Hx |- *. }
    pose proof (ascii_lower_text _ Hh) as Hl. unfold ascii_text in Hl.
    destruct (ContainsByte _ _); rewrite !forall_byte_app, Hl, Hp; done. }
  rewrite EqualFold_ascii, !canonical_lower, !String.eqb_eq by done. apply and_iff_compat_l. split.
  - intros H. apply JoinHostPort_inj in H; [done|apply effectivePort_digits..].
  - intros [H1 H2]. unfold canonicalURLHost. by rewrite H1, H2.
Qed.

(** ** Credentials *)

(** The authorization a request carries for a user. *)
Definition basicAuthorization (user pass : string) : string :=
  "Basic " +:+ EncodeToString StdEncoding (user +:+ ":" +:+ pass).

Lemma SetBasicAuth_header (user pass : string) (r : Request) :
  hGet (rq_Header (SetBasicAuth user pass r)) "Authorization" = basicAuthorization user pass.
Proof. unfold SetBasicAuth, setHeader, hGet, hSet, hValues. exact (f_equal (fun o => default "" (head (default [] o))) (lookup_insert_eq (rq_Header r) _ _)). Qed.

(** Why a second request is sent, and what it is. *)
Record authenticatedRetry (first : ClientDo) (opts : Options) (r sent retry : WebRequest) : Prop := {
  ar_response : exists resp final, first sent = Ok (resp, final) /\ rs_StatusCode resp = 401 /\ hasBasicAuthChallenge resp = true
    /\ match final with
       | Some f => hasAuthorization (wq_req f) = false /\ wq_URL retry = wq_URL f
       | None => wq_URL retry = wq_URL sent
       end;
  ar_asked : optionBool opts "http-auth-challenge" = true;
  ar_origin : sameURLOrigin (wq_URL r) (wq_URL retry) = true;
  ar_header : exists user pass, basicAuthCredentials (wq_req r) opts = Some (user, pass)
    /\ hGet (rq_Header (wq_req retry)) "Authorization" = basicAuthorization user pass
}.

Lemma withheld (opts : Options) (r : WebRequest) :
  optionBool opts "http-auth-challenge" = true -> hasAuthorization (wq_req r) = false -> rq_User (wq_req (withholdUser opts r)) = None.
Proof. intros Ho Ha. unfold withholdUser. rewrite Ho, Ha. by destruct (rq_User (wq_req r)) eqn:E. Qed.

Lemma withheld_header (opts : Options) (r : WebRequest) : rq_Header (wq_req (withholdUser opts r)) = rq_Header (wq_req r).
Proof. unfold withholdUser. by destruct (_ && _ && _). Qed.

Lemma retry_condition (resp : Response) (final : option WebRequest) (opts : Options) (hasAuth : bool) :
  shouldRetryBasicAuthChallenge resp final opts hasAuth = true <->
  rs_StatusCode resp = 401 /\ optionBool opts "http-auth-challenge" = true
  /\ match final with Some f => hasAuthorization (wq_req f) = false | None => True end
  /\ hasAuth = true /\ hasBasicAuthChallenge resp = true.
Proof.
  unfold shouldRetryBasicAuthChallenge. destruct (Z.eqb_spec (rs_StatusCode resp) 401) as [E|E]; cbn [negb orb]; [|by split; [|intros (? & _)]].
  destruct (optionBool opts "http-auth-challenge"); cbn [negb]; [|by split; [|intros (_ & ? & _)]].
  destruct final as [f|]; [destruct (hasAuthorization (wq_req f)); [by split; [|intros (_ & _ & ? & _)]|]|];
    (destruct hasAuth; [by split; [|intros (_ & _ & _ & _ & ?)]|by split; [|intros (_ & _ & _ & ? & _)]]).
Qed.

Lemma exchange_requests (first again : ClientDo) (opts : Options) (r : WebRequest) :
  exists retries, (exchangeWith first again opts r).1 = withholdUser opts r :: retries
  /\ (retries = [] \/ exists retry, retries = [retry] /\ authenticatedRetry first opts r (withholdUser opts r) retry).
Proof.
  unfold exchangeWith. set (sent := withholdUser opts r). destruct (first sent) as [[resp final]|] eqn:Hfirst; [|exists []; auto].
  destruct (basicAuthCredentials (wq_req r) opts) as [[user pass]|] eqn:Hc; [|exists []; auto].
  destruct (shouldRetryBasicAuthChallenge resp final opts true) eqn:Hr; cbn [negb]; [|exists []; auto].
  apply retry_condition in Hr as (H401 & Hopt & Hfinal & _ & Hch).
  destruct (sameURLOrigin (wq_URL r) (wq_URL (default sent final))) eqn:Ho; cbn [negb]; [|exists []; auto].
  set (retry := mkWebRequest _ _ _).
  assert (authenticatedRetry first opts r sent retry) as Ha.
  { split; [|done|done|].
    - exists resp, final. split_and!; [done..|]. by destruct final.
    - exists user, pass. split; [done|]. apply SetBasicAuth_header. }
  destruct (wq_body (default sent final)) as [| |[]]; eexists; (split; [reflexivity|]); eauto.
Qed.

Section exchanges.
Context {lib : ProxyLib}.

(** C27: an exchange sends at most two requests.  With the challenge option the first one
    carries no credentials of the URL, and a second one is sent only after a 401 response
    that asks for basic authentication, to the origin of the original URL, with the
    credentials configured for the request. *)
Theorem credentials_stay_on_origin (custom : bool) (first again : httpClient -> ClientDo) (opts : Options) (r : WebRequest)
    (c c' : Transports) (requests : list WebRequest) (answer : result Response) :
  do custom first again opts r c = (requests, answer, c') -> requests <> [] ->
  exists client sent retries, requests = sent :: retries
  /\ (optionBool opts "http-auth-challenge" = true -> hasAuthorization (wq_req r) = false ->
      rq_User (wq_req sent) = None /\ hasAuthorization (wq_req sent) = false)
  /\ (retries = [] \/ exists retry, retries = [retry] /\ authenticatedRetry (first client) opts r sent retry).
Proof.
  unfold do. destruct (clientFor _ _ _ _) as [[transport|] c2]; [|by intros [= <- <- <-]].
  set (client := clientWithRedirectHost _ _). intros H Hne.
  destruct (exchange_requests (first client) (again client) opts r) as (retries & E & Hr).
  destruct (exchangeWith (first client) (again client) opts r) as [l a]. injection H as <- <- <-. cbn in E. subst l.
  exists client, (withholdUser opts r), retries. split_and!; [done| |done].
  intros Hopt Ha. split; [by apply withheld|]. unfold hasAuthorization. by rewrite withheld_header.
Qed.
End exchanges.

Definition demoUser : WebRequest :=
  mkWebRequest (mkRequest ∅ "" (Some ("user", "secret")) "http://example.org/f")
    (mkURL "http" "" (Some "user:secret") "example.org" "/f" "/f" "" "") NoBody.

Definition demoChallenge : ClientDo := fun _ =>
  Ok (mkResponse (hSet "WWW-Authenticate" "Basic realm=x" ∅) 401 "401 Unauthorized" 0 None, None).

Definition demoAuthOptions : Options := PlainOptions {["http-auth-challenge" := VStr "true"]}.

Abbreviation demoExchange :=
  (do (lib := demoProxies) false (fun _ => demoChallenge) (fun _ => demoChallenge) demoAuthOptions demoUser emptyCache).

Lemma credentials_stay_on_origin_witness :
  length demoExchange.1.1 = 2%nat
  /\ exists client sent retries, demoExchange.1.1 = sent :: retries
  /\ (optionBool demoAuthOptions "http-auth-challenge" = true -> hasAuthorization (wq_req demoUser) = false ->
      rq_User (wq_req sent) = None /\ hasAuthorization (wq_req sent) = false)
  /\ (retries = [] \/ exists retry, retries = [retry]
      /\ authenticatedRetry ((fun _ : httpClient => demoChallenge) client) demoAuthOptions demoUser sent retry).
Proof.
  split; [vm_compute; reflexivity|].
  refine (@credentials_stay_on_origin demoProxies false (fun _ => demoChallenge) (fun _ => demoChallenge) demoAuthOptions demoUser
            emptyCache demoExchange.2 demoExchange.1.1 demoExchange.1.2 _ _).
  - by destruct demoExchange as [[? ?] ?].
  - vm_compute. discriminate.
Defined.

(** ** Bodies that time out *)

(** The waits of a request are bounded by the option, without overflow. *)
Lemma responseBodyTimeout_exact (opts : Options) :
  responseBodyTimeout opts = Z.max 0 (Z.min max_int64 (optionInt opts "timeout" 60 * second)).
Proof.
  unfold responseBodyTimeout. set (n := optionInt opts "timeout" 60). unfold max_int64, second.
  destruct (Z.leb_spec n 0); [lia|]. change (Z.quot 9223372036854775807 1000000000) with 9223372036.
  destruct (Z.ltb_spec 9223372036 n); lia.
Qed.

Inductive bodyEvent := EvRead | EvReadEnd (generation : N) | EvClose | EvExpire (generation : N).

Definition bodyStep (b : idleBody) (ev : bodyEvent) : idleBody :=
  match ev with
  | EvRead => (beginRead b).2
  | EvReadEnd g => if (g =? ib_generation b)%N then b <| ib_reading := false |> <| ib_timer := None |> else b
  | EvClose => closeIdleBody b
  | EvExpire g => expire g b
  end.

Definition bodyRun (events : list bodyEvent) : idleBody := fold_left bodyStep events newIdleTimeoutBody.

Lemma endRead_step {lib : ProxyLib} (timeout : Z) (g : N) (n : Z) (err : option error) (b : idleBody) :
  (endRead timeout g n err b).2 = bodyStep b (EvReadEnd g).
Proof. reflexivity. Qed.

Record bodyGood (b : idleBody) : Prop := {
  bg_closes : ib_closes b = if ib_closed b then 1%nat else 0%nat;
  bg_timedOut : ib_timedOut b = true -> ib_closed b = true;
  bg_closed : ib_closed b = true -> ib_reading b = false /\ ib_timer b = None;
  bg_timer : ib_timer b = if ib_reading b then Some (ib_generation b) else None
}.

Lemma bodyStep_good (b : idleBody) (ev : bodyEvent) : bodyGood b -> bodyGood (bodyStep b ev).
Proof.
  intros [H1 H2 H3 H4]. destruct b as [gen timer reading closed timedOut closes]. cbn in *.
  destruct ev as [|g| |g]; cbn.
  - unfold beginRead. cbn. destruct timedOut; [by split|]. destruct closed; [by split|]. by split.
  - destruct (g =? gen)%N; [|by split]. split; cbn; auto.
  - unfold closeIdleBody, closeBody. destruct closed; cbn in *; subst; split; cbn; auto.
  - unfold expire, closeBody. cbn. destruct closed; [by split|]. destruct reading; [|by split].
    destruct (g =? gen)%N; [|by split]. cbn. subst closes. by split.
Qed.

Lemma bodyRun_snoc (events : list bodyEvent) (ev : bodyEvent) : bodyRun (events ++ [ev]) = bodyStep (bodyRun events) ev.
Proof. unfold bodyRun. by rewrite fold_left_app. Qed.

Lemma bodyRun_good (events : list bodyEvent) : bodyGood (bodyRun events).
Proof. induction events as [|ev events IH] using rev_ind; [by split|]. rewrite bodyRun_snoc. by apply bodyStep_good. Qed.

(** A step makes a body time out only when the timer of the read under way fires. *)
Lemma step_times_out (b : idleBody) (ev : bodyEvent) :
  ib_timedOut b = false -> ib_timedOut (bodyStep b ev) = true ->
  ib_reading b = true /\ ib_closed b = false /\ ev = EvExpire (ib_generation b).
Proof.
  destruct b as [gen timer reading closed timedOut closes]. cbn. intros -> H. destruct ev as [|g| |g]; cbn in H.
  - unfold beginRead in H. cbn in H. by destruct closed.
  - by destruct (g =? gen)%N.
  - unfold closeIdleBody, closeBody in H. by destruct closed.
  - unfold expire, closeBody in H. cbn in H. destruct closed; [done|]. destruct reading; [|done].
    destruct (N.eqb_spec g gen) as [E|]; [by subst|done].
Qed.

(** C28: whatever the order of reads, closes and timers, the body below is closed exactly
    when the wrapper is, and once; a timer runs only for the read under way; and a body
    that timed out was not closed and was being read when the timer of that read fired. *)
Theorem idle_body_times_out_exactly (events : list bodyEvent) :
  bodyGood (bodyRun events)
  /\ (ib_timedOut (bodyRun events) = true <->
      exists before after g, events = before ++ EvExpire g :: after /\ ib_reading (bodyRun before) = true
        /\ ib_closed (bodyRun before) = false /\ ib_generation (bodyRun before) = g).
Proof.
  split; [apply bodyRun_good|]. split.
  - induction events as [|ev events IH] using rev_ind; [done|]. rewrite bodyRun_snoc. intros H.
    destruct (ib_timedOut (bodyRun events)) eqn:E.
    { destruct (IH eq_refl) as (before & after & g & -> & Hr). exists before, (after ++ [ev]), g. by rewrite <- app_assoc. }
    destruct (step_times_out _ _ E H) as (Hr & Hc & ->). by exists events, [], (ib_generation (bodyRun events)).
  - intros (before & after & g & -> & Hr & Hc & Hg).
    assert (forall after b, ib_timedOut b = true -> ib_timedOut (fold_left bodyStep after b) = true) as Hkeep.
    { clear. induction after as [|ev after IH]; [done|]. intros b Hb. apply IH.
      destruct b as [gen timer reading closed timedOut closes]. cbn in Hb. subst. destruct ev as [|g| |g]; cbn; try done.
      - by destruct (g =? gen)%N.
      - unfold closeIdleBody, closeBody. by destruct closed.
      - unfold expire, closeBody. cbn. by destruct (_ || _ || _). }
    unfold bodyRun in *. rewrite fold_left_app. cbn [fold_left]. apply Hkeep. cbn [bodyStep]. unfold expire.
    by rewrite Hr, Hc, Hg, N.eqb_refl.
Qed.
