(* ===== verification/Cookies.v ===== *)
(** * Cookies from a file ([cookies.go])

    The cookies a request gets from a Netscape cookie file: which lines match the request,
    and the limits on their number and size.  [ParseInt] of a number out of range is the
    nearest one that fits, as Go returns it with its error. *)
From S2P Require Import Prelude GoStrings GoURL GoNet Text.

Definition maxCookieFileSize : Z := 16777216.
Definition maxCookiesPerRequest : Z := 4096.
Definition maxCookiePayloadSize : Z := 1048576.

Record Cookie := mkCookie { ck_Name : string; ck_Value : string }.

Definition cookieDomainMatches (host domain : string) (includeSubdomains : bool) : bool :=
  let domain := TrimPrefix domain "." in
  if String.eqb domain "" then false
  else if String.eqb host domain then true
  else includeSubdomains && HasSuffix host ("." +:+ domain).

(** [strings.TrimRight(s, "/")] *)
Fixpoint trimSlashes (s : string) : string :=
  match s with
  | "" => ""
  | String a s' => let rest := trimSlashes s' in if String.eqb rest "" && Ascii.eqb a "/" then "" else String a rest
  end.

Definition cookiePathMatches (reqPath cookiePath : string) : bool :=
  let cookiePath := if String.eqb cookiePath "" then "/" else cookiePath in
  let cookiePath := if HasPrefix cookiePath "/" then cookiePath else "/" +:+ cookiePath in
  String.eqb reqPath cookiePath || HasPrefix reqPath (trimSlashes cookiePath +:+ "/").

(** The number of a text: zero when it is no number, the nearest bound when out of range. *)
Definition parseExpires (s : string) : Z :=
  match ParseInt s with
  | Some n => n
  | None =>
      let '(negative, digits) :=
        match CutPrefix s "-", CutPrefix s "+" with
        | Some d, _ => (true, d)
        | None, Some d => (false, d)
        | None, None => (false, s)
        end in
      match parse_digits digits 0 with
      | Some _ => if String.eqb digits "" then 0 else if negative then min_int64 else max_int64
      | None => 0
      end
  end.

(** What the request is for. *)
Record cookieTarget := mkCookieTarget { ct_host : string; ct_path : string; ct_secure : bool; ct_now : Z }.

(** The text of a line without its comment mark. *)
Definition cookieLine (line : string) : option string :=
  let line := TrimSpace line in
  if String.eqb line "" then None
  else if HasPrefix line "#HttpOnly_" then Some (TrimPrefix line "#HttpOnly_")
  else if HasPrefix line "#" then None
  else Some line.

(** The cookie of a line, when the request gets it. *)
Definition cookieOfLine (target : cookieTarget) (line : string) : option Cookie :=
  match cookieLine line with
  | None => None
  | Some line =>
      match Fields line with
      | f0 :: f1 :: f2 :: f3 :: f4 :: name :: v :: vs =>
          let domain := ToLower (TrimSpace f0) in
          let includeSubdomains := EqualFold f1 "TRUE" in
          let secureCookie := EqualFold f3 "TRUE" in
          let expires := parseExpires f4 in
          let value := Join (v :: vs) " " in
          if String.eqb name "" || (secureCookie && negb (ct_secure target)) || ((0 <? expires) && (expires <? ct_now target))
          then None
          else if negb (cookieDomainMatches (ct_host target) domain includeSubdomains) || negb (cookiePathMatches (ct_path target) f2)
          then None
          else Some (mkCookie name value)
      | _ => None
      end
  end.

(** The loop over the lines: it stops at the first cookie that exceeds a limit. *)
Fixpoint collectCookies (target : cookieTarget) (lines : list string) (out : list Cookie) (payloadSize : Z) : list Cookie :=
  match lines with
  | [] => out
  | line :: rest =>
      match cookieOfLine target line with
      | None => collectCookies target rest out payloadSize
      | Some cookie =>
          let payloadSize := payloadSize + (len (ck_Name cookie) + len (ck_Value cookie)) in
          if (maxCookiesPerRequest <=? Z.of_nat (length out)) || (maxCookiePayloadSize <? payloadSize) then out
          else collectCookies target rest (out ++ [cookie]) payloadSize
      end
  end.

(** The file as the system gives it: its size, when [Stat] knows it, and its contents. *)
Record cookieFile := mkCookieFile { cf_size : option Z; cf_data : result string }.

Definition newlineChar : ascii := ascii_of_N 10.

Definition loadedCookiesForRequest (u : URL) (path : string) (file : option cookieFile) (now : Z) : list Cookie :=
  if String.eqb path "" then []
  else match file with
  | None => []
  | Some file =>
      match cf_size file, cf_data file with
      | Some size, Ok data =>
          if (maxCookieFileSize <? size) || (maxCookieFileSize <? len data) then []
          else
            let host := ToLower (Hostname (u_Host u)) in
            if String.eqb host "" then []
            else
              let reqPath := if String.eqb (u_EscapedPath u) "" then "/" else u_EscapedPath u in
              collectCookies (mkCookieTarget host reqPath (String.eqb (u_Scheme u) "https") now) (Split data newlineChar) [] 0
      | _, _ => []
      end
  end.

(** [loadedCookieJar.Cookies]: the file's cookies, then those of the jar below. *)
Definition jarCookies (base : option (URL -> list Cookie)) (u : URL) (path : string) (file : option cookieFile) (now : Z)
    : list Cookie :=
  loadedCookiesForRequest u path file now ++ match base with Some jar => jar u | None => [] end.
