(* ===== verification/CookiesSpec.v ===== *)
(** * What the cookies of a request promise

    The cookies are the longest prefix, within the limits, of those that the lines of the
    file give; a line gives a cookie only to its site, its paths and, when it says so, to
    secure requests. *)
From S2P Require Import Prelude GoStrings GoPath GoURL GoNet Text Proxy ProxySpec Cookies.

Definition cookieSize (c : Cookie) : Z := len (ck_Name c) + len (ck_Value c).
Definition payload (l : list Cookie) : Z := foldr (fun c n => cookieSize c + n) 0 l.

Lemma cookieSize_nonneg (c : Cookie) : 0 <= cookieSize c.
Proof. unfold cookieSize, len. lia. Qed.

Lemma payload_snoc (l : list Cookie) (c : Cookie) : payload (l ++ [c]) = payload l + cookieSize c.
Proof. unfold payload. induction l as [|x l IH]; cbn; [lia|]. cbn in IH. lia. Qed.

Definition within (l : list Cookie) : Prop := Z.of_nat (length l) <= maxCookiesPerRequest /\ payload l <= maxCookiePayloadSize.

(** ** The loop *)

Lemma collect_exact (target : cookieTarget) (lines : list string) (out : list Cookie) :
  within out ->
  exists more rest, collectCookies target lines out (payload out) = out ++ more
  /\ omap (cookieOfLine target) lines = more ++ rest /\ within (out ++ more)
  /\ (forall c rest', rest = c :: rest' -> ~ within (out ++ more ++ [c])).
Proof.
  revert out. induction lines as [|line lines IH]; intros out Hout.
  { exists [], []. cbn. rewrite app_nil_r. done. }
  cbn [collectCookies omap list_omap]. destruct (cookieOfLine target line) as [c|]; [|by apply IH].
  fold (cookieSize c). destruct (_ || _) eqn:E.
  - exists [], (c :: omap (cookieOfLine target) lines). rewrite app_nil_r. split; [done|]. split; [done|]. split; [done|].
    intros c' rest' [= <- <-] [H1 H2]. cbn [app] in *. rewrite length_app in H1. cbn [length] in H1. rewrite payload_snoc in H2.
    apply orb_true_iff in E as [E%Z.leb_le|E%Z.ltb_lt]; lia.
  - apply orb_false_iff in E as [E1%Z.leb_gt E2%Z.ltb_ge].
    destruct (IH (out ++ [c])) as (more & rest & Hc & Ho & Hw & Hn).
    { split; [rewrite length_app; cbn [length]; lia|rewrite payload_snoc; lia]. }
    rewrite payload_snoc in Hc. exists (c :: more), rest. rewrite <- !app_assoc in *. cbn [app] in *.
    split; [done|]. split; [by rewrite Ho|]. split; [done|]. intros c' rest' Hr. specialize (Hn c' rest' Hr). by rewrite <- app_assoc in Hn.
Qed.

(** ** What a line says *)

(** The site of a cookie: its domain, and the hosts below it when the line includes them. *)
Definition forHost (host domain : string) (includeSubdomains : bool) : Prop :=
  let domain := TrimPrefix domain "." in
  domain <> "" /\ (host = domain \/ includeSubdomains = true /\ subdomain host domain).

Lemma domain_exact (host domain : string) (includeSubdomains : bool) :
  cookieDomainMatches host domain includeSubdomains = true <-> forHost host domain includeSubdomains.
Proof.
  unfold cookieDomainMatches, forHost. cbv zeta. set (d := TrimPrefix domain ".").
  destruct (String.eqb_spec d "") as [->|Hd]; [naive_solver|].
  destruct (String.eqb_spec host d) as [->|Hh]; [naive_solver|].
  rewrite andb_true_iff, HasSuffix_spec. unfold subdomain. naive_solver.
Qed.

(** A path and what lies below it. *)
Definition forPath (reqPath cookiePath : string) : Prop :=
  let cookiePath := if HasPrefix cookiePath "/" then cookiePath else "/" +:+ cookiePath in
  reqPath = cookiePath \/ exists below, reqPath = trimSlashes cookiePath +:+ "/" +:+ below.

Lemma HasPrefix_spec (s p : string) : HasPrefix s p = true <-> exists t, s = p +:+ t.
Proof.
  revert s. induction p as [|a p IH]; intros s.
  - rewrite HasPrefix_empty'. split; [intros _; by exists s|done].
  - destruct s as [|b s]; cbn [HasPrefix]; [split; [done|by intros (t & [=])]|]. rewrite andb_true_iff, IH. split.
    + intros [->%Ascii.eqb_eq (t & ->)]. by exists t.
    + intros (t & [= -> ->]). split; [apply Ascii.eqb_refl|by exists t].
Qed.

Lemma path_exact (reqPath cookiePath : string) : cookiePathMatches reqPath cookiePath = true <-> forPath reqPath cookiePath.
Proof.
  unfold cookiePathMatches, forPath. cbv zeta.
  assert (let p := if String.eqb cookiePath "" then "/" else cookiePath in
          (if HasPrefix p "/" then p else "/" +:+ p) = if HasPrefix cookiePath "/" then cookiePath else "/" +:+ cookiePath) as ->
    by by destruct cookiePath.
  set (q := if HasPrefix cookiePath "/" then _ else _). rewrite orb_true_iff, String.eqb_eq, HasPrefix_spec.
  apply or_iff_compat_l. split; intros (t & ->); exists t; by rewrite str_app_assoc.
Qed.

(** The fields of a line that gives a cookie to a request. *)
Record cookieFields (target : cookieTarget) (line : string) (c : Cookie) : Prop := {
  cf_fields : exists text domain subdomains path secure expires v vs,
    cookieLine line = Some text
    /\ Fields text = domain :: subdomains :: path :: secure :: expires :: ck_Name c :: v :: vs
    /\ ck_Value c = Join (v :: vs) " " /\ ck_Name c <> ""
    /\ forHost (ct_host target) (ToLower (TrimSpace domain)) (EqualFold subdomains "TRUE")
    /\ forPath (ct_path target) path
    /\ (EqualFold secure "TRUE" = true -> ct_secure target = true)
    /\ (parseExpires expires <= 0 \/ ct_now target <= parseExpires expires)
}.

Lemma cookie_fields (target : cookieTarget) (line : string) (c : Cookie) :
  cookieOfLine target line = Some c -> cookieFields target line c.
Proof.
  unfold cookieOfLine. destruct (cookieLine line) as [text|] eqn:Hl; [|done].
  destruct (Fields text) as [|f0 [|f1 [|f2 [|f3 [|f4 [|name [|v vs]]]]]]] eqn:Hf; try done.
  destruct (_ || _ || _) eqn:E1; [done|]. destruct (negb (cookieDomainMatches _ _ _) || _) eqn:E2; [done|]. intros [= <-].
  apply orb_false_iff in E1 as [[E1 E3]%orb_false_iff E4]. apply orb_false_iff in E2 as [E2%negb_false_iff E5%negb_false_iff].
  split. exists text, f0, f1, f2, f3, f4, v, vs. cbn [ck_Name ck_Value].
  split_and!; [done|done|done|by apply String.eqb_neq|by apply domain_exact|by apply path_exact| |].
  - intros Hs. rewrite Hs in E3. cbn in E3. by apply negb_false_iff.
  - apply andb_false_iff in E4 as [E4%Z.ltb_ge|E4%Z.ltb_ge]; auto.
Qed.

(** ** The request's cookies *)

Definition requestTarget (u : URL) (now : Z) : cookieTarget :=
  mkCookieTarget (ToLower (Hostname (u_Host u))) (if String.eqb (u_EscapedPath u) "" then "/" else u_EscapedPath u)
    (String.eqb (u_Scheme u) "https") now.

(** C31: the cookies a request gets from the file are the longest prefix within 4096
    cookies and a mebibyte of those that the file's lines give it, and each comes from a
    line whose domain, path, security and expiry admit the request. *)
Theorem loaded_cookies_exact (u : URL) (path : string) (file : option cookieFile) (now : Z) :
  let cookies := loadedCookiesForRequest u path file now in
  within cookies
  /\ Forall (fun c => exists f line data, file = Some f /\ cf_data f = Ok data /\ line ∈ Split data newlineChar
                      /\ cookieFields (requestTarget u now) line c) cookies
  /\ (forall f size data, file = Some f -> cf_size f = Some size -> cf_data f = Ok data -> path <> "" ->
        size <= maxCookieFileSize -> len data <= maxCookieFileSize -> Hostname (u_Host u) <> "" ->
        exists rest, omap (cookieOfLine (requestTarget u now)) (Split data newlineChar) = cookies ++ rest
        /\ forall c rest', rest = c :: rest' -> ~ within (cookies ++ [c])).
Proof.
  cbv zeta. assert (within []) as H0 by done.
  unfold loadedCookiesForRequest. destruct (String.eqb_spec path "") as [->|Hp]; [by split; [|split; [constructor|intros]]|].
  destruct file as [[size [data|err]]|];
    [|destruct size; cbn [cf_size cf_data]; by split; [|split; [constructor|intros; simplify_eq/=]]|by split; [|split; [constructor|intros; simplify_eq/=]]].
  cbn [cf_size cf_data]. destruct size as [size|]; [|by split; [|split; [constructor|intros; simplify_eq/=]]].
  destruct (_ || _) eqn:E.
  { split; [done|]. split; [constructor|]. intros f s d [= <-] [= <-] [= <-] _ H1 H2. exfalso.
    apply orb_true_iff in E as [E%Z.ltb_lt|E%Z.ltb_lt]; cbn in *; lia. }
  destruct (String.eqb_spec (ToLower (Hostname (u_Host u))) "") as [Eh|Hh].
  { split; [done|]. split; [constructor|]. intros f s d _ _ _ _ _ _ Hne. by destruct (Hostname (u_Host u)). }
  change (mkCookieTarget _ _ _ _) with (requestTarget u now). change 0 with (payload []).
  destruct (collect_exact (requestTarget u now) (Split data newlineChar) [] H0) as (more & rest & -> & Ho & Hw & Hn).
  cbn [app] in *. split; [done|]. split.
  - apply Forall_forall. intros c Hc. assert (c ∈ omap (cookieOfLine (requestTarget u now)) (Split data newlineChar)) as Hin
      by (rewrite Ho; set_solver). apply list_elem_of_omap in Hin as (line & Hl & Hline).
    eexists _, line, data. split_and!; [done|done|done|]. by apply cookie_fields.
  - intros f s d [= <-] [= <-] [= <-] _ _ _ _. by exists rest.
Qed.

Definition demoCookieURL : URL := mkURL "https" "" None "www.example.org" "/a/b" "/a/b" "" "".
Definition demoCookieFile : cookieFile :=
  mkCookieFile (Some 40) (Ok ("# comment" +:+ String newlineChar ".example.org TRUE /a TRUE 0 k v" +:+ String newlineChar "other.org TRUE / FALSE 0 x y")).

Lemma loaded_cookies_exact_witness :
  loadedCookiesForRequest demoCookieURL "cookies.txt" (Some demoCookieFile) 100 = [mkCookie "k" "v"]
  /\ within (loadedCookiesForRequest demoCookieURL "cookies.txt" (Some demoCookieFile) 100).
Proof.
  split; [vm_compute; reflexivity|].
  exact (proj1 (@loaded_cookies_exact demoCookieURL "cookies.txt" (Some demoCookieFile) 100)).
Defined.
