(* ===== verification/CommandLine.v ===== *)
(** * The command ([cmd/goaria/main.go])

    The flags of both commands as the [flag] package reads them, what they become (the
    configuration of the engine and of the server, the options of each download), the
    adding of the URLs and the wait for their downloads.  The logger, the signals and the
    clock are inputs: a wait is a sequence of ticks, each with the engine it sees. *)
From S2P Require Import Prelude GoStrings Options Reservations Torrent Queue State Engine Query Server.

(** ** Flags *)

(** [strconv.ParseInt] with base 0: a prefix chooses the base, and underscores may stand
    between digits. *)
Definition digitValue (a : ascii) : option Z :=
  match digit_val a with
  | Some d => Some d
  | None =>
      let n := byte_val (ascii_lower a) in
      if ((97 <=? n) && (n <=? 122))%N then Some (Z.of_N (n - 87)) else None
  end.

Fixpoint parseBase (base acc : Z) (s : string) : option Z :=
  match s with
  | "" => Some acc
  | String a s =>
      if Ascii.eqb a "_" then parseBase base acc s
      else match digitValue a with
           | Some d => if base <=? d then None else parseBase base (acc * base + d) s
           | None => None
           end
  end.

(** Each underscore stands between digits; [last] says whether the byte before is a digit
    (or a prefix), an underscore or something else. *)
Inductive lastByte := LastDigit | LastUnderscore | LastOther.
Fixpoint underscoresOK (hex : bool) (last : lastByte) (s : string) : bool :=
  match s with
  | "" => match last with LastUnderscore => false | _ => true end
  | String a s =>
      if is_digit a || (hex && match digitValue a with Some d => d <? 16 | None => false end) then underscoresOK hex LastDigit s
      else if Ascii.eqb a "_" then match last with LastDigit => underscoresOK hex LastUnderscore s | _ => false end
      else match last with LastUnderscore => false | _ => underscoresOK hex LastOther s end
  end.

(** The base, the digits, and whether a prefix of two bytes was cut. *)
Definition basePrefix (s : string) : Z * string * bool :=
  match s with
  | String "0" digits =>
      match digits with
      | String c (String _ _ as rest) =>
          let c := ascii_lower c in
          if Ascii.eqb c "b" then (2, rest, true) else if Ascii.eqb c "o" then (8, rest, true)
          else if Ascii.eqb c "x" then (16, rest, true) else (8, digits, false)
      | _ => (8, digits, false)
      end
  | _ => (10, s, false)
  end.

Definition parseUintBase0 (s : string) : option Z :=
  let '(base, digits, prefixed) := basePrefix s in
  match s, parseBase base 0 digits with
  | "", _ | _, None => None
  | _, Some n =>
      if ContainsByte digits "_" && negb (if prefixed then underscoresOK (base =? 16) LastDigit digits else underscoresOK false LastOther s)
      then None else Some n
  end.

Definition parseIntFlag (s : string) : option Z :=
  let '(neg, digits) := match s with
                        | String "-" t => (true, t)
                        | String "+" t => (false, t)
                        | _ => (false, s)
                        end in
  match parseUintBase0 digits with
  | Some n => if (if neg then n <=? - min_int64 else n <=? max_int64) then Some (if neg then - n else n) else None
  | None => None
  end.

(** The value of a flag, with its type. *)
Inductive flagValue := FlagString (s : string) | FlagInt (n : Z).

Definition setFlag (old : flagValue) (value : string) : option flagValue :=
  match old with
  | FlagString _ => Some (FlagString value)
  | FlagInt _ => FlagInt <$> parseIntFlag value
  end.

(** A flag set with [ExitOnError]: it parses, or the process exits. *)
Inductive flagOutcome := Parsed (values : gmap string flagValue) (args : list string) | FlagExit (code : Z).

(** The flag an argument spells, and its value, if it holds one. *)
Inductive flagArg := NotAFlag | EndOfFlags | BadFlag | FlagArg (name : string) (value : option string).

Definition parseFlagArg (s : string) : flagArg :=
  match s with
  | String "-" t =>
      match t with
      | "" => NotAFlag
      | "-" => EndOfFlags
      | _ =>
          let name := TrimPrefix t "-" in
          match name with
          | String a rest =>
              if Ascii.eqb a "-" || Ascii.eqb a "=" then BadFlag
              else match Cut name "=" with
                   | Some (name, value) => FlagArg name (Some value)
                   | None => FlagArg name None
                   end
          | "" => BadFlag
          end
      end
  | _ => NotAFlag
  end.

(** [FlagSet.Parse]; [values] holds the flags, with their defaults at first. *)
Fixpoint parseFlags (values : gmap string flagValue) (args : list string) : flagOutcome :=
  match args with
  | [] => Parsed values []
  | s :: rest =>
      match parseFlagArg s with
      | NotAFlag => Parsed values args
      | EndOfFlags => Parsed values rest
      | BadFlag => FlagExit 2
      | FlagArg name value =>
          match values !! name with
          | None => FlagExit (if String.eqb name "help" || String.eqb name "h" then 0 else 2)
          | Some old =>
              match value, rest with
              | Some v, _ =>
                  match setFlag old v with Some new => parseFlags (<[name := new]> values) rest | None => FlagExit 2 end
              | None, v :: rest =>
                  match setFlag old v with Some new => parseFlags (<[name := new]> values) rest | None => FlagExit 2 end
              | None, [] => FlagExit 2
              end
          end
      end
  end.

Definition flagString (values : gmap string flagValue) (name : string) : string :=
  match values !! name with Some (FlagString s) => s | _ => "" end.
Definition flagInt (values : gmap string flagValue) (name : string) : Z :=
  match values !! name with Some (FlagInt n) => n | _ => 0 end.

(** ** The daemon *)

Record daemonOptions := mkDaemon {
  do_addr : string; do_dir : string; do_inputFile : string; do_saveSession : string; do_secret : string;
  do_logLevel : string; do_maxRequestSize : Z
}.

Definition newDaemonFlagSet : gmap string flagValue :=
  list_to_map [
    ("listen", FlagString DefaultAddr); ("dir", FlagString "."); ("input-file", FlagString "");
    ("save-session", FlagString ""); ("rpc-secret", FlagString "");
    ("rpc-max-request-size", FlagInt DefaultMaxRequestSize); ("log-level", FlagString "info")].

Definition daemonOptionsOf (values : gmap string flagValue) : daemonOptions :=
  mkDaemon (flagString values "listen") (flagString values "dir") (flagString values "input-file")
    (flagString values "save-session") (flagString values "rpc-secret") (flagString values "log-level")
    (flagInt values "rpc-max-request-size").

Definition daemonEngine (opts : daemonOptions) : Engine.Config * string :=
  (Engine.mkConfig (do_dir opts) 0 0 "" (do_saveSession opts), do_inputFile opts).
Definition daemonServer (opts : daemonOptions) : Server.Config :=
  Server.mkConfig (do_addr opts) "" (do_maxRequestSize opts) (do_secret opts).

(** [mergeCloseError] *)
Definition mergeCloseError (result closeErr : option error) : option error :=
  match closeErr with
  | Some err => Some match result with Some r => EJoin r err | None => err end
  | None => result
  end.

(** How a command ends: the [flag] package exits, or it returns. *)
Inductive commandEnd := CommandExit (code : Z) | CommandReturns (err : option error).

(** The world of a command: the logger for a level, the engine that starts for a
    configuration and an input file, its clock and random gids, and what [Close] returns. *)
Record commandWorld := mkCommandWorld {
  cw_logger : string -> option error; cw_start : Engine.Config -> string -> result Engine;
  cw_random : nat -> string; cw_now : nat -> Z; cw_closeErr : option error
}.

(** [runDaemon]; [serve] is [ListenAndServe]. *)
Definition runDaemon (w : commandWorld) (serve : ServerConfig -> Engine -> option error) (args : list string) : commandEnd :=
  match parseFlags newDaemonFlagSet args with
  | FlagExit code => CommandExit code
  | Parsed values _ =>
      let opts := daemonOptionsOf values in
      match cw_logger w (do_logLevel opts) with
      | Some err => CommandReturns (Some err)
      | None =>
          let '(cfg, input) := daemonEngine opts in
          match cw_start w cfg input with
          | Err err => CommandReturns (Some err)
          | Ok e => CommandReturns (mergeCloseError (serve (NewServer (daemonServer opts)) e) (cw_closeErr w))
          end
      end
  end.

(** ** Downloads *)

Definition downloadFlags : gmap string flagValue :=
  list_to_map [
    ("dir", FlagString "."); ("out", FlagString ""); ("split", FlagInt 4); ("max-connection-per-server", FlagInt 4);
    ("http-segment-size", FlagString "50M"); ("http-version", FlagString "auto"); ("user-agent", FlagString "");
    ("log-level", FlagString "info")].

(** The options of the [i]th of [n] URLs. *)
Definition urlOptions (values : gmap string flagValue) (n i : nat) : Options :=
  let opts := PlainOptions (list_to_map [
    ("split", VStr (Itoa (flagInt values "split")));
    ("max-connection-per-server", VStr (Itoa (flagInt values "max-connection-per-server")));
    ("goaria-http-segment-size", VStr (flagString values "http-segment-size"));
    ("http-version", VStr (flagString values "http-version"))]) in
  let out := flagString values "out" in
  if negb (String.eqb out "") && (n =? 1)%nat && (i =? 0)%nat then setOption "out" (VStr out) opts else opts.

Section download.
Context {fs : FileSystem} {storage : TorrentStorage} {lib : TorrentLib}.

(** The URLs, added one by one; the engine may go on between two of them. *)
Fixpoint addURLs (w : commandWorld) (values : gmap string flagValue) (n i : nat) (between : nat -> Engine -> Engine)
    (urls : list string) (e : Engine) : result (list string) * Engine :=
  match urls with
  | [] => (Ok [], e)
  | raw :: urls =>
      match AddURI [raw] (urlOptions values n i) None (cw_random w i) (cw_now w i) e with
      | (Err err, e) => (Err err, e)
      | (Ok gid, e) =>
          let '(r, e) := addURLs w values n (S i) between urls (between i e) in
          (let! gids := r in Ok (gid :: gids), e)
      end
  end.

(** ** The wait *)

(** [fmt.Sprintf("%v")] of an entry of a status map. *)
Definition errorMessageText (status : gmap string field) : string :=
  match status !! "errorMessage" with Some (FText s) => s | _ => "<nil>" end.

Definition watchedKeys : list string := ["gid"; "status"; "completedLength"; "totalLength"; "errorMessage"; "files"].

(** The loop over the gids: the failures so far, and whether all are done. *)
Fixpoint checkDownloads (gids : list string) (e : Engine) (failures : list string) (allDone : bool) : result (list string * bool) :=
  match gids with
  | [] => Ok (failures, allDone)
  | gid :: gids =>
      let! status := TellStatus gid watchedKeys e in
      match status !! "status" with
      | Some (FText "complete") => checkDownloads gids e failures allDone
      | Some (FText "error") | Some (FText "removed") =>
          checkDownloads gids e (failures ++ [gid +:+ ": " +:+ errorMessageText status]) allDone
      | _ => checkDownloads gids e failures false
      end
  end.

(** A tick; [None] when the wait goes on. *)
Definition checkTick (gids : list string) (e : Engine) : option (option error) :=
  match checkDownloads gids e [] true with
  | Err err => Some (Some err)
  | Ok ([], true) => Some None
  | Ok ([], false) => None
  | Ok (failures, _) => Some (Some (EText (Join failures "; ")))
  end.

Inductive waitEvent := WaitTick (e : Engine) | WaitContextDone (err : error).

(** [waitForDownloads] for what its select receives; [None] while it waits. *)
Fixpoint waitForDownloads (gids : list string) (events : list waitEvent) : option (option error) :=
  match events with
  | [] => None
  | WaitContextDone err :: _ => Some (Some err)
  | WaitTick e :: events => match checkTick gids e with Some r => Some r | None => waitForDownloads gids events end
  end.

(** [runDownload]; [None] while it waits. *)
Definition runDownloadCommand (w : commandWorld) (between : nat -> Engine -> Engine) (events : Engine -> list waitEvent)
    (args : list string) : option commandEnd :=
  match parseFlags downloadFlags args with
  | FlagExit code => Some (CommandExit code)
  | Parsed values [] => Some (CommandReturns None)
  | Parsed values urls =>
      match cw_logger w (flagString values "log-level") with
      | Some err => Some (CommandReturns (Some err))
      | None =>
          match cw_start w (Engine.mkConfig (flagString values "dir") 0 0 (flagString values "user-agent") "") "" with
          | Err err => Some (CommandReturns (Some err))
          | Ok e =>
              match addURLs w values (length urls) 0 between urls e with
              | (Err err, _) => Some (CommandReturns (mergeCloseError (Some err) (cw_closeErr w)))
              | (Ok gids, e) =>
                  (fun err => CommandReturns (mergeCloseError err (cw_closeErr w))) <$> waitForDownloads gids (events e)
              end
          end
      end
  end.

(** [run] and [main]: the command for the arguments, and the code the process exits with. *)
Definition runCommand (w : commandWorld) (serve : ServerConfig -> Engine -> option error) (between : nat -> Engine -> Engine)
    (events : Engine -> list waitEvent) (args : list string) : option commandEnd :=
  match args with
  | "daemon" :: args => Some (runDaemon w serve args)
  | _ => runDownloadCommand w between events args
  end.

Definition exitCode (ending : commandEnd) : Z :=
  match ending with CommandExit code => code | CommandReturns None => 0 | CommandReturns (Some _) => 1 end.
End download.
