(* ===== verification/CommandLineSpec.v ===== *)
(** * Theorems on the command

    What the flags a user writes are read as, and when the download command ends and with
    which code. *)
From S2P Require Import Prelude GoStrings GoPath Text Options Reservations Torrent Queue State Engine Query EngineSpec Server CommandLine.

(** ** Flags *)

(** A flag as a user may write it: with one dash or two, its value joined by [=] or as
    the next argument. *)
Record setting := mkSetting { se_two : bool; se_joined : bool; se_name : string; se_value : string }.

Definition renderFlag (s : setting) : list string :=
  let dash := (if se_two s then "--" else "-") +:+ se_name s in
  if se_joined s then [dash +:+ "=" +:+ se_value s] else [dash; se_value s].

Definition flagName (name : string) : bool :=
  negb (String.eqb name "") && negb (HasPrefix name "-") && negb (ContainsByte name "=").

(** The values after the settings, when every flag takes its value. *)
Fixpoint applySettings (values : gmap string flagValue) (settings : list setting) : option (gmap string flagValue) :=
  match settings with
  | [] => Some values
  | s :: settings =>
      match values !! se_name s with
      | Some old => match setFlag old (se_value s) with
                    | Some new => applySettings (<[se_name s := new]> values) settings
                    | None => None
                    end
      | None => None
      end
  end.

(** What a name, with the value joined to it, is read as. *)
Definition nameArg (name : string) : flagArg :=
  match Cut name "=" with Some (name, value) => FlagArg name (Some value) | None => FlagArg name None end.

Lemma parseFlagArg_one (a : ascii) (t : string) :
  Ascii.eqb a "-" = false -> Ascii.eqb a "=" = false -> parseFlagArg (String "-" (String a t)) = nameArg (String a t).
Proof. intros H1 H2. destruct a as [[] [] [] [] [] [] [] []]; done. Qed.

Lemma parseFlagArg_two (a : ascii) (t : string) :
  Ascii.eqb a "-" = false -> Ascii.eqb a "=" = false -> parseFlagArg (String "-" (String "-" (String a t))) = nameArg (String a t).
Proof. intros H1 H2.
  unfold parseFlagArg, nameArg. change (TrimPrefix (String "-" (String a t)) "-") with (String a t). cbv beta iota zeta.
  by rewrite H1, H2.
Qed.

Lemma parseFlagArg_dash (two : bool) (name : string) (rest : string) :
  flagName name = true -> parseFlagArg ((if two then "--" else "-") +:+ name +:+ rest) = nameArg (name +:+ rest).
Proof.
  unfold flagName. intros [[Hn Hd]%andb_true_iff He]%andb_true_iff.
  destruct name as [|a name]; [done|]. apply negb_true_iff in Hd, He. rewrite str_app_cons.
  assert (Ascii.eqb a "-" = false) as Ha by (apply Ascii.eqb_neq; intros ->; by destruct name).
  assert (Ascii.eqb a "=" = false) as Hb by (apply Ascii.eqb_neq; intros ->; by cbn in He).
  destruct two; [by apply parseFlagArg_two|by apply parseFlagArg_one].
Qed.

Lemma flagName_contains (name : string) : flagName name = true -> ContainsByte name "=" = false.
Proof. unfold flagName. intros [_ He]%andb_true_iff. by apply negb_true_iff. Qed.

Lemma parseFlags_setting (s : setting) (values : gmap string flagValue) (old new : flagValue) (rest : list string) :
  flagName (se_name s) = true -> values !! se_name s = Some old -> setFlag old (se_value s) = Some new ->
  parseFlags values (renderFlag s ++ rest) = parseFlags (<[se_name s := new]> values) rest.
Proof.
  intros Hn Hold Hnew. pose proof (flagName_contains _ Hn) as He. unfold renderFlag. destruct (se_joined s); cbn [app parseFlags].
  - rewrite str_app_assoc, parseFlagArg_dash by done. unfold nameArg. rewrite str_app_cons, str_app_nil_l, Cut_app by done.
    by rewrite Hold, Hnew.
  - rewrite <- (str_app_nil_r (se_name s)) at 1. rewrite parseFlagArg_dash by done. rewrite str_app_nil_r. unfold nameArg.
    rewrite Cut_None by done. by rewrite Hold, Hnew.
Qed.

(** What follows the flags is no flag, or stands behind [--]. *)
Definition endsFlags (rest : list string) : bool :=
  match rest with [] => true | s :: _ => match parseFlagArg s with NotAFlag => true | _ => false end end.

(** Flags are read as they are written.  Whatever way a user writes settings of known
    flags (one dash or two, the value joined by [=] or as the next argument, even one that
    looks like a flag), they are read as those settings in order, the last one of a flag
    winning; what follows is left as arguments, from the first that is no flag or after
    [--], however it looks. *)
Theorem command_flags_roundtrip (settings : list setting) (values values' : gmap string flagValue) (rest : list string) :
  forallb (fun s => flagName (se_name s)) settings = true ->
  applySettings values settings = Some values' ->
  parseFlags values (concat (map renderFlag settings) ++ "--" :: rest) = Parsed values' rest
  /\ (endsFlags rest = true -> parseFlags values (concat (map renderFlag settings) ++ rest) = Parsed values' rest).
Proof.
  revert values. induction settings as [|s settings IH]; intros values Hn Hv; cbn in Hn, Hv.
  - injection Hv as <-. split; [done|]. intros Hr. cbn. destruct rest as [|a rest]; [done|]. cbn in Hr |- *.
    by destruct (parseFlagArg a).
  - apply andb_true_iff in Hn as [Hn1 Hn2]. destruct (values !! se_name s) as [old|] eqn:E1; [|done].
    destruct (setFlag old (se_value s)) as [new|] eqn:E2; [|done]. cbn [map concat]. rewrite <- !app_assoc.
    rewrite !(parseFlags_setting s values old new) by done. by apply IH.
Qed.

Lemma command_flags_roundtrip_witness :
  parseFlags downloadFlags
    (concat (map renderFlag [mkSetting true true "out" "-dir=a=b"; mkSetting false false "split" "0x1_0"; mkSetting false false "out" "--x"])
     ++ "--" :: ["-split"; "http://h/f"])
  = Parsed (<["out" := FlagString "--x"]> (<["split" := FlagInt 16]> (<["out" := FlagString "-dir=a=b"]> downloadFlags))) ["-split"; "http://h/f"]
  /\ (endsFlags ["-split"; "http://h/f"] = true ->
      parseFlags downloadFlags
        (concat (map renderFlag [mkSetting true true "out" "-dir=a=b"; mkSetting false false "split" "0x1_0"; mkSetting false false "out" "--x"])
         ++ ["-split"; "http://h/f"])
      = Parsed (<["out" := FlagString "--x"]> (<["split" := FlagInt 16]> (<["out" := FlagString "-dir=a=b"]> downloadFlags))) ["-split"; "http://h/f"]).
Proof.
  apply (@command_flags_roundtrip
    [mkSetting true true "out" "-dir=a=b"; mkSetting false false "split" "0x1_0"; mkSetting false false "out" "--x"]);
    vm_compute; reflexivity.
Defined.

(** ** The wait *)

(** The downloads the gids name, in order, or the first error. *)
Fixpoint watch (gids : list string) (e : Engine) : result (list (string * Download)) :=
  match gids with
  | [] => Ok []
  | gid :: gids =>
      let! r := findDownloadLocked gid e in
      let! ds := watch gids e in
      Ok ((gid, r.2) :: ds)
  end.

Definition failed (d : Download) : bool := match d_status d with StatusError | StatusRemoved => true | _ => false end.
Definition complete (d : Download) : bool := match d_status d with StatusComplete => true | _ => false end.
Definition failureLine (gd : string * Download) : string :=
  gd.1 +:+ ": " +:+ (if String.eqb (d_errorMessage gd.2) "" then "<nil>" else d_errorMessage gd.2).
Definition failureLines (ds : list (string * Download)) : list string :=
  map failureLine (List.filter (fun gd => failed gd.2) ds).

Lemma watched_status (d : Download) : snapshot watchedKeys d !! "status" = Some (FText (statusText (d_status d))).
Proof.
  unfold snapshot, watchedKeys. cbn [foldl]. unfold snapshotKey. cbn. destruct (String.eqb (d_errorMessage d) ""); by simplify_map_eq.
Qed.

Lemma watched_message (d : Download) :
  errorMessageText (snapshot watchedKeys d) = if String.eqb (d_errorMessage d) "" then "<nil>" else d_errorMessage d.
Proof.
  unfold errorMessageText, snapshot, watchedKeys. cbn [foldl]. unfold snapshotKey. cbn.
  destruct (String.eqb (d_errorMessage d) ""); by simplify_map_eq.
Qed.

Lemma checkDownloads_watch (gids : list string) (e : Engine) (failures : list string) (allDone : bool) :
  checkDownloads gids e failures allDone
  = let! ds := watch gids e in
    Ok (failures ++ failureLines ds, allDone && forallb (fun gd => failed gd.2 || complete gd.2) ds).
Proof.
  revert failures allDone. induction gids as [|gid gids IH]; intros failures allDone; cbn [checkDownloads watch].
  { cbn. by rewrite app_nil_r, andb_true_r. }
  unfold TellStatus. destruct (findDownloadLocked gid e) as [[l d]|err]; [|done]. cbn [result_bind snd].
  rewrite watched_status, watched_message.
  destruct (d_status d) eqn:Ed; cbn [statusText]; rewrite IH; destruct (watch gids e) as [ds|err]; try done;
    cbn [result_bind]; unfold failureLines, failed, complete; cbn [List.filter forallb snd map]; rewrite Ed; cbn;
    rewrite <- ?app_assoc, ?andb_false_r; done.
Qed.

(** A tick: failures first, then whether all are complete. *)
Lemma checkTick_watch (gids : list string) (e : Engine) (ds : list (string * Download)) :
  watch gids e = Ok ds ->
  checkTick gids e =
    match failureLines ds with
    | [] => if forallb (fun gd => complete gd.2) ds then Some None else None
    | lines => Some (Some (EText (Join lines "; ")))
    end.
Proof.
  intros Hw. unfold checkTick. rewrite checkDownloads_watch, Hw. cbn [result_bind app andb].
  assert (failureLines ds = [] -> forallb (fun gd : string * Download => failed gd.2 || complete gd.2) ds = forallb (fun gd => complete gd.2) ds) as Ha.
  { clear Hw. unfold failureLines. induction ds as [|[gid d] ds IH]; [done|]. cbn [List.filter forallb snd].
    destruct (failed d) eqn:Ef; cbn [map]; [done|]. intros H. by rewrite IH. }
  destruct (failureLines ds) as [|l lines]; [|by destruct (forallb _ ds)]. rewrite Ha by done. by destruct (forallb _ ds).
Qed.

(** A tick at which some download has yet to end and none has failed. *)
Definition pending (gids : list string) (ev : waitEvent) : Prop :=
  exists e ds, ev = WaitTick e /\ watch gids e = Ok ds /\ failureLines ds = [] /\ forallb (fun gd => complete gd.2) ds = false.

Lemma wait_pending (gids : list string) (before after : list waitEvent) :
  Forall (pending gids) before -> waitForDownloads gids (before ++ after) = waitForDownloads gids after.
Proof.
  induction 1 as [|ev before (e & ds & -> & Hw & Hf & Hc) _ IH]; [done|]. cbn. rewrite (checkTick_watch _ _ _ Hw), Hf, Hc. exact IH.
Qed.

Lemma wait_ok (gids : list string) (events : list waitEvent) :
  waitForDownloads gids events = Some None ->
  exists before e after ds, events = before ++ WaitTick e :: after /\ Forall (pending gids) before
    /\ watch gids e = Ok ds /\ forallb (fun gd => complete gd.2) ds = true.
Proof.
  induction events as [|[e|err] events IH]; intros H; cbn in H; [done| |done].
  destruct (watch gids e) as [ds|err] eqn:Hw.
  - rewrite (checkTick_watch _ _ _ Hw) in H. destruct (failureLines ds) as [|l lines] eqn:Hf; [|done].
    destruct (forallb _ ds) eqn:Hc.
    + by exists [], e, events, ds.
    + destruct (IH H) as (before & e' & after & ds' & -> & Hb & Hd). exists (WaitTick e :: before), e', after, ds'.
      split; [done|]. split; [|done]. constructor; [|done]. by exists e, ds.
  - unfold checkTick in H. by rewrite checkDownloads_watch, Hw in H.
Qed.

Section download.
Context {fs : FileSystem} {storage : TorrentStorage} {lib : TorrentLib}.

Lemma addURLs_length (w : commandWorld) (values : gmap string flagValue) (n i : nat) (between : nat -> Engine -> Engine)
    (urls gids : list string) (e e' : Engine) :
  addURLs w values n i between urls e = (Ok gids, e') -> length gids = length urls.
Proof.
  revert i e gids. induction urls as [|raw urls IH]; intros i e gids H; cbn in H; [by simplify_eq|].
  destruct (AddURI _ _ _ _ _ _) as [[gid|err] e1]; [|done].
  destruct (addURLs w values n (S i) between urls (between i e1)) as [[gids'|err] e2] eqn:E; cbn in H; [|done].
  injection H as <- <-. cbn. f_equal. by eapply IH.
Qed.

(** C40: the download command reports what became of its downloads.  Once its URLs are added,
    one download each, it waits exactly as long as every download is known, none has failed
    and one is not complete; it then ends without an error (but for closing the engine) when
    all are complete, and with one line for each failed download, in the order of the URLs,
    when some failed; and it exits with 0 only if all its downloads were complete at once. *)
Theorem download_command_reports_outcome (w : commandWorld) (between : nat -> Engine -> Engine)
    (events : Engine -> list waitEvent) (args urls gids : list string) (values : gmap string flagValue) (e0 e : Engine) :
  parseFlags downloadFlags args = Parsed values urls -> urls <> [] ->
  cw_logger w (flagString values "log-level") = None ->
  cw_start w (Engine.mkConfig (flagString values "dir") 0 0 (flagString values "user-agent") "") "" = Ok e0 ->
  addURLs w values (length urls) 0 between urls e0 = (Ok gids, e) ->
  length gids = length urls
  /\ (Forall (pending gids) (events e) -> runDownloadCommand w between events args = None)
  /\ (forall before tick after ds, events e = before ++ WaitTick tick :: after -> Forall (pending gids) before -> watch gids tick = Ok ds ->
      (forallb (fun gd => complete gd.2) ds = true ->
       runDownloadCommand w between events args = Some (CommandReturns (cw_closeErr w)))
      /\ (failureLines ds <> [] ->
          runDownloadCommand w between events args
          = Some (CommandReturns (mergeCloseError (Some (EText (Join (failureLines ds) "; "))) (cw_closeErr w)))))
  /\ (option_map exitCode (runDownloadCommand w between events args) = Some 0 ->
      exists before tick after ds, events e = before ++ WaitTick tick :: after /\ Forall (pending gids) before
        /\ watch gids tick = Ok ds /\ forallb (fun gd => complete gd.2) ds = true).
Proof.
  intros Hp Hu Hl Hs Ha. split; [by eapply addURLs_length|].
  assert (runDownloadCommand w between events args
          = (fun err => CommandReturns (mergeCloseError err (cw_closeErr w))) <$> waitForDownloads gids (events e)) as ->.
  { unfold runDownloadCommand. rewrite Hp. destruct urls as [|u urls]; [done|]. by rewrite Hl, Hs, Ha. }
  split_and!.
  - intros H. rewrite <- (app_nil_r (events e)), wait_pending; done.
  - intros before tick after ds -> Hb Hw. rewrite wait_pending by done. cbn. rewrite (checkTick_watch _ _ _ Hw). split.
    + intros Hc. assert (failureLines ds = []) as ->.
      { clear Hw. unfold failureLines. induction ds as [|[g d] ds IH]; [done|]. cbn in Hc |- *. apply andb_true_iff in Hc as [Hd Hc].
        unfold complete, failed in *. destruct (d_status d); by auto. }
      rewrite Hc. cbn. by destruct (cw_closeErr w).
    + intros Hf. by destruct (failureLines ds).
  - intros H. destruct (waitForDownloads gids (events e)) as [[err|]|] eqn:E; cbn in H; [|by apply wait_ok|done].
    by destruct (cw_closeErr w).
Qed.
End download.

Definition demoCommand : commandWorld :=
  mkCommandWorld (fun _ => None) (fun _ _ => Ok (mkEngine 5 1000 false ∅ ∅ [] ∅ [] ∅ 0 noOptions false None noPaths ∅ 1 []))
    (fun i => if (i =? 0)%nat then "00000000000000aa" else "00000000000000bb") (fun _ => 0) None.
Definition demoEvents (e : Engine) : list waitEvent :=
  [WaitTick e; WaitTick (e <| e_heap ::= fmap (fun d => d <| d_status := StatusComplete |>) |>)].

Definition demoArgs : list string := ["-split"; "2"; "http://h/f"; "http://h/g"].
Definition demoURLs : list string := ["http://h/f"; "http://h/g"].
Definition demoGids : list string := ["00000000000000aa"; "00000000000000bb"].
Definition demoValues : gmap string flagValue := match parseFlags downloadFlags demoArgs with Parsed values _ => values | _ => ∅ end.
Definition demoStart : Engine := match cw_start demoCommand (Engine.mkConfig "" 0 0 "" "") "" with Ok e => e | Err _ => mkEngine 0 0 false ∅ ∅ [] ∅ [] ∅ 0 noOptions false None noPaths ∅ 1 [] end.
Definition demoAdded : Engine :=
  (addURLs (fs := exampleFS) (storage := sampleStorage) (lib := demoLib) demoCommand demoValues 2 0 (fun _ e => e) demoURLs demoStart).2.
Definition demoDone : Engine := demoAdded <| e_heap ::= fmap (fun d => d <| d_status := StatusComplete |>) |>.
Definition demoWatch (e : Engine) : list (string * Download) := match watch demoGids e with Ok ds => ds | Err _ => [] end.

Lemma download_command_reports_outcome_witness :
  runDownloadCommand (fs := exampleFS) (storage := sampleStorage) (lib := demoLib) demoCommand (fun _ e => e) demoEvents demoArgs
  = Some (CommandReturns None).
Proof.
  refine (proj1 (proj1 (proj2 (proj2 (@download_command_reports_outcome exampleFS sampleStorage demoLib demoCommand (fun _ e => e) demoEvents
            demoArgs demoURLs demoGids demoValues demoStart demoAdded _ _ _ _ _)))
          [WaitTick demoAdded] demoDone [] (demoWatch demoDone) _ _ _) _).
  1, 3, 4, 5, 6, 8, 9: vm_compute; reflexivity.
  - discriminate.
  - constructor; [|constructor]. exists demoAdded, (demoWatch demoAdded). split_and!; vm_compute; reflexivity.
Defined.
